(* ===== verification/_CoqProject ===== *)
-Q . S2P
Prelude.v
GoStrings.v
RSField.v
RSEncoding.v
RSBase.v
RSCode.v
RSAddress.v
Blocks.v
GoFloat.v
GoParse.v
GoJson.v
JsonText.v
Shabal.v
MShabal.v
ShabalLanes.v
ShabalHash.v
Burstmath.v
Config.v
Startup.v
Deadlines.v
Plot.v
PlotTheorems.v
Shares.v
FloatError.v
Miner.v
DB.v
Migration.v
Cache.v
Wallet.v
JsonDecode.v
WalletRequests.v
World.v
Payout.v
PayoutMoney.v
PayoutTheorems.v
MinPayout.v
Rewards.v
RewardTheorems.v
Modelx.v
ModelxInvariant.v
Submissions.v
Schema.v
SchemaRuns.v
RewardBounds.v
Rounds.v
ModelxTheorems.v
WalletNodes.v
WalletWire.v
Replies.v
NodeReplies.v
Pool.v
PoolTheorems.v
Restart.v
WebServer.v
WebHandlers.v
CacheRound.v
System.v
SystemSchema.v
Protocol.v
Clients.v
Locks.v
