(* ===== verification/Prelude.v ===== *)
(** * Nogrod: a verification library of the Burst mining pool

    Nogrod is a mining pool for the Burst block chain, written in Go.  Miners
    submit nonces over HTTP; the pool computes their deadlines, keeps the
    best one of the round and submits it to its wallet nodes in time;
    it records all submissions in a MariaDB database, distributes the reward
    of the blocks it won, and pays the miners.

    ** The parts of the program, and where they are modelled

    All paths are under [src/].

    - [pkg/rsencoding/encoding.go], addresses of accounts: [RSEncoding]
      (definitions), [RSField] (the field GF(32)), [RSCode] (the
      Reed-Solomon code), [RSBase] (base conversion), [RSAddress] (theorems).
    - [pkg/modelx/cache.go], the state the goroutines share: [Blocks] (the
      sorted caches of heights), [Cache] (miners, current block and round,
      best submission, reward recipients), [Shares] (the factors alpha).
    - [pkg/modelx/modelx.go], the core: [Shares] (weights, capacities,
      rounding), [Miner] (a miner's deadlines), [Modelx] (start, new and
      switched blocks, miners on demand, submissions, housekeeping),
      [Startup] (the migration of the database before all that), [Rewards]
      (capacities and the distribution of a reward), [Payout] (payouts,
      sending and validation of transactions, payout requests).
      Theorems: [ModelxInvariant], [ModelxTheorems], [Submissions], [Rounds]
      (the end of a round), [Restart] (what a start loads), [RewardTheorems],
      [RewardBounds] (the amounts of a reward add up, on the error bounds of
      [FloatError]), [PayoutMoney], [PayoutTheorems], [MinPayout].
    - [migrations/], the schema, and the SQL statements inside [modelx.go]:
      [DB]; the integrity of its rows: [Schema] (every statement keeps it),
      [SchemaRuns] (every operation does).  The third migration, up and down:
      [Migration].
    - [pkg/burstmath/burstmath.go]: [Burstmath] (generation signatures,
      amounts, the collectors of deadline requests), [Deadlines] (callers,
      collector and workers as a transition system).
    - [pkg/burstmath/libs]: [Shabal] (the hash function, in assembly),
      [MShabal] (four and eight hashes at once, with vector intrinsics),
      [Plot] (scoops and deadlines, [burstmath.c], and the worker that calls
      them).  Theorems: [ShabalLanes] (one block), [ShabalHash] (a message),
      [PlotTheorems].
    - [pkg/config/config.go]: [Config], from the file to the configuration
      that passed all tests.
    - [pkg/wallet/wallet.go]: [Wallet] (replies as the program keeps them),
      [WalletRequests] (requests and their query strings), [Replies] (replies
      with their tags, and their decoding), [NodeReplies] (what nodes send,
      apart from the tags); [pkg/wallethandler/wallethandler.go]:
      [WalletNodes], which implements the interface [World.WalletHandler];
      both together: [WalletWire].
    - [pkg/pool/pool.go]: [Pool] and [PoolTheorems]; its answers as its
      miners read them: [Protocol].
    - [pkg/webserver/webserver.go]: [WebServer] (what is shown),
      [WebHandlers] (jobs, messages, pages and the API); [client.go] with the
      hub of [webserver.go]: [Clients].
    - [main.go], with [NewPool] and the two [Run]: [System], on the lemmas of
      [CacheRound] (what each operation does to the round); [SystemSchema].
    - the mutexes of [pkg/modelx] and [pkg/webserver]: [Locks].
    - the language and its library: this file (machine integers, errors,
      arrays), [GoStrings] and [GoParse] ([strconv], [strings]), [GoFloat]
      ([float64], [math.Log]), [GoJson], [JsonText] and [JsonDecode]
      ([encoding/json]).

    ** How they interact

    [World] holds the state of the running pool: the database, the cache,
    the heap of miner objects the cache points into, and the payments handed
    to the wallet.  An operation is a function of the monad [M], which
    threads a [World] and may panic; a panic keeps what was done before.  What
    the pool asks of the outside is a field of the classes [WalletHandler]
    and [Env] - the answers of wallets, the clock, which calls of the
    database fail, the order of a map iteration, the scoop of a block - and
    each question is answered as a function of its number [tick].  Theorems
    are proved for every [Env], hence for every answer, every failure and
    every order.  [WalletNodes.NewWalletHandler] is the [WalletHandler] that
    the program builds from its nodes, so that the theorems on [WalletNodes]
    hold of what [Modelx], [Payout], [Rewards] and [Pool] call.

    A call between components is a call between definitions:
    [Pool.processSubmitNonceRequest] calls [Modelx.FirstOrCreateMiner] and
    [Modelx.UpdateOrCreateNonceSubmission], which calls
    [Modelx.MaybeSwitchOrNewBlock]; [Pool.run_job] calls
    [Rewards.RewardBlocks], which calls [Payout.SetMinPayout], and
    [Payout.Payout].  Transactions of the database are values: [Begin] copies
    the database, the statements change the copy, [Commit] installs it.

    [System.program] is the whole: a [World], the goroutine [forge], the
    submissions that wait to be sent to it, and the web server;
    [System.exec] makes one step of any of them - a request, a job, an event -
    and [System.reachable] takes them in every order.

    ** What the theorems show

    - Money: [createTransactions], [SetMinPayout] and [CleanDB] conserve it
      if the fee account has a row ([CleanDB] if it does not mine, too);
      [createTransactions] and [rewardBlock] are atomic, in the database and
      in the cached miners; a payout request is charged to an account that
      has its cost pending, and to no other; the amounts of a reward add up to
      it in spite of the rounding of [float64] ([RewardBounds.rewards_add_up],
      with the conditions without which they do not); [sendMoney] marks the
      transactions whose recipients it pays and no others, whatever fails;
      the third migration keeps every payment and can be undone.
    - Submissions: the miner objects and the rows of the database stay in
      step, a start loads them in step
      ([Restart.restart_restores_the_miners]), the lower deadline wins and a
      higher one changes nothing; from the start of the pool on, [forge] holds
      the best submission of the round; only valid requests of miners reach
      it, refused ones change nothing.
    - The whole program: in every state it reaches ([System.program_is_sound])
      the caches are sound, and forge, the site and the submissions on their
      way are not ahead of the current block; the current block never goes
      back ([System.rounds_advance]); the database keeps its keys and
      references, the ranges of signed amounts and the lengths of texts
      ([SystemSchema.rows_keep_the_schema]).
    - Invariants of the shared state: every reachable state is sound
      ([ModelxTheorems.reachable_states_are_sound], by induction over the
      operations); what a new block does to every miner
      ([Rounds.new_block_ends_the_round]); the floating-point sum of a miner's weights is exact; a
      cache of heights holds the largest heights it was given.
    - Addresses: round trip, uniqueness, detection of up to four errors,
      totality.
    - Wallet nodes: what the handler makes of the answers of several nodes;
      a payment's query string is read back as the payment, down to what
      the nodes receive ([WalletWire.payments_over_HTTP]); a reply with the
      members that a node's API documents is read as their values
      ([NodeReplies.replies_as_sent]).
    - Configuration: the program starts exactly with the files that pass every
      test ([Config.LoadConfig_valid]).
    - Deadlines: the assembly code and both vector codes compute one hash,
      the tables of the one are the initial states of the others
      ([ShabalHash.precomputed_states]), and the deadlines of four or eight
      requests are those of each alone ([PlotTheorems.vector_deadlines]);
      nothing is read outside of a plot
      ([PlotTheorems.deadlines_are_defined]).  The scoops of the repository's
      own test are evaluated ([PlotTheorems.TestCalcScoop]).
    - Concurrency: a web client that does not read does not hold up the
      broadcasts ([Clients.full_queues_do_not_block_the_hub]); every caller
      gets the deadline that its worker's slots give for its own request, and
      gets it if the handler is not stopped ([Deadlines]), as the C code computes it
      ([PlotTheorems.handler_calculates]); the locks of the program are taken
      in one order, so that it cannot block itself ([Locks.no_deadlock]).
    - The site: its table lists every cached miner once
      ([WebServer.updateMinerInfos_table]), the blocks its clients are sent go
      forward ([WebHandlers.shown_blocks_advance]).
    - Miners: what the program's own client, with its check of the status,
      makes of the pool's answers ([Protocol]); the mining info it refuses.
    - Behaviours that the code hardly intends, as theorems of what it does:
      [Submissions.fast_block_submission_counts],
      [ModelxTheorems.fork_is_never_switched],
      [ModelxTheorems.CleanDB_wipes_young_chain],
      [RewardTheorems.fee_account_share_replaces_fee],
      [RewardTheorems.reward_lost], [PoolTheorems.restart_forgets_the_best],
      [Restart.restart_forgets_the_round], [Rounds.lost_race_panics], [Rounds.young_chain_takes_no_block],
      [Startup.failed_migration_is_skipped],
      [WalletRequests.errors_show_the_request],
      [WalletRequests.omitted_parameters], [Deadlines.stop_strands_callers],
      [PoolTheorems.node_submission_crashes], [Clients.closing_races],
      [Replies.silent_reply_is_success],
      [Protocol.miners_read_the_current_block] and
      the thresholds of [MinPayout].

    ** Bounds and fuel

    Integers are [Z] with the wrap-around of their Go type written out
    ([u64], [i64], [i32] below); signed columns of the database refuse values
    out of their range, and texts too long for their column are refused, or
    cut off by [INSERT IGNORE]; the unsigned columns hold what Go's [uint64]
    holds, and the model does not test their ranges.  Times in the database
    are truncated to seconds, as MariaDB does.  Loops that Go runs over data are structural recursions over
    lists.  [FormatUint] has fuel 20, the decimal digits of [2 ^ 64]
    ([GoStrings.value_to_digits] shows that it is enough); the loops of [Encode] and [Decode] have the fuel of their
    arrays, and [RSBase] proves that they end before.  [DB.prune] iterates
    the cascade once for every row that can start another; the retries of
    [submitNonce] are three by [nonceSubmissionRetries]; [count_transactions]
    has fuel 11, and the loop visits ten heights at most.  The parser of JSON
    has twice the length of its text as fuel ([JsonText.parse_value_fuel]).
    The loop over a plot counts its 8192 hashes down.

    ** What is not modelled

    The HTTP and gRPC servers with the algorithm of the rate limiter and
    TLS, the YAML library, the files of [web/], the periods of the tickers:
    I/O and libraries.  MySQL's connections and the migration library are the
    interface [Startup.Server] with the laws [Startup.Migrations]; of the
    migrations only the third is modelled as a script, the others make the
    tables of [DB].  [pkg/api], [pkg/nodecom] and [pkg/mocks] are generated;
    [pkg/logger] sets up the logging library.

    In [Pool], [Modelx] and [System] the deadline of a nonce and the scoop of
    a block are still arguments, [CalcDeadline] and [Env.CalcScoop]: their
    theorems hold for every function, so for those of [Plot], which are
    partial, since C divides by a base target that may be zero.  The
    deadline of the repository's own test vector is not evaluated: it takes
    8192 hashes of 4 KB.

    Operations are atomic in the model except where their interleaving is
    the point ([Clients], [Deadlines], [Locks], the events of [forge], and
    [Modelx.SwitchOrNewBlock], the part of a new block under [newBlockMu]).
    [Locks] shows that the program does not block itself and that writers
    exclude each other; it does not say which data a lock protects, and what
    a job and a request can do to each other between two critical sections is
    not modelled.

    ** What could be added

    The interleaving of a submission with a new block, critical section by
    critical section; the caches of heights after a restart against those
    before it. *)

From Stdlib Require Export ZArith Lia Bool.
From stdpp Require Export prelude gmap strings fin_maps list numbers.
(* stdpp's list lemmas, over the ones of the Standard Library they share names with *)
Export list_basics.list list_relations.list list_monad.list list_misc.list list_numbers.list.

#[global] Open Scope Z_scope.

(** ** Machine integers *)

Module GoInt.

(** The value a Go [uint64] expression wraps to. *)
Definition u64 (z : Z) : Z := z mod 2 ^ 64.

(** The value a Go signed integer of [w] bits wraps to. *)
Definition sint (w z : Z) : Z := (z + 2 ^ (w - 1)) mod 2 ^ w - 2 ^ (w - 1).

Definition i64 (z : Z) : Z := sint 64 z.
Definition i32 (z : Z) : Z := sint 32 z.

Definition is_u64 (z : Z) : Prop := 0 <= z < 2 ^ 64.
Definition is_i64 (z : Z) : Prop := - 2 ^ 63 <= z < 2 ^ 63.

#[export] Instance is_u64_dec z : Decision (is_u64 z).
Proof. unfold is_u64. apply _. Defined.
#[export] Instance is_i64_dec z : Decision (is_i64 z).
Proof. unfold is_i64. apply _. Defined.

Lemma u64_range z : is_u64 (u64 z).
Proof. unfold is_u64, u64. apply Z.mod_pos_bound. lia. Qed.

Lemma u64_small z : is_u64 z -> u64 z = z.
Proof. unfold is_u64, u64. intros. now apply Z.mod_small. Qed.

Lemma i64_range z : is_i64 (i64 z).
Proof.
  unfold is_i64, i64, sint. change (64 - 1) with 63.
  pose proof (Z.mod_pos_bound (z + 2 ^ 63) (2 ^ 64) ltac:(lia)). lia.
Qed.

Lemma i64_small z : is_i64 z -> i64 z = z.
Proof.
  unfold is_i64, i64, sint. change (64 - 1) with 63. intros.
  rewrite Z.mod_small; lia.
Qed.

End GoInt.

(** ** Errors of Go functions *)

(** A Go function that returns [(T, error)]: exactly one of the two is
    meaningful. *)
Inductive result (E A : Type) : Type :=
| Ok (a : A)
| Err (e : E).
Arguments Ok {E A} a.
Arguments Err {E A} e.

Definition is_ok {E A} (r : result E A) : bool :=
  match r with Ok _ => true | Err _ => false end.

#[export] Instance result_eq_dec {E A} `{EqDecision E, EqDecision A} : EqDecision (result E A).
Proof. solve_decision. Defined.

(** The outcome of a Go call that may also panic (an index out of range, a
    nil dereference, [Logger.Fatal] or sqlx's [Must] functions). *)
Inductive outcome (E A : Type) : Type :=
| Return (a : A)
| Fail_with (e : E)
| Panic.
Arguments Return {E A} a.
Arguments Fail_with {E A} e.
Arguments Panic {E A}.

#[export] Instance outcome_eq_dec {E A} `{EqDecision E, EqDecision A} : EqDecision (outcome E A).
Proof. solve_decision. Defined.

Definition outcome_bind {E A B} (c : outcome E A) (k : A -> outcome E B) : outcome E B :=
  match c with Return a => k a | Fail_with e => Fail_with e | Panic => Panic end.

(** A panic of a call that has no error result, inside one that has. *)
Definition lift_panic {E A} (c : option A) : outcome E A :=
  match c with Some a => Return a | None => Panic end.

Definition lift_error {E F A} (f : E -> F) (c : result E A) : outcome F A :=
  match c with Ok a => Return a | Err e => Fail_with (f e) end.

Declare Scope go_scope.
Delimit Scope go_scope with go.

Notation "'try' x <- c1 ;; c2" :=
  (match c1 with Ok x => c2 | Err e => Err e end)
  (at level 60, x binder, c1 at next level, right associativity) : go_scope.

Notation "'do' x <- c1 ;; c2" := (outcome_bind c1 (fun x => c2))
  (at level 60, x pattern, c1 at next level, right associativity) : go_scope.

(** ** Loops

    [foldM f a l] runs the body [f] over the iterations [l] of a loop whose
    body may panic. *)

Fixpoint foldM {A B} (f : A -> B -> option A) (a : A) (l : list B) : option A :=
  match l with
  | [] => Some a
  | x :: l' => match f a x with Some a' => foldM f a' l' | None => None end
  end.

Lemma foldM_app {A B} (f : A -> B -> option A) a l1 l2 :
  foldM f a (l1 ++ l2) = match foldM f a l1 with Some a' => foldM f a' l2 | None => None end.
Proof.
  revert a. induction l1 as [|x l1 IH]; intros a; simpl; [done|].
  destruct (f a x); [apply IH|done].
Qed.

Lemma foldM_snoc {A B} (f : A -> B -> option A) a l x :
  foldM f a (l ++ [x]) = match foldM f a l with Some a' => f a' x | None => None end.
Proof. rewrite foldM_app. destruct (foldM f a l); simpl; [|done]. by destruct (f _ x). Qed.

(** Assignment to an element of a Go array or slice: out of range panics. *)
Definition aset {A} (a : list A) (i : nat) (v : A) : option (list A) :=
  if (i <? length a)%nat then Some (<[i:=v]> a) else None.

Lemma aset_ok {A} (a : list A) i v : (i < length a)%nat -> aset a i v = Some (<[i:=v]> a).
Proof. unfold aset. intros H%Nat.ltb_lt. now rewrite H. Qed.

(** ** Tactics of the development *)

(** Case analysis on the scrutinee of a [match] in the goal or a hypothesis. *)
Ltac destruct_match :=
  match goal with
  | |- context [match ?x with _ => _ end] => destruct x eqn:?
  end.
Ltac destruct_match_in H :=
  match type of H with
  | context [match ?x with _ => _ end] => destruct x eqn:?
  end.

(** Boolean tests on [Z] as propositions. *)
Ltac zbool :=
  repeat match goal with
  | H : (_ =? _) = true |- _ => apply Z.eqb_eq in H
  | H : (_ =? _) = false |- _ => apply Z.eqb_neq in H
  | H : (_ <? _) = true |- _ => apply Z.ltb_lt in H
  | H : (_ <? _) = false |- _ => apply Z.ltb_ge in H
  | H : (_ <=? _) = true |- _ => apply Z.leb_le in H
  | H : (_ <=? _) = false |- _ => apply Z.leb_gt in H
  | H : _ && _ = true |- _ => apply andb_true_iff in H as [? ?]
  | H : _ || _ = false |- _ => apply orb_false_iff in H as [? ?]
  | H : negb _ = true |- _ => apply negb_true_iff in H
  | H : negb _ = false |- _ => apply negb_false_iff in H
  end.

(** ** Exhaustive checks on small ranges of integers *)

Definition zrange (n : nat) : list Z := Z.of_nat <$> seq 0 n.

Lemma elem_of_zrange n z : z ∈ zrange n <-> 0 <= z < Z.of_nat n.
Proof.
  unfold zrange. rewrite list_elem_of_fmap. split.
  - intros (k & -> & Hk). apply elem_of_seq in Hk. lia.
  - intros Hz. exists (Z.to_nat z). rewrite elem_of_seq. lia.
Qed.

Lemma zrange_forallb n (P : Z -> bool) :
  forallb P (zrange n) = true -> forall z, 0 <= z < Z.of_nat n -> P z = true.
Proof.
  rewrite forallb_forall. intros H z Hz.
  apply H, list_elem_of_In, elem_of_zrange, Hz.
Qed.

(** [forall z, 0 <= z < n -> P z] by computing [P] on every [z]. *)
Ltac by_range n P :=
  let H := fresh in
  assert (H := zrange_forallb n P ltac:(vm_compute; reflexivity)); cbv beta in H.
