(* ===== verification/GoStrings.v ===== *)
(** * Go strings and [strconv]

    A Go string is a sequence of bytes; a byte is an integer of [0, 256).
    This file models what the program uses of the packages [strconv] and
    [strings]: decimal formatting and parsing of integers, trimming. *)

From S2P Require Import Prelude.
From Stdlib Require Import Ascii String.
Import GoInt.

(** ** Bytes of a string *)

Definition byte_of_ascii (a : ascii) : Z := Z.of_N (N_of_ascii a).
Definition ascii_of_byte (z : Z) : ascii := ascii_of_N (Z.to_N z).

Definition bytes (s : string) : list Z := byte_of_ascii <$> list_ascii_of_string s.
Definition of_bytes (l : list Z) : string := string_of_list_ascii (ascii_of_byte <$> l).

Definition is_byte (z : Z) : Prop := 0 <= z < 256.

Lemma byte_of_ascii_range a : is_byte (byte_of_ascii a).
Proof.
  unfold is_byte, byte_of_ascii. pose proof (N_ascii_bounded a). lia.
Qed.

Lemma byte_of_ascii_of_byte z : is_byte z -> byte_of_ascii (ascii_of_byte z) = z.
Proof.
  unfold is_byte, byte_of_ascii, ascii_of_byte. intros.
  rewrite N_ascii_embedding; lia.
Qed.

Lemma ascii_of_byte_of_ascii a : ascii_of_byte (byte_of_ascii a) = a.
Proof.
  unfold byte_of_ascii, ascii_of_byte. rewrite N2Z.id. apply ascii_N_embedding.
Qed.

Lemma bytes_range s : Forall is_byte (bytes s).
Proof.
  unfold bytes. rewrite Forall_fmap. apply Forall_true.
  intros a. apply byte_of_ascii_range.
Qed.

Lemma bytes_of_bytes l : Forall is_byte l -> bytes (of_bytes l) = l.
Proof.
  unfold bytes, of_bytes. intros Hl.
  rewrite list_ascii_of_string_of_list_ascii.
  induction Hl; simpl; [done|]. f_equal; [now apply byte_of_ascii_of_byte|done].
Qed.

Lemma of_bytes_bytes s : of_bytes (bytes s) = s.
Proof.
  unfold bytes, of_bytes. rewrite <- list_fmap_compose.
  rewrite <- (string_of_list_ascii_of_string s) at 2. f_equal.
  induction (list_ascii_of_string s) as [|a l IH]; simpl; [done|].
  f_equal; [apply ascii_of_byte_of_ascii|apply IH].
Qed.

(** ** Positional notation

    [value b ds] is the number the digits [ds], most significant first,
    denote in base [b]; [to_digits fuel b n] are the digits of [n], least
    significant first, the way a division loop produces them. *)

Definition value (b : Z) (ds : list Z) : Z := foldl (fun acc d => acc * b + d) 0 ds.

Fixpoint to_digits (fuel : nat) (b n : Z) : list Z :=
  match fuel with
  | O => []
  | S f => n mod b :: (if n / b =? 0 then [] else to_digits f b (n / b))
  end.

Lemma foldl_value b ds a :
  foldl (fun acc d => acc * b + d) a ds = a * b ^ Z.of_nat (List.length ds) + value b ds.
Proof.
  unfold value. revert a. induction ds as [|d ds IH]; intros a; simpl; [lia|].
  rewrite (IH (a * b + d)), (IH (0 * b + d)).
  replace (Z.of_nat (S (List.length ds))) with (Z.of_nat (List.length ds) + 1) by lia.
  rewrite Z.pow_add_r, Z.pow_1_r by lia. ring.
Qed.

Lemma value_snoc b ds d : value b (ds ++ [d]) = value b ds * b + d.
Proof. unfold value. now rewrite foldl_app. Qed.

Lemma value_cons b d ds :
  value b (d :: ds) = d * b ^ Z.of_nat (List.length ds) + value b ds.
Proof. unfold value at 1. simpl. rewrite foldl_value. lia. Qed.

Definition digits_ok (b : Z) (ds : list Z) : Prop := Forall (fun d => 0 <= d < b) ds.

Lemma value_bound b ds :
  0 < b -> digits_ok b ds -> 0 <= value b ds < b ^ Z.of_nat (List.length ds).
Proof.
  intros Hb. induction 1 as [|d ds Hd _ IH]; [cbn; lia|].
  rewrite value_cons. cbn [List.length].
  replace (Z.of_nat (S (List.length ds))) with (Z.of_nat (List.length ds) + 1) by lia.
  rewrite Z.pow_add_r, Z.pow_1_r by lia. nia.
Qed.

Lemma value_inj b xs ys :
  0 < b -> digits_ok b xs -> digits_ok b ys -> List.length xs = List.length ys ->
  value b xs = value b ys -> xs = ys.
Proof.
  intros Hb Hx. revert ys. induction Hx as [|x xs Hx0 Hx IH]; intros [|y ys] Hy Hl Hv;
    simpl in Hl; try lia; [done|].
  apply Forall_cons in Hy as [Hy0 Hy]. rewrite !value_cons in Hv.
  injection Hl as Hl. rewrite Hl in Hv.
  pose proof (value_bound b xs Hb Hx) as Bx. pose proof (value_bound b ys Hb Hy) as By.
  rewrite Hl in Bx. set (P := b ^ Z.of_nat (List.length ys)) in *.
  assert (x = y) by nia. subst y. f_equal. apply IH; [done|done|lia].
Qed.

Section ToDigits.
Context (b : Z) (Hb : 1 < b).

Lemma to_digits_range fuel n : digits_ok b (to_digits fuel b n).
Proof using Hb.
  revert n. induction fuel as [|f IH]; intros n; simpl; constructor.
  - apply Z.mod_pos_bound. lia.
  - destruct_match; [constructor|apply IH].
Qed.

Lemma div_lt_pow n k :
  0 <= n < b ^ Z.of_nat (S k) -> 0 <= n / b < b ^ Z.of_nat k.
Proof using Hb.
  intros [Hn Hlt]. rewrite Nat2Z.inj_succ, Z.pow_succ_r in Hlt by lia.
  split; [apply Z.div_pos; lia|apply Z.div_lt_upper_bound; lia].
Qed.

(** Fuel as large as the number of digits is enough. *)
Lemma value_to_digits fuel n :
  0 <= n < b ^ Z.of_nat fuel -> value b (rev (to_digits fuel b n)) = n.
Proof using Hb.
  revert n. induction fuel as [|f IH]; intros n Hn.
  { change (Z.of_nat 0) with 0 in Hn. rewrite Z.pow_0_r in Hn. cbn. lia. }
  apply div_lt_pow in Hn. simpl to_digits. cbn [rev]. rewrite value_snoc.
  destruct (n / b =? 0) eqn:E; zbool.
  - cbn. rewrite (Z.div_mod n b) at 2 by lia. lia.
  - rewrite IH by done. rewrite (Z.div_mod n b) at 3 by lia. lia.
Qed.

Lemma to_digits_length fuel n : (List.length (to_digits fuel b n) <= fuel)%nat.
Proof using Hb.
  revert n. induction fuel as [|f IH]; intros n; simpl; [lia|].
  destruct_match; simpl; [lia|]. specialize (IH (n / b)). lia.
Qed.

Lemma to_digits_fuel f1 f2 n :
  0 <= n < b ^ Z.of_nat f1 -> (f1 <= f2)%nat -> (0 < f1)%nat ->
  to_digits f2 b n = to_digits f1 b n.
Proof using Hb.
  revert f2 n. induction f1 as [|f1 IH]; intros f2 n Hn Hf H0; [lia|].
  destruct f2 as [|f2]; [lia|]. simpl. f_equal.
  destruct (n / b =? 0) eqn:E; [done|]. zbool.
  pose proof (div_lt_pow n f1 Hn). destruct f1 as [|f1]; [simpl in *; lia|].
  apply IH; [done|lia|lia].
Qed.
End ToDigits.

(** ** [strconv.FormatUint(n, 10)] *)

Definition digit_byte (d : Z) : Z := 48 + d.

Definition FormatUint (n : Z) : list Z := digit_byte <$> rev (to_digits 20 10 n).

(** ** [strconv.ParseUint(s, 10, 64)]

    The loop of the library: it stops at the first byte that is not a digit
    or at the first digit that overflows. *)

Inductive num_error := ErrSyntax | ErrRange.

#[export] Instance num_error_eq_dec : EqDecision num_error.
Proof. solve_decision. Defined.

Definition maxUint64 : Z := 2 ^ 64 - 1.

Fixpoint parse_digits (n : Z) (s : list Z) : result num_error Z :=
  match s with
  | [] => Ok n
  | c :: s' =>
      if (48 <=? c) && (c <=? 57) then
        if maxUint64 / 10 + 1 <=? n then Err ErrRange
        else
          let n1 := n * 10 + (c - 48) in
          if maxUint64 <? n1 then Err ErrRange else parse_digits n1 s'
      else Err ErrSyntax
  end.

Definition ParseUint (s : list Z) : result num_error Z :=
  match s with [] => Err ErrSyntax | _ => parse_digits 0 s end.

Lemma parse_digits_spec n ds :
  digits_ok 10 ds -> 0 <= n ->
  let v := n * 10 ^ Z.of_nat (List.length ds) + value 10 ds in
  n < 2 ^ 64 ->
  parse_digits n (digit_byte <$> ds) = if v <? 2 ^ 64 then Ok v else Err ErrRange.
Proof.
  intros Hds. revert n. induction Hds as [|d ds Hd Hds IH]; intros n Hn v Hlt; subst v.
  { change (value 10 []) with 0. change (Z.of_nat (List.length [])) with 0.
    rewrite Z.pow_0_r, Z.mul_1_r, Z.add_0_r. case Z.ltb_spec; [done|lia]. }
  cbn [fmap list_fmap parse_digits]. change (digit_byte d) with (48 + d).
  replace ((48 <=? 48 + d) && (48 + d <=? 57)) with true by (symmetry; lia).
  replace (48 + d - 48) with d by lia.
  assert (Hv : n * 10 ^ Z.of_nat (List.length (d :: ds)) + value 10 (d :: ds)
             = (n * 10 + d) * 10 ^ Z.of_nat (List.length ds) + value 10 ds).
  { rewrite value_cons. cbn [List.length].
    replace (Z.of_nat (S (List.length ds))) with (Z.of_nat (List.length ds) + 1) by lia.
    rewrite Z.pow_add_r by lia. lia. }
  rewrite Hv.
  assert (Hpow : 1 <= 10 ^ Z.of_nat (List.length ds)).
  { apply (Z.pow_le_mono_r 10 0); lia. }
  pose proof (value_bound 10 ds ltac:(lia) Hds) as Hvb.
  assert (Hbig : 2 ^ 64 <= n * 10 + d ->
            ((n * 10 + d) * 10 ^ Z.of_nat (List.length ds) + value 10 ds <? 2 ^ 64) = false).
  { intros. apply Z.ltb_ge. nia. }
  unfold maxUint64. change ((2 ^ 64 - 1) / 10 + 1) with 1844674407370955162.
  case Z.leb_spec; intros Hc.
  - rewrite Hbig by lia. done.
  - case Z.ltb_spec; intros Hc2.
    + rewrite Hbig by lia. done.
    + apply IH; lia.
Qed.

(** Parsing inverts formatting on the machine range, and rejects every
    larger number. *)
Lemma ParseUint_digits ds :
  digits_ok 10 ds -> ds <> [] ->
  ParseUint (digit_byte <$> ds)
  = if value 10 ds <? 2 ^ 64 then Ok (value 10 ds) else Err ErrRange.
Proof.
  intros Hds Hne. unfold ParseUint. destruct ds as [|d ds]; [done|].
  cbn [fmap list_fmap]. change (digit_byte d :: (digit_byte <$> ds)) with (digit_byte <$> (d :: ds)).
  rewrite (parse_digits_spec 0) by (done || lia). cbn. done.
Qed.

(** ** Hexadecimal digits *)

Definition hex_value (c : Z) : option Z :=
  if (48 <=? c) && (c <=? 57) then Some (c - 48)
  else if (97 <=? c) && (c <=? 102) then Some (c - 87)
  else if (65 <=? c) && (c <=? 70) then Some (c - 55)
  else None.

Definition lower_hex (d : Z) : Z := if d <? 10 then 48 + d else 87 + d.

Lemma hex_value_lower d : 0 <= d < 16 -> hex_value (lower_hex d) = Some d.
Proof.
  by_range 16%nat (fun d => match hex_value (lower_hex d) with Some d' => d' =? d | None => false end).
  intros Hd. specialize (H d Hd). destruct (hex_value (lower_hex d)) as [d'|]; [|done]. zbool. by subst.
Qed.

(** ** [strings.Join], with a separator of one byte *)

Fixpoint join (sep : Z) (l : list (list Z)) : list Z :=
  match l with
  | [] => []
  | [x] => x
  | x :: l' => x ++ sep :: join sep l'
  end.
