(* ===== verification/RSField.v ===== *)
(** * The field GF(32) of the Reed-Solomon code

    The tables of [rsencoding/encoding.go] are the exponentials and
    logarithms of GF(2)[x]/(x^5 + x^2 + 1) with generator [x]. This file
    builds that field on five bits, proves its laws, and proves the algebra
    behind the code: a short list of errors with vanishing power sums is
    zero. Nothing here mentions the tables; [RSEncoding] relates them. *)

From S2P Require Import Prelude.

Module GF.

Record gf := mk { g4 : bool; g3 : bool; g2 : bool; g1 : bool; g0 : bool }.

#[export] Instance gf_eq_dec : EqDecision gf.
Proof. solve_decision. Defined.

Definition zero : gf := mk false false false false false.
Definition one : gf := mk false false false false true.
(** The generator [x]. *)
Definition alpha : gf := mk false false false true false.

Definition add (a b : gf) : gf :=
  mk (xorb (g4 a) (g4 b)) (xorb (g3 a) (g3 b)) (xorb (g2 a) (g2 b))
     (xorb (g1 a) (g1 b)) (xorb (g0 a) (g0 b)).

(** Multiplication by [x], reducing x^5 to x^2 + 1. *)
Definition xtime (a : gf) : gf := mk (g3 a) (g2 a) (xorb (g1 a) (g4 a)) (g0 a) (g4 a).

Definition scale (b : bool) (a : gf) : gf := if b then a else zero.

Definition mul (a b : gf) : gf :=
  add (scale (g0 b) a)
    (xtime (add (scale (g1 b) a)
      (xtime (add (scale (g2 b) a)
        (xtime (add (scale (g3 b) a) (xtime (scale (g4 b) a)))))))).

Fixpoint pow (a : gf) (n : nat) : gf :=
  match n with O => one | S n => mul a (pow a n) end.

(** Finite checks by enumeration of the 32 elements. *)
Definition bools : list bool := [false; true].
Definition all : list gf :=
  b4 ← bools; b3 ← bools; b2 ← bools; b1 ← bools; b0 ← bools; [mk b4 b3 b2 b1 b0].

Lemma elem_of_all a : a ∈ all.
Proof.
  destruct a as [b4 b3 b2 b1 b0]. apply list_elem_of_In.
  destruct b4, b3, b2, b1, b0; vm_compute; tauto.
Qed.

Lemma all_check (P : gf -> bool) : forallb P all = true -> forall a, P a = true.
Proof.
  rewrite forallb_forall. intros H a. apply H, list_elem_of_In, elem_of_all.
Qed.

Lemma add_comm a b : add a b = add b a.
Proof. unfold add. f_equal; apply xorb_comm. Qed.
Lemma add_assoc a b c : add a (add b c) = add (add a b) c.
Proof. unfold add; simpl. f_equal; symmetry; apply xorb_assoc. Qed.
Lemma add_0_l a : add zero a = a.
Proof. destruct a. unfold add; simpl. f_equal; apply xorb_false_l. Qed.
Lemma add_diag a : add a a = zero.
Proof. unfold add, zero. f_equal; apply xorb_nilpotent. Qed.

Definition eqb (a b : gf) : bool := bool_decide (a = b).

Lemma eqb_true a b : eqb a b = true -> a = b.
Proof. unfold eqb. apply bool_decide_eq_true_1. Qed.

Lemma mul_comm a b : mul a b = mul b a.
Proof.
  apply eqb_true. revert b.
  apply (all_check (fun b => eqb (mul a b) (mul b a))). revert a.
  apply (all_check (fun a => forallb (fun b => eqb (mul a b) (mul b a)) all)).
  vm_compute. reflexivity.
Qed.

Lemma mul_add_r a b c : mul a (add b c) = add (mul a b) (mul a c).
Proof.
  apply eqb_true. revert c.
  apply (all_check (fun c => eqb (mul a (add b c)) (add (mul a b) (mul a c)))). revert b.
  apply (all_check (fun b => forallb (fun c =>
    eqb (mul a (add b c)) (add (mul a b) (mul a c))) all)). revert a.
  apply (all_check (fun a => forallb (fun b => forallb (fun c =>
    eqb (mul a (add b c)) (add (mul a b) (mul a c))) all) all)).
  vm_compute. reflexivity.
Qed.

Lemma mul_assoc a b c : mul a (mul b c) = mul (mul a b) c.
Proof.
  apply eqb_true. revert c.
  apply (all_check (fun c => eqb (mul a (mul b c)) (mul (mul a b) c))). revert b.
  apply (all_check (fun b => forallb (fun c =>
    eqb (mul a (mul b c)) (mul (mul a b) c)) all)). revert a.
  apply (all_check (fun a => forallb (fun b => forallb (fun c =>
    eqb (mul a (mul b c)) (mul (mul a b) c)) all) all)).
  vm_compute. reflexivity.
Qed.

Lemma mul_1_l a : mul one a = a.
Proof.
  apply eqb_true. revert a. apply all_check. vm_compute. reflexivity.
Qed.

Lemma mul_eq_0 a b : mul a b = zero -> a = zero \/ b = zero.
Proof.
  intros H.
  assert (C : implb (eqb (mul a b) zero) (eqb a zero || eqb b zero) = true).
  { revert b H. intros b _. revert b.
    apply (all_check (fun b => implb (eqb (mul a b) zero) (eqb a zero || eqb b zero))).
    revert a.
    apply (all_check (fun a => forallb (fun b =>
      implb (eqb (mul a b) zero) (eqb a zero || eqb b zero)) all)).
    vm_compute. reflexivity. }
  rewrite H in C. change (eqb zero zero) with true in C. simpl in C.
  apply orb_true_iff in C as [C|C]; apply eqb_true in C; auto.
Qed.

(** The ring, with coefficients in GF(2) so that [ring] knows x + x = 0. *)
Lemma gf_ring_theory : ring_theory zero one add mul add (fun x => x) eq.
Proof.
  constructor; intros.
  - apply add_0_l.
  - apply add_comm.
  - apply add_assoc.
  - apply mul_1_l.
  - apply mul_comm.
  - apply mul_assoc.
  - rewrite (mul_comm (add x y)), mul_add_r.
    now rewrite (mul_comm z x), (mul_comm z y).
  - reflexivity.
  - apply add_diag.
Qed.

Definition of_bool (b : bool) : gf := if b then one else zero.

Lemma gf_ring_morph :
  ring_morph zero one add mul add (fun x => x) eq
    false true xorb andb xorb (fun x => x) Bool.eqb of_bool.
Proof.
  constructor; try reflexivity.
  - now intros [] [].
  - now intros [] [].
  - now intros [] [].
  - intros x y ->%eqb_prop. reflexivity.
Qed.

Ltac gf_const t :=
  match t with
  | zero => constr:(false)
  | one => constr:(true)
  | _ => constr:(InitialRing.NotConstant)
  end.

Add Ring gf_ring : gf_ring_theory (morphism gf_ring_morph, constants [gf_const]).

Lemma add_eq_0 a b : add a b = zero -> a = b.
Proof.
  intros H. transitivity (add (add a b) b); [ring|]. rewrite H. ring.
Qed.

Lemma mul_0_r a : mul a zero = zero.
Proof. ring. Qed.

Lemma pow_add a m n : pow a (m + n) = mul (pow a m) (pow a n).
Proof. induction m as [|m IH]; simpl; [ring|]. rewrite IH. ring. Qed.

Lemma pow_mul a m n : pow (pow a m) n = pow a (m * n).
Proof.
  induction n as [|n IH]; [now rewrite Nat.mul_0_r|].
  rewrite Nat.mul_succ_r, Nat.add_comm, pow_add. simpl. now rewrite IH.
Qed.

(** ** Polynomials

    [horner b gs] evaluates the polynomial with coefficients [gs], constant
    first; [wsum b gs k] adds [g_j * b^(k+j)]. *)
Fixpoint horner (b : gf) (gs : list gf) : gf :=
  match gs with [] => zero | g :: gs => add g (mul b (horner b gs)) end.

Fixpoint wsum (b : gf) (gs : list gf) (k : nat) : gf :=
  match gs with [] => zero | g :: gs => add (mul g (pow b k)) (wsum b gs (S k)) end.

Lemma wsum_horner b gs k : wsum b gs k = mul (pow b k) (horner b gs).
Proof.
  revert k. induction gs as [|g gs IH]; intros k; cbn [wsum horner]; [ring|].
  rewrite IH. cbn [pow]. ring.
Qed.

(** ** Power sums

    [psum es i] is the sum of [e * X^i] over the pairs [(e, X)]. *)
Definition psum (es : list (gf * gf)) (i : nat) : gf :=
  foldr (fun p acc => add (mul p.1 (pow p.2 i)) acc) zero es.

Lemma psum_cons e X es i : psum ((e, X) :: es) i = add (mul e (pow X i)) (psum es i).
Proof. reflexivity. Qed.

Lemma psum_app es1 es2 i : psum (es1 ++ es2) i = add (psum es1 i) (psum es2 i).
Proof.
  induction es1 as [|[e X] es1 IH]; [symmetry; apply add_0_l|].
  change ((((e, X) :: es1) ++ es2)) with ((e, X) :: (es1 ++ es2)).
  rewrite !psum_cons, IH. ring.
Qed.

(** At consecutive powers of [a], a power sum is a polynomial in [a^i]. *)
Lemma psum_geometric a gs k i :
  psum (zip gs (pow a <$> seq k (length gs))) i = wsum (pow a i) gs k.
Proof.
  revert k. induction gs as [|g gs IH]; intros k; [done|].
  cbn [length seq]. rewrite fmap_cons.
  change (zip (g :: gs) (pow a k :: (pow a <$> seq (S k) (length gs))))
    with ((g, pow a k) :: zip gs (pow a <$> seq (S k) (length gs))).
  rewrite psum_cons, IH. cbn [wsum]. do 2 f_equal.
  rewrite !pow_mul. f_equal. lia.
Qed.

(** Multiplying each coefficient by [X + X0] combines consecutive sums. *)
Lemma psum_shift X0 es i :
  psum ((fun p => (mul p.1 (add p.2 X0), p.2)) <$> es) i
  = add (psum es (S i)) (mul X0 (psum es i)).
Proof.
  induction es as [|[e X] es IH]; [cbn; ring|].
  rewrite fmap_cons. cbn [fst snd]. rewrite !psum_cons, IH. cbn [pow]. ring.
Qed.

(** A list of at most [n] errors at distinct non-zero locators whose first
    [n] power sums vanish is zero: the minimum-distance argument. *)
Lemma psum_zero n es :
  (List.length es <= n)%nat ->
  NoDup (snd <$> es) -> Forall (fun p => p.2 <> zero) es ->
  (forall i, (1 <= i <= n)%nat -> psum es i = zero) ->
  Forall (fun p => p.1 = zero) es.
Proof.
  revert es. induction n as [|n IH]; intros es Hlen Hnd Hnz Hs.
  { destruct es; [constructor|simpl in Hlen; lia]. }
  destruct es as [|[e0 X0] es]; [constructor|].
  cbn [fmap list_fmap snd] in Hnd. apply NoDup_cons in Hnd as [Hni Hnd].
  apply Forall_cons in Hnz as [HX0 Hnz]. cbn in HX0.
  assert (Hz : Forall (fun p => p.1 = zero)
                 ((fun p : gf * gf => (mul p.1 (add p.2 X0), p.2)) <$> es)).
  { apply IH.
    - rewrite length_fmap. simpl in Hlen. lia.
    - rewrite <- list_fmap_compose. exact Hnd.
    - rewrite Forall_fmap. exact Hnz.
    - intros i Hi. rewrite psum_shift.
      pose proof (Hs i ltac:(lia)) as H1. pose proof (Hs (S i) ltac:(lia)) as H2.
      rewrite psum_cons in H1, H2. cbn [pow] in H2.
      transitivity (add (add (mul e0 (mul X0 (pow X0 i))) (psum es (S i)))
                        (mul X0 (add (mul e0 (pow X0 i)) (psum es i)))).
      { ring. }
      rewrite H1, H2. ring. }
  assert (Hes : Forall (fun p => p.1 = zero) es).
  { rewrite Forall_fmap in Hz. rewrite Forall_forall in Hz |- *.
    intros [e X] Hin. pose proof (Hz _ Hin) as H. cbn in H |- *.
    apply mul_eq_0 in H as [H|H]; [done|].
    apply add_eq_0 in H. subst X. exfalso. apply Hni.
    apply list_elem_of_fmap. exists (e, X0). done. }
  constructor; [|done]. cbn.
  pose proof (Hs 1%nat ltac:(lia)) as H1. rewrite psum_cons in H1.
  assert (Hps : psum es 1 = zero).
  { clear -Hes. induction Hes as [|[e X] es He _ IH]; [done|].
    cbn in He. rewrite psum_cons, He, IH. ring. }
  rewrite Hps in H1. cbn [pow] in H1.
  assert (H : mul e0 X0 = zero) by (rewrite <- H1; ring).
  apply mul_eq_0 in H as [H|H]; [done|contradiction].
Qed.

End GF.
