(* ===== verification/RSEncoding.v ===== *)
(** * Burst addresses: [rsencoding/encoding.go]

    [Encode] turns a 64-bit account id into an address of the form
    8KLL-PBYV-6DBC-AM942 and [Decode] turns an address back into the id. The
    id is written in base 32 (13 digits), followed by 4 parity symbols of a
    Reed-Solomon code over GF(32), permuted by [codewordMap]. *)

From S2P Require Import Prelude GoStrings RSField.
Import GoInt.

Module RS.

(** ** Constants and tables *)

Definition base10Len : nat := 20.
Definition base32Len : nat := 13.
Definition initialCodewordLen : nat := 17.

Definition initialCodeword : list Z := [1; 0; 0; 0; 0; 0; 0; 0; 0; 0; 0; 0; 0; 0; 0; 0; 0].
Definition gexp : list Z :=
  [1; 2; 4; 8; 16; 5; 10; 20; 13; 26; 17; 7; 14; 28; 29; 31;
   27; 19; 3; 6; 12; 24; 21; 15; 30; 25; 23; 11; 22; 9; 18; 1].
Definition codewordMap : list nat :=
  [3; 2; 1; 0; 7; 6; 5; 4; 13; 14; 15; 16; 12; 8; 9; 10; 11]%nat.
Definition alphabet : list Z := bytes "23456789ABCDEFGHJKLMNPQRSTUVWXYZ".
Definition golg : list Z :=
  [0; 0; 1; 18; 2; 5; 19; 11; 3; 29; 6; 27; 20; 8; 12; 23; 4; 10; 30; 17;
   7; 22; 28; 26; 21; 25; 9; 16; 13; 14; 24; 15].

Definition gmult (x y : Z) : option Z :=
  if (x =? 0) || (y =? 0) then Some 0
  else
    lx ← golg !! Z.to_nat x;
    ly ← golg !! Z.to_nat y;
    let i := (lx + ly) mod 31 in
    gexp !! Z.to_nat i.

(** ** Encode *)

(** The inner loop's body: one step of the in-place long division by 32. *)
Definition encode_step (st : list Z * nat * Z) (i : nat) : option (list Z * nat * Z) :=
  let '(plainString10, newLength, digit32) := st in
  d ← plainString10 !! i;
  let digit32 := digit32 * 10 + d in
  if 32 <=? digit32 then
    plainString10 ← aset plainString10 newLength (Z.shiftr digit32 5);
    Some (plainString10, S newLength, Z.land digit32 31)
  else if (0 <? newLength)%nat then
    plainString10 ← aset plainString10 newLength 0;
    Some (plainString10, S newLength, digit32)
  else Some (plainString10, newLength, digit32).

Definition encode_pass (plainString10 : list Z) (length : nat) : option (list Z * nat * Z) :=
  foldM encode_step (plainString10, 0%nat, 0) (seq 0 length).

(** The outer loop: one base-32 digit per pass, until the quotient is empty. *)
Fixpoint encode_loop (fuel : nat) (plainString10 : list Z) (length : nat)
    (codeword : list Z) (codewordLength : nat) : option (list Z) :=
  match fuel with
  | O => None
  | S fuel =>
      '(plainString10, newLength, digit32) ← encode_pass plainString10 length;
      codeword ← aset codeword codewordLength digit32;
      if (newLength <=? 0)%nat then Some codeword
      else encode_loop fuel plainString10 newLength codeword (S codewordLength)
  end.

(** The parity register: [for i := base32Len - 1; i >= 0; i--]. *)
Definition parity_step (p : Z * Z * Z * Z) (c : Z) : option (Z * Z * Z * Z) :=
  let '(p0, p1, p2, p3) := p in
  let fb := Z.lxor c p3 in
  g30 ← gmult 30 fb;
  g6 ← gmult 6 fb;
  g9 ← gmult 9 fb;
  g17 ← gmult 17 fb;
  Some (g17, Z.lxor p0 g9, Z.lxor p1 g6, Z.lxor p2 g30).

Definition parity (codeword : list Z) : option (Z * Z * Z * Z) :=
  foldM (fun p i => c ← codeword !! i; parity_step p c) (0, 0, 0, 0) (rev (seq 0 base32Len)).

(** The output loop: the alphabet characters in [codewordMap] order, with a
    dash after every fourth of the first twelve. *)
Definition format_step (codeword : list Z) (st : list Z * nat) (i : nat) : option (list Z * nat) :=
  let '(buff, j) := st in
  codewordIndex ← codewordMap !! i;
  alphabetIndex ← codeword !! codewordIndex;
  ch ← alphabet !! Z.to_nat alphabetIndex;
  buff ← aset buff j ch;
  if (Nat.land i 3 =? 3)%nat && (i <? 13)%nat then
    buff ← aset buff (S j) 45;
    Some (buff, S (S j))
  else Some (buff, S j).

Definition Encode (accountID : Z) : option string :=
  let plainString := FormatUint accountID in
  let length := length plainString in
  plainString10 ← foldM (fun a (p : nat * Z) => aset a p.1 (p.2 - 48))
                    (replicate base10Len 0) (imap pair plainString);
  codeword ← encode_loop 32 plainString10 length (replicate initialCodewordLen 0) 0;
  '(p0, p1, p2, p3) ← parity codeword;
  let codeword := take base32Len codeword ++ [p0; p1; p2; p3] in
  '(buff, _) ← foldM (format_step codeword) (replicate 20 0, 0%nat) (seq 0 initialCodewordLen);
  Some (of_bytes buff).

(** ** Decode *)

Inductive decode_error :=
| CodewordTooLong
| CodewordInvalid
| ParseError (e : num_error).

#[export] Instance decode_error_eq_dec : EqDecision decode_error.
Proof. solve_decision. Defined.

(** The first index of a character in the alphabet. *)
Fixpoint index_from (j : nat) (chars : list Z) (ch : Z) : option nat :=
  match chars with
  | [] => None
  | c :: chars => if c =? ch then Some j else index_from (S j) chars ch
  end.
Definition positionInAlphabet (ch : Z) : option nat := index_from 0 alphabet ch.

(** The scanning loop over the bytes of the address. *)
Fixpoint scan (address : list Z) (codeword : list Z) (codewordLength : nat)
    : outcome decode_error (list Z * nat) :=
  match address with
  | [] => Return (codeword, codewordLength)
  | ch :: address =>
      match positionInAlphabet ch with
      | None => scan address codeword codewordLength
      | Some pos =>
          if (16 <? codewordLength)%nat then Fail_with CodewordTooLong
          else
            match codewordMap !! codewordLength with
            | None => Panic
            | Some codewordIndex =>
                match aset codeword codewordIndex (Z.of_nat pos) with
                | None => Panic
                | Some codeword => scan address codeword (S codewordLength)
                end
            end
      end
  end.

(** One syndrome: the inner loop of [isCodewordValid]. *)
Definition syndrome_step (codeword : list Z) (i : nat) (t : Z) (j : nat) : option Z :=
  if (12 <? j)%nat && (j <? 27)%nat then Some t
  else
    let pos := if (26 <? j)%nat then (j - 14)%nat else j in
    c ← codeword !! pos;
    e ← gexp !! ((i * j) mod 31)%nat;
    g ← gmult c e;
    Some (Z.lxor t g).

Definition syndrome (codeword : list Z) (i : nat) : option Z :=
  foldM (syndrome_step codeword i) 0 (seq 0 31).

Definition isCodewordValid (codeword : list Z) : option bool :=
  sum ← foldM (fun sum i => t ← syndrome codeword i; Some (Z.lor sum t)) 0 (seq 1 4);
  Some (sum =? 0).

(** One step of the in-place long division by 10. *)
Definition decode_step (st : list Z * nat * Z) (j : nat) : option (list Z * nat * Z) :=
  let '(cyperString32, newLength, digit10) := st in
  d ← cyperString32 !! j;
  let digit10 := digit10 * 32 + d in
  if 10 <=? digit10 then
    cyperString32 ← aset cyperString32 newLength (digit10 / 10);
    Some (cyperString32, S newLength, digit10 mod 10)
  else if (0 <? newLength)%nat then
    cyperString32 ← aset cyperString32 newLength 0;
    Some (cyperString32, S newLength, digit10)
  else Some (cyperString32, newLength, digit10).

Definition decode_pass (cyperString32 : list Z) (length : nat) : option (list Z * nat * Z) :=
  foldM decode_step (cyperString32, 0%nat, 0) (seq 0 length).

(** [plainParts] is filled from its end; the loop's result is the slice
    [plainParts[19-plainPartsLen:]], that is the digits written, last first. *)
Fixpoint decode_loop (fuel : nat) (cyperString32 : list Z) (length : nat)
    (plainParts : list Z) (plainPartsLen : nat) : option (list Z) :=
  match fuel with
  | O => None
  | S fuel =>
      '(cyperString32, newLength, digit10) ← decode_pass cyperString32 length;
      (* strconv.Itoa(digit10)[0], the only byte of a one-digit number *)
      ch ← FormatUint digit10 !! 0%nat;
      plainParts ← (if (19 <? plainPartsLen)%nat then None
                    else aset plainParts (19 - plainPartsLen) ch);
      if (newLength <=? 0)%nat then Some (drop (19 - plainPartsLen) plainParts)
      else decode_loop fuel cyperString32 newLength plainParts (S plainPartsLen)
  end.

Local Open Scope go_scope.

Definition Decode (address : string) : outcome decode_error Z :=
  do (codeword, codewordLength) <- scan (bytes address) initialCodeword 0 ;;
  do valid <- (if (codewordLength =? initialCodewordLen)%nat
               then lift_panic (isCodewordValid codeword) else Return false) ;;
  if ((codewordLength =? initialCodewordLen)%nat && negb valid)
     || negb (codewordLength =? initialCodewordLen)%nat
  then Fail_with CodewordInvalid
  else
    do cyperString32 <- lift_panic (foldM (fun a i => c ← codeword !! (base32Len - i - 1)%nat; aset a i c)
                          (replicate base32Len 0) (seq 0 base32Len)) ;;
    do plain <- lift_panic (decode_loop 32 cyperString32 base32Len (replicate 20 0) 0) ;;
    lift_error ParseError (ParseUint plain).

End RS.

(** Pairs of [encoding_test.go] and of [TestFirstOrCreateMiner]. *)
Example Encode_test_pair_1 : RS.Encode 9225891750247351890 = Some "8KLL-PBYV-6DBC-AM942"%string.
Proof. vm_compute. reflexivity. Qed.
Example Encode_test_1337 : RS.Encode 1337 = Some "23BT-2222-JCMR-22222"%string.
Proof. vm_compute. reflexivity. Qed.
Example Decode_test_pair_4 : RS.Decode "K52M-C67G-QK6D-AYSUQ" = Return 10046156727204219923.
Proof. vm_compute. reflexivity. Qed.
