(* ===== verification/RSBase.v ===== *)
(** * The base conversions of [Encode] and [Decode]

    Both functions convert a number between bases by repeated in-place long
    division. This file proves the pass and the loop once, for any two bases:
    a pass leaves the quotient's digits without leading zeros and returns the
    remainder; the loop yields the number's digits in the target base. *)

From S2P Require Import Prelude GoStrings RSField RSEncoding.

(** ** One pass *)

Definition conv_step (b c : Z) (st : list Z * nat * Z) (i : nat) : option (list Z * nat * Z) :=
  let '(a, nl, r) := st in
  d ← a !! i;
  let r := r * b + d in
  if c <=? r then a ← aset a nl (r / c); Some (a, S nl, r mod c)
  else if (0 <? nl)%nat then a ← aset a nl 0; Some (a, S nl, r)
  else Some (a, nl, r).

Lemma encode_step_conv st i : RS.encode_step st i = conv_step 10 32 st i.
Proof.
  destruct st as [[a nl] r]. unfold RS.encode_step, conv_step.
  destruct (a !! i) as [d|]; [|done]. cbn [mbind option_bind].
  rewrite Z.shiftr_div_pow2 by lia. change 31 with (Z.ones 5).
  rewrite Z.land_ones by lia. done.
Qed.

Lemma decode_step_conv st i : RS.decode_step st i = conv_step 32 10 st i.
Proof. reflexivity. Qed.

Lemma foldM_ext {A B} (f g : A -> B -> option A) a l :
  (forall a x, f a x = g a x) -> foldM f a l = foldM g a l.
Proof.
  intros H. revert a. induction l as [|x l IH]; intros a; simpl; [done|].
  rewrite H. destruct (g a x); auto.
Qed.

Section Pass.
Context (b c : Z) (Hb : 1 < b) (Hc : 1 < c).

(** What holds after [i] iterations over the digits [a]. *)
Definition pass_inv (a : list Z) (i : nat) (st : list Z * nat * Z) : Prop :=
  let '(a', nl, r) := st in
  let V := value b (take i a) in
  length a' = length a /\ (nl <= i)%nat /\
  (forall j, (i <= j)%nat -> a' !! j = a !! j) /\
  digits_ok b (take nl a') /\ value b (take nl a') = V / c /\
  r = V mod c /\ (nl = 0%nat <-> V / c = 0).

Lemma div_step V d :
  0 <= V -> 0 <= d < b ->
  let r := (V mod c) * b + d in
  (V * b + d) / c = (V / c) * b + r / c /\ (V * b + d) mod c = r mod c /\
  0 <= r / c < b /\ 0 <= r.
Proof using Hb Hc.
  intros HV Hd r. subst r. pose proof (Z.mod_pos_bound V c ltac:(lia)) as Hm.
  assert (E : V * b + d = (V mod c * b + d) + (V / c * b) * c).
  { rewrite (Z.div_mod V c) at 1 by lia. ring. }
  rewrite E, Z.div_add, Z.mod_add by lia. repeat split.
  - lia.
  - apply Z.div_pos; nia.
  - apply Z.div_lt_upper_bound; nia.
  - nia.
Qed.

Lemma take_insert_snoc (l : list Z) n x :
  (n < length l)%nat -> take (S n) (<[n:=x]> l) = take n l ++ [x].
Proof using.
  intros Hn. rewrite (take_S_r _ _ x) by (apply list_lookup_insert_eq; lia).
  now rewrite take_insert_ge by lia.
Qed.

Lemma pass_inv_step a i st d :
  pass_inv a i st -> a !! i = Some d -> 0 <= d < b ->
  0 <= value b (take i a) ->
  exists st', conv_step b c st i = Some st' /\ pass_inv a (S i) st'.
Proof using Hb Hc.
  destruct st as [[a' nl] r]. intros (Hlen & Hnl & Hrest & Hdig & Hval & -> & Hz) Hi Hd HV.
  pose proof (lookup_lt_Some _ _ _ Hi) as Hlt.
  assert (HV' : value b (take (S i) a) = value b (take i a) * b + d).
  { rewrite (take_S_r _ _ d) by done. apply value_snoc. }
  destruct (div_step _ _ HV Hd) as (Hdiv & Hmod & Hq & Hr).
  unfold conv_step. rewrite Hrest, Hi by lia. cbn [mbind option_bind].
  set (r := value b (take i a) mod c * b + d) in *.
  assert (Hq0 : 0 <= value b (take i a) / c) by (apply Z.div_pos; lia).
  unfold pass_inv.
  destruct (c <=? r) eqn:E; zbool.
  - assert (1 <= r / c) by (apply Z.div_le_lower_bound; lia).
    rewrite aset_ok by lia. cbn [mbind option_bind]. eexists. split; [reflexivity|].
    rewrite HV', Hdiv, Hmod, take_insert_snoc, length_insert by lia. split_and!.
    + done.
    + lia.
    + intros j Hj. rewrite list_lookup_insert_ne by lia. apply Hrest. lia.
    + apply Forall_app. split; [done|]. constructor; [lia|constructor].
    + now rewrite value_snoc, Hval.
    + done.
    + split; [lia|]. nia.
  - rewrite (Z.div_small r), Z.add_0_r in Hdiv by lia.
    rewrite (Z.mod_small r) in Hmod by lia.
    destruct (0 <? nl)%nat eqn:E0.
    + apply Nat.ltb_lt in E0. rewrite aset_ok by lia. cbn [mbind option_bind].
      eexists. split; [reflexivity|].
      rewrite HV', Hdiv, Hmod, take_insert_snoc, length_insert by lia. split_and!.
      * done.
      * lia.
      * intros j Hj. rewrite list_lookup_insert_ne by lia. apply Hrest. lia.
      * apply Forall_app. split; [done|]. constructor; [lia|constructor].
      * rewrite value_snoc, Hval. lia.
      * done.
      * split; [lia|]. intros. assert (value b (take i a) / c = 0) by nia. lia.
    + apply Nat.ltb_ge in E0. assert (nl = 0%nat) by lia.
      assert (HV0 : value b (take i a) / c = 0) by (apply Hz; lia).
      eexists. split; [reflexivity|]. rewrite HV', Hdiv, Hmod. split_and!; try done.
      * lia.
      * intros j Hj. apply Hrest. lia.
      * rewrite Hval. nia.
      * split; [intros; nia|done].
Qed.

Lemma pass_spec a len :
  (len <= length a)%nat -> digits_ok b (take len a) ->
  exists st, foldM (conv_step b c) (a, 0%nat, 0) (seq 0 len) = Some st /\ pass_inv a len st.
Proof using Hb Hc.
  induction len as [|len IH]; intros Hlen Hdig.
  { exists (a, 0%nat, 0). split; [done|]. unfold pass_inv. simpl.
    change (value b (take 0 a)) with 0. rewrite Z.div_0_l, Z.mod_0_l by lia.
    split_and!; done || lia || constructor. }
  destruct (lookup_lt_is_Some_2 a len ltac:(lia)) as [d Hd].
  rewrite (take_S_r _ _ _ Hd) in Hdig. apply Forall_app in Hdig as [Hdig Hd'].
  apply Forall_inv in Hd'.
  destruct (IH ltac:(lia) Hdig) as (st & Hst & Hinv).
  destruct (pass_inv_step a len st d) as (st' & Hst' & Hinv'); try done.
  { apply (value_bound b (take len a)); [lia|done]. }
  exists st'. split; [|done]. rewrite seq_S, foldM_snoc, Hst. done.
Qed.

Lemma pass_result a len :
  (len <= length a)%nat -> digits_ok b (take len a) ->
  let V := value b (take len a) in
  exists a' nl, foldM (conv_step b c) (a, 0%nat, 0) (seq 0 len) = Some (a', nl, V mod c) /\
    length a' = length a /\ (nl <= len)%nat /\
    digits_ok b (take nl a') /\ value b (take nl a') = V / c /\ (nl = 0%nat <-> V / c = 0).
Proof using Hb Hc.
  intros Hlen Hdig V. destruct (pass_spec a len Hlen Hdig) as ([[a' nl] r] & Hst & Hinv).
  destruct Hinv as (? & ? & _ & ? & ? & -> & ?). exists a', nl. done.
Qed.
End Pass.

(** ** The loops *)

(** Writing the digits of a number into consecutive cells. *)
Definition write_at (cw : list Z) (k : nat) (ds : list Z) : list Z :=
  take k cw ++ ds ++ drop (k + length ds) cw.

Lemma write_at_cons cw k d ds :
  (k < length cw)%nat -> write_at (<[k:=d]> cw) (S k) ds = write_at cw k (d :: ds).
Proof.
  intros Hk. unfold write_at. rewrite take_insert_snoc by done.
  rewrite <- app_assoc. simpl. do 3 f_equal.
  rewrite drop_insert_lt by lia. f_equal. lia.
Qed.

Lemma encode_loop_spec fuel arr len cw k :
  (len <= length arr)%nat -> digits_ok 10 (take len arr) ->
  0 <= value 10 (take len arr) < 32 ^ Z.of_nat fuel -> (0 < fuel)%nat ->
  (k + fuel <= length cw)%nat ->
  forall fuel', (fuel <= fuel')%nat ->
  RS.encode_loop fuel' arr len cw k
  = Some (write_at cw k (to_digits fuel 32 (value 10 (take len arr)))).
Proof.
  revert arr len cw k. induction fuel as [|fuel IH]; [lia|].
  intros arr len cw k Hlen Hdig HV _ Hk [|fuel'] Hf; [lia|].
  destruct (pass_result 10 32 ltac:(lia) ltac:(lia) arr len Hlen Hdig)
    as (arr' & nl & Hpass & Hlen' & Hnl & Hdig' & Hval & Hz).
  simpl. unfold RS.encode_pass. rewrite (foldM_ext _ _ _ _ encode_step_conv), Hpass.
  cbn [mbind option_bind]. rewrite aset_ok by lia. cbn [mbind option_bind].
  set (V := value 10 (take len arr)) in *.
  destruct (V / 32 =? 0) eqn:E; zbool.
  - replace (nl <=? 0)%nat with true by (symmetry; apply Nat.leb_le; apply Hz in E; lia).
    f_equal. rewrite <- write_at_cons by lia.
    unfold write_at. simpl. rewrite Nat.add_0_r. now rewrite take_drop.
  - assert (Hnl0 : nl <> 0%nat) by (intros H; now apply Hz in H).
    replace (nl <=? 0)%nat with false by (symmetry; apply Nat.leb_gt; lia).
    pose proof (div_lt_pow 32 ltac:(lia) V fuel HV) as HV'.
    assert (fuel <> 0%nat).
    { intros ->. change (Z.of_nat 0) with 0 in HV'. rewrite Z.pow_0_r in HV'. lia. }
    rewrite IH; rewrite ?Hval, ?length_insert; try done; try lia.
    f_equal. apply write_at_cons. lia.
Qed.

Lemma FormatUint_digit d : 0 <= d < 10 -> FormatUint d !! 0%nat = Some (digit_byte d).
Proof.
  intros Hd. unfold FormatUint.
  change 20%nat with (S 19). cbn [to_digits].
  rewrite Z.div_small, Z.mod_small by lia. done.
Qed.

Lemma drop_insert_cons (l : list Z) i x :
  (i < length l)%nat -> drop i (<[i:=x]> l) = x :: drop (S i) l.
Proof.
  intros Hi. rewrite (drop_S _ x) by (apply list_lookup_insert_eq; lia).
  now rewrite drop_insert_lt by lia.
Qed.

Lemma decode_loop_spec fuel arr len parts k :
  (len <= length arr)%nat -> digits_ok 32 (take len arr) ->
  0 <= value 32 (take len arr) < 10 ^ Z.of_nat fuel -> (0 < fuel)%nat ->
  length parts = 20%nat -> (k + fuel <= 20)%nat ->
  forall fuel', (fuel <= fuel')%nat ->
  RS.decode_loop fuel' arr len parts k
  = Some ((digit_byte <$> rev (to_digits fuel 10 (value 32 (take len arr))))
          ++ drop (20 - k) parts).
Proof.
  revert arr len parts k. induction fuel as [|fuel IH]; [lia|].
  intros arr len parts k Hlen Hdig HV _ Hp Hk [|fuel'] Hf; [lia|].
  destruct (pass_result 32 10 ltac:(lia) ltac:(lia) arr len Hlen Hdig)
    as (arr' & nl & Hpass & Hlen' & Hnl & Hdig' & Hval & Hz).
  cbn [RS.decode_loop]. unfold RS.decode_pass.
  rewrite (foldM_ext _ _ _ _ decode_step_conv), Hpass. cbn [mbind option_bind].
  set (V := value 32 (take len arr)) in *.
  pose proof (Z.mod_pos_bound V 10 ltac:(lia)) as Hm.
  rewrite FormatUint_digit by done. cbn [mbind option_bind].
  replace (19 <? k)%nat with false by (symmetry; apply Nat.ltb_ge; lia).
  rewrite aset_ok by lia. cbn [mbind option_bind].
  assert (Hdrop : drop (19 - k) (<[(19 - k)%nat:=digit_byte (V mod 10)]> parts)
                = digit_byte (V mod 10) :: drop (20 - k) parts).
  { rewrite drop_insert_cons by lia. do 2 f_equal. lia. }
  cbn [to_digits rev]. rewrite fmap_app. cbn [fmap list_fmap].
  destruct (V / 10 =? 0) eqn:E; zbool.
  - replace (nl <=? 0)%nat with true by (symmetry; apply Nat.leb_le; apply Hz in E; lia).
    rewrite Hdrop. done.
  - assert (Hnl0 : nl <> 0%nat) by (intros H; now apply Hz in H).
    replace (nl <=? 0)%nat with false by (symmetry; apply Nat.leb_gt; lia).
    pose proof (div_lt_pow 10 ltac:(lia) V fuel HV) as HV'.
    assert (fuel <> 0%nat).
    { intros ->. change (Z.of_nat 0) with 0 in HV'. rewrite Z.pow_0_r in HV'. lia. }
    rewrite IH; rewrite ?Hval, ?length_insert; try done; try lia.
    replace (20 - S k)%nat with (19 - k)%nat by lia. rewrite Hdrop, <- app_assoc. done.
Qed.
