(* ===== verification/RSCode.v ===== *)
(** * The Reed-Solomon code of Burst addresses

    The tables [gexp] and [golg] are multiplication in GF(32); a codeword is
    valid when its first four power sums vanish; the parity register of
    [Encode] produces valid codewords; two valid codewords that differ in at
    most four symbols are equal. *)

From S2P Require Import Prelude GoStrings RSField RSEncoding.
Import GF.

(** ** Symbols as field elements *)

Definition is_sym (z : Z) : Prop := 0 <= z < 32.

Definition to_gf (z : Z) : gf :=
  mk (Z.testbit z 4) (Z.testbit z 3) (Z.testbit z 2) (Z.testbit z 1) (Z.testbit z 0).

Definition of_gf (a : gf) : Z :=
  Z.b2z (g4 a) * 16 + Z.b2z (g3 a) * 8 + Z.b2z (g2 a) * 4 + Z.b2z (g1 a) * 2 + Z.b2z (g0 a).

Lemma of_gf_range a : is_sym (of_gf a).
Proof. destruct a as [[] [] [] [] []]; unfold is_sym; vm_compute; split; congruence. Qed.

Lemma to_of_gf a : to_gf (of_gf a) = a.
Proof. destruct a as [[] [] [] [] []]; reflexivity. Qed.

Lemma of_to_gf z : is_sym z -> of_gf (to_gf z) = z.
Proof.
  intros Hz. apply Z.eqb_eq. revert z Hz.
  apply (zrange_forallb 32 (fun z => of_gf (to_gf z) =? z)). vm_compute. reflexivity.
Qed.

Lemma to_gf_inj x y : is_sym x -> is_sym y -> to_gf x = to_gf y -> x = y.
Proof. intros Hx Hy E. rewrite <- (of_to_gf x), <- (of_to_gf y), E; done. Qed.

Lemma to_gf_zero z : is_sym z -> to_gf z = zero <-> z = 0.
Proof.
  intros Hz. split; [|intros ->; done]. intros E.
  apply to_gf_inj; [done|unfold is_sym; lia|]. rewrite E. done.
Qed.

Lemma to_gf_lxor x y : to_gf (Z.lxor x y) = add (to_gf x) (to_gf y).
Proof. unfold to_gf, add. cbn [g4 g3 g2 g1 g0]. f_equal; apply Z.lxor_spec. Qed.

Lemma lxor_sym x y : is_sym x -> is_sym y -> is_sym (Z.lxor x y).
Proof.
  intros Hx Hy. unfold is_sym.
  rewrite <- (of_to_gf x), <- (of_to_gf y) by done.
  destruct (to_gf x) as [[] [] [] [] []], (to_gf y) as [[] [] [] [] []]; vm_compute; split; congruence.
Qed.

(** The exponential and logarithm tables multiply in the field. *)
Lemma gmult_gf x y :
  is_sym x -> is_sym y -> RS.gmult x y = Some (of_gf (mul (to_gf x) (to_gf y))).
Proof.
  intros Hx Hy.
  assert (C : bool_decide (RS.gmult x y = Some (of_gf (mul (to_gf x) (to_gf y)))) = true).
  { revert y Hy. apply (zrange_forallb 32 (fun y =>
      bool_decide (RS.gmult x y = Some (of_gf (mul (to_gf x) (to_gf y)))))).
    revert x Hx. apply (zrange_forallb 32 (fun x => forallb (fun y =>
      bool_decide (RS.gmult x y = Some (of_gf (mul (to_gf x) (to_gf y))))) (zrange 32))).
    vm_compute. reflexivity. }
  now apply bool_decide_eq_true in C.
Qed.

(** ** Codewords and their power sums *)

Definition is_codeword (cw : list Z) : Prop :=
  length cw = RS.initialCodewordLen /\ Forall is_sym cw.

(** The exponent of the locator of position [pos]: the shortened code leaves
    out the positions 13 to 26 of the full code of length 31. *)
Definition locator_exp (pos : nat) : nat := if (pos <? 13)%nat then pos else (pos + 14)%nat.
Definition locators : list gf := (fun pos => pow alpha (locator_exp pos)) <$> seq 0 17.

Definition symbols_at (cw : list Z) : list (gf * gf) := zip (to_gf <$> cw) locators.

Lemma locators_NoDup : NoDup locators.
Proof. apply (bool_decide_eq_true_1 (NoDup locators)). vm_compute. reflexivity. Qed.

Lemma locators_nonzero : Forall (fun X => X <> zero) locators.
Proof.
  apply (bool_decide_eq_true_1 (Forall (fun X => X <> zero) locators)). vm_compute. reflexivity.
Qed.

(** The terms one syndrome adds up. *)
Definition in_code (j : nat) : bool := negb ((12 <? j)%nat && (j <? 27)%nat).
Definition code_pos (j : nat) : nat := if (26 <? j)%nat then (j - 14)%nat else j.
Definition term (gs : list gf) (i j : nat) : gf :=
  mul (nth (code_pos j) gs zero) (to_gf (nth ((i * j) mod 31) RS.gexp 0)).

Definition terms (gs : list gf) (i : nat) (js : list nat) : gf :=
  foldr (fun j acc => add (term gs i j) acc) zero (List.filter in_code js).

Lemma syndrome_terms cw i t js :
  is_codeword cw -> is_sym t -> Forall (fun j => (j < 31)%nat) js ->
  exists t', foldM (RS.syndrome_step cw i) t js = Some t' /\ is_sym t' /\
    to_gf t' = add (to_gf t) (terms (to_gf <$> cw) i js).
Proof.
  intros [Hlen Hcw] Ht Hjs. revert t Ht.
  induction Hjs as [|j js Hj Hjs IH]; intros t Ht.
  { exists t. simpl. split_and!; try done. unfold terms. simpl. ring. }
  unfold terms. cbn [foldM List.filter]. unfold RS.syndrome_step at 1, in_code at 1.
  destruct ((12 <? j)%nat && (j <? 27)%nat) eqn:E; cbn [negb].
  { apply (IH t Ht). }
  fold (code_pos j).
  assert (Hpos : (code_pos j < length cw)%nat).
  { rewrite Hlen. unfold code_pos, RS.initialCodewordLen.
    apply andb_false_iff in E as [E|E]; [apply Nat.ltb_ge in E|apply Nat.ltb_ge in E];
      destruct (Nat.ltb_spec 26 j); lia. }
  destruct (lookup_lt_is_Some_2 cw _ Hpos) as [c Hc]. rewrite Hc. cbn [mbind option_bind].
  assert (Hexp : ((i * j) mod 31 < length RS.gexp)%nat).
  { change (length RS.gexp) with 32%nat. pose proof (Nat.mod_upper_bound (i * j) 31 ltac:(lia)). lia. }
  destruct (lookup_lt_is_Some_2 RS.gexp _ Hexp) as [e He]. rewrite He. cbn [mbind option_bind].
  assert (Hsc : is_sym c) by (eapply Forall_lookup_1; [apply Hcw|apply Hc]).
  assert (Hse : is_sym e).
  { eapply (Forall_lookup_1 is_sym RS.gexp); [|exact He].
    repeat constructor; unfold is_sym; lia. }
  rewrite gmult_gf by done. cbn [mbind option_bind].
  destruct (IH (Z.lxor t (of_gf (mul (to_gf c) (to_gf e))))) as (t' & Hf & Hs & Heq).
  { apply lxor_sym; [done|apply of_gf_range]. }
  exists t'. split_and!; [exact Hf|done|]. rewrite Heq, to_gf_lxor, to_of_gf.
  cbn [foldr]. fold (terms (to_gf <$> cw) i js).
  assert (Hterm : term (to_gf <$> cw) i j = mul (to_gf c) (to_gf e)).
  { unfold term. f_equal.
    - apply nth_lookup_Some. rewrite list_lookup_fmap, Hc. done.
    - f_equal. apply nth_lookup_Some, He. }
  rewrite Hterm. ring.
Qed.

Ltac list17 l :=
  let rec go n l H :=
    match n with
    | O => apply nil_length_inv in H; subst l
    | S ?m => let x := fresh "g" in let l' := fresh "l" in
        destruct l as [|x l']; [discriminate H|]; injection H as H; go m l' H
    end in
  match goal with
  | H : length l = 17%nat |- _ => go 17%nat l H
  end.

Lemma terms_psum gs i :
  length gs = 17%nat -> (1 <= i <= 4)%nat ->
  terms gs i (seq 0 31) = psum (zip gs locators) i.
Proof.
  intros Hlen Hi. list17 gs.
  assert (Hi' : i = 1%nat \/ i = 2%nat \/ i = 3%nat \/ i = 4%nat) by lia.
  destruct Hi' as [->|[->|[->| ->]]];
    unfold terms, psum;
    (match goal with |- context [List.filter in_code ?l] =>
       let v := eval vm_compute in (List.filter in_code l) in
       change (List.filter in_code l) with v end);
    (let v := eval vm_compute in locators in change locators with v);
    cbn [foldr zip zip_with fst snd];
    repeat (apply f_equal2; [apply f_equal2; [reflexivity|vm_compute; reflexivity]|]);
    reflexivity.
Qed.

Lemma syndrome_psum cw i :
  is_codeword cw -> (1 <= i <= 4)%nat ->
  exists t, RS.syndrome cw i = Some t /\ is_sym t /\ to_gf t = psum (symbols_at cw) i.
Proof.
  intros Hcw Hi. unfold RS.syndrome.
  destruct (syndrome_terms cw i 0 (seq 0 31) Hcw) as (t & Ht & Hs & Heq).
  { unfold is_sym. lia. }
  { apply Forall_seq. lia. }
  exists t. split_and!; [done|done|]. rewrite Heq, terms_psum; [|rewrite length_fmap; apply Hcw|done].
  unfold symbols_at. change (to_gf 0) with zero. ring.
Qed.

Definition code_valid (cw : list Z) : Prop :=
  forall i, (1 <= i <= 4)%nat -> psum (symbols_at cw) i = zero.

Lemma isCodewordValid_spec cw :
  is_codeword cw ->
  exists b, RS.isCodewordValid cw = Some b /\ (b = true <-> code_valid cw).
Proof.
  intros Hcw.
  destruct (syndrome_psum cw 1 Hcw ltac:(lia)) as (t1 & E1 & S1 & G1).
  destruct (syndrome_psum cw 2 Hcw ltac:(lia)) as (t2 & E2 & S2 & G2).
  destruct (syndrome_psum cw 3 Hcw ltac:(lia)) as (t3 & E3 & S3 & G3).
  destruct (syndrome_psum cw 4 Hcw ltac:(lia)) as (t4 & E4 & S4 & G4).
  unfold RS.isCodewordValid. cbn [seq foldM].
  rewrite E1, E2, E3, E4. cbn [mbind option_bind].
  eexists. split; [reflexivity|].
  rewrite Z.eqb_eq, !Z.lor_eq_0_iff.
  rewrite <- (to_gf_zero t1), <- (to_gf_zero t2), <- (to_gf_zero t3), <- (to_gf_zero t4) by done.
  rewrite G1, G2, G3, G4. split.
  - intros (((_ & H1) & H2 & H3) & H4) || intros ((((_ & H1) & H2) & H3) & H4).
    intros i Hi. assert (i = 1 \/ i = 2 \/ i = 3 \/ i = 4)%nat as [->|[->|[->| ->]]] by lia; done.
  - intros H. split_and!; try done; apply H; lia.
Qed.

(** ** Minimum distance *)

Lemma psum_zip_add xs ys Xs i :
  length xs = length ys ->
  psum (zip (zip_with add xs ys) Xs) i = add (psum (zip xs Xs) i) (psum (zip ys Xs) i).
Proof.
  revert ys Xs. induction xs as [|x xs IH]; intros [|y ys] [|X Xs] Hl; simpl in Hl; try discriminate.
  - cbn. ring.
  - cbn. ring.
  - cbn. ring.
  - change (psum ((add x y, X) :: zip (zip_with add xs ys) Xs) i
            = add (psum ((x, X) :: zip xs Xs) i) (psum ((y, X) :: zip ys Xs) i)).
    rewrite !psum_cons, IH by lia. ring.
Qed.

Definition nonzero (p : gf * gf) : bool := negb (eqb p.1 zero).

Lemma psum_filter es i : psum (List.filter nonzero es) i = psum es i.
Proof.
  induction es as [|[e X] es IH]; [done|]. cbn [List.filter].
  unfold nonzero at 1. cbn [fst]. destruct (eqb e zero) eqn:E; cbn [negb].
  - apply eqb_true in E. subst e. rewrite psum_cons, IH. ring.
  - rewrite !psum_cons, IH. done.
Qed.

(** The number of positions in which two codewords differ. *)
Definition distance (xs ys : list Z) : nat :=
  length (List.filter (fun p => negb (p.1 =? p.2)) (zip xs ys)).

Lemma distance_filter xs ys Xs :
  length xs = length ys -> length xs = length Xs -> Forall is_sym xs -> Forall is_sym ys ->
  length (List.filter nonzero (zip (zip_with add (to_gf <$> xs) (to_gf <$> ys)) Xs)) = distance xs ys.
Proof.
  unfold distance. revert ys Xs.
  induction xs as [|x xs IH]; intros [|y ys] [|X Xs] H1 H2 Hx Hy; simpl in *; try lia.
  apply Forall_cons in Hx as [Hx Hxs]. apply Forall_cons in Hy as [Hy Hys].
  specialize (IH ys Xs ltac:(lia) ltac:(lia) Hxs Hys).
  unfold nonzero at 1. cbn [fst].
  replace (eqb (add (to_gf x) (to_gf y)) zero) with (x =? y).
  { destruct (x =? y); simpl; [exact IH|f_equal; exact IH]. }
  unfold eqb. case Z.eqb_spec; intros E; symmetry.
  - subst y. apply bool_decide_eq_true. apply add_diag.
  - apply bool_decide_eq_false. intros H. apply add_eq_0 in H. apply E, to_gf_inj; done.
Qed.

Lemma all_zero_equal xs ys Xs :
  length xs = length ys -> length xs = length Xs -> Forall is_sym xs -> Forall is_sym ys ->
  List.filter nonzero (zip (zip_with add (to_gf <$> xs) (to_gf <$> ys)) Xs) = [] -> xs = ys.
Proof.
  intros H1 H2 Hx Hy H0. pose proof (distance_filter xs ys Xs H1 H2 Hx Hy) as Hd.
  rewrite H0 in Hd. unfold distance in Hd. simpl in Hd. clear H0 Hx Hy H2.
  revert ys H1 Hd. induction xs as [|x xs IH]; intros [|y ys] H1 Hd; simpl in *; try lia; [done|].
  destruct (x =? y) eqn:E; simpl in Hd; [|lia]. zbool. subst. f_equal. apply IH; lia.
Qed.

Lemma filter_snd_NoDup (es : list (gf * gf)) :
  NoDup (snd <$> es) -> NoDup (snd <$> List.filter nonzero es).
Proof.
  induction es as [|[e X] es IH]; cbn [List.filter]; [done|].
  rewrite fmap_cons. intros [Hni Hnd]%NoDup_cons.
  destruct (nonzero (e, X)); [|auto]. rewrite fmap_cons. apply NoDup_cons. split; [|auto].
  intros H. apply Hni. apply list_elem_of_fmap in H as (p & -> & Hp).
  apply list_elem_of_fmap. exists p. split; [done|].
  apply list_elem_of_In in Hp. apply List.filter_In in Hp as [Hp _]. now apply list_elem_of_In.
Qed.

Lemma code_distance xs ys :
  is_codeword xs -> is_codeword ys -> code_valid xs -> code_valid ys ->
  (distance xs ys <= 4)%nat -> xs = ys.
Proof.
  intros [Lx Sx] [Ly Sy] Vx Vy Hd.
  set (es := zip (zip_with add (to_gf <$> xs) (to_gf <$> ys)) locators).
  assert (Hsnd : snd <$> es = locators).
  { subst es. apply snd_zip. rewrite length_zip_with, !length_fmap, Lx, Ly.
    vm_compute. lia. }
  assert (H0 : Forall (fun p => p.1 = zero) (List.filter nonzero es)).
  { apply (psum_zero 4).
    - subst es. rewrite distance_filter; rewrite ?Lx, ?Ly; done.
    - apply filter_snd_NoDup. rewrite Hsnd. apply locators_NoDup.
    - apply Forall_forall. intros p Hp. apply list_elem_of_In, List.filter_In in Hp as [Hp _].
      pose proof locators_nonzero as Hnz. rewrite <- Hsnd in Hnz. rewrite Forall_fmap in Hnz.
      rewrite Forall_forall in Hnz. apply Hnz, list_elem_of_In, Hp.
    - intros i Hi. rewrite psum_filter. subst es.
      rewrite psum_zip_add by (rewrite !length_fmap; lia).
      fold (symbols_at xs) (symbols_at ys). rewrite Vx, Vy by done. ring. }
  apply (all_zero_equal xs ys locators); rewrite ?Lx, ?Ly; try done.
  fold es. destruct (List.filter nonzero es) as [|p l] eqn:E; [done|exfalso].
  apply Forall_inv in H0.
  assert (Hp : In p (List.filter nonzero es)) by (rewrite E; left; done).
  apply List.filter_In in Hp as [_ Hp]. unfold nonzero in Hp. rewrite H0 in Hp. discriminate Hp.
Qed.

(** ** The parity register *)

(** The register as a polynomial, evaluated at [b]. *)
Definition reg_eval (b : gf) (p : Z * Z * Z * Z) : gf :=
  let '(p0, p1, p2, p3) := p in
  add (to_gf p0) (mul b (add (to_gf p1) (mul b (add (to_gf p2) (mul b (to_gf p3)))))).

Definition is_reg (p : Z * Z * Z * Z) : Prop :=
  let '(p0, p1, p2, p3) := p in is_sym p0 /\ is_sym p1 /\ is_sym p2 /\ is_sym p3.

(** The generator polynomial x^4 + 30x^3 + 6x^2 + 9x + 17 vanishes at [b]. *)
Definition is_root (b : gf) : Prop :=
  mul b (mul b (mul b b))
  = add (to_gf 17) (mul b (add (to_gf 9) (mul b (add (to_gf 6) (mul b (to_gf 30)))))).

Lemma generator_roots i : (1 <= i <= 4)%nat -> is_root (pow alpha i).
Proof.
  intros Hi. assert (i = 1 \/ i = 2 \/ i = 3 \/ i = 4)%nat as [->|[->|[->| ->]]] by lia;
    vm_compute; reflexivity.
Qed.

Lemma parity_step_spec p c :
  is_reg p -> is_sym c ->
  exists p', RS.parity_step p c = Some p' /\ is_reg p' /\
    forall b, is_root b ->
      reg_eval b p' = add (mul b (reg_eval b p)) (mul (mul b (mul b (mul b b))) (to_gf c)).
Proof.
  destruct p as [[[p0 p1] p2] p3]. intros (H0 & H1 & H2 & H3) Hc. unfold RS.parity_step.
  pose proof (lxor_sym c p3 Hc H3) as Hfb.
  assert (Hk : is_sym 30 /\ is_sym 6 /\ is_sym 9 /\ is_sym 17) by (unfold is_sym; lia).
  destruct Hk as (K30 & K6 & K9 & K17).
  rewrite !gmult_gf by done. cbn [mbind option_bind].
  eexists. split; [reflexivity|]. split.
  { unfold is_reg. split_and!; try apply lxor_sym; try apply of_gf_range; done. }
  intros b Hb. unfold is_root in Hb. unfold reg_eval. cbv beta iota.
  rewrite !to_gf_lxor, !to_of_gf, ?to_gf_lxor.
  set (k30 := to_gf 30) in *. set (k6 := to_gf 6) in *.
  set (k9 := to_gf 9) in *. set (k17 := to_gf 17) in *.
  transitivity (add (mul b (add (to_gf p0) (mul b (add (to_gf p1) (mul b (to_gf p2))))))
    (mul (add (to_gf c) (to_gf p3))
       (add k17 (mul b (add k9 (mul b (add k6 (mul b k30)))))))).
  { ring. }
  rewrite <- Hb. ring.
Qed.

Lemma parity_fold cw js p :
  is_codeword cw -> Forall (fun j => (j < 17)%nat) js -> is_reg p ->
  exists p', foldM (fun p i => c ← cw !! i; RS.parity_step p c) p js = Some p' /\ is_reg p' /\
    forall b, is_root b ->
      reg_eval b p' = foldl (fun acc j =>
        add (mul b acc) (mul (mul b (mul b (mul b b))) (nth j (to_gf <$> cw) zero)))
        (reg_eval b p) js.
Proof.
  intros [Hlen Hcw] Hjs. revert p. induction Hjs as [|j js Hj _ IH]; intros p Hp.
  { exists p. done. }
  destruct (lookup_lt_is_Some_2 cw j) as [c Hc]; [rewrite Hlen; exact Hj|].
  assert (Hs : is_sym c) by (eapply Forall_lookup_1; [apply Hcw|apply Hc]).
  destruct (parity_step_spec p c Hp Hs) as (p1 & E1 & R1 & V1).
  destruct (IH p1 R1) as (p2 & E2 & R2 & V2).
  exists p2. simpl. rewrite Hc. cbn [mbind option_bind]. rewrite E1. split_and!; [exact E2|done|].
  intros b Hb. rewrite V2, V1 by done. do 3 f_equal. symmetry.
  apply nth_lookup_Some. rewrite list_lookup_fmap, Hc. done.
Qed.

(** The power sums of a codeword are its data polynomial at the root
    [alpha^i] plus its parity polynomial shifted to degree 27. *)
Lemma psum_polynomials xs ps i :
  length xs = 13%nat -> length ps = 4%nat ->
  psum (zip (xs ++ ps) locators) i
  = add (horner (pow alpha i) xs) (mul (pow (pow alpha i) 27) (horner (pow alpha i) ps)).
Proof.
  intros Hx Hp.
  change locators with ((pow alpha <$> seq 0 13) ++ (pow alpha <$> seq 27 4)).
  rewrite <- Hx, <- Hp.
  rewrite zip_with_app by (rewrite length_fmap, length_seq; done).
  rewrite psum_app, !psum_geometric, !wsum_horner. cbn [pow]. ring.
Qed.

Lemma root_order i : (1 <= i <= 4)%nat ->
  let b := pow alpha i in mul (pow b 27) (mul b (mul b (mul b b))) = one.
Proof.
  intros Hi. assert (i = 1 \/ i = 2 \/ i = 3 \/ i = 4)%nat as [->|[->|[->| ->]]] by lia;
    vm_compute; reflexivity.
Qed.

Lemma foldl_rev {A B} (f : A -> B -> A) a l : foldl f a (rev l) = foldr (fun x acc => f acc x) a l.
Proof. induction l as [|x l IH]; simpl; [done|]. rewrite foldl_app. simpl. now rewrite IH. Qed.

Lemma foldr_seq_horner b c gs k n :
  (k + n <= length gs)%nat ->
  foldr (fun j acc => add (mul b acc) (mul c (nth j gs zero))) zero (seq k n)
  = mul c (horner b (take n (drop k gs))).
Proof.
  revert k. induction n as [|n IH]; intros k Hk; [symmetry; apply mul_0_r|].
  cbn [seq foldr]. rewrite IH by lia.
  destruct (lookup_lt_is_Some_2 gs k ltac:(lia)) as [g Hg].
  rewrite (drop_S gs g k Hg), (nth_lookup_Some _ _ _ _ Hg). cbn [firstn horner]. ring.
Qed.

(** Data symbols followed by the register's contents are a valid codeword. *)
Lemma parity_valid cw p0 p1 p2 p3 :
  is_codeword cw -> RS.parity cw = Some (p0, p1, p2, p3) ->
  is_codeword (take 13 cw ++ [p0; p1; p2; p3]) /\ code_valid (take 13 cw ++ [p0; p1; p2; p3]).
Proof.
  intros Hcw Hpar.
  destruct (parity_fold cw (rev (seq 0 13)) (0, 0, 0, 0) Hcw) as (p' & E & R & V).
  { repeat constructor; lia. }
  { unfold is_reg, is_sym. lia. }
  unfold RS.parity, RS.base32Len in Hpar. rewrite E in Hpar. injection Hpar as ->.
  destruct R as (R0 & R1 & R2 & R3). destruct Hcw as [Hlen Hcw].
  unfold RS.initialCodewordLen in Hlen. split.
  { split.
    - rewrite length_app, length_take, Hlen. done.
    - apply Forall_app. split; [now apply Forall_take|].
      rewrite !Forall_cons. split_and!; done || constructor. }
  intros i Hi. specialize (V (pow alpha i) (generator_roots i Hi)).
  pose proof (root_order i Hi) as Hord. cbv zeta in Hord.
  unfold symbols_at. rewrite fmap_app.
  rewrite psum_polynomials by (rewrite length_fmap, ?length_take, ?Hlen; done).
  rewrite foldl_rev in V.
  rewrite foldr_seq_horner in V by (rewrite length_fmap, Hlen; lia).
  rewrite drop_0, <- fmap_take in V.
  replace (horner (pow alpha i) (to_gf <$> [p0; p1; p2; p3]))
    with (reg_eval (pow alpha i) (p0, p1, p2, p3))
    by (unfold reg_eval; cbn [fmap list_fmap horner]; ring).
  rewrite V. set (H13 := horner _ _). set (b := pow alpha i) in *.
  transitivity (add H13 (mul (mul (pow b 27) (mul b (mul b (mul b b)))) H13)); [ring|].
  rewrite Hord. ring.
Qed.
