(* ===== verification/RSAddress.v ===== *)
(** * Correctness of [Encode] and [Decode]

    The codeword behind an address, the round trip between account ids and
    addresses, the set of strings [Decode] accepts, and the errors it detects. *)

From S2P Require Import Prelude GoStrings RSField RSEncoding RSBase RSCode.
Import GoInt.

(** ** The symbols of an address *)

(** The alphabet positions of a string's characters; every other character is
    skipped, as [Decode] does. *)
Definition symbols (s : string) : list Z := Z.of_nat <$> omap RS.positionInAlphabet (bytes s).

(** The order in which an address shows a codeword's symbols. *)
Definition shown (cw : list Z) : list Z := (fun i => nth i cw 0) <$> RS.codewordMap.

(** The data part of a codeword, as a number. *)
Definition data_value (cw : list Z) : Z := value 32 (rev (take 13 cw)).

Definition sym_byte (g : Z) : Z := nth (Z.to_nat g) RS.alphabet 0.

Lemma alphabet_lookup g : is_sym g -> RS.alphabet !! Z.to_nat g = Some (sym_byte g).
Proof.
  intros [H0 H1]. unfold sym_byte.
  destruct (lookup_lt_is_Some_2 RS.alphabet (Z.to_nat g)) as [c Hc].
  { change (length RS.alphabet) with 32%nat. lia. }
  rewrite Hc. f_equal. symmetry. now apply nth_lookup_Some.
Qed.

Lemma position_sym_byte g :
  is_sym g -> RS.positionInAlphabet (sym_byte g) = Some (Z.to_nat g) /\ is_byte (sym_byte g).
Proof.
  intros Hg.
  assert (C : bool_decide (RS.positionInAlphabet (sym_byte g) = Some (Z.to_nat g)
                           /\ 0 <= sym_byte g < 256) = true).
  { revert g Hg. apply (zrange_forallb 32 (fun g =>
      bool_decide (RS.positionInAlphabet (sym_byte g) = Some (Z.to_nat g) /\ 0 <= sym_byte g < 256))).
    vm_compute. reflexivity. }
  now apply bool_decide_eq_true in C.
Qed.

(** ** Encode *)

Lemma rev_replicate {A} n (x : A) : rev (replicate n x) = replicate n x.
Proof.
  induction n as [|n IH]; [done|]. cbn [replicate rev]. rewrite IH.
  symmetry. apply replicate_cons_app.
Qed.

Lemma write_digits a k l :
  (k + length l <= length a)%nat ->
  foldM (fun a (p : nat * Z) => aset a p.1 (p.2 - 48)) a (imap (fun i x => ((k + i)%nat, x)) l)
  = Some (write_at a k ((fun x => x - 48) <$> l)).
Proof.
  revert a k. induction l as [|x l IH]; intros a k Hk; simpl in Hk.
  { simpl. unfold write_at. simpl. now rewrite Nat.add_0_r, take_drop. }
  rewrite imap_cons. cbn [foldM fst snd]. rewrite Nat.add_0_r, aset_ok by lia.
  rewrite (imap_ext _ (fun i x => ((S k + i)%nat, x))) by (intros i y _; cbn; f_equal; lia).
  rewrite IH by (rewrite length_insert; lia).
  f_equal. rewrite fmap_cons. apply write_at_cons. lia.
Qed.

Lemma write_at_0 a ds : write_at a 0 ds = ds ++ drop (length ds) a.
Proof. reflexivity. Qed.

Lemma sym_digits ds : digits_ok 32 ds <-> Forall is_sym ds.
Proof. reflexivity. Qed.

(** The data part [Encode] computes: the thirteen base-32 digits of the id. *)
Definition data_codeword (n : Z) : list Z := write_at (replicate 17 0) 0 (to_digits 13 32 n).

Lemma u64_13 n : is_u64 n -> 0 <= n < 32 ^ Z.of_nat 13.
Proof. unfold is_u64. lia. Qed.

Lemma data_codeword_ok n :
  is_u64 n -> is_codeword (data_codeword n) /\ data_value (data_codeword n) = n.
Proof.
  intros Hn. unfold data_codeword. rewrite write_at_0.
  set (ds := to_digits 13 32 n).
  assert (Hl : (length ds <= 13)%nat) by (apply (to_digits_length 32); lia).
  assert (Hd : Forall is_sym ds) by (apply sym_digits, to_digits_range; lia).
  rewrite drop_replicate. split; [split|].
  - rewrite length_app, length_replicate. unfold RS.initialCodewordLen. lia.
  - apply Forall_app. split; [done|]. apply Forall_replicate. unfold is_sym. lia.
  - unfold data_value. rewrite take_app_ge, take_replicate by lia.
    rewrite rev_app_distr, rev_replicate.
    transitivity (value 32 (rev ds)); [|apply value_to_digits; [lia|now apply u64_13]].
    generalize ((13 - length ds) `min` (17 - length ds))%nat as k.
    induction k as [|k IH]; [done|]. cbn [replicate app]. rewrite value_cons. lia.
Qed.

Lemma encode_digits n :
  is_u64 n ->
  (plainString10 ← foldM (fun a (p : nat * Z) => aset a p.1 (p.2 - 48))
                     (replicate RS.base10Len 0) (imap pair (FormatUint n));
   RS.encode_loop 32 plainString10 (length (FormatUint n)) (replicate RS.initialCodewordLen 0) 0)
  = Some (data_codeword n).
Proof.
  intros Hn. unfold FormatUint. set (ds := rev (to_digits 20 10 n)).
  assert (Hl : (length ds <= 20)%nat).
  { subst ds. rewrite length_rev. apply (to_digits_length 10). lia. }
  assert (Hd : digits_ok 10 ds).
  { subst ds. apply Forall_rev, to_digits_range. lia. }
  assert (Hv : value 10 ds = n).
  { apply value_to_digits; [lia|]. unfold is_u64 in Hn. lia. }
  rewrite (imap_ext pair (fun i x => ((0 + i)%nat, x))) by done.
  rewrite write_digits by (rewrite length_fmap, length_replicate; exact Hl).
  cbn [mbind option_bind]. rewrite <- list_fmap_compose.
  rewrite (list_fmap_ext _ id) by (intros ? d ?; unfold digit_byte; simpl; lia).
  rewrite list_fmap_id, length_fmap, write_at_0, drop_replicate.
  assert (Htake : take (length ds) (ds ++ replicate (RS.base10Len - length ds) 0) = ds).
  { rewrite take_app_le, firstn_all by lia. done. }
  rewrite (encode_loop_spec 13); rewrite ?Htake, ?Hv; try done; try lia.
  - rewrite length_app. lia.
  - now apply u64_13.
  - rewrite length_replicate. unfold RS.initialCodewordLen. lia.
Qed.

(** The bytes an address shows for a codeword, with its dashes. *)
Definition dashed (bs : list Z) : list Z :=
  take 4 bs ++ [45] ++ take 4 (drop 4 bs) ++ [45] ++ take 4 (drop 8 bs) ++ [45] ++ drop 12 bs.

Definition shown_bytes (cw : list Z) : list Z := sym_byte <$> shown cw.

Lemma codeword_nth cw i : is_codeword cw -> (i < 17)%nat -> cw !! i = Some (nth i cw 0) /\ is_sym (nth i cw 0).
Proof.
  intros [Hlen Hcw] Hi. destruct (lookup_lt_is_Some_2 cw i) as [c Hc]; [rewrite Hlen; exact Hi|].
  rewrite (nth_lookup_Some _ _ _ _ Hc). split; [done|]. eapply (Forall_lookup_1 is_sym cw); done.
Qed.

Lemma codewordMap_lookup i : (i < 17)%nat ->
  exists k, RS.codewordMap !! i = Some k /\ (k < 17)%nat.
Proof.
  intros Hi. destruct (lookup_lt_is_Some_2 RS.codewordMap i) as [k Hk]; [exact Hi|].
  exists k. split; [done|].
  eapply (Forall_lookup_1 (fun k => (k < 17)%nat) RS.codewordMap); [|exact Hk].
  repeat constructor; lia.
Qed.

Lemma format_step_ok cw buff j i dash :
  is_codeword cw -> (i < 17)%nat -> (S j < length buff)%nat ->
  (Nat.land i 3 =? 3)%nat && (i <? 13)%nat = dash ->
  RS.format_step cw (buff, j) i
  = Some (if dash then (<[S j:=45]> (<[j:=nth i (shown_bytes cw) 0]> buff), S (S j))
          else (<[j:=nth i (shown_bytes cw) 0]> buff, S j)).
Proof.
  intros Hcw Hi Hj <-. unfold RS.format_step.
  destruct (codewordMap_lookup i Hi) as (k & Hk & Hk17). rewrite Hk. cbn [mbind option_bind].
  destruct (codeword_nth cw k Hcw Hk17) as [Hc Hs]. rewrite Hc. cbn [mbind option_bind].
  rewrite alphabet_lookup by done. cbn [mbind option_bind]. rewrite aset_ok by lia.
  cbn [mbind option_bind].
  assert (E : nth i (shown_bytes cw) 0 = sym_byte (nth k cw 0)).
  { apply nth_lookup_Some. unfold shown_bytes, shown. rewrite !list_lookup_fmap, Hk. done. }
  rewrite E. destruct (_ && _); [|done]. rewrite aset_ok; [done|]. rewrite length_insert. lia.
Qed.

Lemma shown_bytes_length cw : length (shown_bytes cw) = 17%nat.
Proof. done. Qed.

Lemma format_spec cw :
  is_codeword cw ->
  foldM (RS.format_step cw) (replicate 20 0, 0%nat) (seq 0 16) =
    Some (take 19 (dashed (shown_bytes cw)) ++ [0], 19%nat) /\
  foldM (RS.format_step cw) (replicate 20 0, 0%nat) (seq 0 RS.initialCodewordLen)
  = Some (dashed (shown_bytes cw), 20%nat).
Proof.
  intros Hcw.
  assert (H16 : foldM (RS.format_step cw) (replicate 20 0, 0%nat) (seq 0 16) =
    Some (take 19 (dashed (shown_bytes cw)) ++ [0], 19%nat)).
  { cbn [seq foldM].
    do 16 (match goal with |- context [RS.format_step cw (?buff, ?j) ?i] =>
             let dash := eval vm_compute in ((Nat.land i 3 =? 3)%nat && (i <? 13)%nat) in
             rewrite (format_step_ok cw buff j i dash);
             [|exact Hcw|lia|rewrite ?length_insert, length_replicate; lia|reflexivity] end;
           cbv iota).
    pose proof (shown_bytes_length cw) as Hl. revert Hl. generalize (shown_bytes cw) as gs.
    intros gs Hl. list17 gs. reflexivity. }
  split; [done|]. change (seq 0 RS.initialCodewordLen) with (seq 0 16 ++ [16%nat]).
  rewrite foldM_snoc, H16. unfold RS.format_step.
  destruct (codeword_nth cw 11 Hcw ltac:(lia)) as [Hc Hs].
  change (RS.codewordMap !! 16%nat) with (Some 11%nat). cbn [mbind option_bind].
  rewrite Hc. cbn [mbind option_bind]. rewrite alphabet_lookup by done.
  cbn [mbind option_bind].
  pose proof (shown_bytes_length cw) as Hl.
  assert (E : nth 16 (shown_bytes cw) 0 = sym_byte (nth 11 cw 0)) by done.
  rewrite <- E. revert Hl. generalize (shown_bytes cw) as gs.
  intros gs Hl. list17 gs. reflexivity.
Qed.

Lemma shown_sym cw : is_codeword cw -> Forall is_sym (shown cw).
Proof.
  intros Hcw. unfold shown. rewrite Forall_fmap. apply Forall_forall. intros k Hk.
  apply codeword_nth; [done|]. revert k Hk. apply Forall_forall. repeat constructor; lia.
Qed.

Lemma omap_positions gs :
  Forall is_sym gs -> Z.of_nat <$> omap RS.positionInAlphabet (sym_byte <$> gs) = gs.
Proof.
  induction 1 as [|g gs Hg _ IH]; [done|]. rewrite fmap_cons.
  destruct (position_sym_byte g Hg) as [Hp _]. cbn [omap list_omap]. rewrite Hp, fmap_cons.
  f_equal; [|exact IH]. unfold is_sym in Hg. lia.
Qed.

Lemma dashed_bytes gs : Forall is_sym gs -> Forall is_byte (dashed (sym_byte <$> gs)).
Proof.
  intros Hg. assert (H : Forall is_byte (sym_byte <$> gs)).
  { rewrite Forall_fmap. eapply Forall_impl; [exact Hg|]. intros g Hs. now apply position_sym_byte. }
  assert (H45 : is_byte 45) by (unfold is_byte; lia).
  unfold dashed. repeat (apply Forall_app; split); auto using Forall_take, Forall_drop.
Qed.

Lemma dashed_symbols gs :
  Forall is_sym gs ->
  Z.of_nat <$> omap RS.positionInAlphabet (dashed (sym_byte <$> gs)) = gs.
Proof.
  intros Hg. unfold dashed. rewrite !omap_app, !fmap_app.
  change (omap RS.positionInAlphabet [45]) with (@nil nat). cbn [fmap list_fmap app].
  rewrite <- !fmap_app, <- !omap_app. rewrite <- (omap_positions gs Hg). do 2 f_equal.
  rewrite omap_positions by done. set (bs := sym_byte <$> gs).
  change (drop 8 bs) with (drop (4 + 4) bs). rewrite <- drop_drop.
  change (drop 12 bs) with (drop (4 + (4 + 4)) bs). rewrite <- !drop_drop.
  now rewrite !take_drop.
Qed.

(** [Encode] never panics on a 64-bit id, and its result shows a valid
    codeword carrying the id. *)
Lemma Encode_spec n :
  is_u64 n ->
  exists cw s, RS.Encode n = Some s /\ bytes s = dashed (shown_bytes cw) /\
    is_codeword cw /\ code_valid cw /\ data_value cw = n /\ symbols s = shown cw.
Proof.
  intros Hn. destruct (data_codeword_ok n Hn) as [Hcw Hval].
  destruct (parity_fold (data_codeword n) (rev (seq 0 13)) (0, 0, 0, 0) Hcw)
    as ([[[p0 p1] p2] p3] & Hpar & _).
  { repeat constructor; lia. }
  { unfold is_reg, is_sym. lia. }
  change (RS.parity (data_codeword n) = Some (p0, p1, p2, p3)) in Hpar.
  destruct (parity_valid _ _ _ _ _ Hcw Hpar) as [Hcw' Hvalid].
  set (cw := take 13 (data_codeword n) ++ [p0; p1; p2; p3]) in *.
  destruct (format_spec cw Hcw') as [_ Hfmt].
  exists cw, (of_bytes (dashed (shown_bytes cw))).
  assert (Hb : bytes (of_bytes (dashed (shown_bytes cw))) = dashed (shown_bytes cw)).
  { apply bytes_of_bytes, dashed_bytes, shown_sym, Hcw'. }
  split_and!; try done.
  - unfold RS.Encode.
    pose proof (encode_digits n Hn) as Henc.
    destruct (foldM _ _ (imap pair (FormatUint n))) as [arr|]; [|discriminate Henc].
    cbn [mbind option_bind] in Henc |- *. rewrite Henc. cbn [mbind option_bind].
    rewrite Hpar. cbn [mbind option_bind].
    fold cw. unfold RS.base32Len. fold cw. rewrite Hfmt. done.
  - unfold data_value. subst cw. rewrite take_app_le, take_take by
      (rewrite length_take; destruct Hcw as [-> _]; unfold RS.initialCodewordLen; lia).
    exact Hval.
  - unfold symbols. rewrite Hb. apply dashed_symbols, shown_sym, Hcw'.
Qed.

(** ** Decode *)

Fixpoint place (cw : list Z) (k : nat) (syms : list nat) : list Z :=
  match syms with
  | [] => cw
  | p :: syms => place (<[nth k RS.codewordMap 0%nat:=Z.of_nat p]> cw) (S k) syms
  end.

Lemma scan_spec addr cw k :
  length cw = 17%nat -> (k <= 17)%nat ->
  let syms := omap RS.positionInAlphabet addr in
  RS.scan addr cw k
  = if decide (k + length syms <= 17)%nat
    then Return (place cw k syms, (k + length syms)%nat) else Fail_with RS.CodewordTooLong.
Proof.
  revert cw k. induction addr as [|ch addr IH]; intros cw k Hlen Hk syms; subst syms.
  { cbn. rewrite decide_True by lia. do 2 f_equal. lia. }
  cbn [RS.scan omap list_omap]. destruct (RS.positionInAlphabet ch) as [p|]; [|now apply IH].
  cbn [length]. destruct (16 <? k)%nat eqn:E.
  { apply Nat.ltb_lt in E. rewrite decide_False by lia. done. }
  apply Nat.ltb_ge in E. destruct (codewordMap_lookup k ltac:(lia)) as (i & Hi & Hi17).
  rewrite Hi, aset_ok by lia. rewrite IH by (rewrite ?length_insert; lia).
  cbn [place]. rewrite (nth_lookup_Some _ _ _ _ Hi).
  repeat case_decide; try lia; [|done]. do 2 f_equal. lia.
Qed.

Lemma shown_place syms :
  length syms = 17%nat -> shown (place RS.initialCodeword 0 syms) = Z.of_nat <$> syms.
Proof. intros Hl. list17 syms. reflexivity. Qed.

Lemma place_length cw k syms : length (place cw k syms) = length cw.
Proof.
  revert cw k. induction syms as [|p syms IH]; intros cw k; [done|].
  cbn [place]. now rewrite IH, length_insert.
Qed.

Lemma shown_inj cw cw' :
  length cw = 17%nat -> length cw' = 17%nat -> shown cw = shown cw' -> cw = cw'.
Proof.
  intros Hl Hl' E. list17 cw. rename Hl' into Hl. list17 cw'.
  unfold shown in E. cbn in E. injection E. intros. congruence.
Qed.

Lemma index_from_bound j chars ch p :
  RS.index_from j chars ch = Some p -> (p < j + length chars)%nat.
Proof.
  revert j. induction chars as [|c chars IH]; intros j H; simpl in H; [done|].
  destruct (c =? ch); [injection H as <-; simpl; lia|]. apply IH in H. simpl. lia.
Qed.

Lemma symbols_sym s : Forall is_sym (symbols s).
Proof.
  unfold symbols. rewrite Forall_fmap. apply Forall_forall. intros p Hp.
  apply list_elem_of_omap in Hp as (ch & _ & Hp). apply index_from_bound in Hp.
  change (length RS.alphabet) with 32%nat in Hp. cbn. unfold is_sym. lia.
Qed.

Lemma shown_Forall (P : Z -> Prop) cw : length cw = 17%nat -> Forall P (shown cw) -> Forall P cw.
Proof.
  intros Hl H. list17 cw. unfold shown in H. cbn in H. rewrite !Forall_cons in *. tauto.
Qed.

Lemma cypher_spec cw :
  length cw = 17%nat ->
  foldM (fun a i => c ← cw !! (RS.base32Len - i - 1)%nat; aset a i c)
    (replicate RS.base32Len 0) (seq 0 RS.base32Len) = Some (rev (take 13 cw)).
Proof. intros Hl. list17 cw. reflexivity. Qed.

Lemma data_value_range cw : is_codeword cw -> 0 <= data_value cw < 32 ^ 13.
Proof.
  intros [Hl Hs]. unfold data_value.
  assert (L : length (rev (take 13 cw)) = 13%nat).
  { rewrite length_rev, length_take, Hl. done. }
  pose proof (value_bound 32 (rev (take 13 cw)) ltac:(lia)) as H. rewrite L in H.
  apply H. apply Forall_rev, Forall_take, Hs.
Qed.

(** Everything [Decode] can do, in terms of the address's symbols. *)
Inductive decoded (s : string) : outcome RS.decode_error Z -> Prop :=
| decoded_long : (17 < length (symbols s))%nat -> decoded s (Fail_with RS.CodewordTooLong)
| decoded_short : (length (symbols s) < 17)%nat -> decoded s (Fail_with RS.CodewordInvalid)
| decoded_invalid cw : is_codeword cw -> shown cw = symbols s -> ~ code_valid cw ->
    decoded s (Fail_with RS.CodewordInvalid)
| decoded_range cw : is_codeword cw -> shown cw = symbols s -> code_valid cw ->
    2 ^ 64 <= data_value cw -> decoded s (Fail_with (RS.ParseError ErrRange))
| decoded_ok cw : is_codeword cw -> shown cw = symbols s -> code_valid cw ->
    data_value cw < 2 ^ 64 -> decoded s (Return (data_value cw)).

Lemma Decode_spec s : decoded s (RS.Decode s).
Proof.
  unfold RS.Decode. rewrite scan_spec by (done || lia).
  set (syms := omap RS.positionInAlphabet (bytes s)).
  assert (Hsy : symbols s = Z.of_nat <$> syms) by done.
  assert (Hlen : length (symbols s) = length syms) by (rewrite Hsy; apply length_fmap).
  case_decide as Hd; cbn [outcome_bind]; [|apply decoded_long; lia].
  cbn [Nat.add]. unfold RS.initialCodewordLen.
  destruct (length syms =? 17)%nat eqn:E; cbn [outcome_bind andb negb orb].
  2: { apply Nat.eqb_neq in E. simpl in Hd. apply decoded_short. lia. }
  apply Nat.eqb_eq in E. set (cw := place RS.initialCodeword 0 syms).
  assert (Hl : length cw = 17%nat) by apply place_length.
  assert (Hshown : shown cw = symbols s) by (rewrite Hsy; now apply shown_place).
  assert (Hcw : is_codeword cw).
  { split; [done|]. apply shown_Forall; [done|]. rewrite Hshown. apply symbols_sym. }
  destruct (isCodewordValid_spec cw Hcw) as (b & Hb & Hiff). rewrite Hb.
  cbn [lift_panic outcome_bind]. destruct b; cbn [negb andb orb].
  2: { eapply decoded_invalid; [exact Hcw|exact Hshown|]. intros Hv. apply Hiff in Hv. done. }
  assert (Hv : code_valid cw) by (apply Hiff; reflexivity).
  rewrite cypher_spec by done. cbn [lift_panic outcome_bind].
  pose proof (data_value_range cw Hcw) as Hr.
  assert (Ht : take RS.base32Len (rev (take 13 cw)) = rev (take 13 cw)).
  { apply take_ge. rewrite length_rev, length_take, Hl. unfold RS.base32Len. lia. }
  rewrite (decode_loop_spec 20); rewrite ?Ht; fold (data_value cw); try done; try lia.
  2: { rewrite length_rev, length_take, Hl. unfold RS.base32Len. lia. }
  2: { apply Forall_rev, Forall_take, Hcw. }
  rewrite (drop_ge (replicate 20 0)) by (rewrite length_replicate; lia).
  rewrite app_nil_r. cbn [lift_panic outcome_bind].
  rewrite ParseUint_digits.
  2: { apply Forall_rev, to_digits_range. lia. }
  2: { intros H. apply (f_equal length) in H. rewrite length_rev in H. discriminate H. }
  rewrite value_to_digits by lia.
  destruct (data_value cw <? 2 ^ 64) eqn:Ev; zbool; cbn [lift_error].
  - apply decoded_ok; done.
  - apply (decoded_range s cw); done.
Qed.

Lemma distance_cons x xs y ys :
  distance (x :: xs) (y :: ys) = ((if (x =? y)%Z then 0 else 1) + distance xs ys)%nat.
Proof. unfold distance. simpl. destruct (x =? y); done. Qed.

(** Showing a codeword permutes its positions. *)
Lemma distance_shown xs ys :
  length xs = 17%nat -> length ys = 17%nat -> distance (shown xs) (shown ys) = distance xs ys.
Proof.
  intros Hl Hl'. list17 xs. rename Hl' into Hl. list17 ys.
  unfold shown. cbn [RS.codewordMap fmap list_fmap nth].
  rewrite !distance_cons. lia.
Qed.

(** ** The properties *)

Lemma decode_of_encode n :
  is_u64 n -> exists s, RS.Encode n = Some s /\ RS.Decode s = Return n.
Proof.
  intros Hn. destruct (Encode_spec n Hn) as (cw & s & He & _ & Hcw & Hv & Hval & Hsym).
  exists s. split; [done|].
  assert (Hl : length (symbols s) = 17%nat) by (rewrite Hsym; done).
  unfold is_u64 in Hn.
  destruct (Decode_spec s) as [H|H|cw' Hcw' Hs' Hv'|cw' Hcw' Hs' _ Hr|cw' Hcw' Hs' _ Hr];
    try lia; rewrite Hsym in Hs'; apply shown_inj in Hs'; try apply Hcw; try apply Hcw'; subst cw'.
  - done.
  - lia.
  - now rewrite Hval.
Qed.

(** C25: every 64-bit account id encodes to an address that decodes to it;
    neither function panics on the way. *)
Theorem Decode_Encode n :
  is_u64 n -> exists s, RS.Encode n = Some s /\ RS.Decode s = Return n.
Proof. apply decode_of_encode. Qed.

Lemma Decode_Encode_witness :
  is_u64 9225891750247351890 /\
  exists s, RS.Encode 9225891750247351890 = Some s /\ RS.Decode s = Return 9225891750247351890.
Proof. split; [vm_compute; split; congruence|]. apply Decode_Encode. vm_compute. split; congruence. Defined.

Lemma Decode_canonical_aux s n :
  RS.Decode s = Return n ->
  is_u64 n /\ exists cw, is_codeword cw /\ code_valid cw /\ data_value cw = n /\ shown cw = symbols s.
Proof.
  intros H. destruct (Decode_spec s) as [| | | |cw Hcw Hs Hv Hr]; try discriminate H.
  injection H as <-. pose proof (data_value_range cw Hcw). split; [unfold is_u64; lia|eauto].
Qed.

Lemma distance_same xs : distance xs xs = 0%nat.
Proof. induction xs as [|x xs IH]; [done|]. rewrite distance_cons, Z.eqb_refl, IH. done. Qed.

Lemma distance_app xs ys xs' ys' :
  length xs = length ys -> distance (xs ++ xs') (ys ++ ys') = (distance xs ys + distance xs' ys')%nat.
Proof.
  revert ys. induction xs as [|x xs IH]; intros [|y ys] Hl; simpl in Hl; try lia; [done|].
  cbn [app]. rewrite !distance_cons, IH by lia. lia.
Qed.

Lemma distance_length xs ys : (distance xs ys <= length xs)%nat.
Proof.
  revert ys. induction xs as [|x xs IH]; intros [|y ys]; try (cbn; lia).
  rewrite distance_cons. cbn [length]. specialize (IH ys). destruct (x =? y); lia.
Qed.

(** Two valid codewords that carry the same number are equal. *)
Lemma data_value_inj cw cw' :
  is_codeword cw -> is_codeword cw' -> code_valid cw -> code_valid cw' ->
  data_value cw = data_value cw' -> cw = cw'.
Proof.
  intros [L S] [L' S'] V V' E. unfold RS.initialCodewordLen in *.
  assert (Hd : take 13 cw = take 13 cw').
  { rewrite <- (rev_involutive (take 13 cw)), <- (rev_involutive (take 13 cw')). f_equal.
    apply (value_inj 32); try done; try lia.
    - apply Forall_rev, Forall_take, S.
    - apply Forall_rev, Forall_take, S'.
    - rewrite !length_rev, !length_take. lia. }
  apply code_distance; try done.
  rewrite <- (take_drop 13 cw), <- (take_drop 13 cw'), Hd, distance_app, distance_same by done.
  pose proof (distance_length (drop 13 cw) (drop 13 cw')) as H. rewrite length_drop, L in H. lia.
Qed.

(** C26: [Decode] accepts a string exactly when its symbols are those of the
    canonical address of the id it returns: there is no second address for
    an id, and no address for two ids. *)
Theorem Decode_iff_Encode s n :
  RS.Decode s = Return n <->
  is_u64 n /\ exists t, RS.Encode n = Some t /\ symbols s = symbols t.
Proof.
  split.
  - intros H. apply Decode_canonical_aux in H as (Hn & cw & Hcw & Hv & Hval & Hs).
    split; [done|]. destruct (Encode_spec n Hn) as (cw' & t & He & _ & Hcw' & Hv' & Hval' & Ht).
    exists t. split; [done|]. rewrite Ht, <- Hs. f_equal.
    apply data_value_inj; try done. congruence.
  - intros [Hn (t & He & Hst)]. destruct (Encode_spec n Hn) as (cw & t' & He' & _ & Hcw & Hv & Hval & Ht).
    rewrite He in He'. injection He' as <-. rewrite Ht in Hst.
    assert (Hl : length (symbols s) = 17%nat) by (rewrite Hst; done). unfold is_u64 in Hn.
    destruct (Decode_spec s) as [H|H|cw' Hcw' Hs' Hv'|cw' Hcw' Hs' _ Hr|cw' Hcw' Hs' _ Hr];
      try lia; rewrite Hst in Hs'; apply shown_inj in Hs'; try apply Hcw; try apply Hcw'; subst cw'.
    + done.
    + lia.
    + now rewrite Hval.
Qed.

(** C27: the code detects every error of at most four symbols: two strings of
    the same number of symbols that [Decode] accepts and whose symbols differ
    in at most four places decode to the same id. *)
Theorem Decode_detects_errors s t n m :
  RS.Decode s = Return n -> RS.Decode t = Return m ->
  (distance (symbols s) (symbols t) <= 4)%nat -> n = m /\ symbols s = symbols t.
Proof.
  intros Hs Ht Hd.
  apply Decode_canonical_aux in Hs as (_ & cw & Hcw & Hv & Hval & Es).
  apply Decode_canonical_aux in Ht as (_ & cw' & Hcw' & Hv' & Hval' & Et).
  rewrite <- Es, <- Et in Hd |- *. rewrite distance_shown in Hd by (apply Hcw || apply Hcw').
  assert (cw = cw') as <- by now apply code_distance. split; [congruence|done].
Qed.

Lemma Decode_detects_errors_witness :
  RS.Decode "8KLL-PBYV-6DBC-AM942" = Return 9225891750247351890 /\
  (9225891750247351890 = 9225891750247351890
   /\ symbols "8KLL-PBYV-6DBC-AM942" = symbols "8KLLPBYV6DBCAM942").
Proof.
  split; [vm_compute; reflexivity|].
  apply (Decode_detects_errors "8KLL-PBYV-6DBC-AM942" "8KLLPBYV6DBCAM942");
    vm_compute; (reflexivity || lia).
Defined.

(** [Decode] never panics, and reports exactly what is wrong: more than
    17 symbols, fewer or an invalid codeword, or a value beyond 64 bits. *)
Theorem Decode_total s :
  RS.Decode s <> Panic /\
  (RS.Decode s = Fail_with RS.CodewordTooLong <-> (17 < length (symbols s))%nat) /\
  ((length (symbols s) < 17)%nat -> RS.Decode s = Fail_with RS.CodewordInvalid) /\
  (forall e, RS.Decode s = Fail_with (RS.ParseError e) ->
     e = ErrRange /\ exists cw, shown cw = symbols s /\ code_valid cw /\ 2 ^ 64 <= data_value cw).
Proof.
  destruct (Decode_spec s) as [H|H|cw Hcw Hs Hv|cw Hcw Hs Hv Hr|cw Hcw Hs Hv Hr];
    try (assert (L : length (symbols s) = 17%nat) by (rewrite <- Hs; done));
    (split; [done|]); (split; [split; intros; (done || lia)|]);
    (split; [intros; (done || lia)|]); intros e He; try discriminate He.
  injection He as <-. eauto.
Qed.
