(* ===== verification/Blocks.v ===== *)
(** * The caches of block heights of [pkg/modelx/cache.go]

    [type blocks] keeps the heights of the last slow (or fast) blocks in a
    linked list, smallest first, with an index of the heights it holds, and
    drops the smallest height when it outgrows [maxLen].  The elements the
    index points at are never read, so the index is the set of its keys.

    [is_top n S l] is the abstract specification: [l] holds the [n] largest
    elements of [S] in increasing order.  [add] implements the insertion of a
    height into [S]; so a cache that was given the heights [hs], in any
    order, holds the [maxLen] largest of them. *)

From Stdlib Require Import Sorting.Sorted.
From S2P Require Import Prelude.

(** ** The data and the operations *)

Record blocks := mk_blocks {
  heights : list Z;
  index : gset Z;
  maxLen : Z
}.

(** [None] is the panic of a length that is not positive. *)
Definition newBlocks (n : Z) : option blocks :=
  if n <=? 0 then None else Some (mk_blocks [] ∅ n).

(** The loop from [heights.Back()] along [Prev()] to the first element
    smaller than [height], after which [height] is inserted; the argument
    lists the elements from the back to the front.  [None]: the loop ends. *)
Fixpoint insert_after_smaller (height : Z) (back : list Z) : option (list Z) :=
  match back with
  | [] => None
  | curHeight :: prev =>
      if curHeight <? height then Some (height :: curHeight :: prev)
      else match insert_after_smaller height prev with
           | Some back' => Some (curHeight :: back')
           | None => None
           end
  end.

Definition exists_height (b : blocks) (height : Z) : bool := bool_decide (height ∈ index b).

Definition add (b : blocks) (height : Z) : Z * blocks :=
  if exists_height b height then (0, b) else
  match insert_after_smaller height (reverse (heights b)) with
  | Some back' =>
      let hs := reverse back' in
      let ix := {[height]} ∪ index b in
      if maxLen b <? Z.of_nat (length hs) then
        match hs with
        | oldHeight :: hs' => (oldHeight, mk_blocks hs' (ix ∖ {[oldHeight]}) (maxLen b))
        | [] => (0, mk_blocks hs ix (maxLen b))
        end
      else (0, mk_blocks hs ix (maxLen b))
  | None =>
      if Z.of_nat (length (heights b)) <? maxLen b
      then (0, mk_blocks (height :: heights b) ({[height]} ∪ index b) (maxLen b))
      else (0, b)
  end.

(** A sequence of calls of [add]. *)
Definition add_all (b : blocks) (hs : list Z) : blocks := foldl (fun b h => (add b h).2) b hs.

(** ** The invariant *)

Abbreviation sorted := (StronglySorted Z.lt).

Record wf (b : blocks) : Prop := {
  wf_sorted : sorted (heights b);
  wf_index : forall h, h ∈ index b <-> h ∈ heights b;
  wf_len : Z.of_nat (length (heights b)) <= maxLen b;
  wf_maxLen : 0 < maxLen b
}.

(** ** The abstract specification *)

Definition is_top (n : Z) (S : gset Z) (l : list Z) : Prop :=
  sorted l /\ (forall x, x ∈ l -> x ∈ S) /\ Z.of_nat (length l) <= n /\
  (forall x, x ∈ S -> x ∉ l -> Z.of_nat (length l) = n /\ forall y, y ∈ l -> x < y).

Lemma sorted_cons x l : sorted (x :: l) <-> sorted l /\ forall y, y ∈ l -> x < y.
Proof.
  split.
  - intros [H1 H2]%StronglySorted_inv. split; [done|]. by rewrite Forall_forall in H2.
  - intros [H1 H2]. constructor; [done|]. by apply Forall_forall.
Qed.

Lemma sorted_app l1 l2 :
  sorted (l1 ++ l2) <-> sorted l1 /\ sorted l2 /\ forall x y, x ∈ l1 -> y ∈ l2 -> x < y.
Proof.
  induction l1 as [|a l1 IH]; simpl.
  - split; [intros H|naive_solver]. split_and!; [constructor|done|set_solver].
  - rewrite !sorted_cons, IH. set_solver.
Qed.

Lemma sorted_NoDup l : sorted l -> NoDup l.
Proof.
  induction l as [|a l IH]; [constructor|].
  rewrite sorted_cons. intros [H1 H2]. constructor; [|auto].
  intros H%H2. lia.
Qed.

(** Two sorted lists with the same elements are equal. *)
Lemma sorted_ext l1 l2 : sorted l1 -> sorted l2 -> (forall x, x ∈ l1 <-> x ∈ l2) -> l1 = l2.
Proof.
  revert l2. induction l1 as [|a l1 IH]; intros [|b l2]; rewrite ?sorted_cons; intros H1 H2 E.
  - done.
  - exfalso. specialize (E b). set_solver.
  - exfalso. specialize (E a). set_solver.
  - destruct H1 as [S1 H1], H2 as [S2 H2].
    assert (a = b) as ->.
    { assert (Ha := proj1 (E a)). assert (Hb := proj2 (E b)).
      rewrite !elem_of_cons in Ha, Hb.
      destruct Ha as [|Ha%H2]; auto. destruct Hb as [|Hb%H1]; auto. lia. }
    f_equal. apply IH; try done. intros x. specialize (E x).
    rewrite !elem_of_cons in E. split; intros Hx.
    + destruct (proj1 E); auto. subst. apply H1 in Hx. lia.
    + destruct (proj2 E); auto. subst. apply H2 in Hx. lia.
Qed.

(** The specification determines the list. *)
Lemma is_top_unique n S l1 l2 : is_top n S l1 -> is_top n S l2 -> l1 = l2.
Proof.
  intros (S1 & I1 & N1 & T1) (S2 & I2 & N2 & T2).
  assert (Hsub : forall l l', sorted l -> sorted l' -> (forall x, x ∈ l -> x ∈ S) ->
    (forall x, x ∈ l' -> x ∈ S) -> Z.of_nat (length l) <= n ->
    (forall x, x ∈ S -> x ∉ l -> Z.of_nat (length l) = n /\ forall y, y ∈ l -> x < y) ->
    (forall x, x ∈ S -> x ∉ l' -> Z.of_nat (length l') = n /\ forall y, y ∈ l' -> x < y) ->
    forall x, x ∈ l -> x ∈ l').
  { clear. intros l l' Sl Sl' Il Il' Nl Tl Tl' x Hx. destruct (decide (x ∈ l')) as [|Hn]; [done|].
    destruct (Tl' x (Il x Hx) Hn) as [Hlen Hlt]. exfalso.
    assert (Hincl : incl (x :: l') l).
    { intros y Hy%list_elem_of_In. apply list_elem_of_In.
      rewrite elem_of_cons in Hy. destruct Hy as [->|Hy]; [done|].
      destruct (decide (y ∈ l)) as [|Hy']; [done|].
      destruct (Tl y (Il' y Hy) Hy') as [_ H]. specialize (H x Hx). specialize (Hlt y Hy). lia. }
    apply NoDup_incl_length in Hincl; [simpl in Hincl; lia|].
    apply NoDup_ListNoDup. constructor; [done|]. by apply sorted_NoDup. }
  apply sorted_ext; [done..|]. intros x. split; eapply Hsub; eauto.
Qed.

(** ** The loop of [add] *)

(** The loop splits the sorted list at the height it inserts. *)
Lemma insert_after_smaller_spec h l :
  sorted l -> h ∉ l ->
  match insert_after_smaller h (reverse l) with
  | Some back' => exists l1 l2, l = l1 ++ l2 /\ l1 <> [] /\ reverse back' = l1 ++ h :: l2 /\
                                sorted (l1 ++ h :: l2)
  | None => sorted (h :: l)
  end.
Proof.
  induction l as [|a l IH] using rev_ind; intros Hs Hn.
  - simpl. constructor; constructor.
  - rewrite reverse_snoc. simpl. apply sorted_app in Hs as (Hs & _ & Hlt).
    destruct (a <? h) eqn:E; zbool.
    + exists (l ++ [a]), []. rewrite app_nil_r. split_and!; [done|by destruct l|by rewrite !reverse_cons, reverse_involutive|].
      rewrite !sorted_app. split_and!; try done; try (constructor; constructor).
      intros x y Hx Hy. apply list_elem_of_singleton in Hy as ->.
      rewrite elem_of_app, list_elem_of_singleton in Hx. destruct Hx as [Hx| ->]; [|done].
      specialize (Hlt x a Hx). set_solver by lia.
    + assert (a <> h) by set_solver. assert (h < a) by lia.
      specialize (IH Hs ltac:(set_solver)).
      destruct (insert_after_smaller h (reverse l)) as [back'|].
      * destruct IH as (l1 & l2 & -> & ? & E' & HS). exists l1, (l2 ++ [a]).
        rewrite reverse_cons, E', <- !app_assoc. split_and!; [done..|].
        rewrite app_comm_cons, app_assoc, sorted_app. split_and!; [done|constructor; constructor|].
        intros x y Hx ->%list_elem_of_singleton.
        rewrite elem_of_app, elem_of_cons in Hx.
        destruct Hx as [?|[->|?]]; [apply Hlt; set_solver|done|apply Hlt; set_solver].
      * rewrite app_comm_cons, sorted_app. split_and!; [done|constructor; constructor|].
        intros x y Hx ->%list_elem_of_singleton. rewrite elem_of_cons in Hx.
        destruct Hx as [->|?]; [done|apply Hlt; set_solver].
Qed.

(** The five ways an [add] goes. *)
Inductive add_spec (b : blocks) (h : Z) : Z * blocks -> Prop :=
| add_known : h ∈ heights b -> add_spec b h (0, b)
| add_inserted l1 l2 ix :
    heights b = l1 ++ l2 -> h ∉ heights b -> sorted (l1 ++ h :: l2) ->
    Z.of_nat (length (l1 ++ h :: l2)) <= maxLen b ->
    (forall x, x ∈ ix <-> x ∈ l1 ++ h :: l2) ->
    add_spec b h (0, mk_blocks (l1 ++ h :: l2) ix (maxLen b))
| add_evicted o l1 l2 ix :
    heights b = o :: l1 ++ l2 -> h ∉ heights b -> sorted (o :: l1 ++ h :: l2) ->
    Z.of_nat (length (heights b)) = maxLen b ->
    (forall x, x ∈ ix <-> x ∈ l1 ++ h :: l2) ->
    add_spec b h (o, mk_blocks (l1 ++ h :: l2) ix (maxLen b))
| add_too_old :
    h ∉ heights b -> sorted (h :: heights b) -> Z.of_nat (length (heights b)) = maxLen b ->
    add_spec b h (0, b).

Lemma add_add_spec b h : wf b -> add_spec b h (add b h).
Proof.
  intros [Hs Hi Hl Hm]. unfold add, exists_height.
  case_bool_decide as Hin; [apply add_known, Hi, Hin|]. rewrite Hi in Hin.
  assert (Hspec := insert_after_smaller_spec h (heights b) Hs Hin).
  destruct (insert_after_smaller h (reverse (heights b))) as [back'|].
  - destruct Hspec as (l1 & l2 & E & Hne & -> & Hsort).
    assert (Hix : forall x, x ∈ {[h]} ∪ index b <-> x ∈ l1 ++ h :: l2).
    { intros x. rewrite elem_of_union, elem_of_singleton, Hi, E. set_solver. }
    destruct (_ <? _) eqn:Elen; zbool; [|by apply add_inserted].
    destruct l1 as [|o l1]; [done|]. simpl in *.
    apply add_evicted; [done..| |].
    { rewrite E in Hl |- *. simpl in *. rewrite !length_app in *. simpl in *. lia. }
    apply sorted_NoDup, NoDup_cons in Hsort as [Ho _].
    intros x. rewrite elem_of_difference, elem_of_singleton, Hix. set_solver.
  - destruct (_ <? _) eqn:Elen; zbool; [|apply add_too_old; [done..|lia]].
    apply (add_inserted b h [] (heights b)); [done..|simpl; lia|].
    intros x. rewrite elem_of_union, elem_of_singleton, Hi. set_solver.
Qed.

Lemma newBlocks_wf n b : newBlocks n = Some b -> wf b /\ maxLen b = n /\ is_top n ∅ (heights b).
Proof.
  unfold newBlocks. destruct (n <=? 0) eqn:E; [done|]. intros [= <-]. zbool.
  split_and!; [split; simpl; try lia; [constructor|set_solver]|done|].
  split_and!; [constructor|set_solver|simpl; lia|set_solver].
Qed.

(** [add] keeps the representation invariant. *)
Lemma add_wf b h : wf b -> wf (add b h).2 /\ maxLen (add b h).2 = maxLen b.
Proof.
  intros Hwf. destruct (add_add_spec b h Hwf) as [|l1 l2 ix|o l1 l2 ix E ? S|]; simpl;
    (split; [|done]); destruct Hwf as [Hs Hi Hl Hm]; split; simpl; try done; try lia.
  - by apply sorted_cons in S as [? _].
  - rewrite E in *. simpl in *. rewrite !length_app in *. simpl. lia.
Qed.

(** Only the height that is added becomes known. *)
Lemma exists_height_add b k h : exists_height (add b k).2 h = true -> exists_height b h = true \/ h = k.
Proof.
  unfold exists_height. rewrite !bool_decide_eq_true. unfold add.
  repeat (case_match; simpl); set_solver.
Qed.

(** [add] refines the insertion of the height into the set of all heights. *)
Lemma add_is_top b h S :
  wf b -> is_top (maxLen b) S (heights b) ->
  is_top (maxLen b) ({[h]} ∪ S) (heights (add b h).2).
Proof.
  intros Hwf (_ & HI & HN & HT).
  assert (Hs := wf_sorted b Hwf).
  destruct (add_add_spec b h Hwf) as [Hin|l1 l2 ix E Hn HS HL _|o l1 l2 ix E Hn HS HL _|Hn HS HL]; simpl.
  - split_and!; [done|set_solver|done|]. intros x Hx Hx'. apply HT; set_solver.
  - rewrite E in *. split_and!; [done|set_solver|done|].
    intros x Hx Hx'. destruct (HT x) as [HL' _]; [set_solver..|].
    rewrite !length_app in *. simpl in *. lia.
  - rewrite E in *. apply sorted_cons in HS as [HS Ho].
    split_and!; [done|set_solver|simpl in *; rewrite !length_app in *; simpl in *; lia|].
    intros x Hx Hx'. split; [simpl in *; rewrite !length_app in *; simpl in *; lia|].
    intros y Hy. destruct (decide (x = o)) as [->|]; [auto|].
    destruct (HT x) as [_ HT']; [set_solver..|].
    specialize (HT' o ltac:(set_solver)). specialize (Ho y Hy). lia.
  - apply sorted_cons in HS as [_ HS]. split_and!; [done|set_solver|done|].
    intros x Hx Hx'. destruct (decide (x = h)) as [->|]; [done|]. apply HT; set_solver.
Qed.

Lemma add_all_is_top b hs S :
  wf b -> is_top (maxLen b) S (heights b) ->
  wf (add_all b hs) /\ maxLen (add_all b hs) = maxLen b /\
  is_top (maxLen b) (list_to_set hs ∪ S) (heights (add_all b hs)).
Proof.
  unfold add_all. revert b S. induction hs as [|h hs IH]; intros b S Hwf HT; simpl.
  - split_and!; [done..|]. by rewrite union_empty_l_L.
  - destruct (add_wf b h Hwf) as [Hwf' Hm].
    destruct (IH (add b h).2 ({[h]} ∪ S)) as (W & M & T); [done| |].
    { rewrite Hm. by apply add_is_top. }
    rewrite Hm in *. split_and!; [done..|].
    by replace ({[h]} ∪ list_to_set hs ∪ S) with (list_to_set hs ∪ ({[h]} ∪ S) : gset Z) by set_solver.
Qed.

(** ** Theorems *)

(** C37: a cache of [n] heights that was given the heights [hs], in any order
    and with repetitions, holds in increasing order the [n] largest of them,
    and [exists] answers for exactly these. *)
Theorem add_all_keeps_largest (n : Z) (b : blocks) (hs : list Z) :
  newBlocks n = Some b ->
  let b' := add_all b hs in
  is_top n (list_to_set hs) (heights b') /\
  (forall h, exists_height b' h = true <-> h ∈ heights b').
Proof.
  intros (Hwf & Hm & HT)%newBlocks_wf. subst n.
  destruct (add_all_is_top b hs ∅ Hwf HT) as (Hwf' & _ & HT').
  split; [by rewrite union_empty_r_L in HT'|].
  intros h. unfold exists_height. rewrite bool_decide_eq_true. apply Hwf'.
Qed.

Lemma add_all_keeps_largest_witness :
  let b' := add_all (mk_blocks [] ∅ 3) [5; 9; 1; 5; 7; 2; 8] in
  heights b' = [7; 8; 9] /\ is_top 3 (list_to_set [5; 9; 1; 5; 7; 2; 8]) (heights b').
Proof.
  split; [vm_compute; reflexivity|].
  apply (add_all_keeps_largest 3 (mk_blocks [] ∅ 3) [5; 9; 1; 5; 7; 2; 8]). reflexivity.
Defined.

(** The height [add] reports is the one it dropped: after [add], every
    height that was held still is, save the reported one, which was the
    smallest; and the only new height is the one added. *)
Theorem add_reports_evicted (b : blocks) (h : Z) :
  wf b ->
  let r := (add b h).1 in
  let b' := (add b h).2 in
  (forall x, x ∈ heights b -> x ∉ heights b' -> x = r) /\
  (forall x, x ∈ heights b' -> x ∈ heights b \/ x = h) /\
  (r <> 0 -> r ∈ heights b /\ r ∉ heights b' /\ forall y, y ∈ heights b' -> r < y).
Proof.
  intros Hwf. destruct (add_add_spec b h Hwf) as [Hin|l1 l2 ix E Hn HS HL _|o l1 l2 ix E Hn HS HL _|Hn HS HL]; simpl.
  - set_solver.
  - rewrite E. set_solver.
  - rewrite E. assert (Hnd := sorted_NoDup _ HS). apply NoDup_cons in Hnd as [Ho _].
    apply sorted_cons in HS as [_ HS]. split_and!; set_solver.
  - set_solver.
Qed.

Lemma add_reports_evicted_witness :
  let b := mk_blocks [5; 7; 9] {[5; 7; 9]} 3 in
  add b 8 = (5, mk_blocks [7; 8; 9] {[7; 8; 9]} 3) /\
  forall x, x ∈ heights b -> x ∉ heights (add b 8).2 -> x = (add b 8).1.
Proof.
  split; [vm_compute; reflexivity|].
  refine (proj1 (add_reports_evicted (mk_blocks [5; 7; 9] {[5; 7; 9]} 3) 8 _)).
  split; simpl; [|set_solver|lia|lia].
  repeat (constructor; [|repeat (constructor; [lia|]); constructor]). constructor.
Defined.
