(* ===== verification/GoFloat.v ===== *)
(** * The [float64] of the program

    IEEE 754 binary64 numbers and the operations the program applies to
    them, executable, on the Standard Library's [SpecFloat] (53 bits of
    mantissa, largest exponent 1024, rounding to nearest even): conversions
    from and to integers, arithmetic and comparison, [math.Abs],
    [math.Copysign] and [math.Log] (the algorithm of Go's [math/log.go]).

    The lemmas say that numbers [c * 2 ^ e] with [|c| < 2 ^ 53] are added,
    subtracted and truncated exactly: [dy c e] is that number. *)

From Stdlib Require Import Floats.SpecFloat.
From S2P Require Import Prelude.

(** ** Operations *)

Definition float64 : Type := spec_float.

Definition dy (c e : Z) : float64 := binary_normalize 53 1024 c e false.

(** [float64(z)] of an integer. *)
Definition of_Z (z : Z) : float64 := dy z 0.

Definition fadd (x y : float64) : float64 := SFadd 53 1024 x y.
Definition fsub (x y : float64) : float64 := SFsub 53 1024 x y.
Definition fmul (x y : float64) : float64 := SFmul 53 1024 x y.
Definition fdiv (x y : float64) : float64 := SFdiv 53 1024 x y.
Definition feqb (x y : float64) : bool := SFeqb x y.
Definition fltb (x y : float64) : bool := SFltb x y.
Definition fleb (x y : float64) : bool := SFleb x y.
Definition fabs (x : float64) : float64 := SFabs x.

Definition fzero : float64 := S754_zero false.

#[export] Instance float64_eq_dec : EqDecision float64.
Proof. unfold float64. solve_decision. Defined.

Definition sign_bit (x : float64) : bool :=
  match x with
  | S754_zero s | S754_infinity s | S754_finite s _ _ => s
  | S754_nan => false
  end.

(** [math.Copysign] *)
Definition copysign (x y : float64) : float64 :=
  if sign_bit y then SFopp (fabs x) else fabs x.

(** Truncation towards zero. *)
Definition trunc (x : float64) : option Z :=
  match x with
  | S754_zero _ => Some 0
  | S754_finite s m e =>
      let a := if 0 <=? e then Zpos m * 2 ^ e else Zpos m / 2 ^ (- e) in
      Some (if s then - a else a)
  | _ => None
  end.

(** [int64(x)]; out of range, amd64's conversion gives the smallest integer. *)
Definition to_int64 (x : float64) : Z :=
  match trunc x with
  | Some z => if bool_decide (GoInt.is_i64 z) then z else - 2 ^ 63
  | None => - 2 ^ 63
  end.

(** [int32(x)]: amd64 converts to an [int64] and keeps the low bits. *)
Definition to_int32 (x : float64) : Z := GoInt.i32 (to_int64 x).

(** [uint64(x)] of a number below [2 ^ 63]; beyond, amd64 converts
    [x - 2 ^ 63] and flips the top bit. *)
Definition to_uint64 (x : float64) : Z :=
  if fltb x (of_Z (2 ^ 63)) then GoInt.u64 (to_int64 x)
  else GoInt.u64 (to_int64 (fsub x (of_Z (2 ^ 63))) + 2 ^ 63).

(** ** [math.Log] *)

Definition Ln2Hi : float64 := dy 0x162e42fee00000 (-53).   (* 6.93147180369123816490e-01 *)
Definition Ln2Lo : float64 := dy 0x1a39ef35793c76 (-85).   (* 1.90821492927058770002e-10 *)
Definition L1 : float64 := dy 0x15555555555593 (-53).      (* 6.666666666666735130e-01 *)
Definition L2 : float64 := dy 0x1999999997fa04 (-54).      (* 3.999999999940941908e-01 *)
Definition L3 : float64 := dy 0x12492494229359 (-54).      (* 2.857142874366239149e-01 *)
Definition L4 : float64 := dy 0x1c71c51d8e78af (-55).      (* 2.222219843214978396e-01 *)
Definition L5 : float64 := dy 0x17466496cb03de (-55).      (* 1.818357216161805012e-01 *)
Definition L6 : float64 := dy 0x139a09d078c69f (-55).      (* 1.531383769920937332e-01 *)
Definition L7 : float64 := dy 0x12f112df3e5244 (-55).      (* 1.479819860511658591e-01 *)
Definition half_sqrt2 : float64 := dy 0x16a09e667f3bcd (-53).

Definition log_finite (x : float64) : float64 :=
  let '(f1, ki) := SFfrexp 53 1024 x in
  let '(f1, ki) := if fltb f1 half_sqrt2 then (fmul f1 (of_Z 2), ki - 1) else (f1, ki) in
  let f := fsub f1 (of_Z 1) in
  let k := of_Z ki in
  let s := fdiv f (fadd (of_Z 2) f) in
  let s2 := fmul s s in
  let s4 := fmul s2 s2 in
  let t1 := fmul s2 (fadd L1 (fmul s4 (fadd L3 (fmul s4 (fadd L5 (fmul s4 L7)))))) in
  let t2 := fmul s4 (fadd L2 (fmul s4 (fadd L4 (fmul s4 L6)))) in
  let R := fadd t1 t2 in
  let hfsq := fmul (fmul (dy 1 (-1)) f) f in
  fsub (fmul k Ln2Hi)
    (fsub (fsub hfsq (fadd (fmul s (fadd hfsq R)) (fmul k Ln2Lo))) f).

Definition log (x : float64) : float64 :=
  match x with
  | S754_nan | S754_infinity false => x
  | S754_infinity true | S754_finite true _ _ => S754_nan
  | S754_zero _ => S754_infinity true
  | S754_finite false _ _ => log_finite x
  end.

(** ** Decimal literals: the number nearest to [m * 10 ^ -k] *)

Definition exactly (z : Z) : spec_float :=
  match z with
  | 0 => fzero
  | Zpos p => S754_finite false p 0
  | Zneg p => S754_finite true p 0
  end.

Definition decimal (m k : Z) : float64 := SFdiv 53 1024 (exactly m) (exactly (10 ^ k)).

Example log_2 : log (of_Z 2) = dy 0x162e42fefa39ef (-53).
Proof. vm_compute. reflexivity. Qed.

(** ** Exactness *)

Lemma iter_pos_spec {A} (f : A -> A) p x : SpecFloat.iter_pos f p x = Pos.iter f x p.
Proof.
  revert x. induction p as [p IH|p IH|]; intros x; simpl; [|by rewrite !IH|done].
  by rewrite !IH, <- (Pos.iter_succ_r p _ f x), Pos.iter_succ, <- Pos.iter_succ_r, Pos.iter_succ.
Qed.

Lemma shr_exact n m :
  SpecFloat.iter_pos shr_1 n {| shr_m := Zpos m * 2 ^ Zpos n; shr_r := false; shr_s := false |} =
  {| shr_m := Zpos m; shr_r := false; shr_s := false |}.
Proof.
  rewrite iter_pos_spec. revert m. induction n as [|n IH] using Pos.peano_ind; intros m.
  - by replace (Zpos m * 2 ^ 1) with (Zpos m~0) by lia.
  - rewrite Pos.iter_succ_r, Pos2Z.inj_succ, Z.pow_succ_r, (Z.mul_comm 2), Z.mul_assoc by lia.
    rewrite <- (IH m). f_equal.
    rewrite (Z.mul_comm _ 2).
    by destruct (Zpos m * 2 ^ Zpos n) as [|q|q] eqn:E; [lia| |lia].
Qed.

Lemma digits2_pos_log2 p : Zpos (digits2_pos p) = Z.log2 (Zpos p) + 1.
Proof. induction p as [p IH|p IH|]; simpl in *; try done; rewrite Pos2Z.inj_succ, IH; destruct p; simpl; lia. Qed.

(** [dg p] is the number of binary digits of [p]. *)
Definition dg (p : positive) : Z := Zpos (digits2_pos p).

Lemma dg_shift p k : 0 <= k -> Zdigits2 (Zpos p * 2 ^ k) = dg p + k.
Proof.
  intros Hk. unfold dg. rewrite digits2_pos_log2.
  destruct (Zpos p * 2 ^ k) as [|q|q] eqn:E; try lia. cbn [Zdigits2].
  rewrite digits2_pos_log2, <- E.
  rewrite Z.log2_mul_pow2 by lia.
  lia.
Qed.

Lemma dg_bounds p : 2 ^ (dg p - 1) <= Zpos p < 2 ^ dg p.
Proof.
  unfold dg. rewrite digits2_pos_log2.
  replace (Z.log2 (Zpos p) + 1 - 1) with (Z.log2 (Zpos p)) by lia.
  apply Z.log2_spec. lia.
Qed.

Lemma dg_pos p : 0 < dg p.
Proof. unfold dg. lia. Qed.

Lemma dg_le p n : 0 <= n -> Zpos p < 2 ^ n -> dg p <= n.
Proof.
  intros Hn H. destruct (Z.le_gt_cases (dg p) n) as [|Hgt]; [done|].
  assert (2 ^ n <= 2 ^ (dg p - 1)) by (apply Z.pow_le_mono_r; lia).
  pose proof (dg_bounds p). lia.
Qed.

(** The representation of [c * 2 ^ e]. *)
Definition canon (s : bool) (c : positive) (e : Z) : float64 :=
  S754_finite s (Z.to_pos (Zpos c * 2 ^ (53 - dg c))) (e + dg c - 53).

Lemma fexp_id d e : -1021 <= e + d -> fexp 53 1024 (d + e) = d + e - 53.
Proof. unfold fexp, emin. lia. Qed.

Lemma iter_xO m p : Zpos (Pos.iter xO m p) = Zpos m * 2 ^ Zpos p.
Proof.
  revert m. induction p as [|p IH] using Pos.peano_ind; intros m.
  - simpl. lia.
  - rewrite Pos.iter_succ, Pos2Z.inj_succ, Z.pow_succ_r by lia.
    rewrite Pos2Z.inj_xO, IH. lia.
Qed.

Lemma shl_align_spec m e e' :
  Zpos (fst (shl_align m e e')) = Zpos m * 2 ^ Z.max 0 (e - e') /\
  snd (shl_align m e e') = Z.min e e'.
Proof.
  unfold shl_align. destruct (e' - e) as [|d|d] eqn:E; simpl.
  - rewrite Z.max_l by lia. split; lia.
  - rewrite Z.max_l by lia. split; lia.
  - rewrite iter_xO. replace (Z.max 0 (e - e')) with (Zpos d) by lia. split; lia.
Qed.

(** A mantissa of at least 53 digits with zeros behind the 53rd is exact. *)
Lemma binary_round_aux_exact s c k e :
  Zpos c < 2 ^ 53 -> -1021 <= e -> e + dg c <= 1024 -> 53 - dg c <= k ->
  binary_round_aux 53 1024 s (Zpos c * 2 ^ k) (e - k) loc_Exact = canon s c e.
Proof.
  intros Hc He1 He2 Hk. pose proof (dg_pos c) as Hd.
  assert (Hd' : dg c <= 53) by (apply dg_le; lia).
  unfold binary_round_aux, shr_fexp. rewrite dg_shift, fexp_id by lia.
  set (m := Z.to_pos (Zpos c * 2 ^ (53 - dg c))).
  assert (Hm : Zpos m = Zpos c * 2 ^ (53 - dg c)) by (subst m; rewrite Z2Pos.id; lia).
  assert (Hshr : shr (shr_record_of_loc (Zpos c * 2 ^ k) loc_Exact) (e - k) (dg c + k + (e - k) - 53 - (e - k)) =
    ({| shr_m := Zpos m; shr_r := false; shr_s := false |}, e + dg c - 53)).
  { simpl. destruct (dg c + k + (e - k) - 53 - (e - k)) as [|n|n] eqn:E; simpl; [| |lia].
    - rewrite Hm. replace k with (53 - dg c) by lia. f_equal. lia.
    - replace (Zpos c * 2 ^ k) with (Zpos m * 2 ^ Zpos n);
        [rewrite shr_exact; f_equal; lia|].
      rewrite Hm, <- Z.mul_assoc, <- Z.pow_add_r by lia. do 2 f_equal. lia. }
  rewrite Hshr. cbn [shr_m loc_of_shr_record round_nearest_even].
  replace (Zdigits2 (Zpos m)) with 53 by (rewrite Hm, dg_shift; lia).
  rewrite fexp_id by lia.
  replace (53 + (e + dg c - 53) - 53 - (e + dg c - 53)) with 0 by lia. simpl.
  destruct (Z.leb_spec (e + dg c - 53) (1024 - 53)); [|lia]. done.
Qed.

Lemma binary_round_exact s c k e :
  Zpos c < 2 ^ 53 -> -1021 <= e -> e + dg c <= 1024 -> 0 <= k ->
  forall m, Zpos m = Zpos c * 2 ^ k -> binary_round 53 1024 s m (e - k) = canon s c e.
Proof.
  intros Hc He1 He2 Hk m Hm. pose proof (dg_pos c) as Hd.
  unfold binary_round.
  assert (Hdm : Zpos (digits2_pos m) = dg c + k).
  { change (Zpos (digits2_pos m)) with (Zdigits2 (Zpos m)). rewrite Hm. by apply dg_shift. }
  rewrite Hdm, fexp_id by lia.
  destruct (shl_align m (e - k) (dg c + k + (e - k) - 53)) as [mz ez] eqn:E.
  destruct (shl_align_spec m (e - k) (dg c + k + (e - k) - 53)) as [E1 E2].
  rewrite E in E1, E2. simpl in E1, E2. rewrite E1, E2, Hm, <- Z.mul_assoc, <- Z.pow_add_r by lia.
  replace (Z.min (e - k) (dg c + k + (e - k) - 53))
    with (e - (k + Z.max 0 (e - k - (dg c + k + (e - k) - 53)))) by lia.
  apply binary_round_aux_exact; lia.
Qed.

Lemma binary_round_canon s c e :
  Zpos c < 2 ^ 53 -> -1021 <= e -> e + dg c <= 1024 ->
  binary_round 53 1024 s c e = canon s c e.
Proof.
  intros. rewrite <- (binary_round_exact s c 0 e) with (m := c) by lia. by rewrite Z.sub_0_r.
Qed.

(** Integers that are mantissas, and exponents far from the ends. *)
Definition small (c : Z) : Prop := - 2 ^ 53 < c < 2 ^ 53.
Definition mid (e : Z) : Prop := -1021 <= e <= 971.

Lemma dy_0 e : dy 0 e = fzero.
Proof. done. Qed.

Lemma dy_shift c e k : small c -> mid e -> 0 <= k -> dy (c * 2 ^ k) (e - k) = dy c e.
Proof.
  intros Hc [He1 He2] Hk. unfold dy, small in *.
  destruct c as [|c|c]; [done| |].
  all: assert (Hd : dg c <= 53) by (apply dg_le; lia).
  - destruct (Zpos c * 2 ^ k) as [|m|m] eqn:E; [lia| |lia]. simpl.
    rewrite (binary_round_exact false c k e) by lia.
    by rewrite binary_round_canon by lia.
  - destruct (Zneg c * 2 ^ k) as [|m|m] eqn:E; [lia|lia|]. simpl.
    rewrite (binary_round_exact true c k e) by lia.
    by rewrite binary_round_canon by lia.
Qed.

(** The representation of a nonzero [c * 2 ^ e]. *)
Lemma dy_finite c e :
  c <> 0 -> small c -> mid e ->
  exists m k, dy c e = S754_finite (c <? 0) m (e - k) /\ 0 <= k /\ Zpos m = Z.abs c * 2 ^ k.
Proof.
  intros Hc0 Hc [He1 He2]. unfold dy, small in *.
  destruct c as [|c|c]; [done| |].
  all: assert (Hd : dg c <= 53) by (apply dg_le; lia); simpl.
  all: rewrite binary_round_canon by lia.
  all: exists (Z.to_pos (Zpos c * 2 ^ (53 - dg c))), (53 - dg c).
  all: unfold canon; rewrite Z2Pos.id by lia; split_and!; [f_equal; lia|lia|done].
Qed.

Lemma align_dy c e m k ez :
  Zpos m = Z.abs c * 2 ^ k -> 0 <= k -> ez <= e - k ->
  cond_Zopp (c <? 0) (Zpos (fst (shl_align m (e - k) ez))) = c * 2 ^ (e - ez).
Proof.
  intros Hm Hk Hez. rewrite (proj1 (shl_align_spec m (e - k) ez)), Hm.
  rewrite <- Z.mul_assoc, <- Z.pow_add_r by lia.
  replace (k + Z.max 0 (e - k - ez)) with (e - ez) by lia.
  destruct (Z.ltb_spec c 0); simpl; [rewrite Z.abs_neq by lia|rewrite Z.abs_eq by lia]; lia.
Qed.

Section Exact.
Context (e : Z) (He : mid e).

Lemma fadd_dy a b : small a -> small b -> small (a + b) -> fadd (dy a e) (dy b e) = dy (a + b) e.
Proof.
  intros Ha Hb Hab. destruct (decide (a = 0)) as [->|Ha0]; [|destruct (decide (b = 0)) as [->|Hb0]].
  - rewrite dy_0, Z.add_0_l. destruct (decide (b = 0)) as [->|Hb0]; [done|].
    by destruct (dy_finite b e Hb0 Hb He) as (m & k & -> & _).
  - rewrite dy_0, Z.add_0_r. by destruct (dy_finite a e Ha0 Ha He) as (m & k & -> & _).
  - destruct (dy_finite a e Ha0 Ha He) as (m1 & k1 & -> & Hk1 & Hm1).
    destruct (dy_finite b e Hb0 Hb He) as (m2 & k2 & -> & Hk2 & Hm2).
    unfold fadd. cbn [SFadd]. rewrite !align_dy by (done || lia).
    rewrite <- Z.mul_add_distr_r. set (k := e - Z.min (e - k1) (e - k2)).
    replace (Z.min (e - k1) (e - k2)) with (e - k) by lia.
    apply dy_shift; [done..|lia].
Qed.

Lemma fsub_dy a b : small a -> small b -> small (a - b) -> fsub (dy a e) (dy b e) = dy (a - b) e.
Proof.
  intros Ha Hb Hab. destruct (decide (a = 0)) as [->|Ha0]; [|destruct (decide (b = 0)) as [->|Hb0]].
  - rewrite dy_0, Z.sub_0_l. destruct b as [|b|b]; [done| |].
    all: destruct (dy_finite (Zpos b) e) as (m & k & E & Hk & Hm); [lia|unfold small in *; lia|done|].
    all: unfold dy in *; simpl in *; unfold binary_round in *;
      destruct (shl_align b e (fexp 53 1024 (Zpos (digits2_pos b) + e))) as [mz ez];
      unfold binary_round_aux in *;
      destruct (shr_fexp 53 1024 (Zpos mz) ez loc_Exact) as [mrs e'];
      destruct (shr_fexp 53 1024 _ e' loc_Exact) as [mrs' e''];
      destruct (shr_m mrs') as [|q|q]; try done; by destruct (e'' <=? 1024 - 53).
  - rewrite dy_0, Z.sub_0_r. by destruct (dy_finite a e Ha0 Ha He) as (m & k & -> & _).
  - destruct (dy_finite a e Ha0 Ha He) as (m1 & k1 & -> & Hk1 & Hm1).
    destruct (dy_finite b e Hb0 Hb He) as (m2 & k2 & -> & Hk2 & Hm2).
    unfold fsub. cbn [SFsub]. rewrite !align_dy by (done || lia).
    rewrite <- Z.mul_sub_distr_r. set (k := e - Z.min (e - k1) (e - k2)).
    replace (Z.min (e - k1) (e - k2)) with (e - k) by lia.
    apply dy_shift; [done..|lia].
Qed.

(** Truncation towards zero of [c * 2 ^ e], for [e <= 0]. *)
Lemma trunc_dy c : e <= 0 -> small c -> trunc (dy c e) = Some (Z.quot c (2 ^ (- e))).
Proof.
  intros He0 Hc. destruct (decide (c = 0)) as [->|Hc0].
  { by rewrite dy_0, Z.quot_0_l by (apply Z.pow_nonzero; lia). }
  destruct (dy_finite c e Hc0 Hc He) as (m & k & -> & Hk & Hm). cbn [trunc].
  assert (Hp : 0 < 2 ^ (- e)) by (apply Z.pow_pos_nonneg; lia).
  assert (E : (if 0 <=? e - k then Zpos m * 2 ^ (e - k) else Zpos m / 2 ^ (- (e - k))) = Z.abs c / 2 ^ (- e)).
  { rewrite Hm. destruct (Z.leb_spec 0 (e - k)).
    - replace k with 0 by lia. replace e with 0 by lia. simpl. rewrite Z.div_1_r. lia.
    - replace (- (e - k)) with (- e + k) by lia. rewrite Z.pow_add_r by lia.
      rewrite Z.div_mul_cancel_r; [done|lia|apply Z.pow_nonzero; lia]. }
  rewrite E. f_equal. destruct (Z.ltb_spec c 0).
  - rewrite Z.abs_neq by lia. rewrite <- (Z.quot_div_nonneg (- c)) by lia.
    rewrite Z.quot_opp_l by lia. lia.
  - rewrite Z.abs_eq by lia. by rewrite Z.quot_div_nonneg by lia.
Qed.

End Exact.

Lemma to_int64_of_Z z : small z -> to_int64 (of_Z z) = z.
Proof.
  intros Hz. unfold to_int64, of_Z. rewrite trunc_dy by (done || (unfold mid; lia)).
  rewrite Z.quot_1_r. rewrite bool_decide_eq_true_2; [done|].
  unfold small, GoInt.is_i64 in *. lia.
Qed.

(** A small number is zero only if the integer is. *)
Lemma feqb_of_Z_0 z : small z -> feqb (of_Z z) fzero = (z =? 0).
Proof.
  intros Hz. destruct (Z.eqb_spec z 0) as [->|Hn]; [done|].
  destruct (dy_finite z 0) as (m & k & E & _); [done..|unfold mid; lia|].
  unfold of_Z, feqb. rewrite E. by destruct (z <? 0).
Qed.

(** ** Comparison *)

Lemma dy_canon (s : bool) p e :
  Zpos p < 2 ^ 53 -> mid e -> dy (if s then Zneg p else Zpos p) e = canon s p e.
Proof.
  intros Hp [He1 He2]. assert (Hd : dg p <= 53) by (apply dg_le; lia).
  unfold dy. destruct s; simpl; by rewrite binary_round_canon by lia.
Qed.

Lemma compare_digits p q : dg p < dg q -> Zpos p < Zpos q.
Proof.
  intros H. pose proof (dg_bounds p). pose proof (dg_bounds q). pose proof (dg_pos p).
  assert (2 ^ dg p <= 2 ^ (dg q - 1)) by (apply Z.pow_le_mono_r; lia). lia.
Qed.

(** Magnitudes compare by exponent, then by mantissa. *)
Lemma compare_canon p q e :
  Zpos p < 2 ^ 53 -> Zpos q < 2 ^ 53 ->
  SFcompare (canon false p e) (canon false q e) = Some (Z.compare (Zpos p) (Zpos q)) /\
  SFcompare (canon true p e) (canon true q e) = Some (Z.compare (Zpos q) (Zpos p)).
Proof.
  intros Hp Hq. unfold canon. cbn [SFcompare].
  set (mp := Z.to_pos _). set (mq := Z.to_pos (Zpos q * _)).
  assert (E : match e + dg p - 53 ?= e + dg q - 53 with
              | Eq => Pos.compare_cont Eq mp mq | Lt => Lt | Gt => Gt end = (Zpos p ?= Zpos q)).
  { destruct (Z.compare_spec (e + dg p - 53) (e + dg q - 53)) as [E|E|E].
    - change (Pos.compare_cont Eq mp mq) with (Zpos mp ?= Zpos mq).
      assert (dg p <= 53) by (apply dg_le; lia). assert (dg q = dg p) as Hd by lia.
      subst mp mq. rewrite Hd, !Z2Pos.id by lia. symmetry.
      apply Zmult_compare_compat_r. lia.
    - symmetry. apply Z.compare_lt_iff, compare_digits. lia.
    - symmetry. apply Z.compare_gt_iff, compare_digits. lia. }
  split; [by rewrite E|]. rewrite (Z.compare_antisym (Zpos p)), <- E. f_equal.
  by destruct (e + dg p - 53 ?= e + dg q - 53).
Qed.

Lemma SFcompare_dy a b e :
  small a -> small b -> mid e -> SFcompare (dy a e) (dy b e) = Some (Z.compare a b).
Proof.
  unfold small. intros Ha Hb He.
  destruct a as [|p|p], b as [|q|q]; try done;
    try (rewrite (dy_canon false p) by (lia || done)); try (rewrite (dy_canon true p) by (lia || done));
    try (rewrite (dy_canon false q) by (lia || done)); try (rewrite (dy_canon true q) by (lia || done));
    try done.
  - by apply (compare_canon p q e); lia.
  - rewrite (proj2 (compare_canon p q e ltac:(lia) ltac:(lia))). f_equal. simpl.
    by rewrite <- Pos.compare_antisym.
Qed.

Lemma fltb_dy a b e : small a -> small b -> mid e -> fltb (dy a e) (dy b e) = (a <? b).
Proof. intros. unfold fltb, SFltb. rewrite SFcompare_dy by done. done. Qed.

Lemma fleb_dy a b e : small a -> small b -> mid e -> fleb (dy a e) (dy b e) = (a <=? b).
Proof. intros. unfold fleb, SFleb. rewrite SFcompare_dy by done. done. Qed.

#[global] Arguments dy : simpl never.

Lemma fabs_dy a e : small a -> mid e -> fabs (dy a e) = dy (Z.abs a) e.
Proof.
  unfold small. intros Ha He. destruct a as [|p|p]; [done| |].
  - change (Z.abs (Zpos p)) with (Zpos p). by rewrite (dy_canon false p) by (lia || done).
  - change (Z.abs (Zneg p)) with (Zpos p).
    rewrite (dy_canon true p) by (lia || done). by rewrite (dy_canon false p) by (lia || done).
Qed.

Lemma copysign_dy a b e :
  0 < b -> small a -> small b -> mid e ->
  copysign (dy b e) (dy a e) = dy (if a <? 0 then - b else b) e.
Proof.
  unfold small. intros H0 Ha Hb He. unfold copysign.
  rewrite fabs_dy, Z.abs_eq by (lia || done).
  destruct b as [|q|q]; try lia.
  destruct a as [|p|p]; [done| |]; cbn [Z.ltb Z.compare Z.opp].
  - by rewrite (dy_canon false p) by (lia || done).
  - rewrite (dy_canon true p), (dy_canon false q), (dy_canon true q) by (lia || done). done.
Qed.
