(* ===== verification/GoParse.v ===== *)
(** * [strconv.ParseInt] and [strconv.ParseFloat]

    Parsing of signed integers in base 10 and of decimal floating-point
    numbers, as far as Go 1.11 accepts them: a sign, digits with at most one
    point, an exponent; or an infinity or a NaN by name.  The number is the
    [float64] nearest to the decimal; a result that is infinite is an error. *)

From Stdlib Require Import Ascii String.
From S2P Require Import Prelude GoStrings GoFloat.
Open Scope string_scope.
Open Scope list_scope.
Open Scope Z_scope.

(** ** [ParseInt(s, 10, 64)] *)

Definition is_digit (c : Z) : bool := (48 <=? c) && (c <=? 57).

Definition sign_of (s : list Z) : bool * list Z :=
  match s with
  | 43 :: s' => (false, s')
  | 45 :: s' => (true, s')
  | _ => (false, s)
  end.

Definition ParseInt (s : list Z) : result num_error Z :=
  let '(neg, s') := sign_of s in
  match ParseUint s' with
  | Err e => Err e
  | Ok un =>
      if negb neg && (2 ^ 63 <=? un) then Err ErrRange
      else if neg && (2 ^ 63 <? un) then Err ErrRange
      else Ok (if neg then - un else un)
  end.

(** ** [ParseFloat(s, 64)] *)

Fixpoint take_digits (s : list Z) : list Z * list Z :=
  match s with
  | c :: s' => if is_digit c then let '(ds, r) := take_digits s' in (c - 48 :: ds, r) else ([], s)
  | [] => ([], [])
  end.

(** The exponent, if there is one: its value is capped, as in [readFloat]. *)
Definition cap_exponent (e : Z) (d : Z) : Z := if e <? 10000 then e * 10 + d else e.

Definition read_exponent (s : list Z) : option Z :=
  match s with
  | [] => Some 0
  | c :: s' =>
      if (c =? 101) || (c =? 69) then
        let '(neg, s'') := sign_of s' in
        let '(ds, r) := take_digits s'' in
        match ds, r with
        | _ :: _, [] => Some (let e := foldl cap_exponent 0 ds in if neg then - e else e)
        | _, _ => None
        end
      else None
  end.

(** Mantissa and decimal exponent. *)
Definition read_decimal (s : list Z) : option (Z * Z) :=
  let '(ints, r) := take_digits s in
  let '(frac, r) := match r with 46 :: r' => take_digits r' | _ => ([], r) end in
  match ints ++ frac with
  | [] => None
  | ds => match read_exponent r with
          | Some e => Some (value 10 ds, e - Z.of_nat (List.length frac))
          | None => None
          end
  end.

Definition lower (c : Z) : Z := if (65 <=? c) && (c <=? 90) then c + 32 else c.

Definition is_infinite (f : float64) : bool :=
  match f with Floats.SpecFloat.S754_infinity _ => true | _ => false end.

Definition ParseFloat (s : list Z) : result num_error float64 :=
  let '(neg, s') := sign_of s in
  let name := lower <$> s' in
  if bool_decide (name = bytes "inf") || bool_decide (name = bytes "infinity")
  then Ok (Floats.SpecFloat.S754_infinity neg)
  else if bool_decide ((lower <$> s) = bytes "nan") then Ok Floats.SpecFloat.S754_nan
  else match read_decimal s' with
       | None => Err ErrSyntax
       | Some (m, e) =>
           let f := if 0 <=? e then decimal (m * 10 ^ e) 0 else decimal m (- e) in
           let f := if neg then Floats.SpecFloat.SFopp f else f in
           if is_infinite f then Err ErrRange else Ok f
       end.

Example ParseInt_examples :
  ParseInt (bytes "-9223372036854775808") = Ok (- 2 ^ 63) /\
  ParseInt (bytes "9223372036854775808") = Err ErrRange /\
  ParseInt (bytes "+12") = Ok 12 /\ ParseInt (bytes "1.5") = Err ErrSyntax /\ ParseInt [] = Err ErrSyntax.
Proof. by vm_compute. Qed.

Example ParseFloat_examples :
  ParseFloat (bytes "1.5e3") = Ok (of_Z 1500) /\ ParseFloat (bytes ".5") = Ok (dy 1 (-1)) /\
  ParseFloat (bytes "1e400") = Err ErrRange /\ ParseFloat (bytes ".") = Err ErrSyntax /\
  ParseFloat (bytes "hello") = Err ErrSyntax /\ ParseFloat (bytes "-0") = Ok (Floats.SpecFloat.S754_zero true).
Proof. by vm_compute. Qed.
