(* ===== verification/GoJson.v ===== *)
(** * [encoding/json]: the text

    Strings, numbers and values of JSON as Go's library reads and writes
    them: [parse] is the validation and the reading of a text in one,
    [print] writes a value the way [json.Marshal] does, without spaces.  A
    string that is read or written is coerced to UTF-8.  Theorems: [JsonText]. *)

From S2P Require Import Prelude GoStrings GoParse.
Open Scope list_scope.
Open Scope Z_scope.

(** ** UTF-8 *)

(** [utf8.DecodeRune]: how many of the bytes of [s] continue the sequence
    that [c] starts; 0 if there is none. *)
Definition in_range (lo hi c : Z) : bool := (lo <=? c) && (c <=? hi).

Definition continuation (c : Z) : bool := in_range 128 191 c.

Definition continued (c : Z) (s : list Z) : nat :=
  if in_range 194 223 c then
    match s with c1 :: _ => if continuation c1 then 1 else 0 | _ => 0 end
  else if in_range 224 239 c then
    match s with
    | c1 :: c2 :: _ =>
        if in_range (if c =? 224 then 160 else 128) (if c =? 237 then 159 else 191) c1 && continuation c2 then 2 else 0
    | _ => 0
    end
  else if in_range 240 244 c then
    match s with
    | c1 :: c2 :: c3 :: _ =>
        if in_range (if c =? 240 then 144 else 128) (if c =? 244 then 143 else 191) c1 &&
           continuation c2 && continuation c3 then 3 else 0
    | _ => 0
    end
  else 0%nat.

(** U+FFFD *)
Definition replacement : list Z := [239; 191; 189].

(** The runes of a string: each with its bytes, the replacement for a byte
    that is none. *)
Fixpoint runes (s : list Z) : list (bool * list Z) :=
  match s with
  | [] => []
  | c :: s' =>
      if c <? 128 then (true, [c]) :: runes s'
      else match continued c s', s' with
           | 1%nat, c1 :: s1 => (true, [c; c1]) :: runes s1
           | 2%nat, c1 :: c2 :: s2 => (true, [c; c1; c2]) :: runes s2
           | 3%nat, c1 :: c2 :: c3 :: s3 => (true, [c; c1; c2; c3]) :: runes s3
           | _, _ => (false, replacement) :: runes s'
           end
  end.

Definition coerce (s : list Z) : list Z := concat (snd <$> runes s).

Definition valid_utf8 (s : list Z) : Prop := forallb fst (runes s) = true.

(** [utf8.EncodeRune] on code points that are no surrogates *)
Definition EncodeRune (r : Z) : list Z :=
  if r <? 128 then [r]
  else if r <? 2048 then [192 + r / 64; 128 + r mod 64]
  else if r <? 65536 then [224 + r / 4096; 128 + (r / 64) mod 64; 128 + r mod 64]
  else [240 + r / 262144; 128 + (r / 4096) mod 64; 128 + (r / 64) mod 64; 128 + r mod 64].

(** ** Strings *)

(** The character after a backslash. *)
Definition simple_escape (c : Z) : option Z :=
  if (c =? 34) || (c =? 92) || (c =? 47) then Some c
  else if c =? 98 then Some 8
  else if c =? 102 then Some 12
  else if c =? 110 then Some 10
  else if c =? 114 then Some 13
  else if c =? 116 then Some 9
  else None.

(** What a literal consists of, up to the quote that ends it: bytes, and
    UTF-16 code units written in hexadecimal. *)
Inductive piece := Byte (c : Z) | Unit_ (u : Z).

Definition getu4 (a b c d : Z) : option Z :=
  match hex_value a, hex_value b, hex_value c, hex_value d with
  | Some a, Some b, Some c, Some d => Some (4096 * a + 256 * b + 16 * c + d)
  | _, _, _, _ => None
  end.

Fixpoint scan_string (s : list Z) : option (list piece * list Z) :=
  match s with
  | [] => None
  | c :: s' =>
      if c =? 34 then Some ([], s')
      else if c =? 92 then
        match s' with
        | [] => None
        | e :: s1 =>
            if e =? 117 then
              match s1 with
              | h1 :: h2 :: h3 :: h4 :: s2 =>
                  u ← getu4 h1 h2 h3 h4; '(ps, r) ← scan_string s2; Some (Unit_ u :: ps, r)
              | _ => None
              end
            else b ← simple_escape e; '(ps, r) ← scan_string s1; Some (Byte b :: ps, r)
        end
      else if c <? 32 then None
      else '(ps, r) ← scan_string s'; Some (Byte c :: ps, r)
  end.

Definition high_surrogate (u : Z) : bool := in_range 55296 56319 u.
Definition low_surrogate (u : Z) : bool := in_range 56320 57343 u.

(** The bytes of the code units: a surrogate without its partner becomes the
    replacement character. *)
Fixpoint expand (ps : list piece) : list Z :=
  match ps with
  | [] => []
  | Byte c :: ps' => c :: expand ps'
  | Unit_ u :: ps' =>
      if high_surrogate u || low_surrogate u then
        match ps' with
        | Unit_ v :: ps'' =>
            if high_surrogate u && low_surrogate v
            then EncodeRune (65536 + 1024 * (u - 55296) + (v - 56320)) ++ expand ps''
            else replacement ++ expand ps'
        | _ => replacement ++ expand ps'
        end
      else EncodeRune u ++ expand ps'
  end.

(** After the opening quote: the string, and what follows the closing one. *)
Definition parse_string (s : list Z) : option (list Z * list Z) :=
  '(ps, r) ← scan_string s; Some (coerce (expand ps), r).

(** The writing of a rune by [json.Marshal], which escapes what matters in
    HTML, and U+2028 and U+2029. *)
Definition unicode_escape (a b c d : Z) : list Z := [92; 117; lower_hex a; lower_hex b; lower_hex c; lower_hex d].

Definition marshal_rune (r : bool * list Z) : list Z :=
  match r.2 with
  | [c] =>
      if (c =? 34) || (c =? 92) then [92; c]
      else if c =? 10 then [92; 110]
      else if c =? 13 then [92; 114]
      else if c =? 9 then [92; 116]
      else if (c <? 32) || (c =? 60) || (c =? 62) || (c =? 38) then unicode_escape 0 0 (c / 16) (c mod 16)
      else [c]
  | cs =>
      if negb r.1 then unicode_escape 15 15 15 13
      else if bool_decide (cs = [226; 128; 168]) then unicode_escape 2 0 2 8
      else if bool_decide (cs = [226; 128; 169]) then unicode_escape 2 0 2 9
      else cs
  end.

Definition marshal_string (s : list Z) : list Z := 34 :: concat (marshal_rune <$> runes s) ++ [34].

(** ** Numbers *)

(** The longest prefix of digits. *)
Fixpoint span_digits (s : list Z) : list Z * list Z :=
  match s with
  | c :: s' => if is_digit c then let '(ds, r) := span_digits s' in (c :: ds, r) else ([], s)
  | [] => ([], [])
  end.

Definition digits1 (s : list Z) : option (list Z * list Z) :=
  match span_digits s with ([], _) => None | p => Some p end.

Definition integer_part (s : list Z) : option (list Z * list Z) :=
  match s with
  | c :: s' => if c =? 48 then Some ([c], s') else digits1 s
  | [] => None
  end.

Definition fraction (s : list Z) : option (list Z * list Z) :=
  match s with
  | c :: s' => if c =? 46 then '(ds, r) ← digits1 s'; Some (c :: ds, r) else Some ([], s)
  | [] => Some ([], [])
  end.

Definition exponent (s : list Z) : option (list Z * list Z) :=
  match s with
  | c :: s' =>
      if (c =? 101) || (c =? 69) then
        match s' with
        | d :: s'' =>
            if (d =? 43) || (d =? 45)
            then '(ds, r) ← digits1 s''; Some (c :: d :: ds, r)
            else '(ds, r) ← digits1 s'; Some (c :: ds, r)
        | [] => None
        end
      else Some ([], s)
  | [] => Some ([], [])
  end.

(** The literal and what follows it. *)
Definition parse_number (s : list Z) : option (list Z * list Z) :=
  let '(sign, s) := match s with c :: s' => if c =? 45 then ([c], s') else ([], s) | [] => ([], []) end in
  '(a, s) ← integer_part s;
  '(b, s) ← fraction s;
  '(c, s) ← exponent s;
  Some (sign ++ a ++ b ++ c, s).

(** ** Values *)

(** A number is kept as it is written; an object as its members in the order
    of the text. *)
Unset Elimination Schemes.
Inductive json :=
| JNull
| JBool (b : bool)
| JNum (lit : list Z)
| JStr (s : list Z)
| JArr (l : list json)
| JObj (l : list (list Z * json)).
Set Elimination Schemes.

(** Induction with the hypothesis for the elements and the members. *)
Lemma json_ind (P : json -> Prop) :
  P JNull -> (forall b, P (JBool b)) -> (forall lit, P (JNum lit)) -> (forall s, P (JStr s)) ->
  (forall l, Forall P l -> P (JArr l)) -> (forall l, Forall (fun p => P p.2) l -> P (JObj l)) ->
  forall j, P j.
Proof.
  intros Hn Hb Hnum Hs Ha Ho. fix IH 1. intros [| | | |l|l]; [done|done|done|done|apply Ha|apply Ho].
  - induction l as [|j l IHl]; constructor; [apply IH|exact IHl].
  - induction l as [|[k j] l IHl]; constructor; [apply IH|exact IHl].
Qed.

Definition is_space (c : Z) : bool := (c =? 32) || (c =? 9) || (c =? 13) || (c =? 10).

Fixpoint skip_space (s : list Z) : list Z :=
  match s with c :: s' => if is_space c then skip_space s' else s | [] => [] end.

(** What follows the prefix [p]. *)
Fixpoint after (p s : list Z) : option (list Z) :=
  match p, s with
  | [], _ => Some s
  | a :: p', c :: s' => if a =? c then after p' s' else None
  | _ :: _, [] => None
  end.

Definition literal (s : list Z) : option (json * list Z) :=
  match after (bytes "null") s, after (bytes "true") s, after (bytes "false") s with
  | Some r, _, _ => Some (JNull, r)
  | _, Some r, _ => Some (JBool true, r)
  | _, _, Some r => Some (JBool false, r)
  | _, _, _ => '(lit, r) ← parse_number s; Some (JNum lit, r)
  end.

(** [c] after white space. *)
Definition expect (c : Z) (s : list Z) : option (list Z) := after [c] (skip_space s).

Section Items.
Context {A : Type} (item : list Z -> option (A * list Z)) (items : list Z -> option (list A * list Z)) (close : Z).

(** An item, and the others up to the closing bracket. *)
Definition one_or_more (s : list Z) : option (list A * list Z) :=
  '(x, r) ← item s;
  match expect 44 r with
  | Some r => '(l, r) ← items r; Some (x :: l, r)
  | None => r ← expect close r; Some ([x], r)
  end.

Definition none_or_more (s : list Z) : option (list A * list Z) :=
  match expect close s with Some r => Some ([], r) | None => items s end.
End Items.

Definition member (value : list Z -> option (json * list Z)) (s : list Z) : option ((list Z * json) * list Z) :=
  r ← expect 34 s; '(k, r) ← parse_string r; r ← expect 58 r; '(v, r) ← value r; Some ((k, v), r).

Fixpoint parse_value (fuel : nat) (s : list Z) {struct fuel} : option (json * list Z) :=
  match fuel with
  | O => None
  | S f =>
      match skip_space s with
      | [] => None
      | c :: r =>
          if c =? 34 then '(t, r) ← parse_string r; Some (JStr t, r)
          else if c =? 91 then '(l, r) ← none_or_more (parse_elements f) 93 r; Some (JArr l, r)
          else if c =? 123 then '(l, r) ← none_or_more (parse_members f) 125 r; Some (JObj l, r)
          else literal (c :: r)
      end
  end
with parse_elements (fuel : nat) (s : list Z) {struct fuel} : option (list json * list Z) :=
  match fuel with
  | O => None
  | S f => one_or_more (parse_value f) (parse_elements f) 93 s
  end
with parse_members (fuel : nat) (s : list Z) {struct fuel} : option (list (list Z * json) * list Z) :=
  match fuel with
  | O => None
  | S f => one_or_more (member (parse_value f)) (parse_members f) 125 s
  end.

Definition fuel_for (s : list Z) : nat := S (2 * List.length s).

Definition parse (s : list Z) : option json :=
  '(j, r) ← parse_value (fuel_for s) s;
  match skip_space r with [] => Some j | _ => None end.

(** ** Printing *)

Fixpoint print (j : json) : list Z :=
  match j with
  | JNull => bytes "null"
  | JBool b => bytes (if b then "true" else "false")
  | JNum lit => lit
  | JStr s => marshal_string s
  | JArr l => 91 :: join 44 (print <$> l) ++ [93]
  | JObj l => 123 :: join 44 ((fun p => marshal_string p.1 ++ 58 :: print p.2) <$> l) ++ [125]
  end.

Example parse_examples :
  parse (bytes " [1, -0.5e+3 ,true,null,{}] ")
  = Some (JArr [JNum (bytes "1"); JNum (bytes "-0.5e+3"); JBool true; JNull; JObj []]) /\
  parse (bytes "01") = None /\ parse (bytes "1.") = None /\ parse (bytes "[1,]") = None /\
  parse (bytes "nul") = None /\ parse (bytes "{} {}") = None /\ parse [] = None /\
  parse (34 :: bytes "\u00e9\ud83d\ude00\ud83dA\n" ++ [255; 34])
  = Some (JStr ([195; 169; 240; 159; 152; 128] ++ replacement ++ [65; 10] ++ replacement)) /\
  parse (34 :: [10; 34]) = None /\
  print (JObj [(bytes "a<", JStr (bytes "x/\"))]) = bytes "{" ++ 34 :: bytes "a\u003c" ++ 34 :: bytes ":" ++ 34 :: bytes "x/\\" ++ 34 :: bytes "}".
Proof. by vm_compute. Qed.
