(* ===== verification/JsonText.v ===== *)
(** * [encoding/json]: reading what was written

    The fuel of the parser, twice the length of the text, is enough
    ([parse_value_fuel]); a string is read as it was written, coerced to
    UTF-8 ([parse_marshal_string]); and so is every well-formed value
    ([parse_print]). *)

From S2P Require Import Prelude GoStrings GoParse GoJson.
Open Scope list_scope.
Open Scope Z_scope.

(** ** Fuel *)

Definition shrinks {A} (f : list Z -> option (A * list Z)) : Prop :=
  forall s x r, f s = Some (x, r) -> (List.length r < List.length s)%nat.

Lemma after_shrinks c s r : after [c] s = Some r -> (List.length r < List.length s)%nat.
Proof. destruct s as [|a s]; simpl; [done|]. destruct (c =? a); [|done]. intros [= <-]. lia. Qed.

Lemma skip_space_length s : (List.length (skip_space s) <= List.length s)%nat.
Proof. induction s as [|c s IH]; simpl; [lia|]. destruct (is_space c); simpl in *; lia. Qed.

Lemma expect_shrinks c s r : expect c s = Some r -> (List.length r < List.length s)%nat.
Proof. unfold expect. intros H%after_shrinks. pose proof (skip_space_length s). lia. Qed.

Lemma after_length p s r : after p s = Some r -> (List.length r + List.length p = List.length s)%nat.
Proof.
  revert s. induction p as [|a p IH]; intros [|c s] E; simpl in *; try done; [by injection E as <-| |].
  - injection E as <-. simpl. lia.
  - destruct (a =? c); [|done]. apply IH in E. lia.
Qed.

Lemma scan_string_shrinks : shrinks scan_string.
Proof.
  intros s. assert (H : forall n s, (List.length s <= n)%nat -> forall x r, scan_string s = Some (x, r) -> (List.length r < List.length s)%nat);
    [|by apply (H (List.length s))].
  clear s. induction n as [|n IH]; intros [|c s] Hn x r; simpl in *; [done|lia|done|].
  destruct (c =? 34); [intros [= <- <-]; lia|]. destruct (c =? 92).
  - destruct s as [|e s1]; [done|]. simpl in Hn. destruct (e =? 117).
    + destruct s1 as [|h1 [|h2 [|h3 [|h4 s2]]]]; try done. destruct (getu4 h1 h2 h3 h4); simpl; [|done].
      destruct (scan_string s2) as [[ps r']|] eqn:E; simpl; [|done]. intros [= <- <-].
      simpl in Hn. apply IH in E; simpl; lia.
    + destruct (simple_escape e); simpl; [|done].
      destruct (scan_string s1) as [[ps r']|] eqn:E; simpl; [|done]. intros [= <- <-]. apply IH in E; simpl; lia.
  - destruct (c <? 32); [done|]. destruct (scan_string s) as [[ps r']|] eqn:E; simpl; [|done].
    intros [= <- <-]. apply IH in E; lia.
Qed.

Lemma parse_string_shrinks : shrinks parse_string.
Proof.
  intros s x r. unfold parse_string. destruct (scan_string s) as [[ps r']|] eqn:E; simpl; [|done].
  intros [= <- <-]. by apply scan_string_shrinks in E.
Qed.

Lemma span_digits_app s a r : span_digits s = (a, r) -> s = a ++ r.
Proof.
  revert a r. induction s as [|c s IH]; intros a r; simpl; [by intros [= <- <-]|].
  destruct (is_digit c); [|by intros [= <- <-]]. destruct (span_digits s) as [ds r'] eqn:E.
  intros [= <- <-]. simpl. f_equal. by apply IH.
Qed.

Lemma digits1_app s a r : digits1 s = Some (a, r) -> s = a ++ r /\ a <> [].
Proof.
  unfold digits1. destruct (span_digits s) as [[|d ds] r'] eqn:E; [done|]. intros [= <- <-].
  split; [by apply span_digits_app|done].
Qed.

Lemma integer_part_app s a r : integer_part s = Some (a, r) -> s = a ++ r /\ a <> [].
Proof.
  destruct s as [|c s]; [done|]. unfold integer_part. destruct (c =? 48); [by intros [= <- <-]|apply digits1_app].
Qed.

Lemma fraction_app s a r : fraction s = Some (a, r) -> s = a ++ r.
Proof.
  destruct s as [|c s]; simpl; [by intros [= <- <-]|]. destruct (c =? 46); [|by intros [= <- <-]].
  destruct (digits1 s) as [[ds r']|] eqn:E; simpl; [|done]. intros [= <- <-].
  apply digits1_app in E as [-> _]. done.
Qed.

Lemma exponent_app s a r : exponent s = Some (a, r) -> s = a ++ r.
Proof.
  destruct s as [|c s]; simpl; [by intros [= <- <-]|]. destruct ((c =? 101) || (c =? 69)); [|by intros [= <- <-]].
  destruct s as [|d s]; [done|]. destruct ((d =? 43) || (d =? 45)).
  - destruct (digits1 s) as [[ds r']|] eqn:E; simpl; [|done]. intros [= <- <-]. by apply digits1_app in E as [-> _].
  - destruct (digits1 (d :: s)) as [[ds r']|] eqn:E; simpl; [|done]. intros [= <- <-].
    apply digits1_app in E as [E _]. simpl. by f_equal.
Qed.

(** The parts of a number: a sign, an integer, a fraction, an exponent. *)
Definition sign_part (s : list Z) : list Z * list Z :=
  match s with c :: s' => if c =? 45 then ([c], s') else ([], s) | [] => ([], []) end.

Lemma parse_number_parts s lit r :
  parse_number s = Some (lit, r) <->
  exists sg s1 a s2 b s3 c, sign_part s = (sg, s1) /\ integer_part s1 = Some (a, s2) /\
    fraction s2 = Some (b, s3) /\ exponent s3 = Some (c, r) /\ lit = sg ++ a ++ b ++ c.
Proof.
  unfold parse_number. change (match s with [] => _ | _ :: _ => _ end) with (sign_part s).
  destruct (sign_part s) as [sg s1]. split.
  - destruct (integer_part s1) as [[a s2]|] eqn:E1; simpl; [|done].
    destruct (fraction s2) as [[b s3]|] eqn:E2; simpl; [|done].
    destruct (exponent s3) as [[c s4]|] eqn:E3; simpl; [|done]. intros [= <- <-]. by eexists _, _, _, _, _, _, _.
  - intros (sg' & s1' & a & s2 & b & s3 & c & [= <- <-] & E1 & E2 & E3 & ->).
    rewrite E1. simpl. rewrite E2. simpl. by rewrite E3.
Qed.

Lemma sign_part_app s sg s1 : sign_part s = (sg, s1) -> s = sg ++ s1.
Proof. destruct s as [|c s]; simpl; [|destruct (c =? 45)]; by intros [= <- <-]. Qed.

Lemma parse_number_app s lit r : parse_number s = Some (lit, r) -> s = lit ++ r /\ lit <> [].
Proof.
  rewrite parse_number_parts. intros (sg & s1 & a & s2 & b & s3 & c & H1 & H2 & H3 & H4 & ->).
  apply sign_part_app in H1 as ->. apply integer_part_app in H2 as [-> Ha]. apply fraction_app in H3 as ->.
  apply exponent_app in H4 as ->. rewrite <- !app_assoc. split; [done|].
  by destruct sg, a.
Qed.

Lemma literal_shrinks : shrinks literal.
Proof.
  intros s x r. unfold literal.
  destruct (after _ s) as [r1|] eqn:E1; [apply after_length in E1; intros [= <- <-]; simpl in *; lia|].
  destruct (after (bytes "true") s) as [r2|] eqn:E2; [apply after_length in E2; intros [= <- <-]; simpl in *; lia|].
  destruct (after (bytes "false") s) as [r3|] eqn:E3; [apply after_length in E3; intros [= <- <-]; simpl in *; lia|].
  destruct (parse_number s) as [[lit r']|] eqn:E; simpl; [|done]. intros [= <- <-].
  apply parse_number_app in E as [-> Hl]. rewrite length_app. destruct lit; [done|simpl; lia].
Qed.

Lemma one_or_more_shrinks {A} (item : list Z -> option (A * list Z)) items close :
  shrinks item -> shrinks items -> shrinks (one_or_more item items close).
Proof.
  intros Hi Hs s x r. unfold one_or_more. destruct (item s) as [[y r1]|] eqn:E1; simpl; [|done]. apply Hi in E1.
  destruct (expect 44 r1) as [r2|] eqn:E2.
  - destruct (items r2) as [[l r3]|] eqn:E3; simpl; [|done]. intros [= <- <-].
    apply expect_shrinks in E2. apply Hs in E3. lia.
  - destruct (expect close r1) as [r2|] eqn:E3; simpl; [|done]. intros [= <- <-]. apply expect_shrinks in E3. lia.
Qed.

Lemma member_shrinks value : shrinks value -> shrinks (member value).
Proof.
  intros Hv s x r. unfold member. destruct (expect 34 s) as [r1|] eqn:E1; simpl; [|done].
  destruct (parse_string r1) as [[k r2]|] eqn:E2; simpl; [|done].
  destruct (expect 58 r2) as [r3|] eqn:E3; simpl; [|done].
  destruct (value r3) as [[v r4]|] eqn:E4; simpl; [|done]. intros [= <- <-].
  apply expect_shrinks in E1, E3. apply parse_string_shrinks in E2. apply Hv in E4. lia.
Qed.

Lemma none_or_more_length {A} (items : list Z -> option (list A * list Z)) close s l r :
  shrinks items -> none_or_more items close s = Some (l, r) -> (List.length r < List.length s)%nat.
Proof.
  intros Hs. unfold none_or_more. destruct (expect close s) as [r1|] eqn:E; [|apply Hs].
  intros [= <- <-]. by apply expect_shrinks in E.
Qed.

Lemma parse_shrinks fuel :
  shrinks (parse_value fuel) /\ shrinks (parse_elements fuel) /\ shrinks (parse_members fuel).
Proof.
  induction fuel as [|f (IHv & IHe & IHm)]; [done|]. split_and!; cbn [parse_value parse_elements parse_members].
  - intros s x r. pose proof (skip_space_length s) as Hs. destruct (skip_space s) as [|c s']; [done|]. simpl in Hs.
    destruct (c =? 34); [|destruct (c =? 91); [|destruct (c =? 123)]].
    + destruct (parse_string s') as [[t r']|] eqn:E; simpl; [|done]. intros [= <- <-].
      apply parse_string_shrinks in E. lia.
    + destruct (none_or_more _ _ _) as [[l r']|] eqn:E; simpl; [|done]. intros [= <- <-].
      apply none_or_more_length in E; [lia|done].
    + destruct (none_or_more _ _ _) as [[l r']|] eqn:E; simpl; [|done]. intros [= <- <-].
      apply none_or_more_length in E; [lia|done].
    + intros E%literal_shrinks. simpl in E. lia.
  - by apply one_or_more_shrinks.
  - apply one_or_more_shrinks; [by apply member_shrinks|done].
Qed.

Lemma one_or_more_ext {A} (item item' : list Z -> option (A * list Z)) items items' close s :
  shrinks item -> item s = item' s ->
  (forall r, (List.length r < List.length s)%nat -> items r = items' r) ->
  one_or_more item items close s = one_or_more item' items' close s.
Proof.
  intros Hi Es Hs. unfold one_or_more. rewrite <- Es. destruct (item s) as [[x r]|] eqn:E; simpl; [|done].
  apply Hi in E. destruct (expect 44 r) as [r'|] eqn:E'; [|done]. apply expect_shrinks in E'.
  by rewrite Hs by lia.
Qed.

Lemma none_or_more_ext {A} (items items' : list Z -> option (list A * list Z)) close s :
  items s = items' s -> none_or_more items close s = none_or_more items' close s.
Proof. intros E. unfold none_or_more. by rewrite E. Qed.

(** Fuel for a value, and one more for a list of them. *)
Definition enough (k : nat) (s : list Z) (f : nat) : Prop := (2 * List.length s + k <= f)%nat.

Lemma parse_fuel n f f' s :
  (List.length s <= n)%nat ->
  (enough 1 s f -> enough 1 s f' -> parse_value f s = parse_value f' s) /\
  (enough 2 s f -> enough 2 s f' -> parse_elements f s = parse_elements f' s) /\
  (enough 2 s f -> enough 2 s f' -> parse_members f s = parse_members f' s).
Proof.
  revert f f' s. unfold enough. induction n as [|n IH]; intros f f' s Hn.
  { destruct s; [|simpl in Hn; lia].
    assert (H0 : forall k, parse_value k [] = None) by (by intros [|k]).
    split_and!; [by rewrite !H0| |].
    - destruct f, f'; intros; simpl in *; try lia. unfold one_or_more. by rewrite !H0.
    - destruct f, f'; intros; simpl in *; try lia. done. }
  assert (Hv : forall f f' s, (List.length s <= S n)%nat ->
    (2 * List.length s + 1 <= f)%nat -> (2 * List.length s + 1 <= f')%nat -> parse_value f s = parse_value f' s).
  { clear f f' s Hn. intros [|f] [|f'] s Hn H1 H2; [lia..|]. simpl. pose proof (skip_space_length s) as Hs.
    destruct (skip_space s) as [|c r]; [done|]. simpl in Hs.
    destruct (IH f f' r ltac:(lia)) as (_ & He & Hm).
    by rewrite (none_or_more_ext _ _ 93 r (He ltac:(lia) ltac:(lia))), (none_or_more_ext _ _ 125 r (Hm ltac:(lia) ltac:(lia))). }
  split_and!; [intros; apply Hv; lia| |].
  - intros H1 H2. destruct f as [|f], f' as [|f']; [lia..|]. cbn [parse_elements]. apply one_or_more_ext.
    + apply parse_shrinks.
    + apply Hv; lia.
    + intros r Hr. apply (IH f f' r); lia.
  - intros H1 H2. destruct f as [|f], f' as [|f']; [lia..|]. cbn [parse_members]. apply one_or_more_ext.
    + apply member_shrinks, parse_shrinks.
    + unfold member. destruct (expect 34 s) as [r1|] eqn:E1; simpl; [|done].
      destruct (parse_string r1) as [[k r2]|] eqn:E2; simpl; [|done].
      destruct (expect 58 r2) as [r3|] eqn:E3; simpl; [|done].
      apply expect_shrinks in E1, E3. apply parse_string_shrinks in E2. by rewrite (Hv f f' r3) by lia.
    + intros r Hr. apply (IH f f' r); lia.
Qed.

(** More fuel than [fuel_for] never changes the result of the parser. *)
Lemma parse_value_fuel f s : (fuel_for s <= f)%nat -> parse_value f s = parse_value (fuel_for s) s.
Proof. intros Hf. apply (parse_fuel (List.length s)); unfold enough, fuel_for in *; lia. Qed.

(** ** UTF-8 *)

(** The bytes of one rune. *)
Definition good (cs : list Z) : Prop := runes cs = [(true, cs)].

Lemma continued_range c s : continued c s <> 0%nat -> 194 <= c < 245.
Proof.
  unfold continued, in_range. intros H. destruct ((194 <=? c) && (c <=? 223)) eqn:E1; [lia|].
  destruct ((224 <=? c) && (c <=? 239)) eqn:E2; [lia|]. destruct ((240 <=? c) && (c <=? 244)) eqn:E3; [lia|done].
Qed.

(** A sequence that is complete does not depend on what follows. *)
Lemma continued_take c s k t :
  continued c s = k -> k <> 0%nat ->
  (k <= List.length s)%nat /\ continued c (take k s ++ t) = k /\ Forall (fun b => 128 <= b < 192) (take k s).
Proof.
  intros Hk H0. unfold continued, continuation, in_range in *.
  destruct ((194 <=? c) && (c <=? 223)).
  { destruct s as [|c1 s]; [done|]. destruct ((128 <=? c1) && (c1 <=? 191)) eqn:E; [|done]. subst k. simpl.
    rewrite E. split_and!; [lia|done|]. repeat constructor; lia. }
  destruct ((224 <=? c) && (c <=? 239)).
  { destruct s as [|c1 [|c2 s]]; [done..|]. destruct (_ && _ && _) eqn:E; [|done]. subst k. simpl. rewrite E.
    split_and!; [lia|done|]. destruct (c =? 224), (c =? 237); repeat constructor; lia. }
  destruct ((240 <=? c) && (c <=? 244)); [|done].
  destruct s as [|c1 [|c2 [|c3 s]]]; [done..|]. destruct (_ && _ && _ && _) eqn:E; [|done]. subst k. simpl. rewrite E.
  split_and!; [lia|done|]. destruct (c =? 240), (c =? 244); repeat constructor; lia.
Qed.

(** The runes of a string, by what they start with. *)
Lemma runes_cons c s :
  runes (c :: s) =
  if c <? 128 then (true, [c]) :: runes s
  else match continued c s with
       | O => (false, replacement) :: runes s
       | k => (true, c :: take k s) :: runes (drop k s)
       end.
Proof.
  cbn [runes]. destruct (c <? 128); [done|]. destruct (continued c s) as [|k] eqn:E; [by destruct s as [|? [|? [|? ?]]]|].
  assert (Hk : (S k <= 3)%nat).
  { revert E. unfold continued. repeat (case_match; try lia). }
  destruct (continued_take c s (S k) [] E ltac:(done)) as [Hl _].
  destruct k as [|[|[|k]]]; [| | |lia]; destruct s as [|c1 [|c2 [|c3 s]]]; simpl in Hl; try lia; done.
Qed.

Lemma good_app cs t : good cs -> runes (cs ++ t) = (true, cs) :: runes t.
Proof.
  unfold good. destruct cs as [|c s]; [done|]. intros H. rewrite <- app_comm_cons, runes_cons in *.
  destruct (c <? 128).
  { by injection H as <- _. }
  destruct (continued c s) as [|k] eqn:E; [by injection H|]. injection H as Ht Hd.
  destruct (continued_take c s (S k) (drop (S k) s ++ t) E ltac:(done)) as (Hl & Hc & _).
  rewrite app_assoc, take_drop in Hc. rewrite Hc. cbv iota zeta.
  assert (Hs : List.length s = S k) by (apply (f_equal List.length) in Ht; rewrite length_take in Ht; lia).
  rewrite take_app_le, firstn_all2 by lia. rewrite drop_app_ge by lia. replace (S k - List.length s)%nat with 0%nat by lia. done.
Qed.

Lemma good_rune c s k : continued c s = S k -> 128 <= c -> good (c :: take (S k) s).
Proof.
  intros E Hc. unfold good. rewrite runes_cons. destruct (Z.ltb_spec c 128); [lia|].
  destruct (continued_take c s (S k) [] E ltac:(done)) as (Hl & E' & _). rewrite app_nil_r in E'. rewrite E'. cbv iota zeta.
  rewrite firstn_all2, drop_ge by (rewrite length_take; lia). done.
Qed.

Lemma good_ascii c : c < 128 -> good [c].
Proof. intros. unfold good. rewrite runes_cons. by destruct (Z.ltb_spec c 128); [|lia]. Qed.

Lemma good_replacement : good replacement.
Proof. done. Qed.

(** The runes of a string are of bytes below 128, of longer sequences, or
    replace a byte. *)
Definition rune_ok (r : bool * list Z) : Prop :=
  (exists c, r = (true, [c]) /\ 0 <= c < 128) \/
  (r.1 = true /\ good r.2 /\ (2 <= List.length r.2)%nat /\ Forall (fun b => 128 <= b < 256) r.2) \/
  r = (false, replacement).

Lemma runes_ok s : Forall is_byte s -> Forall rune_ok (runes s).
Proof.
  intros Hs. remember (List.length s) as n eqn:Hn. revert s Hs Hn.
  induction (lt_wf n) as [n _ IH]. intros [|c s] Hs ->; [constructor|]. apply Forall_cons in Hs as [Hc Hs].
  rewrite runes_cons. unfold is_byte in Hc. destruct (Z.ltb_spec c 128).
  { constructor; [left; exists c; split; [done|lia]|]. eapply IH; [|exact Hs|done]. simpl. lia. }
  destruct (continued c s) as [|k] eqn:E.
  { constructor; [by right; right|]. eapply IH; [|exact Hs|done]. simpl. lia. }
  destruct (continued_take c s (S k) [] E ltac:(done)) as (Hl & _ & Hb).
  constructor.
  - right; left. cbn [fst snd]. split_and!; [done|by apply good_rune| |].
    + cbn [List.length]. rewrite length_take. lia.
    + constructor; [lia|]. eapply Forall_impl; [exact Hb|]. simpl. lia.
  - eapply IH; [|by apply Forall_drop|done]. rewrite length_drop. simpl. lia.
Qed.

Lemma rune_ok_good r : rune_ok r -> good r.2.
Proof. intros [(c & -> & Hc)|[(_ & H & _)| ->]]; [apply good_ascii; lia|done|done]. Qed.

Lemma runes_concat rs : Forall rune_ok rs -> runes (concat (snd <$> rs)) = (fun r => (true, r.2)) <$> rs.
Proof.
  induction 1 as [|r rs Hr _ IH]; [done|]. cbn [fmap list_fmap concat]. by rewrite good_app, IH by by apply rune_ok_good.
Qed.

Lemma coerce_concat rs : Forall rune_ok rs -> coerce (concat (snd <$> rs)) = concat (snd <$> rs).
Proof.
  intros H. unfold coerce. rewrite runes_concat by done. by rewrite <- list_fmap_compose.
Qed.

(** A string of valid UTF-8 is its runes. *)
Lemma runes_valid s : valid_utf8 s -> coerce s = s.
Proof.
  unfold valid_utf8, coerce. remember (List.length s) as n eqn:Hn. revert s Hn.
  induction (lt_wf n) as [n _ IH]. intros [|c s] ->; [done|]. rewrite runes_cons. destruct (c <? 128).
  { simpl. intros Hv. f_equal. eapply IH; [|done|done]. simpl. lia. }
  destruct (continued c s) as [|k] eqn:E; [done|]. cbn [forallb fst andb fmap list_fmap concat snd]. intros Hv.
  rewrite (IH (List.length (drop (S k) s))); [|rewrite length_drop; simpl; lia|done|done].
  rewrite <- app_comm_cons. by rewrite take_drop.
Qed.

(** ** Strings *)

(** What is scanned of a piece of text that is written for [cs]. *)
Definition scans_as (text cs : list Z) : Prop :=
  exists ps, (forall t, scan_string (text ++ t) = '(qs, r) ← scan_string t; Some (ps ++ qs, r)) /\
             (forall qs, expand (ps ++ qs) = cs ++ expand qs).

Lemma scans_bytes cs : Forall (fun b => 93 <= b) cs -> scans_as cs cs.
Proof.
  intros H. exists (Byte <$> cs). induction H as [|c cs Hc Hcs [IH1 IH2]]; simpl.
  - split; [|done]. intros t. by destruct (scan_string t) as [[? ?]|].
  - split; [|intros qs; by rewrite IH2]. intros t.
    destruct (Z.eqb_spec c 34); [lia|]. destruct (Z.eqb_spec c 92); [lia|]. destruct (Z.ltb_spec c 32); [lia|].
    rewrite IH1. by destruct (scan_string t) as [[? ?]|].
Qed.

Lemma scans_unit a b c d u :
  getu4 (lower_hex a) (lower_hex b) (lower_hex c) (lower_hex d) = Some u ->
  high_surrogate u || low_surrogate u = false -> scans_as (unicode_escape a b c d) (EncodeRune u).
Proof.
  intros E Hs. exists [Unit_ u]. split.
  - intros t. unfold unicode_escape. cbn -[getu4 lower_hex].
    rewrite E. simpl. by destruct (scan_string t) as [[? ?]|].
  - intros qs. simpl. by rewrite Hs.
Qed.

Lemma scans_ascii c : 0 <= c < 128 -> scans_as (marshal_rune (true, [c])) [c].
Proof.
  intros Hc. unfold marshal_rune. cbn [fst snd].
  assert (Hesc : forall e, (e =? 117) = false -> simple_escape e = Some c -> scans_as [92; e] [c]).
  { intros e He Es. exists [Byte c]. split; [|done]. intros t. simpl. rewrite He, Es. simpl.
    by destruct (scan_string t) as [[? ?]|]. }
  destruct ((c =? 34) || (c =? 92)) eqn:E1.
  { apply Hesc; unfold simple_escape; [lia|]. by rewrite E1. }
  destruct (Z.eqb_spec c 10) as [->|]; [by apply Hesc|]. destruct (Z.eqb_spec c 13) as [->|]; [by apply Hesc|].
  destruct (Z.eqb_spec c 9) as [->|]; [by apply Hesc|].
  destruct ((c <? 32) || (c =? 60) || (c =? 62) || (c =? 38)) eqn:E2.
  - assert (H := zrange_forallb 128 (fun c => bool_decide
      (getu4 (lower_hex 0) (lower_hex 0) (lower_hex (c / 16)) (lower_hex (c mod 16)) = Some c)) ltac:(by vm_compute) c Hc).
    apply bool_decide_eq_true in H.
    replace [c] with (EncodeRune c) by (unfold EncodeRune; by destruct (Z.ltb_spec c 128); [|lia]).
    apply scans_unit; [done|]. unfold high_surrogate, low_surrogate, in_range. lia.
  - exists [Byte c]. split; [|done]. intros t. simpl.
    destruct (Z.eqb_spec c 34); [lia|]. destruct (Z.eqb_spec c 92); [lia|]. destruct (Z.ltb_spec c 32); [lia|].
    by destruct (scan_string t) as [[? ?]|].
Qed.

Lemma scans_rune r : rune_ok r -> scans_as (marshal_rune r) r.2.
Proof.
  intros [(c & -> & Hc)|[(Hv & _ & Hl & Hb)| ->]]; [by apply scans_ascii| |].
  - destruct r as [v cs]. simpl in *. subst v.
    assert (scans_as cs cs) by (apply scans_bytes; eapply Forall_impl; [exact Hb|]; simpl; lia).
    destruct cs as [|c1 [|c2 cs]]; [simpl in Hl; lia..|]. cbn [marshal_rune fst snd negb].
    case_bool_decide as E1; [rewrite E1; by apply (scans_unit 2 0 2 8 8232)|].
    case_bool_decide as E2; [rewrite E2; by apply (scans_unit 2 0 2 9 8233)|done].
  - by apply (scans_unit 15 15 15 13 65533).
Qed.

Lemma scans_runes rs : Forall rune_ok rs -> scans_as (concat (marshal_rune <$> rs)) (concat (snd <$> rs)).
Proof.
  induction 1 as [|r rs Hr _ IH].
  { exists []. split; [|done]. intros t. simpl. by destruct (scan_string t) as [[? ?]|]. }
  destruct (scans_rune r Hr) as (ps & H1 & H2). destruct IH as (qs & H3 & H4). exists (ps ++ qs).
  cbn [fmap list_fmap concat]. split.
  - intros t. rewrite <- app_assoc, H1, H3. destruct (scan_string t) as [[? ?]|]; simpl; [|done]. by rewrite app_assoc.
  - intros t. by rewrite <- !app_assoc, H2, H4.
Qed.

(** Reading a string that was written: it is coerced to UTF-8. *)
Lemma parse_marshal_string s t :
  Forall is_byte s -> exists r, marshal_string s ++ t = 34 :: r /\ parse_string r = Some (coerce s, t).
Proof.
  intros Hs. unfold marshal_string. eexists. split; [rewrite <- app_comm_cons; reflexivity|].
  destruct (scans_runes (runes s) (runes_ok s Hs)) as (ps & H1 & H2). unfold parse_string.
  rewrite <- app_assoc, H1. cbn. rewrite H2. cbn [expand]. rewrite app_nil_r.
  by rewrite coerce_concat by by apply runes_ok.
Qed.

(** ** Numbers *)

(** What may follow a value: nothing that could continue a number. *)
Definition stop (t : list Z) : Prop :=
  match t with [] => True | c :: _ => is_digit c = false /\ c <> 46 /\ c <> 101 /\ c <> 69 end.

Definition is_number (lit : list Z) : Prop := parse_number lit = Some (lit, []).

Lemma span_digits_stop s a r t : stop t -> span_digits s = (a, r) -> span_digits (s ++ t) = (a, r ++ t).
Proof.
  intros Ht. revert a r. induction s as [|c s IH]; intros a r; simpl.
  - intros [= <- <-]. destruct t as [|c t]; [done|]. destruct Ht as [Hc _]. simpl. by rewrite Hc.
  - destruct (is_digit c); [|by intros [= <- <-]]. destruct (span_digits s) as [ds r']. intros [= <- <-].
    by rewrite (IH ds r').
Qed.

Lemma digits1_stop s a r t : stop t -> digits1 s = Some (a, r) -> digits1 (s ++ t) = Some (a, r ++ t).
Proof.
  intros Ht. unfold digits1. destruct (span_digits s) as [[|d ds] r'] eqn:E; [done|]. intros [= <- <-].
  by rewrite (span_digits_stop s (d :: ds) r').
Qed.

Lemma integer_part_stop s a r t : stop t -> integer_part s = Some (a, r) -> integer_part (s ++ t) = Some (a, r ++ t).
Proof.
  intros Ht. destruct s as [|c s]; [done|]. cbn [integer_part app]. destruct (c =? 48); [by intros [= <- <-]|].
  by apply (digits1_stop (c :: s)).
Qed.

Lemma fraction_stop s a r t : stop t -> fraction s = Some (a, r) -> fraction (s ++ t) = Some (a, r ++ t).
Proof.
  intros Ht. destruct s as [|c s]; cbn [fraction app].
  - intros [= <- <-]. destruct t as [|c t]; [done|]. destruct Ht as (_ & Hc & _). cbn.
    by destruct (Z.eqb_spec c 46).
  - destruct (c =? 46); [|by intros [= <- <-]]. destruct (digits1 s) as [[ds r']|] eqn:E; [|done]. simpl.
    intros [= <- <-]. by rewrite (digits1_stop s ds r').
Qed.

Lemma exponent_stop s a r t : stop t -> exponent s = Some (a, r) -> exponent (s ++ t) = Some (a, r ++ t).
Proof.
  intros Ht. destruct s as [|c s]; cbn [exponent app].
  - intros [= <- <-]. destruct t as [|c t]; [done|]. destruct Ht as (_ & _ & H1 & H2). cbn.
    by destruct (Z.eqb_spec c 101), (Z.eqb_spec c 69).
  - destruct (_ || _); [|by intros [= <- <-]]. destruct s as [|d s]; [done|]. cbn [app].
    destruct (_ || _).
    + destruct (digits1 s) as [[ds r']|] eqn:E; [|done]. simpl. intros [= <- <-]. by rewrite (digits1_stop s ds r').
    + destruct (digits1 (d :: s)) as [[ds r']|] eqn:E; [|done]. simpl. intros [= <- <-].
      change (d :: s ++ t) with ((d :: s) ++ t). by rewrite (digits1_stop (d :: s) ds r').
Qed.

Lemma parse_number_stop lit t : stop t -> is_number lit -> parse_number (lit ++ t) = Some (lit, t).
Proof.
  intros Ht H. pose proof (proj2 (parse_number_app _ _ _ H)) as Hne. unfold is_number in H.
  apply parse_number_parts in H as (sg & s1 & a & s2 & b & s3 & c & H1 & H2 & H3 & H4 & E).
  apply parse_number_parts. exists sg, (s1 ++ t), a, (s2 ++ t), b, (s3 ++ t), c. split_and!.
  - destruct lit as [|x lit]; [done|]. simpl in *. by destruct (x =? 45); injection H1 as <- <-.
  - by apply integer_part_stop.
  - by apply fraction_stop.
  - by apply (exponent_stop s3 c [] t).
  - done.
Qed.

Lemma number_head lit : is_number lit -> exists c s, lit = c :: s /\ 45 <= c <= 57.
Proof.
  intros H. unfold is_number in H.
  apply parse_number_parts in H as (sg & s1 & a & s2 & b & s3 & c & H1 & H2 & _).
  destruct lit as [|x lit]; [simpl in H1; by injection H1 as <- <-|]. exists x, lit. split; [done|].
  simpl in H1. destruct (Z.eqb_spec x 45) as [->|]; [lia|]. injection H1 as <- <-. simpl in H2.
  destruct (Z.eqb_spec x 48) as [->|]; [lia|]. unfold digits1 in H2. simpl in H2.
  destruct (is_digit x) eqn:E; [unfold is_digit in E; lia|done].
Qed.

(** The decimal writing of an integer is a number. *)
Lemma span_all_digits s : Forall (fun c => 48 <= c <= 57) s -> span_digits s = (s, []).
Proof.
  induction 1 as [|c s Hc _ IH]; [done|]. simpl. unfold is_digit.
  destruct ((48 <=? c) && (c <=? 57)) eqn:E; [by rewrite IH|lia].
Qed.

(** ** Values *)

Definition text (s : list Z) : Prop := Forall is_byte s /\ valid_utf8 s.

Unset Elimination Schemes.
Inductive wf : json -> Prop :=
| wf_null : wf JNull
| wf_bool b : wf (JBool b)
| wf_num lit : is_number lit -> wf (JNum lit)
| wf_str s : text s -> wf (JStr s)
| wf_arr l : Forall wf l -> wf (JArr l)
| wf_obj l : Forall (fun p => text p.1 /\ wf p.2) l -> wf (JObj l).
Set Elimination Schemes.

(** A printed value starts with no space, and with none of the bytes that
    separate or close. *)
Definition starts (s : list Z) : Prop :=
  exists c r, s = c :: r /\ is_space c = false /\ c <> 44 /\ c <> 93 /\ c <> 125.

Lemma print_starts j : wf j -> starts (print j).
Proof.
  intros [|b|lit H|s H|l H|l H]; simpl; try (by eexists _, _; split; [reflexivity|]).
  - destruct b; by eexists _, _; split; [reflexivity|].
  - apply number_head in H as (c & s & -> & Hc). exists c, s. unfold is_space. split_and!; [done|lia..].
Qed.

Lemma skip_starts s t : starts s -> skip_space (s ++ t) = s ++ t.
Proof. intros (c & r & -> & H & _). simpl. by rewrite H. Qed.

Lemma expect_not c s t : starts s -> (c = 44 \/ c = 93 \/ c = 125) -> expect c (s ++ t) = None.
Proof.
  intros H Hc. unfold expect. rewrite skip_starts by done. destruct H as (a & r & -> & _ & H). simpl.
  destruct (Z.eqb_spec c a); [lia|done].
Qed.

Lemma expect_here c t : is_space c = false -> expect c (c :: t) = Some t.
Proof. intros H. unfold expect. simpl. rewrite H. simpl. by rewrite Z.eqb_refl. Qed.

(** The items of a list, each printed by [pr]. *)
Lemma items_join {A} (pr : A -> list Z) (item : nat -> list Z -> option (A * list Z))
    (items : nat -> list Z -> option (list A * list Z)) close t :
  (forall f s, items (S f) s = one_or_more (item f) (items f) close s) ->
  close = 93 \/ close = 125 ->
  forall l, l <> [] ->
  Forall (fun x => forall f t, (2 * List.length (pr x) < f)%nat -> stop t -> item f (pr x ++ t) = Some (x, t)) l ->
  forall f, (2 * List.length (join 44 (pr <$> l)) + 1 < f)%nat ->
  items f (join 44 (pr <$> l) ++ close :: t) = Some (l, t).
Proof.
  intros Hitems Hclose l Hne Hl. induction Hl as [|x l Hx Hl IH]; [done|]. intros f Hf.
  destruct f as [|f]; [lia|]. rewrite Hitems. unfold one_or_more.
  assert (Hsp : is_space close = false /\ stop (close :: t) /\ close <> 44) by (destruct Hclose as [->| ->]; done).
  destruct Hsp as (Hsp & Hst & H44). destruct l as [|y l].
  - simpl in *. rewrite Hx by (done || lia). simpl.
    assert (expect 44 (close :: t) = None) as ->.
    { unfold expect. cbn [skip_space]. rewrite Hsp. cbn [after]. by destruct (Z.eqb_spec 44 close). }
    by rewrite expect_here.
  - change (join 44 (pr <$> x :: y :: l)) with (pr x ++ 44 :: join 44 (pr <$> y :: l)) in *.
    rewrite length_app in Hf. cbn [List.length] in Hf. rewrite <- app_assoc, <- app_comm_cons.
    rewrite Hx by (done || lia). cbn [mbind option_bind]. rewrite expect_here by done. by rewrite IH by (done || lia).
Qed.

(** The list between its brackets. *)
Lemma list_join {A} (pr : A -> list Z) (item : nat -> list Z -> option (A * list Z))
    (items : nat -> list Z -> option (list A * list Z)) close t l f :
  (forall f s, items (S f) s = one_or_more (item f) (items f) close s) ->
  close = 93 \/ close = 125 ->
  Forall (fun x => starts (pr x)) l ->
  Forall (fun x => forall f t, (2 * List.length (pr x) < f)%nat -> stop t -> item f (pr x ++ t) = Some (x, t)) l ->
  (2 * List.length (join 44 (pr <$> l)) + 1 < f)%nat ->
  none_or_more (items f) close ((join 44 (pr <$> l) ++ [close]) ++ t) = Some (l, t).
Proof.
  intros Hitems Hclose Hst Hl Hf. rewrite <- app_assoc. cbn [app]. unfold none_or_more. destruct l as [|x l].
  { by destruct Hclose as [->| ->]. }
  apply Forall_cons in Hst as [(c & r & E & Hc) Hst].
  assert (Hs : starts (join 44 (pr <$> x :: l))).
  { destruct l as [|y l]; cbn [fmap list_fmap join]; rewrite E; by eexists c, _. }
  rewrite expect_not by (done || lia). by apply (items_join pr item).
Qed.

Lemma literal_number lit t : is_number lit -> stop t -> literal (lit ++ t) = Some (JNum lit, t).
Proof.
  intros H Ht. destruct (number_head lit H) as (c & s & -> & Hc). unfold literal.
  assert (Hno : forall a p, 57 < a -> after (a :: p) ((c :: s) ++ t) = None).
  { intros a p Ha. simpl. by destruct (Z.eqb_spec a c); [lia|]. }
  change (bytes "null") with (110 :: bytes "ull"). change (bytes "true") with (116 :: bytes "rue").
  change (bytes "false") with (102 :: bytes "alse"). rewrite !Hno by lia. by rewrite parse_number_stop.
Qed.

Lemma member_print k v f t :
  text k -> (forall t, stop t -> parse_value f (print v ++ t) = Some (v, t)) -> stop t ->
  member (parse_value f) ((marshal_string k ++ 58 :: print v) ++ t) = Some ((k, v), t).
Proof.
  intros [Hkb Hkv] Hv Ht. rewrite <- app_assoc, <- app_comm_cons.
  destruct (parse_marshal_string k (58 :: print v ++ t) Hkb) as (r & E & Er). rewrite E. unfold member.
  rewrite expect_here by done. cbn [mbind option_bind]. rewrite Er. cbn [mbind option_bind].
  rewrite expect_here by done. cbn [mbind option_bind]. rewrite Hv by done. cbn. by rewrite runes_valid.
Qed.

Lemma parse_value_print j :
  wf j -> forall f t, (2 * List.length (print j) < f)%nat -> stop t -> parse_value f (print j ++ t) = Some (j, t).
Proof.
  induction j as [|b|lit|s|l IH|l IH] using json_ind; intros Hwf f t Hf Ht; inversion Hwf as [| |? Hj|? Hj|? Hj|? Hj]; subst;
    (destruct f as [|f]; [lia|]); cbn [parse_value]; rewrite skip_starts by by apply print_starts.
  - done.
  - by destruct b.
  - cbn [print]. destruct (number_head lit Hj) as (c & s & Es & Hc). rewrite <- literal_number by done.
    rewrite Es, <- app_comm_cons. cbn [skip_space app].
    by destruct (Z.eqb_spec c 34), (Z.eqb_spec c 91), (Z.eqb_spec c 123); [lia..|].
  - destruct Hj as [Hb Hv]. destruct (parse_marshal_string s t Hb) as (r & E & Er). cbn [print]. rewrite E. cbn.
    rewrite Er. simpl. by rewrite runes_valid.
  - cbn [print] in *. rewrite <- app_comm_cons. cbn [Z.eqb Pos.eqb].
    cbn [List.length] in Hf. rewrite length_app in Hf. cbn [List.length] in Hf.
    rewrite (list_join print parse_value parse_elements 93 t l f); [done|done|by left| | |simpl in *; lia].
    + eapply Forall_impl; [exact Hj|apply print_starts].
    + clear -IH Hj. induction IH; inversion Hj; constructor; auto.
  - cbn [print] in *. rewrite <- app_comm_cons. cbn [Z.eqb Pos.eqb].
    cbn [List.length] in Hf. rewrite length_app in Hf. cbn [List.length] in Hf.
    rewrite (list_join (fun p => marshal_string p.1 ++ 58 :: print p.2) (fun f => member (parse_value f)) parse_members 125 t l f);
      [done|done|by right| | |simpl in *; lia].
    + apply Forall_true. intros p. unfold marshal_string. by eexists _, _.
    + clear -IH Hj. induction IH as [|[k v] l' Hp _ IH']; inversion Hj as [|? ? [Hk Hv] Hj']; subst; constructor; [|by apply IH'].
      intros f t Hf Ht. cbn [fst snd] in *. rewrite length_app in Hf. cbn [List.length] in Hf.
      apply member_print; [done| |done]. intros t' Ht'. apply Hp; [done|lia|done].
Qed.

(** Reading what was written. *)
Lemma parse_print j : wf j -> parse (print j) = Some j.
Proof.
  intros Hj. unfold parse. pose proof (parse_value_print j Hj (fuel_for (print j)) [] ltac:(unfold fuel_for; lia) I) as H.
  rewrite app_nil_r in H. by rewrite H.
Qed.

(** ** Bytes *)

Lemma lower_hex_byte d : 0 <= d < 16 -> is_byte (lower_hex d).
Proof. unfold lower_hex, is_byte. intros. destruct (d <? 10); lia. Qed.

Lemma marshal_rune_bytes r : rune_ok r -> Forall is_byte (marshal_rune r).
Proof.
  intros [(c & -> & Hc)|[(Hv & _ & Hl & Hb)| ->]].
  - assert (H := zrange_forallb 128 (fun c => bool_decide (Forall is_byte (marshal_rune (true, [c])))) ltac:(by vm_compute) c Hc).
    by apply bool_decide_eq_true in H.
  - destruct r as [v cs]. simpl in *. subst v.
    assert (Forall is_byte cs) by (eapply Forall_impl; [exact Hb|]; unfold is_byte; simpl; lia).
    destruct cs as [|c1 [|c2 cs]]; [simpl in Hl; lia..|]. cbn [marshal_rune fst snd negb].
    repeat case_bool_decide; [apply (bool_decide_unpack _); by vm_compute..|done].
  - apply (bool_decide_unpack _); by vm_compute.
Qed.

Lemma marshal_string_bytes s : Forall is_byte s -> Forall is_byte (marshal_string s).
Proof.
  intros Hs. unfold marshal_string. constructor; [by unfold is_byte|]. apply Forall_app_2; [|by repeat constructor].
  apply Forall_concat, Forall_fmap. eapply Forall_impl; [by apply runes_ok|]. apply marshal_rune_bytes.
Qed.

Definition number_byte (c : Z) : Prop := 43 <= c <= 101.

Lemma span_digits_bytes s a r : span_digits s = (a, r) -> Forall number_byte a.
Proof.
  revert a r. induction s as [|c s IH]; intros a r; simpl; [by intros [= <- <-]|].
  destruct (is_digit c) eqn:Ec; [|by intros [= <- <-]]. destruct (span_digits s) as [ds r'] eqn:E.
  intros [= <- <-]. constructor; [unfold is_digit, number_byte in *; lia|by eapply IH].
Qed.

Lemma digits1_bytes s a r : digits1 s = Some (a, r) -> Forall number_byte a.
Proof.
  unfold digits1. destruct (span_digits s) as [[|d ds] r'] eqn:E; [done|]. intros [= <- <-].
  by eapply span_digits_bytes.
Qed.

Lemma number_bytes s lit r : parse_number s = Some (lit, r) -> Forall number_byte lit.
Proof.
  intros (sg & s1 & a & s2 & b & s3 & c & H1 & H2 & H3 & H4 & ->)%parse_number_parts. unfold number_byte.
  repeat apply Forall_app_2.
  - destruct s as [|x s]; simpl in H1; [by injection H1 as <- <-|].
    destruct (Z.eqb_spec x 45); injection H1 as <- <-; repeat constructor; unfold number_byte; lia.
  - destruct s1 as [|x s1]; [done|]. simpl in H2. destruct (Z.eqb_spec x 48); [|by eapply digits1_bytes].
    injection H2 as <- <-. repeat constructor; unfold number_byte; lia.
  - destruct s2 as [|x s2]; simpl in H3; [by injection H3 as <- <-|].
    destruct (Z.eqb_spec x 46); [|by injection H3 as <- <-]. destruct (digits1 s2) as [[ds r']|] eqn:E; [|done].
    injection H3 as <- <-. constructor; [unfold number_byte; lia|by eapply digits1_bytes].
  - destruct s3 as [|x s3]; simpl in H4; [by injection H4 as <- <-|].
    destruct ((x =? 101) || (x =? 69)) eqn:Ex; [|by injection H4 as <- <-]. destruct s3 as [|d s3]; [done|].
    destruct ((d =? 43) || (d =? 45)) eqn:Ed.
    + destruct (digits1 s3) as [[ds r']|] eqn:E; [|done]. injection H4 as <- <-.
      repeat constructor; [unfold number_byte; lia..|by eapply digits1_bytes].
    + destruct (digits1 (d :: s3)) as [[ds r']|] eqn:E; [|done]. injection H4 as <- <-.
      constructor; [unfold number_byte; lia|by eapply digits1_bytes].
Qed.

Lemma join_bytes sep l : is_byte sep -> Forall (Forall is_byte) l -> Forall is_byte (join sep l).
Proof.
  intros Hs. induction 1 as [|x [|y l] Hx Hl IH]; [done|done|].
  change (join sep (x :: y :: l)) with (x ++ sep :: join sep (y :: l)). apply Forall_app_2; [done|]. by constructor.
Qed.

Lemma print_bytes j : wf j -> Forall is_byte (print j).
Proof.
  induction j as [|b|lit|s|l IH|l IH] using json_ind; intros Hwf; inversion Hwf as [| |? Hj|? Hj|? Hj|? Hj]; subst; cbn [print].
  - apply bytes_range.
  - apply bytes_range.
  - eapply Forall_impl; [by eapply number_bytes|]. unfold number_byte, is_byte. simpl. lia.
  - by apply marshal_string_bytes, Hj.
  - constructor; [by unfold is_byte|]. apply Forall_app_2; [|by repeat constructor]. apply join_bytes; [by unfold is_byte|].
    apply Forall_fmap. clear -IH Hj. induction IH; inversion Hj; constructor; [auto|]. by apply IHIH.
  - constructor; [by unfold is_byte|]. apply Forall_app_2; [|by repeat constructor]. apply join_bytes; [by unfold is_byte|].
    apply Forall_fmap. clear -IH Hj. induction IH as [|[k v] l Hp _ IH']; inversion Hj as [|? ? [[Hk _] Hv] Hj']; constructor; [|by apply IH'].
    unfold compose. cbn [fst snd] in *. apply Forall_app_2; [by apply marshal_string_bytes|]. constructor; [by unfold is_byte|]. by apply Hp.
Qed.
