(* ===== verification/Shabal.v ===== *)
(** * Shabal ([pkg/burstmath/libs/shabal64.s])

    The hash function behind deadlines and scoops, as the assembly code
    computes it: words of 32 bits in registers and memory become values,
    [shabal_inner] takes one round after the other over the 64 words [Bx] of
    its stack frame.  The code keeps a context aligned by copying it; the
    copies have no effect on values and are left out. *)

From S2P Require Import Prelude.
Open Scope list_scope.
Open Scope Z_scope.

(** ** Words and bytes *)

Definition ones32 : Z := 0xFFFFFFFF.
Definition u32 (x : Z) : Z := Z.land x ones32.
Definition is_u32 (x : Z) : Prop := 0 <= x < 2 ^ 32.

Definition add32 (x y : Z) : Z := u32 (x + y).
Definition sub32 (x y : Z) : Z := u32 (x - y).
Definition not32 (x : Z) : Z := Z.lxor x ones32.
Definition shl32 (x n : Z) : Z := u32 (Z.shiftl x n).
(** [roll] *)
Definition rotl32 (x n : Z) : Z := Z.lor (shl32 x n) (Z.shiftr x (32 - n)).

(** Little-endian words in memory. *)
Fixpoint le (n : nat) (bs : list Z) : Z :=
  match n with O => 0 | S n => nth 0 bs 0 + 256 * le n (drop 1 bs) end.
Fixpoint le_bytes (n : nat) (x : Z) : list Z :=
  match n with O => [] | S n => x mod 256 :: le_bytes n (x / 256) end.

Definition word (bs : list Z) (j : nat) : Z := le 4 (drop (4 * j) bs).
Definition words (bs : list Z) : list Z := word bs <$> seq 0 16.

(** [memcpy] of [src] to the offset [at_] of a block of memory. *)
Definition store (at_ : nat) (src mem : list Z) : list Z := take at_ mem ++ src ++ drop (at_ + length src) mem.

(** ** The context *)

Record state := mk_state { A : list Z; B : list Z; C : list Z; W : Z }.

Record context := mk_context { buf : list Z; ptr : nat; stt : state; out_size : Z }.

(** ** [shabal_inner] *)

(** The round [u]: [eax] is the word of [A] before, [ecx] the new word of
    [Bx]. *)
Definition round (M C : list Z) (s : Z * list Z * list Z) (u : nat) : Z * list Z * list Z :=
  let '(eax, A, Bx) := s in
  let eax := rotl32 eax 15 in
  let edx := nth (u + 6) Bx 0 in
  let eax := u32 (eax + 4 * eax) in
  let ecx := nth (u mod 16) M 0 in
  let eax := Z.lxor eax (nth (u mod 12) A 0) in
  let edx := not32 edx in
  let ecx := Z.lxor ecx (nth (u + 13) Bx 0) in
  let edx := Z.land edx (nth (u + 9) Bx 0) in
  let eax := Z.lxor eax (nth ((15 * u + 8) mod 16) C 0) in
  let edx := Z.lxor edx ecx in
  let ecx := nth u Bx 0 in
  let eax := u32 (eax + 2 * eax) in
  let ecx := not32 ecx in
  let eax := Z.lxor eax edx in
  let ecx := rotl32 ecx 1 in
  (eax, <[u mod 12 := eax]> A, Bx ++ [Z.lxor ecx eax])%nat.

(** One block. *)
Definition inner (M : list Z) (s : state) : state :=
  let Bx := zip_with (fun b m => let x := add32 b m in Z.lor (shl32 x 17) (Z.shiftr x 15)) (B s) M in
  let A0 := <[0%nat := Z.lxor (nth 0 (A s) 0) (u32 (W s))]> (A s) in
  let A1 := <[1%nat := Z.lxor (nth 1 A0 0) (Z.shiftr (W s) 32)]> A0 in
  let '(_, A2, Bx) := foldl (round M (C s)) (nth 11 A1 0, A1, Bx) (seq 0 48) in
  let add := zip_with add32 in
  let xmm0 := nth 15 (C s) 0 :: take 3 (C s) in
  let xmm1 := take 4 (drop 3 (C s)) in
  let xmm2 := take 4 (drop 7 (C s)) in
  let xmm3 := add (take 4 (drop 11 (C s))) xmm1 in
  let xmm4 := add (add (take 4 A2) xmm3) xmm0 in
  let xmm5 := add (add (add (take 4 (drop 4 A2)) xmm1) xmm2) xmm0 in
  let xmm6 := add (add (take 4 (drop 8 A2)) xmm2) xmm3 in
  mk_state (xmm4 ++ xmm5 ++ xmm6) (zip_with sub32 (C s) M) (drop 48 Bx) ((W s + 1) mod 2 ^ 64).

Fixpoint shabal_inner (s : state) (data : list Z) (num : nat) : state :=
  match num with
  | O => s
  | S num => shabal_inner (inner (words data) s) (drop 64 data) num
  end.

(** ** [shabal_init] *)

(** The precomputed states, for the output sizes of 32, 64, ..., 512 bits. *)
Definition iv : list (list Z) := [
  [0x30991624; 0x806813D1; 0xBCA662CB; 0xD12B9E3E; 0x015C94E0; 0x90864C9D; 0x8EE87628; 0xC9B16670;
    0x6300436B; 0x00B74372; 0x6410F22C; 0x727CCCA8; 0x405762CA; 0xADAFA2DD; 0x094A20D4; 0x0299DB0E;
    0x8E697024; 0x80301429; 0x9FD43B12; 0x43429851; 0xB6CE9CE7; 0xFD7E01E8; 0x05C08832; 0x1B0B9BF9;
    0x203139BE; 0xDF941A78; 0x9028DC03; 0xD5079E88; 0xDC16B134; 0x1D902C0F; 0x7FABDE1C; 0x3BD00C56;
    0x2C6130DA; 0xDDACF5F4; 0x5FC89982; 0x9992F1D5; 0xA26EC215; 0x82DFFD2C; 0xCA1F5AC1; 0x3005D535;
    0x4F845186; 0x624E8186; 0x7E8EAA93; 0x0CC5813E];
  [0xAFBA1D74; 0x43D93628; 0xED6741E5; 0x24E6B5AD; 0x7CF8195B; 0x1348594B; 0x0B1D67BB; 0x8ECE0945;
    0x27A57DFA; 0xA3C28A8C; 0x88108C3E; 0x4E48C0AF; 0xC581116E; 0x16ED2D7F; 0xF5A2D28F; 0xC56D559D;
    0xBAA08E92; 0x64D7C8FC; 0x3E690AC9; 0x38B69953; 0x04DCCD05; 0xD1C9359A; 0x6A8545FA; 0x515BB34E;
    0x81FAC868; 0xEB40C1E5; 0x6D95629C; 0x45C0F632; 0x02105ED2; 0xBCA69AFF; 0x7402E45C; 0x3B3AE370;
    0x08A04FA4; 0x5A6CD21D; 0x462EB4C0; 0x8CC6966C; 0x500569B9; 0x5B580756; 0x8A23BEA0; 0x0C0D95F0;
    0xA8A2CC5E; 0x9DF90247; 0xE33F5B0F; 0x4CA34C8E];
  [0x9D63B7AE; 0x30D32AD2; 0xFD2D64F8; 0x1A4F88ED; 0x9F8C1E0E; 0x5B40AC3A; 0xBC49378A; 0x78C4CEB7;
    0x4D460412; 0x368F606F; 0x203C7132; 0x07775329; 0x2A7DD153; 0x9E434DA3; 0x6986024A; 0x160620C6;
    0x6A0DDA63; 0x0C300A9D; 0x928D0C82; 0xA2AEA46C; 0x5B026685; 0x9D381B86; 0x852DF223; 0x336AFB47;
    0xFCE8B147; 0xF7D77805; 0x24FD4088; 0xDCA077F4; 0x48B9AF9E; 0xABDF6C90; 0x0DCD5ED5; 0xEECB6206;
    0x6D12A365; 0x98F87C66; 0xCDC87E8D; 0xB5B4A748; 0x704AC162; 0x9F1CBD4B; 0xE61902FF; 0xB1BB72EA;
    0x2970E70A; 0xCEF5B6A6; 0x14DF55CB; 0x20943F97];
  [0x78B31FB9; 0xB6752098; 0x7E0A5E4F; 0xB9909576; 0xD29FEA11; 0x5001C1B0; 0x173061EB; 0x6259160F;
    0xBA854A36; 0x6B335E13; 0xB6DBCF5C; 0x1D2D8037; 0x1DFBAFBB; 0xDAA1D17F; 0x11432D8F; 0x22FE6988;
    0x438A5BB8; 0x017AA3EA; 0xDC20F53C; 0xA32C1D59; 0xF4EB3A99; 0x9F6B309D; 0x475AF4D1; 0x04AE709E;
    0x6FE7FEB6; 0x88F92195; 0x80DD47EF; 0xEC247FDE; 0xD1E7C920; 0xAE103B8D; 0x98C6AD6B; 0x66B44C42;
    0x26ACADFF; 0x17CE770A; 0xEC52610A; 0x8EA29C91; 0x9ADA9EB5; 0x68EAB2A2; 0x0D7CFF0C; 0xF34510D5;
    0x0CA1C747; 0xAFF5CB59; 0xEDBD3DC8; 0x35E3FEBA];
  [0x23043D95; 0xADF7E880; 0xF5A289A7; 0x08CE1221; 0xD8033158; 0x655D4342; 0xF8F100BC; 0xAEB91981;
    0x2A2F6A37; 0xAF532EE8; 0x3637E85F; 0x26FF1DB0; 0x9C04E33B; 0x001EA45F; 0xBFF4AD80; 0xBE0EFADB;
    0x3F4E1699; 0x4AC015FF; 0xCE944991; 0x657C86A4; 0x16237082; 0x69E66332; 0x081B6170; 0x616FBCEF;
    0xAA62AB9A; 0xD722D78F; 0x74CA0624; 0xA6CA8341; 0x9FFD9230; 0x29A59196; 0x533E5573; 0xD4DF9963;
    0x6171440E; 0x0ECC85CF; 0xCB2B959C; 0x89654A9F; 0x4CA1C101; 0xB55C326C; 0xF6D7614C; 0x380EED0C;
    0x51AC69B0; 0x6199E925; 0xCAAB12F6; 0x1B3AB589];
  [0xFD749ED4; 0xB798E530; 0x33904B6F; 0x46BDA85E; 0x076934B4; 0x454B4058; 0x77F74527; 0xFB4CF465;
    0x62931DA9; 0xE778C8DB; 0x22B3998E; 0xAC15CFB9; 0x58BCBAC4; 0xEC47A08E; 0xAEE933B2; 0xDFCBC824;
    0xA7944804; 0xBF65BDB0; 0x5A9D4502; 0x59979AF7; 0xC5CEA54E; 0x4B6B8150; 0x16E71909; 0x7D632319;
    0x930573A0; 0xF34C63D1; 0xCAF914B4; 0xFDD6612C; 0x61550878; 0x89EF2B75; 0xA1660C46; 0x7EF3855B;
    0x7297B58C; 0x1BC67793; 0x7FB1C723; 0xB66FC640; 0x1A48B71C; 0xF0976D17; 0x088CE80A; 0xA454EDF3;
    0x1C096BF4; 0xAC76224B; 0x5215781C; 0xCD5D2669];
  [0xA5201467; 0xA9B8D94A; 0xD4CED997; 0x68379D7B; 0xA7FC73BA; 0xF1A2546B; 0x606782BF; 0xE0BCFD0F;
    0x2F25374E; 0x069A149F; 0x5E2DFF25; 0xFAECF061; 0xEC9905D8; 0xF21850CF; 0xC0A746C8; 0x21DAD498;
    0x35156EEB; 0x088C97F2; 0x26303E40; 0x8A2D4FB5; 0xFEEE44B6; 0x8A1E9573; 0x7B81111A; 0xCBC139F0;
    0xA3513861; 0x1D2C362E; 0x918C580E; 0xB58E1B9C; 0xE4B573A1; 0x4C1A0880; 0x1E907C51; 0x04807EFD;
    0x3AD8CDE5; 0x16B21302; 0x02512C53; 0x2204CB18; 0x99405F2D; 0xE5B648A1; 0x70AB1D43; 0xA10C25C2;
    0x16F1AC05; 0x38BBEB56; 0x9B01DC60; 0xB1096D83];
  [0x52F84552; 0xE54B7999; 0x2D8EE3EC; 0xB9645191; 0xE0078B86; 0xBB7C44C9; 0xD2B5C1CA; 0xB0D2EB8C;
    0x14CE5A45; 0x22AF50DC; 0xEFFDBC6B; 0xEB21B74A; 0xB555C6EE; 0x3E710596; 0xA72A652F; 0x9301515F;
    0xDA28C1FA; 0x696FD868; 0x9CB6BF72; 0x0AFE4002; 0xA6E03615; 0x5138C1D4; 0xBE216306; 0xB38B8890;
    0x3EA8B96B; 0x3299ACE4; 0x30924DD4; 0x55CB34A5; 0xB405F031; 0xC4233EBA; 0xB3733979; 0xC0DD9D55;
    0xC51C28AE; 0xA327B8E1; 0x56C56167; 0xED614433; 0x88B59D60; 0x60E2CEBA; 0x758B4B8B; 0x83E82A7F;
    0xBC968828; 0xE6E00BF7; 0xBA839E55; 0x9B491C60];
  [0x66653F11; 0xF9446EDB; 0x3E8568FB; 0xE519F95A; 0xD6732054; 0xB2BDA0C5; 0x492F3CF8; 0x8FD63B96;
    0xB4EF4648; 0x7E5488E5; 0xA7ED170A; 0x5B25FA52; 0xBBC636A1; 0xB87FB1E3; 0xED8EED32; 0x6D10E8D5;
    0x34868338; 0x56EB9A07; 0x27C8D6ED; 0x0283EF48; 0x6B1AB349; 0x2619870B; 0xDDD0A56C; 0x7F72935B;
    0xD2B1A3C6; 0xD7DA5563; 0x58292E94; 0x363320A4; 0xB8904378; 0xBC37135F; 0x2FCFECEC; 0xC74DF052;
    0xB70F01DE; 0x523EB809; 0xD8E14A78; 0x181A659D; 0x90894E40; 0x48865BA0; 0x282C1F3F; 0x1C2488E9;
    0x0141B2E6; 0xFFD06EFB; 0xA1F15A68; 0xCFB06A87];
  [0x15FB76C8; 0x8BA3597D; 0x1B66A087; 0x65C5555B; 0x3962E239; 0x4EA9C7C7; 0x93D9671B; 0x3074B7BE;
    0xA224ED96; 0x38A8A88B; 0x9A515FEA; 0x125ADBD4; 0xF30E67D1; 0xCD0679E4; 0x0F373D5F; 0x1FCEF74D;
    0x5C80F3FB; 0xA6C70631; 0x0ECD6A69; 0x73885C8F; 0x1B77FE69; 0xD487D25A; 0xC027EED1; 0x3F31BD8F;
    0xE275F714; 0x92D07441; 0x5B70FF10; 0x177AE160; 0x6FCFA5FB; 0x67139322; 0x2D3109B2; 0x601A088C;
    0x293386A7; 0xF87584AB; 0x00862B83; 0x87EF6304; 0xF69DA436; 0x6AA88022; 0x09D1EC75; 0x8099B045;
    0x59F8B2DE; 0x343456A8; 0x91F66DAE; 0xAF1D30ED];
  [0x1BD5653A; 0x63D79468; 0xAE5166FA; 0x3FA0E9CC; 0x3578296E; 0xFFAA2881; 0xA07E89ED; 0xF38890CA;
    0x09111A9E; 0xF908F100; 0x8476444D; 0xFE33E1F8; 0x5B228C89; 0x1982F710; 0x0C51EE3E; 0xCC6C68EE;
    0x5629BF34; 0xCDEA4F9F; 0x203C3ECA; 0xE352E40A; 0x3FC6F380; 0x35E1DA2D; 0x8522A9DB; 0xB1DB66AE;
    0x07C002A7; 0xE495CA9B; 0x8D8B1D89; 0x1848DDFC; 0x2B5E7D26; 0x1F25F07D; 0x9B9E6378; 0x8DC9DDA7;
    0x44221A9D; 0x193A59CB; 0xBB7ACA55; 0x432325AB; 0x15CE4B4E; 0x6ED2B4DE; 0x42261A9F; 0x8DCADC14;
    0xEB49BC8E; 0xF566AEC0; 0x8A56D431; 0x216B0327];
  [0xC8FCA331; 0xE55C504E; 0x003EBF26; 0xBB6B8D83; 0x7B0448C1; 0x41B82789; 0x0A7C9601; 0x8D659CFF;
    0xB6E2673E; 0xCA54C77B; 0x1460FD7E; 0x3FCB8F2D; 0x527291FC; 0x2A16455F; 0x78E627E5; 0x944F169F;
    0x1CA6F016; 0xA854EA25; 0x8DB98ABE; 0xF2C62641; 0x30117DCB; 0xCF5C4309; 0x93711A25; 0xF9F671B8;
    0xB01D2116; 0x333F4B89; 0xB285D165; 0x86829B36; 0xF764B11A; 0x76172146; 0xCEF6934D; 0xC6D28399;
    0xFE095F61; 0x5E6018B4; 0x5048ECF5; 0x51353261; 0x6E6E36DC; 0x63130DAD; 0xA9C69BD6; 0x1E90EA0C;
    0x7C35073B; 0x28D95E6D; 0xAA340E0D; 0xCB3DEE70];
  [0x352E0FF3; 0x6AC9C045; 0x2DB4EF9C; 0x77FA2ABD; 0x338FDD70; 0x50534EFF; 0xFC4AEAD6; 0x7FD5E90F;
    0xD427A064; 0xAEEFEA00; 0xB2FE4468; 0xE0865D75; 0xFBA3A3EF; 0x426D3426; 0xC3B9AD71; 0x75BB8771;
    0x641F7D90; 0xA4D1C61E; 0x50B1078C; 0xDFD10A17; 0xCBF00300; 0x84931E03; 0xB3785FBB; 0xB2FE8C72;
    0xFBD8FFE0; 0x668069B2; 0x9389E26C; 0xA48A5538; 0xF4FEB4AD; 0x53794AD4; 0xC7646768; 0x95CA7E26;
    0x4826175D; 0xFA1862B5; 0x3D4FD63C; 0x18D1D0B3; 0x460F51F6; 0xB6B0FD70; 0xEB95B530; 0x36B38BC3;
    0x712EC1DD; 0xF1358202; 0x1C4B7E51; 0xF3B66BD6];
  [0x1D134615; 0xCE0B8376; 0x92A35944; 0x35D26466; 0x1DB7AEDE; 0xDD3C360C; 0xAF5D0BE3; 0x5A3A3E91;
    0x9F0C34CD; 0xF520D9D4; 0xDDA48EC5; 0x4D3AE612; 0x295698A4; 0x9240153D; 0xD6389B78; 0xC5CACDB0;
    0x2FBBFD90; 0x9F75A74A; 0x74DFABAC; 0xE79878CD; 0x741DB421; 0xF4B2D818; 0xA0534AD1; 0x21DB4895;
    0x06706D7D; 0xD4E49AE5; 0x55CEA19F; 0xB2EEF72C; 0x603BDEBA; 0xF3E69889; 0xA2F81607; 0xA7ECFE58;
    0x328401A7; 0x34056125; 0x275F0B5F; 0x73096110; 0xD1B17548; 0x6285F95B; 0xC6847C12; 0xB1B2CC4D;
    0xE39A4C46; 0x666CBA43; 0xBF67FEDD; 0x6E6A920D];
  [0xE12D27A7; 0x043FF4FC; 0x381D9D67; 0xEE7CFD88; 0xFAFDD1F4; 0x3FC132F0; 0x56D23777; 0xF1B02BFA;
    0x0F36802A; 0x5D56CF5A; 0x326F7F77; 0x15EC55C3; 0x2DBA88B8; 0x8E28E38F; 0x8415932B; 0x34BC9908;
    0x387AE120; 0x38805CB7; 0xECBD45D3; 0x09923083; 0x28077C3E; 0xCA2F47E3; 0x98AA2869; 0x55597017;
    0x9706DC5C; 0xD84853FA; 0x64B3D086; 0x2C175E1A; 0x42C658E1; 0x1948A0AC; 0xEEDD9CAE; 0xFD90CE89;
    0xCBE143C9; 0x5755D779; 0x6DC174EC; 0xBBBDC5FD; 0xD88C8760; 0xC052A9D6; 0x252D700E; 0x084A5959;
    0x78DC3463; 0x69C1402E; 0xEE5055CF; 0x5E909C8D];
  [0x20728DFD; 0x46C0BD53; 0xE782B699; 0x55304632; 0x71B4EF90; 0x0EA9E82C; 0xDBB930F1; 0xFAD06B8B;
    0xBE0CAE40; 0x8BD14410; 0x76D2ADAC; 0x28ACAB7F; 0xC1099CB7; 0x07B385F3; 0xE7442C26; 0xCC8AD640;
    0xEB6F56C7; 0x1EA81AA9; 0x73B9D314; 0x1DE85D08; 0x48910A5A; 0x893B22DB; 0xC5A0DF44; 0xBBC4324E;
    0x72D2F240; 0x75941D99; 0x6D8BDE82; 0xA1A7502B; 0xD9BF68D1; 0x58BAD750; 0x56028CB2; 0x8134F359;
    0xB5D469D8; 0x941A8CC2; 0x418B2A6E; 0x04052780; 0x7F07D787; 0x5194358F; 0x3C60D665; 0xBE97D79A;
    0x950C3434; 0xAED9A06D; 0x2537DC8D; 0x7CDB5969]].

Definition state_of_words (l : list Z) (w : Z) : state := mk_state (take 12 l) (take 16 (drop 12 l)) (drop 28 l) w.

(** The buffer keeps what is in memory. *)
Definition shabal_init (sc : context) (out_size : Z) : context :=
  mk_context (buf sc) 0 (state_of_words (nth (Z.to_nat (Z.shiftr out_size 5) - 1) iv []) 1) out_size.

(** ** [shabal] *)

Definition shabal (sc : context) (data : list Z) : context :=
  let len := length data in
  let rest := (64 - ptr sc)%nat in
  if (len <? rest)%nat
  then mk_context (store (ptr sc) data (buf sc)) (ptr sc + len) (stt sc) (out_size sc)
  else
    let '(b, s, data) :=
      if (ptr sc =? 0)%nat then (buf sc, stt sc, data)
      else let b := store (ptr sc) (take rest data) (buf sc) in
           (b, shabal_inner (stt sc) b 1, drop rest data) in
    let num := (length data / 64)%nat in
    let s := if (num =? 0)%nat then s else shabal_inner s data num in
    let data := drop (64 * num) data in
    mk_context (store 0 data b) (length data) s (out_size sc).

(** ** [shabal_close] *)

(** The last byte of the message: [n] extra bits of [ub], and a one. *)
Definition extra_byte (ub n : Z) : Z :=
  let eax := Z.shiftr 0x80 n in
  Z.land (Z.land (- eax) (Z.lor ub eax)) 0xFF.

(** Eight bytes at a time: the zeros may run over [ptr], behind the buffer. *)
Definition close_buf (sc : context) (ub n : Z) : list Z :=
  let zeros := (8 * ((70 - ptr sc) / 8))%nat in
  take 64 (store (ptr sc) (extra_byte ub n :: replicate zeros 0) (buf sc)).

Definition dec_W (s : state) : state := mk_state (A s) (B s) (C s) ((W s - 1) mod 2 ^ 64).

Definition output (s : state) (out_size : Z) : list Z :=
  concat (le_bytes 4 <$> drop (16 - Z.to_nat (Z.shiftr out_size 5)) (C s)).

Definition shabal_close (sc : context) (ub n : Z) : list Z :=
  let b := close_buf sc ub n in
  let s := Nat.iter 4 (fun s => dec_W (shabal_inner s b 1)) (stt sc) in
  output s (out_size sc).

(** ** The hash of a message *)

Definition stack : context := mk_context (replicate 64 0) 0 (mk_state [] [] [] 0) 0.

Definition Shabal256 (msg : list Z) : list Z := shabal_close (shabal (shabal_init stack 256) msg) 0 0.
