(* ===== verification/MShabal.v ===== *)
(** * Shabal on several messages at once ([pkg/burstmath/libs/mshabal_sse4.c],
    [mshabal256_avx2.c])

    The vector code for four and for eight messages.  A register is a vector
    of words, [vec Z n]; the intrinsics work lane by lane.  [compress] has the
    text of both files, which differ only in the names of the intrinsics.  The
    array [state] of a context is the list of its registers: the word
    [n * k + i] is the lane [i] of the register [k]. *)

From stdpp Require Import vector.
From S2P Require Import Prelude Shabal.
Open Scope list_scope.
Open Scope Z_scope.

(** ** Intrinsics *)

Section Intrinsics.
Context {n : nat}.

Definition _mm_add_epi32 (a b : vec Z n) : vec Z n := vzip_with add32 a b.
Definition _mm_sub_epi32 (a b : vec Z n) : vec Z n := vzip_with sub32 a b.
Definition _mm_xor_si128 (a b : vec Z n) : vec Z n := vzip_with Z.lxor a b.
Definition _mm_or_si128 (a b : vec Z n) : vec Z n := vzip_with Z.lor a b.
Definition _mm_andnot_si128 (a b : vec Z n) : vec Z n := vzip_with (fun x y => Z.land (not32 x) y) a b.
Definition _mm_slli_epi32 (a : vec Z n) (k : Z) : vec Z n := vmap (fun x => shl32 x k) a.
Definition _mm_srli_epi32 (a : vec Z n) (k : Z) : vec Z n := vmap (fun x => Z.shiftr x k) a.
Definition _mm_set1_epi32 (x : Z) : vec Z n := vreplicate n x.

Definition zero_register : vec Z n := vreplicate n 0.

End Intrinsics.

(** ** Compression *)

(** The operands of the 48 [PP]: [A[a0]], [A[a1]], [B[b0]], [B[b1]],
    [B[b2]], [B[b3]], [C[c]] and [M(m)]. *)
Definition PPs : list (list nat) := ([
  [0; 11; 0; 13; 9; 6; 8; 0]; [1; 0; 1; 14; 10; 7; 7; 1]; [2; 1; 2; 15; 11; 8; 6; 2]; [3; 2; 3; 0; 12; 9; 5; 3];
  [4; 3; 4; 1; 13; 10; 4; 4]; [5; 4; 5; 2; 14; 11; 3; 5]; [6; 5; 6; 3; 15; 12; 2; 6]; [7; 6; 7; 4; 0; 13; 1; 7];
  [8; 7; 8; 5; 1; 14; 0; 8]; [9; 8; 9; 6; 2; 15; 15; 9]; [10; 9; 10; 7; 3; 0; 14; 10]; [11; 10; 11; 8; 4; 1; 13; 11];
  [0; 11; 12; 9; 5; 2; 12; 12]; [1; 0; 13; 10; 6; 3; 11; 13]; [2; 1; 14; 11; 7; 4; 10; 14]; [3; 2; 15; 12; 8; 5; 9; 15];
  [4; 3; 0; 13; 9; 6; 8; 0]; [5; 4; 1; 14; 10; 7; 7; 1]; [6; 5; 2; 15; 11; 8; 6; 2]; [7; 6; 3; 0; 12; 9; 5; 3];
  [8; 7; 4; 1; 13; 10; 4; 4]; [9; 8; 5; 2; 14; 11; 3; 5]; [10; 9; 6; 3; 15; 12; 2; 6]; [11; 10; 7; 4; 0; 13; 1; 7];
  [0; 11; 8; 5; 1; 14; 0; 8]; [1; 0; 9; 6; 2; 15; 15; 9]; [2; 1; 10; 7; 3; 0; 14; 10]; [3; 2; 11; 8; 4; 1; 13; 11];
  [4; 3; 12; 9; 5; 2; 12; 12]; [5; 4; 13; 10; 6; 3; 11; 13]; [6; 5; 14; 11; 7; 4; 10; 14]; [7; 6; 15; 12; 8; 5; 9; 15];
  [8; 7; 0; 13; 9; 6; 8; 0]; [9; 8; 1; 14; 10; 7; 7; 1]; [10; 9; 2; 15; 11; 8; 6; 2]; [11; 10; 3; 0; 12; 9; 5; 3];
  [0; 11; 4; 1; 13; 10; 4; 4]; [1; 0; 5; 2; 14; 11; 3; 5]; [2; 1; 6; 3; 15; 12; 2; 6]; [3; 2; 7; 4; 0; 13; 1; 7];
  [4; 3; 8; 5; 1; 14; 0; 8]; [5; 4; 9; 6; 2; 15; 15; 9]; [6; 5; 10; 7; 3; 0; 14; 10]; [7; 6; 11; 8; 4; 1; 13; 11];
  [8; 7; 12; 9; 5; 2; 12; 12]; [9; 8; 13; 10; 6; 3; 11; 13]; [10; 9; 14; 11; 7; 4; 10; 14]; [11; 10; 15; 12; 8; 5; 9; 15]])%nat.

(** The pairs of the 36 additions [A[a] = A[a] + C[c]]. *)
Definition additions : list (nat * nat) := ([
  (11, 6); (10, 5); (9, 4); (8, 3); (7, 2); (6, 1); (5, 0); (4, 15); (3, 14); (2, 13); (1, 12); (0, 11);
  (11, 10); (10, 9); (9, 8); (8, 7); (7, 6); (6, 5); (5, 4); (4, 3); (3, 2); (2, 1); (1, 0); (0, 15);
  (11, 14); (10, 13); (9, 12); (8, 11); (7, 10); (6, 9); (5, 8); (4, 7); (3, 6); (2, 5); (1, 4); (0, 3)])%nat.

Section Compress.
Context {n : nat}.
Implicit Types (M A B C : list (vec Z n)).

Definition one : vec Z n := _mm_set1_epi32 0xFFFFFFFF.
Definition reg (l : list (vec Z n)) (i : nat) : vec Z n := nth i l zero_register.

Definition PP (M C : list (vec Z n)) (AB : list (vec Z n) * list (vec Z n)) (ops : list nat) : list (vec Z n) * list (vec Z n) :=
  match ops with
  | [a0; a1; b0; b1; b2; b3; c; m] =>
      let '(A, B) := AB in
      let tt := _mm_or_si128 (_mm_slli_epi32 (reg A a1) 15) (_mm_srli_epi32 (reg A a1) 17) in
      let tt := _mm_add_epi32 (_mm_slli_epi32 tt 2) tt in
      let tt := _mm_xor_si128 (_mm_xor_si128 (reg A a0) tt) (reg C c) in
      let tt := _mm_add_epi32 (_mm_slli_epi32 tt 1) tt in
      let xa0 := _mm_xor_si128 (_mm_xor_si128 tt (reg B b1))
                   (_mm_xor_si128 (_mm_andnot_si128 (reg B b3) (reg B b2)) (reg M m)) in
      let tt := _mm_or_si128 (_mm_slli_epi32 (reg B b0) 1) (_mm_srli_epi32 (reg B b0) 31) in
      (<[a0 := xa0]> A, <[b0 := _mm_xor_si128 tt (_mm_xor_si128 xa0 one)]> B)
  | _ => AB
  end.

Definition add_C (C A : list (vec Z n)) (ac : nat * nat) : list (vec Z n) :=
  <[ac.1 := _mm_add_epi32 (reg A ac.1) (reg C ac.2)]> A.

(** One block [M] of each message. *)
Definition compress_block M (Wlow Whigh : Z) A B C : list (vec Z n) * list (vec Z n) * list (vec Z n) :=
  let B := zip_with _mm_add_epi32 B M in
  let A := <[0%nat := _mm_xor_si128 (reg A 0) (_mm_set1_epi32 Wlow)]> A in
  let A := <[1%nat := _mm_xor_si128 (reg A 1) (_mm_set1_epi32 Whigh)]> A in
  let B := (fun b => _mm_or_si128 (_mm_slli_epi32 b 17) (_mm_srli_epi32 b 15)) <$> B in
  let '(A, B) := foldl (PP M C) (A, B) PPs in
  let A := foldl (add_C C) A additions in
  (A, zip_with _mm_sub_epi32 C M, B).

Record mstate := mk_mstate { mA : list (vec Z n); mB : list (vec Z n); mC : list (vec Z n); Wlow : Z; Whigh : Z }.

(** The words of a block, one message per lane. *)
Definition load (bufs : vec (list Z) n) : list (vec Z n) := (fun j => vmap (fun b => word b j) bufs) <$> seq 0 16.

Definition inc (Wlow Whigh : Z) : Z * Z :=
  let Wlow := u32 (Wlow + 1) in if Wlow =? 0 then (Wlow, u32 (Whigh + 1)) else (Wlow, Whigh).
Definition dec (Wlow Whigh : Z) : Z * Z :=
  (u32 (Wlow - 1), if Wlow =? 0 then u32 (Whigh - 1) else Whigh).

(** [sse4_mshabal_compress], [mshabal256_compress] *)
Fixpoint compress (s : mstate) (bufs : vec (list Z) n) (num : nat) : mstate :=
  match num with
  | O => s
  | S num =>
      let '(A, B, C) := compress_block (load bufs) (Wlow s) (Whigh s) (mA s) (mB s) (mC s) in
      let '(wl, wh) := inc (Wlow s) (Whigh s) in
      compress (mk_mstate A B C wl wh) (vmap (drop 64) bufs) num
  end.

Definition dec_mW (s : mstate) : mstate :=
  let '(wl, wh) := dec (Wlow s) (Whigh s) in mk_mstate (mA s) (mB s) (mC s) wl wh.

End Compress.

Arguments mstate : clear implicits.

Record mshabal_context (n : nat) := mk_mcontext {
  bufs : vec (list Z) n;
  mptr : nat;
  mstt : mstate n;
  m_out_size : Z
}.
Arguments mk_mcontext {n}. Arguments bufs {n}. Arguments mptr {n}. Arguments mstt {n}. Arguments m_out_size {n}.

(** ** Four messages *)

(** The block of the numbers [first], [first + 1], ..., in 16 words. *)
Definition prefix_block (first : Z) : list Z :=
  concat ((fun u => [(first + Z.of_nat u) mod 256; Z.shiftr (first + Z.of_nat u) 8 mod 256; 0; 0]) <$> seq 0 16).

Definition zero_state (n : nat) : mstate n :=
  let zeros k := replicate k (zero_register (n := n)) in
  mk_mstate (zeros 12%nat) (zeros 16%nat) (zeros 16%nat) 0xFFFFFFFF 0xFFFFFFFF.

Definition sse4_mshabal_init (out_size : Z) : mshabal_context 4 :=
  let s := compress (zero_state 4) (vreplicate 4 (prefix_block out_size)) 1 in
  let bufs := vreplicate 4 (prefix_block (out_size + 16)) in
  mk_mcontext bufs 0 (compress s bufs 1) out_size.

(** A message that is [NULL] is replaced by another one. *)
Definition instead (data : vec (option (list Z)) 4) : option (vec (list Z) 4) :=
  data0 ← head (omap id (vec_to_list data));
  Some (vmap (default data0) data).

Section Update.
Context {n : nat}.

(** [len] bytes of each message: the buffers are filled, blocks compressed,
    the rest is kept. *)
Definition update (sc : mshabal_context n) (data : vec (list Z) n) (len : nat) : mshabal_context n :=
  let ptr := mptr sc in
  let clen := (64 - ptr)%nat in
  if negb (ptr =? 0)%nat && (len <? clen)%nat
  then mk_mcontext (vzip_with (fun d b => store ptr (take len d) b) data (bufs sc)) (ptr + len) (mstt sc) (m_out_size sc)
  else
    let '(bufs, s, data, len) :=
      if (ptr =? 0)%nat then (bufs sc, mstt sc, data, len)
      else let b := vzip_with (fun d b => store ptr (take clen d) b) data (bufs sc) in
           (b, compress (mstt sc) b 1, vmap (drop clen) data, len - clen)%nat in
    let num := (len / 64)%nat in
    let s := if (num =? 0)%nat then s else compress s data num in
    let data := vmap (drop (64 * num)) data in
    let len := (len mod 64)%nat in
    mk_mcontext (vzip_with (fun d b => store 0 (take len d) b) data bufs) len s (m_out_size sc).

(** The last block of each message, with its last byte. *)
Definition close_bufs (sc : mshabal_context n) (last : vec Z n) : vec (list Z) n :=
  vzip_with (fun z b => store (mptr sc) (z :: replicate (64 - (mptr sc + 1)) 0) b) last (bufs sc).

Definition finalize (sc : mshabal_context n) (last : vec Z n) : mstate n :=
  let b := close_bufs sc last in
  Nat.iter 4 (fun s => dec_mW (compress s b 1)) (mstt sc).

(** The words of [C] from the register [first] on, for each message. *)
Definition outputs (s : mstate n) (first : nat) : vec (list Z) n :=
  vmap (fun i => concat ((fun r : vec Z n => le_bytes 4 (r !!! i)) <$> drop first (mC s))) (fun_to_vec (fun i : fin n => i)).

End Update.

Definition sse4_mshabal (sc : mshabal_context 4) (data : vec (option (list Z)) 4) (len : nat) : mshabal_context 4 :=
  match instead data with
  | None => sc
  | Some data => update sc data len
  end.

Definition sse4_mshabal_close (sc : mshabal_context 4) (ub : vec Z 4) (extra : Z) : vec (list Z) 4 :=
  let z := Z.shiftr 0x80 extra in
  let last := vmap (fun ub => Z.lor (Z.land ub (- z)) z mod 256) ub in
  outputs (finalize sc last) (16 - Z.to_nat (Z.shiftr (m_out_size sc) 5)).

(** ** Eight messages *)

Definition prefix_block_256 (first : Z) : list Z :=
  concat ((fun u => [(first + Z.of_nat u) mod 256; 1; 0; 0]) <$> seq 0 16).

Definition mshabal256_init : mshabal_context 8 :=
  let s := compress (zero_state 8) (vreplicate 8 (prefix_block_256 256)) 1 in
  let bufs := vreplicate 8 (prefix_block_256 272) in
  mk_mcontext bufs 0 (compress s bufs 1) 256.

Definition mshabal256 (sc : mshabal_context 8) (data : vec (list Z) 8) (len : nat) : mshabal_context 8 := update sc data len.

Definition mshabal256_close (sc : mshabal_context 8) : vec (list Z) 8 := outputs (finalize sc (vreplicate 8 0x80)) 8.
