(* ===== verification/ShabalLanes.v ===== *)
(** * One hash function

    The assembly code and both vector codes compute one function: the 48
    rounds over a growing array of words and the 48 macros over registers are
    the same, and every lane of [compress] is [shabal_inner]
    ([compress_lane]). *)

From stdpp Require Import vector.
From S2P Require Import Prelude GoStrings Shabal MShabal.
Open Scope list_scope.
Open Scope Z_scope.

(** ** Words *)

Lemma u32_mod x : u32 x = x mod 2 ^ 32.
Proof. unfold u32. change ones32 with (Z.ones 32). by apply Z.land_ones. Qed.

Lemma u32_range x : is_u32 (u32 x).
Proof. rewrite u32_mod. apply Z.mod_pos_bound. lia. Qed.

Lemma u32_small x : is_u32 x -> u32 x = x.
Proof. intros H. rewrite u32_mod. by apply Z.mod_small. Qed.

Lemma is_u32_bits x : is_u32 x <-> 0 <= x /\ forall i, 32 <= i -> Z.testbit x i = false.
Proof.
  unfold is_u32. split.
  - intros [H0 H]. split; [done|]. intros i Hi. destruct (Z.eq_dec x 0) as [->|Hx]; [apply Z.bits_0|].
    apply Z.bits_above_log2; [done|]. apply Z.log2_lt_pow2 in H; lia.
  - intros [H0 H]. split; [done|]. destruct (Z.eq_dec x 0) as [->|Hx]; [done|].
    apply Z.nle_gt. intros Hle. pose proof (Z.log2_le_pow2 x 32 ltac:(lia)) as [Hl _]. specialize (Hl Hle).
    specialize (H (Z.log2 x) ltac:(lia)). rewrite Z.bit_log2 in H by lia. discriminate.
Qed.

Lemma is_u32_lxor x y : is_u32 x -> is_u32 y -> is_u32 (Z.lxor x y).
Proof.
  rewrite !is_u32_bits. intros [Hx Hbx] [Hy Hby]. split; [by apply Z.lxor_nonneg|].
  intros i Hi. by rewrite Z.lxor_spec, Hbx, Hby.
Qed.

Lemma is_u32_lor x y : is_u32 x -> is_u32 y -> is_u32 (Z.lor x y).
Proof.
  rewrite !is_u32_bits. intros [Hx Hbx] [Hy Hby]. split; [by apply Z.lor_nonneg|].
  intros i Hi. by rewrite Z.lor_spec, Hbx, Hby.
Qed.

Lemma is_u32_shiftr x n : is_u32 x -> 0 <= n -> is_u32 (Z.shiftr x n).
Proof.
  rewrite !is_u32_bits. intros [Hx Hbx] Hn. split; [by apply Z.shiftr_nonneg|].
  intros i Hi. rewrite Z.shiftr_spec by lia. apply Hbx. lia.
Qed.

Lemma is_u32_rotl32 x n : is_u32 x -> 0 <= n <= 32 -> is_u32 (rotl32 x n).
Proof. intros Hx Hn. apply is_u32_lor; [apply u32_range|apply is_u32_shiftr; [done|lia]]. Qed.

Lemma is_u32_not32 x : is_u32 x -> is_u32 (not32 x).
Proof. intros Hx. by apply is_u32_lxor. Qed.

Lemma is_u32_land_r x y : is_u32 x -> is_u32 y -> is_u32 (Z.land x y).
Proof.
  rewrite !is_u32_bits. intros [Hx Hbx] [Hy Hby]. split; [apply Z.land_nonneg; by left|].
  intros i Hi. by rewrite Z.land_spec, Hbx, Hby.
Qed.

(** [lea (x, x, 4)] *)
Lemma lea5 x : u32 (x + 4 * x) = add32 (shl32 x 2) x.
Proof.
  unfold add32, shl32. rewrite !u32_mod, Z.shiftl_mul_pow2, Z.add_mod_idemp_l by lia. f_equal. lia.
Qed.

Lemma lea3 x : u32 (x + 2 * x) = add32 (shl32 x 1) x.
Proof.
  unfold add32, shl32. rewrite !u32_mod, Z.shiftl_mul_pow2, Z.add_mod_idemp_l by lia. f_equal. lia.
Qed.

Lemma testbit_ones32 i : 0 <= i -> Z.testbit ones32 i = (i <? 32).
Proof. intros Hi. change ones32 with (Z.ones 32). rewrite Z.testbit_ones by lia. by rewrite (proj2 (Z.leb_le 0 i)). Qed.

(** The rotation of a complement. *)
Lemma rotl32_not32 b a :
  is_u32 b -> Z.lxor (rotl32 (not32 b) 1) a = Z.lxor (rotl32 b 1) (Z.lxor a ones32).
Proof.
  intros Hb. rewrite (Z.lxor_comm a), <- Z.lxor_assoc. f_equal. apply is_u32_bits in Hb as [Hb0 Hb].
  unfold rotl32, shl32, not32, u32. apply Z.bits_inj'. intros i Hi.
  rewrite Z.lor_spec, Z.land_spec, Z.lxor_spec, Z.lor_spec, Z.land_spec, !Z.shiftr_spec, Z.lxor_spec by lia.
  rewrite !testbit_ones32 by lia. destruct (Z.ltb_spec i 32) as [Hi2|Hi2].
  - rewrite !andb_true_r.
    rewrite !Z.shiftl_spec by lia. destruct (Z.eq_dec i 0) as [->|Hi3].
    + rewrite !Z.testbit_neg_r by lia. simpl. by destruct (Z.testbit b 31).
    + rewrite Z.lxor_spec, testbit_ones32 by lia. rewrite (proj2 (Z.ltb_lt (i - 1) 32)), (proj2 (Z.ltb_ge (i + (32 - 1)) 32)) by lia.
      rewrite (Hb (i + (32 - 1))) by lia. by destruct (Z.testbit b (i - 1)).
  - rewrite !andb_false_r, (Hb (i + (32 - 1))), (proj2 (Z.ltb_ge (i + (32 - 1)) 32)) by lia. done.
Qed.

(** ** One lane of a block *)

Definition ith {n} (i : fin n) (v : vec Z n) : Z := v !!! i.
Definition lane {n} (i : fin n) (l : list (vec Z n)) : list Z := ith i <$> l.

Section Lane.
Context {n : nat} (i : fin n).
Implicit Types (A B C M l : list (vec Z n)).

Lemma ith_reg l k : ith i (reg l k) = nth k (lane i l) 0.
Proof.
  unfold reg, lane. transitivity (nth k (map (ith i) l) (ith i zero_register)); [by rewrite map_nth|].
  f_equal. apply vlookup_replicate.
Qed.

Lemma ith_add a b : ith i (_mm_add_epi32 a b) = add32 (ith i a) (ith i b). Proof. apply vlookup_zip_with. Qed.
Lemma ith_sub a b : ith i (_mm_sub_epi32 a b) = sub32 (ith i a) (ith i b). Proof. apply vlookup_zip_with. Qed.
Lemma ith_xor a b : ith i (_mm_xor_si128 a b) = Z.lxor (ith i a) (ith i b). Proof. apply vlookup_zip_with. Qed.
Lemma ith_or a b : ith i (_mm_or_si128 a b) = Z.lor (ith i a) (ith i b). Proof. apply vlookup_zip_with. Qed.
Lemma ith_andnot a b : ith i (_mm_andnot_si128 a b) = Z.land (not32 (ith i a)) (ith i b). Proof. exact (vlookup_zip_with _ _ _ _). Qed.
Lemma ith_slli a k : ith i (_mm_slli_epi32 a k) = shl32 (ith i a) k. Proof. exact (vlookup_map _ _ _). Qed.
Lemma ith_srli a k : ith i (_mm_srli_epi32 a k) = Z.shiftr (ith i a) k. Proof. exact (vlookup_map _ _ _). Qed.
Lemma ith_set1 x : ith i (_mm_set1_epi32 x) = x. Proof. apply vlookup_replicate. Qed.

Lemma lane_insert l k v : lane i (<[k := v]> l) = <[k := ith i v]> (lane i l).
Proof. apply list_fmap_insert. Qed.

Lemma lane_zip_with (f : vec Z n -> vec Z n -> vec Z n) (g : Z -> Z -> Z) l1 l2 :
  (forall a b, ith i (f a b) = g (ith i a) (ith i b)) -> lane i (zip_with f l1 l2) = zip_with g (lane i l1) (lane i l2).
Proof.
  intros Hf. unfold lane. revert l2. induction l1 as [|a l1 IH]; intros [|b l2]; [done..|]. cbn. by rewrite Hf, IH.
Qed.

End Lane.

Create Rewrite HintDb lane.
#[export] Hint Rewrite @ith_reg @ith_add @ith_sub @ith_xor @ith_or @ith_andnot @ith_slli @ith_srli @ith_set1 @lane_insert : lane.

(** What a [PP] does to the words of a lane. *)
Definition new_word (M C A B : list Z) (a0 a1 b1 b2 b3 c m : nat) : Z :=
  let tt := rotl32 (nth a1 A 0) 15 in
  let tt := Z.lxor (Z.lxor (nth a0 A 0) (add32 (shl32 tt 2) tt)) (nth c C 0) in
  Z.lxor (Z.lxor (add32 (shl32 tt 1) tt) (nth b1 B 0)) (Z.lxor (Z.land (not32 (nth b3 B 0)) (nth b2 B 0)) (nth m M 0)).

Definition lane_PP (M C : list Z) (AB : list Z * list Z) (ops : list nat) : list Z * list Z :=
  match ops with
  | [a0; a1; b0; b1; b2; b3; c; m] =>
      let '(A, B) := AB in
      let xa0 := new_word M C A B a0 a1 b1 b2 b3 c m in
      (<[a0 := xa0]> A, <[b0 := Z.lxor (rotl32 (nth b0 B 0) 1) (Z.lxor xa0 ones32)]> B)
  | _ => AB
  end.

Lemma PP_lane {n} (i : fin n) M C A B ops :
  prod_map (lane i) (lane i) (PP M C (A, B) ops) = lane_PP (lane i M) (lane i C) (lane i A, lane i B) ops.
Proof.
  do 9 (destruct ops as [|? ops]; try done). unfold PP, lane_PP, one, new_word, rotl32. cbn [prod_map fst snd].
  by autorewrite with lane.
Qed.

Lemma PPs_lane {n} (i : fin n) M C AB l :
  prod_map (lane i) (lane i) (foldl (PP M C) AB l)
  = foldl (lane_PP (lane i M) (lane i C)) (prod_map (lane i) (lane i) AB) l.
Proof.
  revert AB. induction l as [|ops l IH]; intros [A B]; [done|]. cbn [foldl]. rewrite IH. f_equal. apply PP_lane.
Qed.

Definition lane_add_C (C A : list Z) (ac : nat * nat) : list Z := <[ac.1 := add32 (nth ac.1 A 0) (nth ac.2 C 0)]> A.

Lemma additions_lane {n} (i : fin n) C A l :
  lane i (foldl (add_C C) A l) = foldl (lane_add_C (lane i C)) (lane i A) l.
Proof.
  revert A. induction l as [|ac l IH]; intros A; [done|]. cbn [foldl]. rewrite IH. f_equal.
  unfold add_C, lane_add_C. by autorewrite with lane.
Qed.

(** ** The rounds *)




(** The operands of the vector code are those of the rounds. *)
Lemma PPs_rounds :
  PPs = ((fun u => [u mod 12; (u + 11) mod 12; u mod 16; (u + 13) mod 16; (u + 9) mod 16; (u + 6) mod 16; (15 * u + 8) mod 16; u mod 16])
           <$> seq 0 48)%nat.
Proof. by vm_compute. Qed.

(** The words of the vector code's [B], in place, and those of [Bx], one
    after the other: after [u] rounds, [B] has the last sixteen. *)
Record in_step (u : nat) (eax : Z) (A Bx B : list Z) : Prop := {
  st_A : length A = 12%nat;
  st_Bx : length Bx = (16 + u)%nat;
  st_B : length B = 16%nat;
  st_eax : eax = nth ((u + 11) mod 12) A 0;
  st_window : forall j, (j < 16)%nat -> nth ((u + j) mod 16) B 0 = nth (u + j) Bx 0;
  st_words : Forall is_u32 A /\ Forall is_u32 Bx
}.

Lemma nth_insert {X} (l : list X) k k' x d :
  (k < length l)%nat -> nth k' (<[k := x]> l) d = if decide (k' = k) then x else nth k' l d.
Proof.
  intros Hk. rewrite !nth_lookup. case_decide as Hd; [subst; by rewrite list_lookup_insert_eq|].
  by rewrite list_lookup_insert_ne by congruence.
Qed.

Lemma nth_u32 l k : Forall is_u32 l -> is_u32 (nth k l 0).
Proof.
  intros Hl. rewrite nth_lookup. destruct (l !! k) as [x|] eqn:E; [by eapply (Forall_lookup_1 _ l)|]. simpl. unfold is_u32. lia.
Qed.

Lemma lxor_swap x b l m : Z.lxor (Z.lxor x b) (Z.lxor l m) = Z.lxor x (Z.lxor l (Z.lxor m b)).
Proof.
  rewrite Z.lxor_assoc. f_equal. rewrite Z.lxor_comm, Z.lxor_assoc. done.
Qed.

Lemma window_last u j : (j < 16)%nat -> ((S u + j) mod 16 = u mod 16)%nat -> j = 15%nat.
Proof.
  intros Hj E. pose proof (Nat.div_mod_eq (S u + j) 16). pose proof (Nat.div_mod_eq u 16). lia.
Qed.

(** One round. *)
Lemma round_in_step M C u eax A Bx B :
  (u < 48)%nat -> Forall is_u32 M -> Forall is_u32 C -> in_step u eax A Bx B ->
  let '(eax', A', Bx') := round M C (eax, A, Bx) u in
  exists B', lane_PP M C (A, B) [u mod 12; (u + 11) mod 12; u mod 16; (u + 13) mod 16; (u + 9) mod 16; (u + 6) mod 16;
                                 (15 * u + 8) mod 16; u mod 16]%nat = (A', B') /\
    in_step (S u) eax' A' Bx' B'.
Proof.
  intros Hu HM HC [HA HBx HB -> Hw [HAw HBw]]. unfold round. cbv zeta. rewrite lea5, lea3.
  set (a := Z.lxor _ _). set (b := Z.lxor (rotl32 _ 1) a).
  assert (Ha : new_word M C A B (u mod 12) ((u + 11) mod 12) ((u + 13) mod 16) ((u + 9) mod 16) ((u + 6) mod 16)
    ((15 * u + 8) mod 16) (u mod 16) = a).
  { unfold new_word, a. cbv zeta. rewrite lxor_swap, (Z.lxor_comm (nth (u mod 12) A 0)).
    f_equal. f_equal; by rewrite !Hw by lia. }
  assert (Hb0 : nth (u mod 16) B 0 = nth u Bx 0).
  { rewrite <- (Nat.add_0_r u) at 1. rewrite Hw by lia. by rewrite Nat.add_0_r. }
  assert (Hb : Z.lxor (rotl32 (nth (u mod 16) B 0) 1) (Z.lxor a ones32) = b).
  { unfold b. rewrite Hb0, rotl32_not32; [done|by apply nth_u32]. }
  pose proof (Nat.mod_upper_bound u 12 ltac:(lia)). pose proof (Nat.mod_upper_bound u 16 ltac:(lia)).
  assert (Haw : is_u32 a).
  { unfold a. apply is_u32_lxor; [apply u32_range|]. apply is_u32_lxor; [|apply is_u32_lxor; by apply nth_u32].
    apply is_u32_land_r; [apply is_u32_not32|]; by apply nth_u32. }
  exists (<[(u mod 16)%nat := b]> B). split.
  { unfold lane_PP. by rewrite Ha, Hb. }
  split.
  - by rewrite length_insert.
  - rewrite length_app. simpl. lia.
  - by rewrite length_insert.
  - replace (S u + 11)%nat with (u + 1 * 12)%nat by lia. rewrite Nat.Div0.mod_add, nth_insert by lia. by rewrite decide_True.
  - intros j Hj. rewrite nth_insert by lia. case_decide as Hd.
    + assert (j = 15)%nat as -> by (by apply (window_last u)). rewrite app_nth2 by lia. replace (S u + 15 - length Bx)%nat with 0%nat by lia. done.
    + assert (j < 15)%nat.
      { destruct (decide (j = 15%nat)) as [->|]; [|lia]. exfalso. apply Hd. replace (S u + 15)%nat with (u + 1 * 16)%nat by lia. apply Nat.Div0.mod_add. }
      replace (S u + j)%nat with (u + S j)%nat by lia. rewrite Hw, app_nth1 by lia. done.
  - split; [by apply Forall_insert|]. apply Forall_app. split; [done|]. constructor; [|done].
    apply is_u32_lxor; [|done]. apply is_u32_rotl32; [|lia]. by apply is_u32_not32, nth_u32.
Qed.

Definition round_ops (u : nat) : list nat :=
  ([u mod 12; (u + 11) mod 12; u mod 16; (u + 13) mod 16; (u + 9) mod 16; (u + 6) mod 16; (15 * u + 8) mod 16; u mod 16])%nat.

Lemma rounds_in_step M C A Bx k :
  (k <= 48)%nat -> Forall is_u32 M -> Forall is_u32 C -> length A = 12%nat -> length Bx = 16%nat ->
  Forall is_u32 A -> Forall is_u32 Bx ->
  let '(eax, A', Bx') := foldl (round M C) (nth 11 A 0, A, Bx) (seq 0 k) in
  exists B', foldl (lane_PP M C) (A, Bx) (round_ops <$> seq 0 k) = (A', B') /\ in_step k eax A' Bx' B'.
Proof.
  intros Hk HM HC HA HB HAw HBw. induction k as [|k IH].
  - exists Bx. split; [done|]. split; try done. intros j Hj. by rewrite Nat.mod_small.
  - rewrite seq_S, fmap_app, !foldl_app. specialize (IH ltac:(lia)).
    destruct (foldl (round M C) (nth 11 A 0, A, Bx) (seq 0 k)) as [[eax A'] Bx']. destruct IH as (B' & E & Hs).
    rewrite E. cbn [foldl fmap list_fmap]. rewrite Nat.add_0_l.
    exact (round_in_step M C k eax A' Bx' B' ltac:(lia) HM HC Hs).
Qed.

(** All rounds. *)
Lemma rounds_lane M C A Bx :
  Forall is_u32 M -> Forall is_u32 C -> length A = 12%nat -> length Bx = 16%nat -> Forall is_u32 A -> Forall is_u32 Bx ->
  let '(_, A', Bx') := foldl (round M C) (nth 11 A 0, A, Bx) (seq 0 48) in
  foldl (lane_PP M C) (A, Bx) PPs = (A', drop 48 Bx') /\
  length A' = 12%nat /\ length (drop 48 Bx') = 16%nat /\ Forall is_u32 A' /\ Forall is_u32 Bx'.
Proof.
  intros HM HC HA HB HAw HBw. pose proof (rounds_in_step M C A Bx 48 ltac:(lia) HM HC HA HB HAw HBw) as Hr.
  destruct (foldl (round M C) _ _) as [[eax A'] Bx']. destruct Hr as (B' & E & [HA' HBx' HB' _ Hw [HAw' HBw']]).
  rewrite PPs_rounds. change (fun u : nat => _) with round_ops. rewrite E.
  split_and!; [|done|rewrite length_drop; lia|done|done]. f_equal.
  apply (nth_ext _ _ 0 0); [rewrite length_drop; lia|]. intros j Hj. rewrite HB' in Hj. rewrite !nth_lookup, lookup_drop, <- !nth_lookup.
  rewrite <- Hw by done. f_equal. rewrite <- (Nat.Div0.add_mod_idemp_l 48 j). by rewrite Nat.mod_small.
Qed.

Lemma add32_sum x y s t : u32 x = u32 s -> u32 y = u32 t -> add32 x y = u32 (s + t).
Proof. unfold add32. rewrite !u32_mod, (Z.add_mod x y), (Z.add_mod s t) by lia. by intros -> ->. Qed.

Lemma add32_again x y s t : u32 x = u32 s -> u32 y = u32 t -> u32 (add32 x y) = u32 (s + t).
Proof. intros Hx Hy. rewrite (add32_sum _ _ _ _ Hx Hy), !u32_mod. by apply Z.mod_mod. Qed.

(** Sums of [add32], in any order. *)
#[local] Ltac sum32 := repeat first [apply add32_again | reflexivity].
#[local] Ltac add32_ring :=
  etransitivity; [apply add32_sum; sum32|symmetry; etransitivity; [apply add32_sum; sum32|f_equal; lia]].

(** The additions, three to a word. *)
Lemma additions_inner C A :
  length A = 12%nat -> length C = 16%nat ->
  let add := zip_with add32 in
  let xmm0 := nth 15 C 0 :: take 3 C in
  let xmm1 := take 4 (drop 3 C) in
  let xmm2 := take 4 (drop 7 C) in
  let xmm3 := add (take 4 (drop 11 C)) xmm1 in
  foldl (lane_add_C C) A additions
  = add (add (take 4 A) xmm3) xmm0 ++ add (add (add (take 4 (drop 4 A)) xmm1) xmm2) xmm0 ++ add (add (take 4 (drop 8 A)) xmm2) xmm3.
Proof.
  intros HA HC. do 12 (destruct A as [|? A]; [done|]). destruct A; [|done].
  do 16 (destruct C as [|? C]; [done|]). destruct C; [|done]. cbn.
  repeat match goal with |- _ :: _ = _ :: _ => apply (f_equal2 cons); [add32_ring|] end. done.
Qed.

(** ** One block *)

Record good (s : state) : Prop := {
  g_A : length (A s) = 12%nat;
  g_B : length (B s) = 16%nat;
  g_C : length (C s) = 16%nat;
  g_words : Forall is_u32 (A s) /\ Forall is_u32 (B s) /\ Forall is_u32 (C s);
  g_W : 0 <= W s < 2 ^ 64
}.

Definition block_words (M : list Z) : Prop := length M = 16%nat /\ Forall is_u32 M.

Lemma rot17_words B M :
  Forall is_u32 B -> Forall is_u32 M ->
  Forall is_u32 (zip_with (fun b m => let x := add32 b m in Z.lor (shl32 x 17) (Z.shiftr x 15)) B M).
Proof.
  intros HB HM. apply Forall_zip_with_fst with (P := fun _ => True); [by apply Forall_true|].
  apply Forall_true. intros b x _. apply is_u32_lor; [apply u32_range|]. apply is_u32_shiftr; [apply u32_range|lia].
Qed.

Lemma zip_words (f : Z -> Z -> Z) l1 l2 : (forall x y, is_u32 (f x y)) -> Forall is_u32 (zip_with f l1 l2).
Proof. intros Hf. revert l2. induction l1 as [|x l1 IH]; intros [|y l2]; constructor; auto. Qed.

Lemma high_word w : 0 <= w < 2 ^ 64 -> is_u32 (Z.shiftr w 32).
Proof.
  intros Hw. rewrite Z.shiftr_div_pow2 by lia. split; [apply Z.div_pos; lia|apply Z.div_lt_upper_bound; lia].
Qed.

(** The counter goes into [A[0]] and [A[1]]. *)
Lemma counter_words A w :
  Forall is_u32 A -> 0 <= w < 2 ^ 64 ->
  let A0 := <[0%nat := Z.lxor (nth 0 A 0) (u32 w)]> A in
  Forall is_u32 (<[1%nat := Z.lxor (nth 1 A0 0) (Z.shiftr w 32)]> A0).
Proof.
  intros HA Hw A0. pose proof (high_word w Hw).
  assert (HA0 : Forall is_u32 A0).
  { apply Forall_insert; [done|]. apply is_u32_lxor; [by apply nth_u32|apply u32_range]. }
  apply Forall_insert; [done|]. apply is_u32_lxor; [by apply nth_u32|done].
Qed.

Lemma inner_good M s : block_words M -> good s -> good (inner M s).
Proof.
  intros [HM HMw] [HA HB HC (HAw & HBw & HCw) HW]. unfold inner.
  set (Bx := zip_with _ (B s) M). set (A1 := <[1%nat := _]> _).
  assert (HA1 : length A1 = 12%nat) by (unfold A1; by rewrite !length_insert).
  assert (HBx : length Bx = 16%nat) by (unfold Bx; rewrite length_zip_with; lia).
  assert (HA1w : Forall is_u32 A1) by (by apply counter_words).
  pose proof (rounds_lane M (C s) A1 Bx HMw HCw HA1 HBx HA1w (rot17_words _ _ HBw HMw)) as Hr.
  destruct (foldl _ _ _) as [[eax A2] Bx2]. destruct Hr as (_ & HA2 & HBx2 & HA2w & HBx2w).
  split; simpl A; simpl B; simpl C; simpl W.
  - rewrite !length_app, !length_zip_with, !length_take, !length_drop. simpl length. by rewrite ?length_take, HA2, HC.
  - rewrite length_zip_with. lia.
  - exact HBx2.
  - split_and!; [|apply zip_words; intros; apply u32_range|by apply Forall_drop].
    repeat apply Forall_app_2; apply zip_words; intros; apply u32_range.
  - apply Z.mod_pos_bound. lia.
Qed.

Lemma low_word wl wh : is_u32 wl -> is_u32 wh -> u32 (wl + 2 ^ 32 * wh) = wl /\ Z.shiftr (wl + 2 ^ 32 * wh) 32 = wh.
Proof.
  unfold is_u32. intros Hl Hh. rewrite u32_mod, Z.shiftr_div_pow2 by lia. split.
  - symmetry. apply (Z.mod_unique _ _ wh); lia.
  - symmetry. apply (Z.div_unique _ _ _ wl); lia.
Qed.

Lemma fmap_zip_with {X Y U V} (f : U -> V) (g : X -> Y -> U) l1 l2 :
  f <$> zip_with g l1 l2 = zip_with (fun x y => f (g x y)) l1 l2.
Proof. revert l2. induction l1 as [|x l1 IH]; intros [|y l2]; [done..|]. cbn. f_equal. apply IH. Qed.

Lemma block_lane {n} (i : fin n) M wl wh rA rB rC :
  block_words (lane i M) -> is_u32 wl -> is_u32 wh ->
  let s := mk_state (lane i rA) (lane i rB) (lane i rC) (wl + 2 ^ 32 * wh) in
  good s ->
  let '(A', B', C') := compress_block M wl wh rA rB rC in
  inner (lane i M) s = mk_state (lane i A') (lane i B') (lane i C') ((W s + 1) mod 2 ^ 64).
Proof.
  intros [HM HMw] Hwl Hwh s [HA HB HC (HAw & HBw & HCw) HW]. simpl in HA, HB, HC, HAw, HBw, HCw, HW.
  unfold compress_block. set (B1 := _ <$> _). set (A1 := <[1%nat := _]> _).
  destruct (low_word wl wh Hwl Hwh) as [Elo Ehi].
  assert (EA1 : lane i A1 = <[1%nat := Z.lxor (nth 1 (<[0%nat := Z.lxor (nth 0 (lane i rA) 0) (u32 (W s))]> (lane i rA)) 0) (Z.shiftr (W s) 32)]>
    (<[0%nat := Z.lxor (nth 0 (lane i rA) 0) (u32 (W s))]> (lane i rA))).
  { unfold A1, s. cbn [W]. rewrite Elo, Ehi. by autorewrite with lane. }
  assert (EB1 : lane i B1 = zip_with (fun b m => Z.lor (shl32 (add32 b m) 17) (Z.shiftr (add32 b m) 15)) (lane i rB) (lane i M)).
  { unfold B1, lane. rewrite <- list_fmap_compose. rewrite (list_fmap_ext _ ((fun x => Z.lor (shl32 x 17) (Z.shiftr x 15)) ∘ ith i));
      [|intros ? v _; unfold compose; by autorewrite with lane].
    rewrite list_fmap_compose. change (ith i <$> zip_with _mm_add_epi32 rB M) with (lane i (zip_with _mm_add_epi32 rB M)).
    rewrite (lane_zip_with i _ _ _ _ (ith_add i)). by rewrite fmap_zip_with. }
  pose proof (PPs_lane i M rC (A1, B1) PPs) as EP. destruct (foldl (PP M rC) (A1, B1) PPs) as [A2 B2]. cbn [prod_map fst snd] in EP.
  unfold inner. change (A s) with (lane i rA). change (B s) with (lane i rB). change (C s) with (lane i rC).
  rewrite <- EA1.
  rewrite <- EB1.
  assert (HA1 : length (lane i A1) = 12%nat) by (rewrite EA1, !length_insert; done).
  assert (HB1 : length (lane i B1) = 16%nat) by (rewrite EB1, length_zip_with; lia).
  assert (HA1w : Forall is_u32 (lane i A1)) by (rewrite EA1; by apply counter_words).
  assert (HB1w : Forall is_u32 (lane i B1)) by (rewrite EB1; by apply rot17_words).
  pose proof (rounds_lane (lane i M) (lane i rC) (lane i A1) (lane i B1) HMw HCw HA1 HB1 HA1w HB1w) as Hr.
  destruct (foldl (round (lane i M) (lane i rC)) _ _) as [[eax A3] Bx3]. destruct Hr as (E & HA3 & HB3 & _).
  rewrite <- EP in E. injection E as <- <-.
  rewrite additions_lane, additions_inner by done. by rewrite (lane_zip_with i _ sub32 _ _ (ith_sub i)).
Qed.

(** ** Blocks one after the other *)

Lemma le_range k bs : Forall is_byte bs -> 0 <= le k bs < 256 ^ Z.of_nat k.
Proof.
  revert bs. induction k as [|k IH]; intros bs Hb; [done|]. cbn [le]. specialize (IH (drop 1 bs) (Forall_drop _ _ _ Hb)).
  rewrite Nat2Z.inj_succ, Z.pow_succ_r by lia. assert (is_byte (nth 0 bs 0)) as H0; [|unfold is_byte in H0; lia].
  destruct Hb; [done|]. done.
Qed.

Lemma words_ok bs : Forall is_byte bs -> block_words (words bs).
Proof.
  intros Hb. split; [by unfold words; rewrite length_fmap, length_seq|]. apply Forall_fmap, Forall_forall. intros j _.
  apply (le_range 4). by apply Forall_drop.
Qed.

Lemma load_lane {n} (i : fin n) bufs : lane i (load bufs) = words (bufs !!! i).
Proof.
  unfold lane, load, words. rewrite <- list_fmap_compose. apply list_fmap_ext. intros k j _. unfold compose, ith.
  by rewrite vlookup_map.
Qed.

Lemma inc_counter wl wh :
  is_u32 wl -> is_u32 wh ->
  let '(wl', wh') := inc wl wh in is_u32 wl' /\ is_u32 wh' /\ wl' + 2 ^ 32 * wh' = (wl + 2 ^ 32 * wh + 1) mod 2 ^ 64.
Proof.
  intros Hl Hh. unfold inc. pose proof (u32_range (wl + 1)) as Hl'. pose proof (u32_range (wh + 1)) as Hh'.
  rewrite !u32_mod in *. unfold is_u32 in *. destruct (Z.eq_dec wl (2 ^ 32 - 1)) as [->|Hne].
  - change ((2 ^ 32 - 1 + 1) mod 2 ^ 32) with 0. simpl. split_and!; try lia.
    destruct (Z.eq_dec wh (2 ^ 32 - 1)) as [->|]; [by vm_compute|]. rewrite !Z.mod_small by lia. lia.
  - rewrite (Z.mod_small (wl + 1)) by lia. rewrite (proj2 (Z.eqb_neq (wl + 1) 0)) by lia.
    split_and!; try lia. rewrite Z.mod_small by lia. lia.
Qed.

Lemma dec_counter wl wh :
  is_u32 wl -> is_u32 wh ->
  let '(wl', wh') := dec wl wh in is_u32 wl' /\ is_u32 wh' /\ wl' + 2 ^ 32 * wh' = (wl + 2 ^ 32 * wh - 1) mod 2 ^ 64.
Proof.
  intros Hl Hh. unfold dec. pose proof (u32_range (wl - 1)) as Hl'. pose proof (u32_range (wh - 1)) as Hh'.
  rewrite !u32_mod in *. unfold is_u32 in *. destruct (Z.eqb_spec wl 0) as [->|Hne].
  - change ((0 - 1) mod 2 ^ 32) with (2 ^ 32 - 1). split_and!; try lia.
    destruct (Z.eq_dec wh 0) as [->|]; [by vm_compute|]. rewrite !Z.mod_small by lia. lia.
  - rewrite (Z.mod_small (wl - 1)) by lia. split_and!; try lia. rewrite Z.mod_small by lia. lia.
Qed.

(** The state of one message. *)
Definition lane_state {n} (i : fin n) (s : mstate n) : state :=
  mk_state (lane i (mA s)) (lane i (mB s)) (lane i (mC s)) (Wlow s + 2 ^ 32 * Whigh s).

Definition counters {n} (s : mstate n) : Prop := is_u32 (Wlow s) /\ is_u32 (Whigh s).

Lemma shabal_inner_good s data num : Forall is_byte data -> good s -> good (shabal_inner s data num).
Proof.
  revert s data. induction num as [|num IH]; intros s data Hd Hs; [done|]. cbn [shabal_inner].
  apply IH; [by apply Forall_drop|]. by apply inner_good; [apply words_ok|].
Qed.

(** Every lane of [compress] is [shabal_inner]. *)
Lemma compress_lane {n} (s : mstate n) bufs num :
  counters s -> (forall i, good (lane_state i s)) -> (forall i, Forall is_byte (bufs !!! i)) ->
  counters (compress s bufs num) /\
  forall i, lane_state i (compress s bufs num) = shabal_inner (lane_state i s) (bufs !!! i) num.
Proof.
  revert s bufs. induction num as [|num IH]; intros s bufs [Hl Hh] Hg Hb; [done|]. cbn [compress].
  destruct (compress_block (load bufs) (Wlow s) (Whigh s) (mA s) (mB s) (mC s)) as [[rA rB] rC] eqn:E.
  pose proof (inc_counter _ _ Hl Hh) as Hinc. destruct (inc (Wlow s) (Whigh s)) as [wl wh]. destruct Hinc as (Hwl & Hwh & Hw).
  set (s' := mk_mstate rA rB rC wl wh).
  assert (Hs' : forall i, lane_state i s' = inner (words (bufs !!! i)) (lane_state i s)).
  { intros i. rewrite <- load_lane. pose proof (block_lane i (load bufs) (Wlow s) (Whigh s) (mA s) (mB s) (mC s)) as Hbl.
    rewrite E in Hbl. unfold lane_state at 2. rewrite Hbl; [|by rewrite load_lane; apply words_ok|done|done|apply Hg].
    unfold lane_state. simpl. by rewrite Hw. }
  destruct (IH s' (vmap (drop 64) bufs)) as [Hc Hi].
  - split; assumption.
  - intros i. rewrite Hs'. apply inner_good; [by apply words_ok|apply Hg].
  - intros i. rewrite vlookup_map. by apply Forall_drop.
  - split; [exact Hc|]. intros i. rewrite Hi, Hs', vlookup_map. done.
Qed.
