(* ===== verification/ShabalHash.v ===== *)
(** * The hash of a message

    A context stands for the bytes that are not in a block yet, and a state
    ([view]); both codes add bytes to it in one way ([absorb]), and end with
    the hash of what was added ([hash_of]), so that a message may come in
    pieces ([pieces_hash]) and each lane of the vector codes hashes its
    own message ([sse4_digest], [avx2_digest]). *)

From stdpp Require Import vector finite.
From S2P Require Import Prelude GoStrings Shabal MShabal ShabalLanes.
Open Scope list_scope.
Open Scope Z_scope.

(** ** Blocks of a message *)

Lemma le_app k a b : (k <= length a)%nat -> le k (a ++ b) = le k a.
Proof.
  revert a. induction k as [|k IH]; intros a Hk; [done|]. destruct a as [|x a]; [simpl in Hk; lia|].
  simpl in *. rewrite !drop_0, IH by lia. done.
Qed.

Lemma words_app a b : (64 <= length a)%nat -> words (a ++ b) = words a.
Proof.
  intros Ha. unfold words. apply list_fmap_ext. intros ? j Hj. apply list_elem_of_lookup_2 in Hj. rewrite elem_of_seq in Hj.
  unfold word. rewrite drop_app_le by lia. apply le_app. rewrite length_drop. lia.
Qed.

Lemma shabal_inner_app s a b p q :
  length a = (64 * p)%nat -> shabal_inner s (a ++ b) (p + q) = shabal_inner (shabal_inner s a p) b q.
Proof.
  revert s a. induction p as [|p IH]; intros s a Ha.
  - apply nil_length_inv in Ha as ->. done.
  - cbn [Nat.add shabal_inner]. rewrite words_app, drop_app_le by lia. apply IH. rewrite length_drop. lia.
Qed.

Lemma shabal_inner_prefix s a b p : (64 * p <= length a)%nat -> shabal_inner s (a ++ b) p = shabal_inner s a p.
Proof.
  revert s a. induction p as [|p IH]; intros s a Ha; [done|].
  cbn [shabal_inner]. rewrite words_app, drop_app_le by lia. apply IH. rewrite length_drop. lia.
Qed.

(** ** Adding bytes *)

Definition absorb (v : list Z * state) (data : list Z) : list Z * state :=
  let m := v.1 ++ data in
  let num := (length m / 64)%nat in
  (drop (64 * num) m, shabal_inner v.2 m num).

(** The blocks of a message, and the rest. *)
Lemma div64 k : exists q r, (k / 64 = q /\ k = 64 * q + r /\ r < 64)%nat.
Proof.
  exists (k / 64)%nat, (k mod 64)%nat. split; [done|]. split; [apply Nat.div_mod_eq|]. apply Nat.mod_upper_bound. lia.
Qed.

Lemma div64_unique k q r : (k = 64 * q + r -> r < 64 -> k / 64 = q)%nat.
Proof. intros -> Hr. rewrite Nat.mul_comm, Nat.div_add_l by lia. rewrite Nat.div_small by lia. lia. Qed.

Lemma absorb_tail v data : (length (absorb v data).1 < 64)%nat.
Proof.
  unfold absorb. cbv zeta. cbn [fst]. destruct (div64 (length (v.1 ++ data))) as (q & r & -> & E & Hr). rewrite length_drop. lia.
Qed.

Lemma absorb_app v a b : absorb (absorb v a) b = absorb v (a ++ b).
Proof.
  unfold absorb. cbn [fst snd]. rewrite app_assoc. set (m := v.1 ++ a).
  destruct (div64 (length m)) as (q & r & -> & E & Hr). set (t := drop (64 * q) m).
  assert (Ht : length t = r) by (unfold t; rewrite length_drop; lia).
  assert (Em : m = take (64 * q) m ++ t) by (unfold t; by rewrite take_drop).
  destruct (div64 (length (t ++ b))) as (q' & r' & -> & E' & Hr'). rewrite length_app in E'.
  rewrite (div64_unique (length (m ++ b)) (q + q') r') by (rewrite ?length_app; lia).
  f_equal.
  - rewrite Em at 1. rewrite <- app_assoc, (drop_app_ge (take _ _)) by (rewrite length_take; lia). f_equal. rewrite length_take. lia.
  - rewrite Em at 2. rewrite <- app_assoc, shabal_inner_app by (rewrite length_take; lia). f_equal.
    rewrite <- (take_drop (64 * q) m) at 1. by rewrite shabal_inner_prefix by (rewrite length_take; lia).
Qed.

Lemma absorb_nil v : (length v.1 < 64)%nat -> absorb v [] = v.
Proof.
  intros Hv. unfold absorb. rewrite app_nil_r, Nat.div_small by done. by destruct v.
Qed.

Lemma Forall_absorb v data :
  Forall is_byte v.1 -> Forall is_byte data -> good v.2 -> Forall is_byte (absorb v data).1 /\ good (absorb v data).2.
Proof.
  intros Hv Hd Hg. assert (Hm : Forall is_byte (v.1 ++ data)) by (by apply Forall_app_2).
  split; [by apply Forall_drop|by apply shabal_inner_good].
Qed.

(** ** The assembly code *)

Record wf_context (sc : context) : Prop := {
  wc_ptr : (ptr sc < 64)%nat;
  wc_length : length (buf sc) = 64%nat;
  wc_bytes : Forall is_byte (buf sc);
  wc_state : good (stt sc)
}.

Definition view (sc : context) : list Z * state := (take (ptr sc) (buf sc), stt sc).

Lemma length_store k src mem : (k + length src <= length mem)%nat -> length (store k src mem) = length mem.
Proof. intros Hk. unfold store. rewrite !length_app, length_take, length_drop. lia. Qed.

Lemma Forall_store (P : Z -> Prop) k src mem : Forall P src -> Forall P mem -> Forall P (store k src mem).
Proof. intros Hs Hm. unfold store. repeat apply Forall_app_2; [by apply Forall_take|done|by apply Forall_drop]. Qed.

Lemma take_store k src mem :
  (k <= length mem)%nat -> take (k + length src) (store k src mem) = take k mem ++ src.
Proof.
  intros Hk. unfold store. rewrite app_assoc, take_app_le by (rewrite length_app, length_take; lia).
  apply take_ge. rewrite length_app, length_take. lia.
Qed.

(** The buffer filled up. *)
Lemma store_full k src mem :
  (k + length src = length mem)%nat -> store k src mem = take k mem ++ src.
Proof. intros Hk. unfold store. rewrite drop_ge by lia. by rewrite app_nil_r. Qed.

(** The rest of a message after its blocks goes to the front of the buffer. *)
Lemma absorb_short t s data : (length (t ++ data) < 64)%nat -> absorb (t, s) data = (t ++ data, s).
Proof. intros Hl. unfold absorb. cbn [fst snd]. by rewrite Nat.div_small. Qed.

Lemma absorb_empty s data :
  absorb ([], s) data = (drop (64 * (length data / 64)) data, shabal_inner s data (length data / 64)).
Proof. done. Qed.

(** Bytes that complete a block, and then more. *)
Lemma absorb_block t s a b :
  length (t ++ a) = 64%nat -> absorb (t, s) (a ++ b) = absorb ([], inner (words (t ++ a)) s) b.
Proof.
  intros Hl. rewrite <- absorb_app. f_equal. unfold absorb. cbn [fst snd]. rewrite Hl. change (64 / 64)%nat with 1%nat.
  by rewrite drop_ge by lia.
Qed.

Lemma shabal_view sc data :
  wf_context sc -> Forall is_byte data -> view (shabal sc data) = absorb (view sc) data /\ wf_context (shabal sc data).
Proof.
  intros [Hp Hl Hb Hg] Hd. unfold view at 2. unfold shabal.
  assert (Ht : length (take (ptr sc) (buf sc)) = ptr sc) by (rewrite length_take; lia).
  destruct (Nat.ltb_spec (length data) (64 - ptr sc)) as [Hlt|Hge].
  { rewrite absorb_short by (rewrite length_app; lia). unfold view. cbn [ptr buf stt]. rewrite take_store by lia.
    split; [done|]. split; cbn [ptr buf stt]; [lia|by rewrite length_store; lia|by apply Forall_store|done]. }
  set (rest := (64 - ptr sc)%nat) in *.
  set (bsd := if (ptr sc =? 0)%nat then _ else _).
  assert (Hbsd : length bsd.1.1 = 64%nat /\ Forall is_byte bsd.1.1 /\ Forall is_byte bsd.2 /\ good bsd.1.2 /\
    absorb (take (ptr sc) (buf sc), stt sc) data = absorb ([], bsd.1.2) bsd.2).
  { unfold bsd. destruct (Nat.eqb_spec (ptr sc) 0) as [E|Hne]; cbn [fst snd]; [by rewrite E|].
    assert (Hbs : length (store (ptr sc) (take rest data) (buf sc)) = 64%nat).
    { rewrite length_store; [done|]. rewrite length_take. lia. }
    assert (Hbb : Forall is_byte (store (ptr sc) (take rest data) (buf sc))) by (apply Forall_store; [by apply Forall_take|done]).
    split_and!; [done|done|by apply Forall_drop|by apply shabal_inner_good|].
    rewrite <- (take_drop rest data) at 1. rewrite absorb_block.
    - cbn [shabal_inner]. rewrite store_full by (rewrite length_take; lia). done.
    - rewrite length_app, Ht, length_take. lia. }
  destruct bsd as [[b s] d]. cbn [fst snd] in Hbsd. destruct Hbsd as (Hbl & Hbb & Hdb & Hgs & ->).
  destruct (div64 (length d)) as (q & r & Eq & E & Hr).
  assert (Es : (if (length d / 64 =? 0)%nat then s else shabal_inner s d (length d / 64)) = shabal_inner s d (length d / 64)).
  { destruct (Nat.eqb_spec (length d / 64) 0) as [->|]; done. }
  rewrite Es, absorb_empty, Eq. assert (Hdl : length (drop (64 * q) d) = r) by (rewrite length_drop; lia).
  split.
  - unfold view. cbn [ptr buf stt]. f_equal. rewrite <- (Nat.add_0_l (length (drop _ d))), take_store by lia. done.
  - split; cbn [ptr buf stt]; [lia|rewrite length_store; lia| |by apply shabal_inner_good].
    apply Forall_store; [by apply Forall_drop|done].
Qed.

#[export] Instance is_u32_dec x : Decision (is_u32 x).
Proof. unfold is_u32. apply _. Defined.

(** The initial state for 256 bits. *)
Definition iv256 : state := state_of_words (nth 7 iv []) 1.

Lemma iv256_good : good iv256.
Proof.
  split; [reflexivity..| |simpl; lia]. split_and!; apply (bool_decide_unpack _); vm_compute; exact I.
Qed.

Lemma shabal_init_wf sc :
  length (buf sc) = 64%nat -> Forall is_byte (buf sc) ->
  wf_context (shabal_init sc 256) /\ view (shabal_init sc 256) = ([], iv256).
Proof.
  intros Hl Hb. split; [|reflexivity]. split; [simpl; lia|exact Hl|exact Hb|exact iv256_good].
Qed.

(** ** The last block *)

Definition pad (t : list Z) : list Z := t ++ 0x80 :: replicate (63 - length t) 0.

Definition hash_of (v : list Z * state) : list Z :=
  output (Nat.iter 4 (fun s => dec_W (inner (words (pad v.1)) s)) v.2) 256.

Lemma replicate_take k k' : (k <= k')%nat -> take k (replicate k' 0) = replicate k 0.
Proof. intros Hk. rewrite take_replicate. f_equal. lia. Qed.

Lemma close_buf_pad sc : wf_context sc -> close_buf sc 0 0 = pad (take (ptr sc) (buf sc)).
Proof.
  intros [Hp Hl _ _]. unfold close_buf, pad, store. change (extra_byte 0 0) with 0x80.
  rewrite length_take, Nat.min_l by lia. set (zeros := (8 * ((70 - ptr sc) / 8))%nat).
  assert (Hz : (63 - ptr sc <= zeros)%nat).
  { unfold zeros. pose proof (Nat.div_mod_eq (70 - ptr sc) 8). pose proof (Nat.mod_upper_bound (70 - ptr sc) 8 ltac:(lia)). lia. }
  rewrite app_assoc. rewrite take_app_le by (rewrite length_app, length_take; cbn [length]; rewrite length_replicate; lia).
  rewrite take_app_ge by (rewrite length_take; lia). rewrite length_take, Nat.min_l by lia. f_equal.
  replace (64 - ptr sc)%nat with (S (63 - ptr sc)) by lia. cbn [take firstn]. f_equal. by apply replicate_take.
Qed.

Lemma shabal_close_view sc : wf_context sc -> out_size sc = 256 -> shabal_close sc 0 0 = hash_of (view sc).
Proof.
  intros Hw Ho. unfold shabal_close, hash_of, view. cbv zeta. rewrite (close_buf_pad sc Hw), Ho. cbn [fst snd].
  set (b := pad _). change (fun s => dec_W (shabal_inner s b 1)) with (fun s => dec_W (inner (words b) s)). reflexivity.
Qed.

Lemma shabal_out_size sc data : out_size (shabal sc data) = out_size sc.
Proof.
  unfold shabal. destruct (_ <? _)%nat; [done|]. by destruct (if (ptr sc =? 0)%nat then _ else _) as [[b s] d].
Qed.

(** A message in pieces. *)
Definition hashes_to (sc : context) (pieces : list (list Z)) : list Z := shabal_close (foldl shabal (shabal_init sc 256) pieces) 0 0.

Lemma pieces_view sc pieces :
  wf_context sc -> Forall (Forall is_byte) pieces ->
  view (foldl shabal sc pieces) = absorb (view sc) (concat pieces) /\ wf_context (foldl shabal sc pieces) /\
  out_size (foldl shabal sc pieces) = out_size sc.
Proof.
  intros Hw Hp. revert sc Hw. induction Hp as [|d l Hd _ IH]; intros sc Hw; cbn [foldl concat].
  - split; [|done]. rewrite absorb_nil; [done|]. unfold view. cbn [fst]. rewrite length_take. destruct Hw. lia.
  - destruct (shabal_view sc d Hw Hd) as [Hv Hw']. destruct (IH _ Hw') as (Hv' & Hw'' & Ho).
    rewrite Hv', Hv, absorb_app, Ho, shabal_out_size. done.
Qed.

Definition spec (msg : list Z) : list Z := hash_of (absorb ([], iv256) msg).

Lemma pieces_hash sc pieces :
  length (buf sc) = 64%nat -> Forall is_byte (buf sc) -> Forall (Forall is_byte) pieces ->
  hashes_to sc pieces = spec (concat pieces).
Proof.
  intros Hl Hb Hp. destruct (shabal_init_wf sc Hl Hb) as [Hw Hv].
  destruct (pieces_view _ pieces Hw Hp) as (Hv' & Hw' & Ho). unfold hashes_to. rewrite shabal_close_view; [|exact Hw'|rewrite Ho; reflexivity].
  unfold spec. rewrite Hv', Hv. reflexivity.
Qed.

(** ** The vector codes *)

Section Vector.
Context {n : nat}.

Record wf_mcontext (sc : mshabal_context n) : Prop := {
  wm_ptr : (mptr sc < 64)%nat;
  wm_length : forall i, length (bufs sc !!! i) = 64%nat;
  wm_bytes : forall i, Forall is_byte (bufs sc !!! i);
  wm_counters : counters (mstt sc);
  wm_state : forall i, good (lane_state i (mstt sc))
}.

(** The context of the message [i]. *)
Definition mview (i : fin n) (sc : mshabal_context n) : list Z * state := (take (mptr sc) (bufs sc !!! i), lane_state i (mstt sc)).

(** [len] bytes of the messages, the first of which begin a block. *)
Lemma update_blocks bufs (s : mstate n) data len out :
  (forall i, length (bufs !!! i) = 64%nat) -> (forall i, Forall is_byte (bufs !!! i)) -> counters s ->
  (forall i, good (lane_state i s)) -> (forall i, Forall is_byte (data !!! i)) -> (forall i, (len <= length (data !!! i))%nat) ->
  let num := (len / 64)%nat in
  let s' := if (num =? 0)%nat then s else compress s data num in
  let data' := vmap (drop (64 * num)) data in
  let sc := mk_mcontext (vzip_with (fun d b => store 0 (take (len mod 64) d) b) data' bufs) (len mod 64) s' out in
  wf_mcontext sc /\ forall i, mview i sc = absorb ([], lane_state i s) (take len (data !!! i)).
Proof.
  intros Hl Hb Hc Hg Hd Hlen. cbv zeta. destruct (div64 len) as (q & r & Eq & E & Hr). rewrite Eq.
  assert (Er : (len mod 64 = r)%nat) by (symmetry; apply (Nat.mod_unique _ _ q); lia). rewrite Er.
  assert (Hs' : counters (if (q =? 0)%nat then s else compress s data q) /\
    forall i, lane_state i (if (q =? 0)%nat then s else compress s data q) = shabal_inner (lane_state i s) (data !!! i) q).
  { destruct (Nat.eqb_spec q 0) as [->|]; [by split|]. by apply compress_lane. }
  destruct Hs' as [Hc' Hs']. set (s' := if (q =? 0)%nat then s else _) in *.
  assert (Htk : forall i, length (take r (drop (64 * q) (data !!! i))) = r).
  { intros i. specialize (Hlen i). rewrite length_take, length_drop. lia. }
  split.
  - split; cbn [mptr MShabal.bufs mstt].
    + exact Hr.
    + intros i. rewrite vlookup_zip_with, vlookup_map, length_store; [apply Hl|]. rewrite Htk, Hl. lia.
    + intros i. rewrite vlookup_zip_with, vlookup_map. apply Forall_store; [apply Forall_take, Forall_drop, Hd|apply Hb].
    + exact Hc'.
    + intros i. rewrite Hs'. apply shabal_inner_good; [apply Hd|apply Hg].
  - intros i. unfold mview. cbn [mptr MShabal.bufs mstt]. rewrite vlookup_zip_with, vlookup_map, Hs', absorb_empty.
    specialize (Hlen i). assert (El : length (take len (data !!! i)) = len) by (rewrite length_take; lia). rewrite El, Eq. f_equal.
    + rewrite <- (Htk i) at 1. rewrite <- (Nat.add_0_l (length _)), take_store by lia. rewrite take_0. cbn [app].
      rewrite E. apply take_drop_commute.
    + rewrite <- (take_drop len (data !!! i)) at 1. rewrite shabal_inner_prefix by lia. reflexivity.
Qed.

Lemma update_view sc data len :
  wf_mcontext sc -> (forall i, Forall is_byte (data !!! i)) -> (forall i, (len <= length (data !!! i))%nat) ->
  wf_mcontext (update sc data len) /\ forall i, mview i (update sc data len) = absorb (mview i sc) (take len (data !!! i)).
Proof.
  intros [Hp Hl Hb Hc Hg] Hd Hlen. unfold update.
  assert (Ht : forall i, length (take (mptr sc) (bufs sc !!! i)) = mptr sc) by (intros i; rewrite length_take, Hl; lia).
  destruct (Nat.eqb_spec (mptr sc) 0) as [E0|Hne]; cbn [negb andb].
  { destruct (update_blocks (bufs sc) (mstt sc) data len (m_out_size sc) Hl Hb Hc Hg Hd Hlen) as [Hw Hv].
    split; [exact Hw|]. intros i. rewrite Hv. unfold mview. rewrite E0. reflexivity. }
  destruct (Nat.ltb_spec len (64 - mptr sc)) as [Hlt|Hge].
  { split.
    - split; cbn [mptr bufs mstt].
      + lia.
      + intros i. rewrite vlookup_zip_with, length_store; [apply Hl|]. rewrite length_take, Hl. lia.
      + intros i. rewrite vlookup_zip_with. apply Forall_store; [apply Forall_take, Hd|apply Hb].
      + exact Hc.
      + exact Hg.
    - intros i. specialize (Hlen i). assert (El : length (take len (data !!! i)) = len) by (rewrite length_take; lia).
      unfold mview. rewrite absorb_short by (rewrite length_app, Ht; lia). cbn [mptr bufs mstt]. rewrite vlookup_zip_with.
      f_equal. rewrite <- El at 1. apply take_store. rewrite Hl. lia. }
  set (clen := (64 - mptr sc)%nat) in *.
  set (b := vzip_with _ data (bufs sc)).
  assert (Eb : forall i, b !!! i = take (mptr sc) (bufs sc !!! i) ++ take clen (data !!! i)).
  { intros i. unfold b. rewrite vlookup_zip_with. apply store_full. specialize (Hlen i). rewrite length_take, Hl. lia. }
  assert (Hbl : forall i, length (b !!! i) = 64%nat).
  { intros i. specialize (Hlen i). rewrite Eb, length_app, Ht, length_take. lia. }
  assert (Hbb : forall i, Forall is_byte (b !!! i)).
  { intros i. rewrite Eb. apply Forall_app_2; apply Forall_take; [apply Hb|apply Hd]. }
  destruct (compress_lane (mstt sc) b 1 Hc Hg Hbb) as [Hc' Hs'].
  assert (Hg' : forall i, good (lane_state i (compress (mstt sc) b 1))).
  { intros i. rewrite Hs'. apply shabal_inner_good; [apply Hbb|apply Hg]. }
  destruct (update_blocks b (compress (mstt sc) b 1) (vmap (drop clen) data) (len - clen) (m_out_size sc) Hbl Hbb Hc' Hg') as [Hw Hv].
  { intros i. rewrite vlookup_map. apply Forall_drop, Hd. }
  { intros i. rewrite vlookup_map, length_drop. specialize (Hlen i). lia. }
  split; [exact Hw|]. intros i. rewrite Hv, vlookup_map, Hs'. unfold mview.
  replace (take len (data !!! i)) with (take clen (data !!! i) ++ take (len - clen) (drop clen (data !!! i))).
  - rewrite absorb_block by (rewrite <- Eb; apply Hbl). rewrite <- Eb. reflexivity.
  - rewrite take_drop_commute. replace (clen + (len - clen))%nat with len by lia.
    rewrite <- (take_drop clen (take len (data !!! i))) at 2. by rewrite take_take, Nat.min_l by lia.
Qed.

(** ** The last block *)

Lemma dec_W_good s : good s -> good (dec_W s).
Proof. intros [H1 H2 H3 H4 _]. split; [exact H1|exact H2|exact H3|exact H4|]. apply Z.mod_pos_bound. lia. Qed.

Lemma dec_mW_lane s :
  counters s -> counters (dec_mW s) /\ forall i : fin n, lane_state i (dec_mW s) = dec_W (lane_state i s).
Proof.
  intros [Hl Hh]. unfold dec_mW. pose proof (dec_counter _ _ Hl Hh) as Hd. destruct (dec (Wlow s) (Whigh s)) as [wl wh].
  destruct Hd as (Hl' & Hh' & Hw). split; [by split|]. intros i. unfold lane_state, dec_W. cbn [mA mB mC Wlow Whigh A B C W].
  by rewrite Hw.
Qed.

Lemma finalize_lane (sc : mshabal_context n) last :
  wf_mcontext sc -> (forall i, last !!! i = 0x80) ->
  forall i, lane_state i (finalize sc last)
    = Nat.iter 4 (fun s => dec_W (inner (words (pad (take (mptr sc) (bufs sc !!! i)))) s)) (lane_state i (mstt sc)).
Proof.
  intros [Hp Hl Hb Hc Hg] Hlast. unfold finalize. set (b := close_bufs sc last).
  assert (Eb : forall i, b !!! i = pad (take (mptr sc) (bufs sc !!! i))).
  { intros i. unfold b, close_bufs, pad. rewrite vlookup_zip_with, Hlast, length_take, Hl, Nat.min_l by lia.
    rewrite store_full by (rewrite Hl; cbn [length]; rewrite length_replicate; lia). do 3 f_equal. lia. }
  assert (Hbb : forall i, Forall is_byte (b !!! i)).
  { intros i. rewrite Eb. apply Forall_app_2; [apply Forall_take, Hb|]. constructor; [by unfold is_byte|]. by apply Forall_replicate. }
  assert (Hstep : forall k, counters (Nat.iter k (fun s => dec_mW (compress s b 1)) (mstt sc)) /\
    forall i, lane_state i (Nat.iter k (fun s => dec_mW (compress s b 1)) (mstt sc))
      = Nat.iter k (fun s => dec_W (inner (words (b !!! i)) s)) (lane_state i (mstt sc)) /\
      good (lane_state i (Nat.iter k (fun s => dec_mW (compress s b 1)) (mstt sc)))).
  { induction k as [|k [IHc IH]]; [split; [exact Hc|intros i; split; [reflexivity|apply Hg]]|]. cbn [Nat.iter].
    set (s := Nat.iter k _ (mstt sc)) in *.
    destruct (compress_lane s b 1 IHc (fun i => proj2 (IH i)) Hbb) as [Hc1 Hs1].
    destruct (dec_mW_lane (compress s b 1) Hc1) as [Hc2 Hs2]. split; [exact Hc2|]. intros i. rewrite Hs2, Hs1. split.
    - rewrite (proj1 (IH i)). reflexivity.
    - apply dec_W_good, shabal_inner_good; [apply Hbb|apply IH]. }
  intros i. rewrite <- Eb. exact (proj1 (proj2 (Hstep 4%nat) i)).
Qed.

Lemma outputs_lane (s : mstate n) i : outputs s 8 !!! i = output (lane_state i s) 256.
Proof.
  unfold outputs, output. rewrite vlookup_map, lookup_fun_to_vec. change (16 - Z.to_nat (Z.shiftr 256 5))%nat with 8%nat.
  unfold lane_state, lane. cbn [C]. rewrite <- fmap_drop, <- list_fmap_compose. reflexivity.
Qed.

Lemma close_view (sc : mshabal_context n) last :
  wf_mcontext sc -> (forall i, last !!! i = 0x80) -> forall i, outputs (finalize sc last) 8 !!! i = hash_of (mview i sc).
Proof.
  intros Hw Hl i. rewrite outputs_lane, (finalize_lane sc last Hw Hl). unfold hash_of, mview. cbn [fst snd]. reflexivity.
Qed.

End Vector.

(** ** Initial states *)

Lemma prefix_bytes first : Forall is_byte (prefix_block first).
Proof.
  apply Forall_concat, Forall_fmap, Forall_forall. intros u _. unfold compose.
  repeat apply Forall_cons_2; [apply Z.mod_pos_bound; lia|apply Z.mod_pos_bound; lia|unfold is_byte; lia|unfold is_byte; lia|by apply Forall_nil].
Qed.

#[export] Instance state_eq_dec : EqDecision state.
Proof. solve_decision. Defined.

Definition precomputed (k : Z) : bool :=
  forallb (fun i => bool_decide
      (lane_state i (mstt (sse4_mshabal_init (32 * (k + 1)))) = state_of_words (nth (Z.to_nat k) iv []) 1))
    (finite.enum (fin 4)).

Lemma precomputed_all : forallb precomputed (zrange 16) = true.
Proof. vm_compute. reflexivity. Qed.

Lemma precomputed_spec k i :
  precomputed k = true -> lane_state i (mstt (sse4_mshabal_init (32 * (k + 1)))) = state_of_words (nth (Z.to_nat k) iv []) 1.
Proof.
  unfold precomputed. intros Hp. rewrite forallb_forall in Hp.
  pose proof (Hp i (proj1 (list_elem_of_In _ _) (finite.elem_of_enum i))) as Hi. cbv beta in Hi.
  generalize dependent (lane_state i (mstt (sse4_mshabal_init (32 * (k + 1))))). intros s Hi. by apply bool_decide_eq_true in Hi.
Qed.

(** The states that [shabal_init] takes from its table, one for each size of
    the output, are those the vector code computes. *)
Theorem precomputed_states k i :
  0 <= k < 16 -> lane_state i (mstt (sse4_mshabal_init (32 * (k + 1)))) = state_of_words (nth (Z.to_nat k) iv []) 1.
Proof. intros Hk. apply precomputed_spec. exact (zrange_forallb 16 precomputed precomputed_all k Hk). Qed.

(** A context after its [init]. *)
Record starts {n} (sc : mshabal_context n) : Prop := {
  sr_wf : wf_mcontext sc;
  sr_view : forall i, mview i sc = ([], iv256)
}.

Lemma starts_intro {n} (sc : mshabal_context n) block :
  mptr sc = 0%nat -> bufs sc = vreplicate n block -> length block = 64%nat -> Forall is_byte block ->
  counters (mstt sc) -> (forall i, lane_state i (mstt sc) = iv256) -> starts sc.
Proof.
  intros Hp Hb Hl Hy Hc Hs. split.
  - split; [rewrite Hp; lia| | |exact Hc|intros i; rewrite Hs; exact iv256_good]; intros i; by rewrite Hb, vlookup_replicate.
  - intros i. unfold mview. by rewrite Hp, Hs.
Qed.

#[export] Instance counters_dec {n} (s : mstate n) : Decision (counters s).
Proof. unfold counters. apply _. Defined.

Lemma sse4_counters : bool_decide (counters (mstt (sse4_mshabal_init 256))) = true.
Proof. vm_compute. reflexivity. Qed.

Lemma sse4_starts : starts (sse4_mshabal_init 256).
Proof.
  apply (starts_intro _ (prefix_block 272)).
  - reflexivity.
  - reflexivity.
  - vm_compute. reflexivity.
  - apply prefix_bytes.
  - exact (bool_decide_eq_true_1 _ sse4_counters).
  - intros i. exact (precomputed_states 7 i ltac:(lia)).
Qed.

Lemma avx2_computed : bool_decide (counters (mstt mshabal256_init) /\
  Forall (fun i => lane_state i (mstt mshabal256_init) = iv256) (finite.enum (fin 8))) = true.
Proof. vm_compute. reflexivity. Qed.

Lemma avx2_starts : starts mshabal256_init.
Proof.
  pose proof (bool_decide_eq_true_1 _ avx2_computed) as [Hc Hs].
  apply (starts_intro _ (prefix_block_256 272)).
  - reflexivity.
  - reflexivity.
  - vm_compute. reflexivity.
  - apply (bool_decide_unpack (Forall (fun b => 0 <= b < 256) _)). vm_compute. exact I.
  - exact Hc.
  - intros i. rewrite Forall_forall in Hs. apply Hs, finite.elem_of_enum.
Qed.

(** ** The hash of a message in pieces *)

(** The pieces of [n] messages, each with its length. *)
Definition piece (n : nat) : Type := vec (list Z) n * nat.

Definition piece_ok {n} (p : piece n) : Prop := forall i, Forall is_byte (p.1 !!! i) /\ (p.2 <= length (p.1 !!! i))%nat.

Definition message {n} (pieces : list (piece n)) (i : fin n) : list Z := concat ((fun p => take p.2 (p.1 !!! i)) <$> pieces).

Lemma updates_view {n} (sc : mshabal_context n) pieces :
  wf_mcontext sc -> Forall piece_ok pieces ->
  let sc' := foldl (fun sc p => update sc p.1 p.2) sc pieces in
  wf_mcontext sc' /\ forall i, mview i sc' = absorb (mview i sc) (message pieces i).
Proof.
  intros Hw Hp. revert sc Hw. induction Hp as [|p l Hp _ IH]; intros sc Hw; cbn [foldl].
  - split; [exact Hw|]. intros i. unfold message. cbn [fmap list_fmap concat]. rewrite absorb_nil; [done|].
    unfold mview. cbn [fst]. rewrite length_take. destruct Hw. lia.
  - destruct (update_view sc p.1 p.2 Hw (fun i => proj1 (Hp i)) (fun i => proj2 (Hp i))) as [Hw' Hv].
    destruct (IH _ Hw') as [Hw'' Hv'']. split; [exact Hw''|]. intros i. rewrite Hv'', Hv, absorb_app. reflexivity.
Qed.

(** Whatever context the messages start from, and in whatever pieces they
    come, each lane ends with the hash of its message. *)
Lemma vector_digest {n} (sc : mshabal_context n) pieces last :
  starts sc -> Forall piece_ok pieces -> (forall i, last !!! i = 0x80) ->
  forall i, outputs (finalize (foldl (fun sc p => update sc p.1 p.2) sc pieces) last) 8 !!! i = spec (message pieces i).
Proof.
  intros [Hw Hs] Hp Hl i. destruct (updates_view sc pieces Hw Hp) as [Hw' Hv].
  rewrite (close_view _ last Hw' Hl), Hv, Hs. unfold spec. reflexivity.
Qed.

Lemma foldl_ext_in {X Y} (f g : X -> Y -> X) l x : (forall x y, f x y = g x y) -> foldl f x l = foldl g x l.
Proof. intros Hf. revert x. induction l as [|y l IH]; intros x; [done|]. cbn. by rewrite Hf, IH. Qed.

Definition sse4_hash (pieces : list (piece 4)) : vec (list Z) 4 :=
  sse4_mshabal_close (foldl (fun sc p => sse4_mshabal sc (vmap Some p.1) p.2) (sse4_mshabal_init 256) pieces) (vreplicate 4 0) 0.

Definition avx2_hash (pieces : list (piece 8)) : vec (list Z) 8 :=
  mshabal256_close (foldl (fun sc p => mshabal256 sc p.1 p.2) mshabal256_init pieces).

Lemma update_out_size {n} (sc : mshabal_context n) data len : m_out_size (update sc data len) = m_out_size sc.
Proof.
  unfold update. destruct (_ && _); [done|]. by destruct (if (mptr sc =? 0)%nat then _ else _) as [[[b s] d] l].
Qed.

Lemma vmap_default {n} (d : list Z) (data : vec (list Z) n) : vmap (default d) (vmap Some data) = data.
Proof. apply vec_eq. intros i. by rewrite !vlookup_map. Qed.

Lemma instead_all (data : vec (list Z) 4) : instead (vmap Some data) = Some data.
Proof.
  unfold instead. assert (exists d, head (omap id (vec_to_list (vmap Some data))) = Some d) as [d ->].
  { rewrite vec_to_list_map. pose proof (length_vec_to_list data) as Hl. destruct (vec_to_list data) as [|d l]; [discriminate Hl|]. by exists d. }
  cbn. by rewrite vmap_default.
Qed.

Lemma sse4_mshabal_update sc (data : vec (list Z) 4) len : sse4_mshabal sc (vmap Some data) len = update sc data len.
Proof. unfold sse4_mshabal. by rewrite instead_all. Qed.

Lemma sse4_digest pieces i : Forall piece_ok pieces -> sse4_hash pieces !!! i = spec (message pieces i).
Proof.
  intros Hp. unfold sse4_hash. rewrite (foldl_ext_in _ (fun sc p => update sc p.1 p.2)) by (intros; apply sse4_mshabal_update).
  unfold sse4_mshabal_close. cbv zeta.
  assert (Ho : forall l sc, m_out_size (foldl (fun (sc : mshabal_context 4) (p : piece 4) => update sc p.1 p.2) sc l) = m_out_size sc).
  { induction l as [|p l IH]; intros sc; [done|]. cbn [foldl]. by rewrite IH, update_out_size. }
  rewrite Ho. change (16 - Z.to_nat (Z.shiftr (m_out_size (sse4_mshabal_init 256)) 5))%nat with 8%nat.
  apply (vector_digest _ _ _ sse4_starts Hp). intros j. by rewrite vlookup_map, vlookup_replicate.
Qed.

Lemma avx2_digest pieces i : Forall piece_ok pieces -> avx2_hash pieces !!! i = spec (message pieces i).
Proof.
  intros Hp. unfold avx2_hash, mshabal256_close, mshabal256.
  apply (vector_digest _ _ _ avx2_starts Hp). intros j. by rewrite vlookup_replicate.
Qed.
