(* ===== verification/Burstmath.v ===== *)
(** * [pkg/burstmath/burstmath.go]

    Generation signatures, amounts and timestamps, and the state machine
    that collects deadline requests into batches for the vectorised
    calculation in C, which is in [Plot].  Its goroutines and channels are in
    [Deadlines]. *)

From Stdlib Require Import Ascii String.
From S2P Require Import Prelude GoStrings GoFloat.
Open Scope list_scope.
Open Scope Z_scope.
Import GoInt.

(** ** [DecodeGeneratorSignature] *)

(** [hex.DecodeString]: pairs of hexadecimal digits. *)
Fixpoint hex_decode (s : list Z) : option (list Z) :=
  match s with
  | [] => Some []
  | [_] => None
  | a :: b :: s' =>
      match hex_value a, hex_value b, hex_decode s' with
      | Some x, Some y, Some r => Some (16 * x + y :: r)
      | _, _, _ => None
      end
  end.

Definition DecodeGeneratorSignature (genSigStr : list Z) : result string (list Z) :=
  if negb (List.length genSigStr =? 64)%nat then Err "Generation signature's length differs from 64"%string
  else match hex_decode genSigStr with
       | Some genSig => Ok genSig
       | None => Err "encoding/hex: invalid byte"%string
       end.

(** ** Amounts and timestamps *)

Definition blockChainStart : Z := 1407722400.

Definition BurstToPlanck (n : float64) : Z := to_int64 (fmul n (of_Z 100000000)).
Definition PlanckToBurst (n : Z) : float64 := fdiv (of_Z n) (of_Z 100000000).

(** [unix] is the time in seconds. *)
Definition DateToTimeStamp (unix : Z) : Z :=
  let ts := i64 (unix - blockChainStart) in if ts <? 0 then 0 else ts.

(** ** Requests to the C library

    [&genSig[0]] panics on an empty signature. *)
Module Native.
Record t := mk { account_id : Z; nonce : Z; base_target : Z; scoop_nr : Z; gen_sig : list Z }.
End Native.

Definition NewCalcDeadlineRequest (accountID nonce baseTarget scoop : Z) (genSig : list Z) : option Native.t :=
  match genSig with
  | [] => None
  | _ => Some (Native.mk accountID nonce baseTarget scoop genSig)
  end.

(** ** Batches of deadline requests

    The collector receives requests one at a time, sends a batch when it is
    full or when a timeout fires, and keeps the slots of its array when it
    starts over.  A slot holds a request or one of the empty requests the
    array starts with. *)

Definition avx2Parallel : nat := 8.
Definition sse4Parallel : nat := 4.

Section Collector.
Context {req : Type}.

Record batch := mk_batch { b_pending : nat; b_reqs : list (option req) }.

(** [armed]: a timer is running whose timeout was not received yet. *)
Record collector := mk_collector {
  reqs : list (option req);
  pending : nat;
  armed : bool
}.

Inductive event := Request (r : req) | Timeout.

(** [width] requests make a batch. *)
Definition start : collector := mk_collector (replicate avx2Parallel None) 0 false.

(** One round of the [select]; [None]: the event cannot happen or panics. *)
Definition collect (width : nat) (c : collector) (e : event) : option (collector * option batch) :=
  match e with
  | Request r =>
      match aset (reqs c) (pending c) (Some r) with
      | None => None
      | Some rs =>
          if (pending c =? 0)%nat then Some (mk_collector rs (pending c + 1) true, None)
          else if (pending c =? width - 1)%nat
          then Some (mk_collector rs 0 (armed c), Some (mk_batch (pending c + 1) rs))
          else Some (mk_collector rs (pending c + 1) (armed c), None)
      end
  | Timeout =>
      if armed c then Some (mk_collector (reqs c) 0 false, Some (mk_batch (pending c) (reqs c))) else None
  end.

Fixpoint run (width : nat) (c : collector) (es : list event) : option (collector * list batch) :=
  match es with
  | [] => Some (c, [])
  | e :: es' =>
      match collect width c e with
      | None => None
      | Some (c', b) =>
          match run width c' es' with
          | None => None
          | Some (c'', bs) => Some (c'', match b with Some b => b :: bs | None => bs end)
          end
      end
  end.

(** [processReqs] answers the first [total] requests of a batch. *)
Definition answered (b : batch) : list req := omap id (take (b_pending b) (b_reqs b)).

(** The requests the calculation is called with: the free slots are filled
    with the first request; [None]: a nil pointer is dereferenced. *)
Definition calc_slots (b : batch) : option (list req) :=
  match mapM id (take (b_pending b) (b_reqs b)) with
  | None => None
  | Some rs =>
      match head (b_reqs b) with
      | Some (Some r0) => Some (rs ++ replicate (avx2Parallel - b_pending b) r0)
      | _ => if (b_pending b <? avx2Parallel)%nat then None else Some rs
      end
  end.

(** The requests of a list of events, in order. *)
Definition requests (es : list event) : list req :=
  omap (fun e => match e with Request r => Some r | Timeout => None end) es.

(** ** The invariant *)

Record wf_collector (width : nat) (c : collector) : Prop := {
  wf_reqs : List.length (reqs c) = avx2Parallel;
  wf_pending : (pending c < width)%nat;
  wf_slots : forall i, (i < pending c)%nat -> exists r, reqs c !! i = Some (Some r);
  wf_armed : (0 < pending c)%nat -> armed c = true
}.

(** The requests that wait in the collector. *)
Definition waiting (c : collector) : list req := omap id (take (pending c) (reqs c)).

End Collector.
Arguments collector : clear implicits.
Arguments batch : clear implicits.
Arguments event : clear implicits.

(** ** Theorems on the collector *)

Section CollectorProofs.
Context {req : Type} (width : nat) (Hw : (2 <= width <= avx2Parallel)%nat).
Implicit Types (c : collector req) (b : batch req).

Record good_batch b : Prop := {
  gb_len : List.length (b_reqs b) = avx2Parallel;
  gb_pending : (b_pending b <= width)%nat;
  gb_slots : forall i, (i < b_pending b)%nat -> exists r, b_reqs b !! i = Some (Some r);
  gb_first : exists r, b_reqs b !! 0%nat = Some (Some r)
}.

(** The first slot holds a request from the first request on. *)
Definition used c : Prop := armed c = true -> exists r, reqs c !! 0%nat = Some (Some r).

Lemma start_wf : wf_collector width (start : collector req) /\ used start.
Proof. split; [split; simpl; try done; lia|done]. Qed.

Lemma length_omap_id (l : list (option req)) : (List.length (omap id l) <= List.length l)%nat.
Proof. induction l as [|[r|] l IH]; [done|..]; cbn [omap list_omap id List.length]; fold (omap id l); simpl; lia. Qed.

Lemma omap_take_insert (l : list (option req)) n r :
  (n < List.length l)%nat ->
  omap id (take (n + 1) (<[n := Some r]> l)) = omap id (take n l) ++ [r].
Proof.
  intros Hn. rewrite Nat.add_1_r, (take_S_r _ _ (Some r)) by (by rewrite list_lookup_insert_eq).
  by rewrite take_insert_ge, omap_app by lia.
Qed.

Lemma slots_insert (l : list (option req)) n r i :
  List.length l = avx2Parallel -> (n < avx2Parallel)%nat ->
  (forall i, (i < n)%nat -> exists r, l !! i = Some (Some r)) -> (i < n + 1)%nat ->
  exists r', <[n := Some r]> l !! i = Some (Some r').
Proof.
  intros Hl Hn Hs Hi. destruct (decide (i = n)) as [->|Hne].
  - exists r. apply list_lookup_insert_eq. lia.
  - rewrite list_lookup_insert_ne by done. apply Hs. lia.
Qed.

(** One request: it waits, or completes a batch. *)
Lemma collect_request c r :
  wf_collector width c -> used c ->
  exists c' ob, collect width c (Request r) = Some (c', ob) /\ wf_collector width c' /\ used c' /\
    match ob with
    | None => waiting c' = waiting c ++ [r]
    | Some b => answered b = waiting c ++ [r] /\ waiting c' = [] /\ good_batch b
    end.
Proof.
  intros [Hl Hp Hs Ha] Hu. unfold collect. rewrite aset_ok by lia.
  assert (Hins : forall i, (i < pending c + 1)%nat ->
    exists r', <[pending c := Some r]> (reqs c) !! i = Some (Some r')).
  { intros i Hi. apply slots_insert; [done|lia|done|done]. }
  destruct (Nat.eqb_spec (pending c) 0) as [E|E].
  - eexists _, None. split; [done|]. split_and!.
    + split; simpl; [by rewrite length_insert|lia|done|done].
    + intros _. simpl. apply Hins. lia.
    + unfold waiting. simpl. apply omap_take_insert. lia.
  - destruct (Nat.eqb_spec (pending c) (width - 1)) as [E'|E'].
    + eexists _, (Some _). split; [done|]. split_and!.
      * split; simpl; [by rewrite length_insert|lia|lia|lia].
      * intros _. simpl. apply Hins. lia.
      * unfold answered, waiting. simpl. apply omap_take_insert. lia.
      * done.
      * split; simpl; [by rewrite length_insert|lia|done|apply Hins; lia].
    + eexists _, None. split; [done|]. split_and!.
      * split; simpl; [by rewrite length_insert|lia|done|intros _; apply Ha; lia].
      * intros _. simpl. apply Hins. lia.
      * unfold waiting. simpl. apply omap_take_insert. lia.
Qed.

Lemma collect_timeout c c' ob :
  wf_collector width c -> used c -> collect width c Timeout = Some (c', ob) ->
  wf_collector width c' /\ used c' /\ waiting c' = [] /\
  exists b, ob = Some b /\ answered b = waiting c /\ good_batch b.
Proof.
  intros [Hl Hp Hs Ha] Hu. simpl. destruct (armed c) eqn:Earm; [|done]. intros [= <- <-].
  split_and!; [split; simpl; [done|lia|lia|lia]|done|done|].
  eexists. split_and!; [done|done|]. split; simpl; [done|lia|done|by apply Hu].
Qed.

Lemma good_batch_calc b : good_batch b -> exists rs, calc_slots b = Some rs /\ List.length rs = avx2Parallel.
Proof.
  intros [Hl Hp Hs [r0 H0]]. unfold calc_slots.
  assert (Hm : exists rs, mapM id (take (b_pending b) (b_reqs b)) = Some rs /\ List.length rs = b_pending b).
  { assert (Hle : (b_pending b <= List.length (b_reqs b))%nat) by (unfold avx2Parallel in *; lia).
    revert Hs Hle. clear. generalize (b_pending b) as n, (b_reqs b) as l.
    induction n as [|n IH]; intros l Hs Hle; [by exists []|].
    destruct l as [|x l]; [simpl in Hle; lia|]. destruct (Hs 0%nat) as [r Hr]; [lia|]. injection Hr as ->.
    destruct (IH l) as (rs & E & El).
    { intros i Hi. apply (Hs (S i)). lia. }
    { simpl in Hle. lia. }
    exists (r :: rs). simpl. rewrite E. simpl. by rewrite El. }
  destruct Hm as (rs & -> & Hrs).
  destruct (b_reqs b) as [|x l]; [done|]. injection H0 as ->. simpl.
  eexists. split; [done|]. rewrite length_app, length_replicate. lia.
Qed.

Lemma run_spec c es c' bs :
  wf_collector width c -> used c -> run width c es = Some (c', bs) ->
  wf_collector width c' /\ used c' /\ Forall good_batch bs /\
  concat (answered <$> bs) ++ waiting c' = waiting c ++ requests es.
Proof.
  revert c bs. induction es as [|e es IH]; intros c bs Hwf Hu; simpl.
  { intros [= <- <-]. by rewrite app_nil_r. }
  destruct (collect width c e) as [[c1 ob]|] eqn:Ec; [|done].
  destruct (run width c1 es) as [[c2 bs2]|] eqn:Er; [|done]. intros [= <- <-].
  destruct e as [r|].
  - destruct (collect_request c r Hwf Hu) as (c1' & ob' & Ec' & Hwf1 & Hu1 & Hob).
    rewrite Ec in Ec'. injection Ec' as <- <-.
    destruct (IH c1 bs2 Hwf1 Hu1 Er) as (? & ? & HF & Hc). split_and!; [done|done| |].
    + destruct ob; [by destruct Hob as (_ & _ & ?); constructor|done].
    + unfold requests. simpl omap. fold (requests es). destruct ob as [b|].
      * destruct Hob as (Hans & Hwait & _). rewrite fmap_cons. cbn [concat].
        by rewrite Hans, <- !app_assoc, Hc, Hwait.
      * by rewrite Hc, Hob, <- app_assoc.
  - destruct (collect_timeout c c1 ob Hwf Hu Ec) as (Hwf1 & Hu1 & Hwait & b & -> & Hans & Hgood).
    destruct (IH c1 bs2 Hwf1 Hu1 Er) as (? & ? & HF & Hc).
    split_and!; [done|done|by constructor|]. unfold requests. simpl omap. fold (requests es).
    rewrite fmap_cons. cbn [concat]. by rewrite Hans, <- app_assoc, Hc, Hwait.
Qed.
End CollectorProofs.

(** The collector, of eight or of four requests, always accepts a
    request; whatever the order of requests and timeouts, the batches answer
    each request once and in order, save those that still wait, for which a
    timeout is pending; and every batch, also an empty one of an outdated
    timeout, gives the calculation eight requests. *)
Theorem collector_answers_all {req : Type} (width : nat) (es : list (event req)) c bs :
  width = avx2Parallel \/ width = sse4Parallel ->
  run width start es = Some (c, bs) ->
  concat (answered <$> bs) ++ waiting c = requests es /\
  (waiting c <> [] -> armed c = true) /\
  (forall b, b ∈ bs -> (List.length (answered b) <= width)%nat /\
     exists rs, calc_slots b = Some rs /\ List.length rs = avx2Parallel) /\
  (forall r, collect width c (Request r) <> None).
Proof.
  intros Hwidth Hrun.
  assert (Hw : (2 <= width <= avx2Parallel)%nat) by (unfold avx2Parallel, sse4Parallel in *; lia).
  destruct (start_wf (req := req) width Hw) as [Hwf Hu].
  destruct (run_spec width Hw _ _ _ _ Hwf Hu Hrun) as (Hwf' & Hu' & HF & Hc).
  split_and!.
  - done.
  - intros Hne. apply Hwf'. destruct (pending c) eqn:E; [|lia].
    exfalso. apply Hne. unfold waiting. by rewrite E.
  - intros b Hb. rewrite Forall_forall in HF. specialize (HF b Hb). split; [|by eapply (good_batch_calc width)].
    unfold answered. etrans; [exact (length_omap_id width Hw _)|]. rewrite length_take. pose proof (gb_pending width b HF). lia.
  - intros r. by destruct (collect_request width Hw c r Hwf' Hu') as (? & ? & -> & _).
Qed.

Definition example_events : list (event nat) :=
  [Request 1; Timeout; Request 2; Request 3; Request 4; Request 5; Request 6; Request 7; Request 8;
   Request 9; Timeout; Request 10]%nat.

Lemma collector_answers_all_witness :
  match run avx2Parallel start example_events with
  | Some (c, bs) => concat (answered <$> bs) ++ waiting c = [1; 2; 3; 4; 5; 6; 7; 8; 9; 10]%nat
  | None => False
  end.
Proof.
  destruct (run avx2Parallel start example_events) as [[c bs]|] eqn:E; [|vm_compute in E; discriminate E].
  exact (proj1 (collector_answers_all avx2Parallel example_events c bs (or_introl eq_refl) E)).
Defined.

(** A generation signature is accepted exactly when it consists of 64
    hexadecimal digits, and then gives 32 bytes. *)
Theorem DecodeGeneratorSignature_spec (s : list Z) :
  match DecodeGeneratorSignature s with
  | Ok sig => List.length s = 64%nat /\ Forall (fun c => hex_value c <> None) s /\
              List.length sig = 32%nat /\ Forall is_byte sig
  | Err _ => List.length s <> 64%nat \/ ~ Forall (fun c => hex_value c <> None) s
  end.
Proof.
  assert (Hv : forall c x, hex_value c = Some x -> 0 <= x < 16).
  { intros c x. unfold hex_value.
    repeat match goal with |- context [if ?t then _ else _] => destruct t eqn:? end; intros [= <-]; lia. }
  assert (Hdec : forall n s, List.length s = (2 * n)%nat ->
    match hex_decode s with
    | Some sig => Forall (fun c => hex_value c <> None) s /\ List.length sig = n /\ Forall is_byte sig
    | None => ~ Forall (fun c => hex_value c <> None) s
    end).
  { clear s. induction n as [|n IH]; intros s Hs.
    - by destruct s.
    - destruct s as [|a [|b s]]; [simpl in Hs; lia..|]. simpl.
      specialize (IH s ltac:(simpl in Hs; lia)).
      destruct (hex_value a) as [x|] eqn:Ea; [|rewrite Forall_cons; intros [? _]; congruence].
      destruct (hex_value b) as [y|] eqn:Eb; [|rewrite !Forall_cons; intros (_ & ? & _); congruence].
      destruct (hex_decode s) as [r|].
      + destruct IH as (? & ? & ?). split_and!; [by repeat constructor; congruence|simpl; lia|].
        constructor; [|done]. unfold is_byte. apply Hv in Ea, Eb. lia.
      + rewrite !Forall_cons. intros (_ & _ & ?). by apply IH. }
  unfold DecodeGeneratorSignature. destruct (Nat.eqb_spec (List.length s) 64) as [E|E]; simpl; [|by left].
  specialize (Hdec 32%nat s E). destruct (hex_decode s); [|by right].
  destruct Hdec as (? & ? & ?). done.
Qed.
