(* ===== verification/Config.v ===== *)
(** * The configuration ([pkg/config/config.go])

    The fields of [Config], [LoadConfig] with the validation it runs on what
    it read from [config.yaml], and the data source names of the databases.
    The file system and the library that parses YAML are parameters. *)

From S2P Require Import Prelude GoFloat GoStrings.
From Stdlib Require Import Ascii String.
Open Scope string_scope.
Open Scope Z_scope.

Record DBConfig := mk_DBConfig {
  Host : string; Port : Z; User : string; Password : string; Name : string
}.

(** Durations are nanoseconds. *)
Record Config := mk_Config {
  Version : string;
  BlockHeightPayoutDelay : Z;
  PayoutDelay : Z;
  SecretPhrase : string;
  WalletUrls : list string;
  PoolPublicID : Z;
  MinimumPayout : Z;
  PoolFeeShare : float64;
  DeadlineLimit : Z;
  SodiumDeadlines : bool;
  WinnerShare : float64;
  DB : DBConfig;
  WalletDB : DBConfig;
  FeeAccountID : Z;
  PoolTxFee : Z;
  MinerTxFee : Z;
  InactiveAfterXBlocks : Z;
  PoolAddress : string;
  PoolListenAddress : string;
  PoolPort : Z;
  WebServerPort : Z;
  WebServerListenAddress : string;
  AllowRequestsPerSecond : Z;
  NAVG : Z;
  NMin : Z;
  APIPort : Z;
  APIListenAddress : string;
  NodePort : Z;
  NodeListenAddress : string;
  TMin : Z;
  SetNowFee : Z;
  SetWeeklyFee : Z;
  SetDailyFee : Z;
  SetMinPayoutFee : Z;
  WalletTimeout : Z;
  WalletTimeoutDur : Z;
  PayoutInterval : Z;
  PayoutIntervalDur : Z;
  TrustAllWalletCerts : bool;
  NodeComCert : string;
  BlacklistedAccountIDs : list Z;
  AccountIDBlacklist : gset Z
}.

Definition second : Z := 10 ^ 9.
Definition minute : Z := 60 * second.

(** ** [validateConfig]

    [Logger.Fatal] ends the process with its message: an error.  The
    assignments to fields of [Cfg] give the configuration back. *)

Definition require (ok : bool) (msg : string) : result string unit :=
  if ok then Ok tt else Err msg.

(** The default of a field that was left out. *)
Definition default_str (d s : string) : string := if bool_decide (s = "") then d else s.
Definition default_int (d z : Z) : Z := if z =? 0 then d else z.

Definition default_db (db : DBConfig) : DBConfig :=
  mk_DBConfig (default_str "127.0.0.1" (Host db)) (default_int 3306 (Port db))
    (User db) (Password db) (Name db).

Definition duration (value default_dur unit_dur : Z) : Z :=
  if value <=? 0 then default_dur else GoInt.i64 (value * unit_dur).

(** The tests, in the order of the source. *)
Definition checkConfig (c : Config) : result string unit :=
  (try _ <- require (bool_decide (SecretPhrase c <> "")) "'secretPhrase' can't be empty" ;;
   try _ <- require (negb (Nat.eqb (List.length (WalletUrls c)) 0)) "no wallet urls defined in 'walletUrls'" ;;
   try _ <- require (negb (PoolPublicID c =? 0)) "'poolPublicId' can't be empty" ;;
   try _ <- require (negb (fltb (of_Z 1) (PoolFeeShare c))) "'poolFeeShare' must be between 0.0 and 1.0" ;;
   try _ <- require (bool_decide (Name (DB c) <> "")) "'dbName' can't be empty" ;;
   try _ <- require (bool_decide (User (DB c) <> "")) "'dbUser' can't be empty" ;;
   try _ <- require (negb ((FeeAccountID c =? 0) && fltb fzero (PoolFeeShare c)))
              "'feeAccountId' can't be empty if PoolFee is over 0.0" ;;
   try _ <- require (negb (fltb (WinnerShare c) fzero || fltb (of_Z 1) (WinnerShare c)))
              "'winnerShare' must be between 0.0 and 1.0" ;;
   try _ <- require (negb (InactiveAfterXBlocks c =? 0)) "'InactiveAfterXBlocks' must be bigger than 0" ;;
   try _ <- require (negb (PoolPort c =? 0)) "'poolPort' can't be empty or 0" ;;
   try _ <- require (negb (WebServerPort c =? 0)) "'webServerPort' can't be empty or 0" ;;
   try _ <- require (bool_decide (PoolAddress c <> "")) "'poolAddress' can't be empty" ;;
   try _ <- require (negb (AllowRequestsPerSecond c <? 0)) "'allowRequestsPerSecond' can't be negativ" ;;
   try _ <- require (negb (NAVG c <? 0)) "'nAvg' can't be negativ" ;;
   try _ <- require (negb (NMin c <? 0)) "'nMin' can't be negativ" ;;
   try _ <- require (negb (TMin c <? 0)) "'tMin' can't be negativ" ;;
   Ok tt)%go.

(** The assignments; a field the tests look at before its default is set is
    tested as it was read. *)
Definition setDefaults (c : Config) : Config :=
  {| Version := Version c;
     BlockHeightPayoutDelay := BlockHeightPayoutDelay c;
     PayoutDelay := PayoutDelay c;
     SecretPhrase := SecretPhrase c;
     WalletUrls := WalletUrls c;
     PoolPublicID := PoolPublicID c;
     MinimumPayout := MinimumPayout c;
     PoolFeeShare := PoolFeeShare c;
     DeadlineLimit := DeadlineLimit c;
     SodiumDeadlines := SodiumDeadlines c;
     WinnerShare := WinnerShare c;
     DB := default_db (DB c);
     WalletDB := default_db (WalletDB c);
     FeeAccountID := FeeAccountID c;
     PoolTxFee := default_int 10000000 (PoolTxFee c);
     MinerTxFee := MinerTxFee c;
     InactiveAfterXBlocks := InactiveAfterXBlocks c;
     PoolAddress := PoolAddress c;
     PoolListenAddress := PoolListenAddress c;
     PoolPort := PoolPort c;
     WebServerPort := WebServerPort c;
     WebServerListenAddress := WebServerListenAddress c;
     AllowRequestsPerSecond := default_int 4 (AllowRequestsPerSecond c);
     NAVG := default_int 360 (NAVG c);
     NMin := default_int 10 (NMin c);
     APIPort := APIPort c;
     APIListenAddress := APIListenAddress c;
     NodePort := NodePort c;
     NodeListenAddress := NodeListenAddress c;
     TMin := TMin c;
     SetNowFee := SetNowFee c;
     SetWeeklyFee := SetWeeklyFee c;
     SetDailyFee := SetDailyFee c;
     SetMinPayoutFee := SetMinPayoutFee c;
     WalletTimeout := WalletTimeout c;
     WalletTimeoutDur := duration (WalletTimeout c) (5 * second) second;
     PayoutInterval := PayoutInterval c;
     PayoutIntervalDur := duration (PayoutInterval c) (10 * minute) minute;
     TrustAllWalletCerts := TrustAllWalletCerts c;
     NodeComCert := NodeComCert c;
     BlacklistedAccountIDs := BlacklistedAccountIDs c;
     AccountIDBlacklist := list_to_set (BlacklistedAccountIDs c) |}.

Definition validateConfig (c : Config) : result string Config :=
  (try _ <- checkConfig c ;; Ok (setDefaults c))%go.

(** ** [LoadConfig] *)

Definition no_db : DBConfig := mk_DBConfig "" 0 "" "" "".

(** [Cfg] as the program starts, and with its version. *)
Definition zero_Config (version : string) : Config := {|
  Version := version; BlockHeightPayoutDelay := 0; PayoutDelay := 0; SecretPhrase := ""; WalletUrls := [];
  PoolPublicID := 0; MinimumPayout := 0; PoolFeeShare := fzero; DeadlineLimit := 0; SodiumDeadlines := false;
  WinnerShare := fzero; DB := no_db; WalletDB := no_db; FeeAccountID := 0; PoolTxFee := 0; MinerTxFee := 0;
  InactiveAfterXBlocks := 0; PoolAddress := ""; PoolListenAddress := ""; PoolPort := 0; WebServerPort := 0;
  WebServerListenAddress := ""; AllowRequestsPerSecond := 0; NAVG := 0; NMin := 0; APIPort := 0; APIListenAddress := "";
  NodePort := 0; NodeListenAddress := ""; TMin := 0; SetNowFee := 0; SetWeeklyFee := 0; SetDailyFee := 0;
  SetMinPayoutFee := 0; WalletTimeout := 0; WalletTimeoutDur := 0; PayoutInterval := 0; PayoutIntervalDur := 0;
  TrustAllWalletCerts := false; NodeComCert := ""; BlacklistedAccountIDs := []; AccountIDBlacklist := ∅ |}.

Section LoadConfig.
(** [ioutil.ReadFile], and [yaml.Unmarshal] into a configuration that has
    values already. *)
Context (ReadFile : string -> result string string) (yaml_Unmarshal : string -> Config -> result string Config).

Definition LoadConfig : result string Config :=
  let Cfg := zero_Config "v1.4.3" in
  match ReadFile "./config.yaml" with
  | Err _ => Err "reading config failed"
  | Ok raw =>
      match yaml_Unmarshal raw Cfg with
      | Err _ => Err "unpacking config failed"
      | Ok Cfg => validateConfig Cfg
      end
  end.
End LoadConfig.

(** ** [DataSourceName] *)

Definition DataSourceName (config : DBConfig) (includeDatabase : bool) : string :=
  let dataSourceName :=
    User config ++ ":" ++ Password config ++ "@tcp(" ++ Host config ++ ":" ++
    of_bytes (FormatUint (Port config)) ++ ")/" in
  if includeDatabase
  then dataSourceName ++ Name config ++ "?charset=utf8&parseTime=True&loc=Local&multiStatements=true"
  else dataSourceName.

(** ** Theorems *)

Lemma require_Ok ok msg u : require ok msg = Ok u <-> ok = true.
Proof. unfold require. destruct ok, u; naive_solver. Qed.

(** What a file must say to be accepted: every test of [validateConfig], on the
    values as they were read.  (It is all: a negative [poolFeeShare], an
    [nMin] that is not below [nAvg] and negative fees are accepted.) *)
Record acceptable (c : Config) : Prop := {
  ac_secret : SecretPhrase c <> "";
  ac_wallets : WalletUrls c <> [];
  ac_pool : PoolPublicID c <> 0;
  ac_poolFee : fltb (of_Z 1) (PoolFeeShare c) = false;
  ac_dbName : Name (DB c) <> "";
  ac_dbUser : User (DB c) <> "";
  ac_feeAccount : FeeAccountID c = 0 -> fltb fzero (PoolFeeShare c) = false;
  ac_winner : fltb (WinnerShare c) fzero = false /\ fltb (of_Z 1) (WinnerShare c) = false;
  ac_inactive : InactiveAfterXBlocks c <> 0;
  ac_poolPort : PoolPort c <> 0;
  ac_webPort : WebServerPort c <> 0;
  ac_address : PoolAddress c <> "";
  ac_requests : 0 <= AllowRequestsPerSecond c;
  ac_nAvg : 0 <= NAVG c;
  ac_nMin : 0 <= NMin c;
  ac_tMin : 0 <= TMin c
}.

(** What holds of the configuration the program runs with: the file was
    acceptable, and what it left out has a value. *)
Record valid (c : Config) : Prop := {
  valid_acceptable : acceptable c;
  valid_nAvg : 0 < NAVG c;
  valid_nMin : 0 < NMin c;
  valid_requests : 0 < AllowRequestsPerSecond c;
  valid_poolTxFee : PoolTxFee c <> 0;
  valid_db : Host (DB c) <> "" /\ Port (DB c) <> 0;
  valid_walletDB : Host (WalletDB c) <> "" /\ Port (WalletDB c) <> 0;
  valid_blacklist : AccountIDBlacklist c = list_to_set (BlacklistedAccountIDs c)
}.

Lemma default_int_idemp d z : default_int d (default_int d z) = default_int d z.
Proof. unfold default_int. destruct (z =? 0) eqn:E; [|by rewrite E]. by destruct (d =? 0). Qed.

Lemma default_str_idemp d z : default_str d (default_str d z) = default_str d z.
Proof. unfold default_str. by repeat case_bool_decide. Qed.

Lemma default_int_pos d z : 0 < d -> (z <? 0) = false -> 0 < default_int d z.
Proof. unfold default_int. intros Hd Hz. destruct (z =? 0) eqn:E; zbool; lia. Qed.

Lemma require_bind (ok : bool) msg (k : result string unit) :
  (try _ <- require ok msg ;; k)%go = Ok tt <-> ok = true /\ k = Ok tt.
Proof. unfold require. destruct ok; naive_solver. Qed.

(** The tests as a conjunction. *)
Ltac split_checks := unfold checkConfig in *; repeat rewrite require_bind in *.

Lemma default_int_nonneg d z : 0 <= d -> negb (z <? 0) = true -> negb (default_int d z <? 0) = true.
Proof.
  rewrite !negb_true_iff, !Z.ltb_ge. unfold default_int. destruct (z =? 0); lia.
Qed.

Lemma default_str_ne d s : d <> "" -> default_str d s <> "".
Proof. unfold default_str. by case_bool_decide. Qed.

Lemma setDefaults_idemp c : setDefaults (setDefaults c) = setDefaults c.
Proof.
  unfold setDefaults, default_db. destruct c as []; simpl.
  f_equal; rewrite ?default_str_idemp, ?default_int_idemp; done.
Qed.

Lemma checkConfig_setDefaults c : checkConfig c = Ok tt -> checkConfig (setDefaults c) = Ok tt.
Proof.
  split_checks. intros H. destruct_and!. simpl.
  split_and!; try done; by apply default_int_nonneg.
Qed.

Lemma checkConfig_acceptable c : checkConfig c = Ok tt <-> acceptable c.
Proof.
  unfold checkConfig. rewrite !require_bind. split.
  - intros H. destruct_and!. split; zbool; try done; try (by eapply bool_decide_eq_true).
    + by destruct (WalletUrls c).
    + intros Hz. by rewrite Hz in *.
  - intros [H1 H2 H3 H4 H5 H6 H7 [H8 H9] H10 H11 H12 H13 H14 H15 H16 H17].
    rewrite ?negb_true_iff, ?bool_decide_eq_true, ?orb_false_iff, ?andb_false_iff, ?Z.eqb_neq, ?Z.ltb_ge.
    split_and!; try done.
    + by destruct (WalletUrls c).
    + destruct (Z.eq_dec (FeeAccountID c) 0) as [Hz|]; [right; by apply H7|by left].
Qed.

Lemma default_int_ne d z : d <> 0 -> default_int d z <> 0.
Proof. unfold default_int. destruct (Z.eqb_spec z 0); done. Qed.

Lemma checkConfig_valid c : checkConfig c = Ok tt -> valid (setDefaults c).
Proof.
  intros H. pose proof (proj1 (checkConfig_acceptable _) (checkConfig_setDefaults c H)) as Hd.
  apply checkConfig_acceptable in H as [].
  split; simpl; try done; try (apply default_int_pos; [lia|by apply Z.ltb_ge]);
    try split; by first [apply default_int_ne|apply default_str_ne].
Qed.

(** A configuration that [validateConfig] accepts is [valid], and validating it again changes nothing. *)
Theorem validateConfig_valid (c c' : Config) :
  validateConfig c = Ok c' -> valid c' /\ validateConfig c' = Ok c'.
Proof.
  unfold validateConfig. destruct (checkConfig c) as [[]|] eqn:E; [|done]. intros [= <-].
  split; [by apply checkConfig_valid|].
  by rewrite checkConfig_setDefaults, setDefaults_idemp.
Qed.

(** C39: the program starts exactly if the configuration file can be read and
    parsed and passes every test of [validateConfig], listed in [acceptable];
    it then runs with the values of the file, with defaults for those that
    were left out, and this configuration would pass the tests again.
    Otherwise the process ends with an error. *)
Theorem LoadConfig_valid (ReadFile : string -> result string string)
    (yaml_Unmarshal : string -> Config -> result string Config) :
  (forall c, LoadConfig ReadFile yaml_Unmarshal = Ok c <->
     exists raw c0, ReadFile "./config.yaml" = Ok raw /\ yaml_Unmarshal raw (zero_Config "v1.4.3") = Ok c0 /\
       acceptable c0 /\ c = setDefaults c0) /\
  (forall c, LoadConfig ReadFile yaml_Unmarshal = Ok c -> valid c /\ validateConfig c = Ok c).
Proof.
  assert (Hiff : forall c, LoadConfig ReadFile yaml_Unmarshal = Ok c <->
     exists raw c0, ReadFile "./config.yaml" = Ok raw /\ yaml_Unmarshal raw (zero_Config "v1.4.3") = Ok c0 /\
       acceptable c0 /\ c = setDefaults c0).
  { intros c. unfold LoadConfig, validateConfig. split.
    - destruct (ReadFile _) as [raw|] eqn:Er; [|done]. destruct (yaml_Unmarshal raw _) as [c0|] eqn:Ey; [|done].
      destruct (checkConfig c0) as [[]|] eqn:Ec; [|done]. intros [= <-]. exists raw, c0.
      split_and!; [done..|by apply checkConfig_acceptable|done].
    - intros (raw & c0 & -> & Ey & Ha%checkConfig_acceptable & ->). by rewrite Ey, Ha. }
  split; [exact Hiff|]. intros c (raw & c0 & _ & _ & Hok%checkConfig_acceptable & ->)%Hiff.
  apply (validateConfig_valid c0). unfold validateConfig. by rewrite Hok.
Qed.

(** ** The configuration of the repository's tests ([pkg/modelx/config.yaml]) *)

Definition test_config : Config := {|
  Version := "v1.4.3";
  BlockHeightPayoutDelay := 10; PayoutDelay := 0;
  SecretPhrase := "<your secret phrase>";
  WalletUrls := ["https://wallet.burst-test.net:8125"];
  PoolPublicID := 10282355196851764065;
  MinimumPayout := 250000000000;
  PoolFeeShare := fzero;
  DeadlineLimit := 10000000000; SodiumDeadlines := false;
  WinnerShare := dy 1 (-1);
  DB := mk_DBConfig "" 0 "root" "" "testburstpool";
  WalletDB := mk_DBConfig "" 0 "root" "" "testburstwallet";
  FeeAccountID := 6418289488649374107;
  PoolTxFee := 10000000; MinerTxFee := 10000000;
  InactiveAfterXBlocks := 10;
  PoolAddress := "http://127.0.0.1"; PoolListenAddress := ""; PoolPort := 8124;
  WebServerPort := 8080; WebServerListenAddress := "";
  AllowRequestsPerSecond := 0;
  NAVG := 100; NMin := 5;
  APIPort := 0; APIListenAddress := ""; NodePort := 0; NodeListenAddress := "";
  TMin := 20;
  SetNowFee := 200000000; SetWeeklyFee := 100000000; SetDailyFee := 300000000;
  SetMinPayoutFee := 400000000;
  WalletTimeout := 0; WalletTimeoutDur := 0; PayoutInterval := 0; PayoutIntervalDur := 0;
  TrustAllWalletCerts := false; NodeComCert := "";
  BlacklistedAccountIDs := [13536843574215823231];
  AccountIDBlacklist := ∅ |}.

Definition test_cfg : Config := setDefaults test_config.

(** Changes of single fields, for runs with other settings. *)
Definition set_poolFeeShare (x : float64) (c : Config) : Config :=
  mk_Config (Version c) (BlockHeightPayoutDelay c) (PayoutDelay c) (SecretPhrase c) (WalletUrls c)
    (PoolPublicID c) (MinimumPayout c) x (DeadlineLimit c) (SodiumDeadlines c) (WinnerShare c)
    (DB c) (WalletDB c) (FeeAccountID c) (PoolTxFee c) (MinerTxFee c) (InactiveAfterXBlocks c)
    (PoolAddress c) (PoolListenAddress c) (PoolPort c) (WebServerPort c) (WebServerListenAddress c)
    (AllowRequestsPerSecond c) (NAVG c) (NMin c) (APIPort c) (APIListenAddress c) (NodePort c)
    (NodeListenAddress c) (TMin c) (SetNowFee c) (SetWeeklyFee c) (SetDailyFee c)
    (SetMinPayoutFee c) (WalletTimeout c) (WalletTimeoutDur c) (PayoutInterval c)
    (PayoutIntervalDur c) (TrustAllWalletCerts c) (NodeComCert c) (BlacklistedAccountIDs c)
    (AccountIDBlacklist c).

Definition set_sodium (x : bool) (c : Config) : Config :=
  mk_Config (Version c) (BlockHeightPayoutDelay c) (PayoutDelay c) (SecretPhrase c) (WalletUrls c)
    (PoolPublicID c) (MinimumPayout c) (PoolFeeShare c) (DeadlineLimit c) x (WinnerShare c) (DB c)
    (WalletDB c) (FeeAccountID c) (PoolTxFee c) (MinerTxFee c) (InactiveAfterXBlocks c)
    (PoolAddress c) (PoolListenAddress c) (PoolPort c) (WebServerPort c) (WebServerListenAddress c)
    (AllowRequestsPerSecond c) (NAVG c) (NMin c) (APIPort c) (APIListenAddress c) (NodePort c)
    (NodeListenAddress c) (TMin c) (SetNowFee c) (SetWeeklyFee c) (SetDailyFee c)
    (SetMinPayoutFee c) (WalletTimeout c) (WalletTimeoutDur c) (PayoutInterval c)
    (PayoutIntervalDur c) (TrustAllWalletCerts c) (NodeComCert c) (BlacklistedAccountIDs c)
    (AccountIDBlacklist c).

Lemma validateConfig_valid_witness :
  validateConfig test_config = Ok test_cfg /\ valid test_cfg.
Proof.
  split; [vm_compute; reflexivity|].
  refine (proj1 (validateConfig_valid test_config test_cfg _)). vm_compute. reflexivity.
Defined.

(** A negative [poolFeeShare] is accepted, though the message of the test
    says that the share must be between 0.0 and 1.0. *)
Theorem negative_poolFeeShare_accepted :
  exists c c', fltb (PoolFeeShare c) fzero = true /\ validateConfig c = Ok c' /\
               PoolFeeShare c' = PoolFeeShare c.
Proof.
  exists (set_poolFeeShare (of_Z (-1)) test_config).
  eexists. split_and!; [by vm_compute|by vm_compute|done].
Qed.

(** So is an [nMin] that is not below [nAvg], against the message of its test:
    it is only logged. *)
Definition set_nMin (x : Z) (c : Config) : Config :=
  mk_Config (Version c) (BlockHeightPayoutDelay c) (PayoutDelay c) (SecretPhrase c) (WalletUrls c)
    (PoolPublicID c) (MinimumPayout c) (PoolFeeShare c) (DeadlineLimit c) (SodiumDeadlines c) (WinnerShare c)
    (DB c) (WalletDB c) (FeeAccountID c) (PoolTxFee c) (MinerTxFee c) (InactiveAfterXBlocks c)
    (PoolAddress c) (PoolListenAddress c) (PoolPort c) (WebServerPort c) (WebServerListenAddress c)
    (AllowRequestsPerSecond c) (NAVG c) x (APIPort c) (APIListenAddress c) (NodePort c)
    (NodeListenAddress c) (TMin c) (SetNowFee c) (SetWeeklyFee c) (SetDailyFee c)
    (SetMinPayoutFee c) (WalletTimeout c) (WalletTimeoutDur c) (PayoutInterval c)
    (PayoutIntervalDur c) (TrustAllWalletCerts c) (NodeComCert c) (BlacklistedAccountIDs c)
    (AccountIDBlacklist c).

Theorem nMin_beyond_nAvg_accepted :
  exists c c', validateConfig c = Ok c' /\ NAVG c' < NMin c'.
Proof. exists (set_nMin 101 test_config). eexists. split; [by vm_compute|done]. Qed.

(** The file is there, and says what the test configuration says; an empty
    one is refused. *)
Lemma LoadConfig_valid_witness :
  LoadConfig (fun _ => Ok "...") (fun _ _ => Ok test_config) = Ok test_cfg /\ valid test_cfg /\
  acceptable test_config /\ ~ acceptable (zero_Config "v1.4.3").
Proof.
  destruct (LoadConfig_valid (fun _ => Ok "...") (fun _ _ => Ok test_config)) as [Hiff Hv].
  destruct (LoadConfig_valid (fun _ => Ok "") (fun _ c => Ok c)) as [Hz _].
  assert (E : LoadConfig (fun _ => Ok "...") (fun _ _ => Ok test_config) = Ok test_cfg) by (vm_compute; reflexivity).
  split; [exact E|]. split; [exact (proj1 (Hv _ E))|]. split.
  - destruct (proj1 (Hiff test_cfg) E) as (raw & c0 & _ & E0 & Ha & _). injection E0 as <-. exact Ha.
  - intros Ha. assert (Ez : LoadConfig (fun _ => Ok "") (fun _ c => Ok c) = Ok (setDefaults (zero_Config "v1.4.3"))).
    { apply Hz. exists "", (zero_Config "v1.4.3"). split; [reflexivity|]. split; [reflexivity|]. split; [exact Ha|reflexivity]. }
    vm_compute in Ez. discriminate Ez.
Defined.
