(* ===== verification/Startup.v ===== *)
(** * Opening the database ([initializeDatabase] and [NewModelX], modelx.go)

    What happens before the pool reads its database: it is created, brought up
    to date by the migrations and connected.  MySQL and the migration library
    are the interface [Server]; what the library documents are the laws of
    [Migrations].  A fatal log entry ends the program. *)

From Stdlib Require Import Ascii String.
From S2P Require Import Prelude GoStrings Config.
Open Scope string_scope.
Open Scope list_scope.
Open Scope Z_scope.
Import GoInt.

Inductive version_error := ErrNilVersion | VersionError (e : string).
Inductive up_error := ErrNoChange | UpError (e : string).

(** The calls of the driver and the library, on the state of the server. *)
Class Server (S : Type) := {
  Connect : string -> S -> result string unit * S;
  ExecStatement : string -> S -> result string unit * S;
  WithInstance : S -> result string unit * S;
  NewWithDatabaseInstance : string -> S -> result string unit * S;
  Version : S -> result version_error (Z * bool);
  Force : Z -> S -> result string unit * S;
  Up : S -> result up_error unit * S
}.

Section Startup.
Context {S : Type} `{!Server S} (Cfg : Config).

(** Run to the end, or to a fatal log entry. *)
Definition start_up (A : Type) : Type := S -> result string A * S.

#[local] Instance start_up_ret : MRet start_up := fun A a s => (Ok a, s).
#[local] Instance start_up_bind : MBind start_up := fun A B k c s =>
  match c s with (Ok a, s') => k a s' | (Err e, s') => (Err e, s') end.

Definition fatal {A} (msg : string) : start_up A := fun s => (Err msg, s).

Definition fatal_if (c : S -> result string unit * S) (msg : string) : start_up unit := fun s =>
  match c s with (Ok _, s') => (Ok tt, s') | (Err _, s') => (Err msg, s') end.

Definition create_statement : string :=
  String.append "CREATE SCHEMA IF NOT EXISTS `" (String.append (Name (DB Cfg)) "` DEFAULT CHARACTER SET utf8;").

(** The version that is forced if the last migration did not finish. *)
Definition force_if_dirty : start_up unit := fun s =>
  match Version s with
  | Err (VersionError _) => (Err "failed to get migration version", s)
  | Err ErrNilVersion => (Ok tt, s)
  | Ok (version, dirty) =>
      if (dirty : bool) then fatal_if (Force (i64 version)) "failed to force execute migration" s else (Ok tt, s)
  end.

Definition migrate_up : start_up unit := fun s =>
  match Up s with
  | (Ok _, s') | (Err ErrNoChange, s') => (Ok tt, s')
  | (Err (UpError _), s') => (Err "failed to execute migrations", s')
  end.

Definition initializeDatabase (migrateDB : bool) : start_up unit :=
  fatal_if (Connect (DataSourceName (DB Cfg) false)) "failed to connect to sql server" ;;
  fatal_if (ExecStatement create_statement) "failed to create the database" ;;
  fatal_if (Connect (DataSourceName (DB Cfg) true)) "failed to connect to sql server" ;;
  if negb migrateDB then mret tt else
  fatal_if WithInstance "failed to initialise migration driver" ;;
  fatal_if (NewWithDatabaseInstance "file://migrations") "failed to initialise migration instance" ;;
  force_if_dirty ;;
  migrate_up.

(** The connections of [NewModelX]. *)
Definition connect (migrateDB : bool) : start_up unit :=
  initializeDatabase migrateDB ;;
  if bool_decide (Name (WalletDB Cfg) = "") then mret tt
  else fatal_if (Connect (DataSourceName (WalletDB Cfg) true)) "failed to connect to database".

(** ** The laws of the migration library *)

Class Migrations := {
  versions : list Z;                       (* of the files, in order *)
  recorded : S -> option (Z * bool);       (* the version in the database, and whether it is dirty *)
  finished : S -> list Z;                  (* the migrations run to their end *)
  quiet_connect n s : recorded (Connect n s).2 = recorded s /\ finished (Connect n s).2 = finished s;
  quiet_exec n s : recorded (ExecStatement n s).2 = recorded s /\ finished (ExecStatement n s).2 = finished s;
  quiet_driver s : recorded (WithInstance s).2 = recorded s /\ finished (WithInstance s).2 = finished s;
  quiet_instance n s :
    recorded (NewWithDatabaseInstance n s).2 = recorded s /\ finished (NewWithDatabaseInstance n s).2 = finished s;
  Version_reports s p : Version s = Ok p -> recorded s = Some p /\ is_i64 p.1;
  Version_nil s : Version s = Err ErrNilVersion -> recorded s = None;
  Force_records v s s' : Force v s = (Ok tt, s') -> recorded s' = Some (v, false) /\ finished s' = finished s;
  Up_runs s s' r : Up s = (r, s') -> (forall e, r <> Err (UpError e)) ->
    finished s' = finished s ++
      match recorded s with Some (v, _) => filter (fun k => v < k) versions | None => versions end
}.

Context `{!Migrations}.

Definition unchanged (s s' : S) : Prop := recorded s' = recorded s /\ finished s' = finished s.

Lemma bind_ok {A B} (c : start_up A) (k : A -> start_up B) s b s' :
  (c ≫= k) s = (Ok b, s') -> exists a s1, c s = (Ok a, s1) /\ k a s1 = (Ok b, s').
Proof. unfold mbind, start_up_bind. destruct (c s) as [[a|e] s1]; [|done]. by exists a, s1. Qed.

Lemma fatal_if_ok c msg s u s' : fatal_if c msg s = (Ok u, s') -> exists u', c s = (Ok u', s').
Proof. unfold fatal_if. destruct (c s) as [[u'|e] s1]; [|done]. intros [= _ <-]. by exists u'. Qed.

Lemma fatal_if_unchanged c msg s u s' :
  unchanged s (c s).2 -> fatal_if c msg s = (Ok u, s') -> unchanged s s'.
Proof. intros Hc E. apply fatal_if_ok in E as [u' E]. by rewrite E in Hc. Qed.

Lemma force_if_dirty_ok s u s' :
  force_if_dirty s = (Ok u, s') ->
  finished s' = finished s /\ recorded s' = (fun p => (p.1, false)) <$> recorded s.
Proof.
  unfold force_if_dirty. destruct (Version s) as [[v b]|e] eqn:E.
  - apply Version_reports in E as [E Hv]. rewrite E. destruct b; [|by intros [= _ <-]; rewrite E].
    intros H'. apply fatal_if_ok in H' as [[] H']. simpl in Hv. rewrite i64_small in H' by done.
    apply Force_records in H' as [-> ->]. done.
  - destruct e as [|e]; [|done]. apply Version_nil in E. rewrite E. intros [= _ <-]. by rewrite E.
Qed.

(** What a successful start has run. *)
Lemma initializeDatabase_ok s u s' :
  initializeDatabase true s = (Ok u, s') ->
  finished s' = finished s ++ match recorded s with Some (v, _) => filter (fun k => v < k) versions | None => versions end.
Proof.
  unfold initializeDatabase. intros E.
  apply bind_ok in E as (u1 & s1 & E1 & E). apply fatal_if_unchanged in E1 as [R1 F1]; [|apply quiet_connect].
  apply bind_ok in E as (u2 & s2 & E2 & E). apply fatal_if_unchanged in E2 as [R2 F2]; [|apply quiet_exec].
  apply bind_ok in E as (u3 & s3 & E3 & E). apply fatal_if_unchanged in E3 as [R3 F3]; [|apply quiet_connect].
  cbn [negb] in E.
  apply bind_ok in E as (u4 & s4 & E4 & E). apply fatal_if_unchanged in E4 as [R4 F4]; [|apply quiet_driver].
  apply bind_ok in E as (u5 & s5 & E5 & E). apply fatal_if_unchanged in E5 as [R5 F5]; [|apply quiet_instance].
  apply bind_ok in E as (u6 & s6 & E6 & E). apply force_if_dirty_ok in E6 as [F6 R6].
  assert (Hu : forall e, (Up s6).1 <> Err (UpError e)).
  { intros e He. unfold migrate_up in E. by destruct (Up s6) as [r s7]; simpl in He; subst r. }
  unfold migrate_up in E. destruct (Up s6) as [r s7] eqn:Eu. simpl in Hu. apply Up_runs in Eu; [|exact Hu].
  assert (s7 = s') as -> by (by destruct r as [|[]]; injection E; intros).
  rewrite Eu, F6, R6, F5, R5, F4, R4, F3, R3, F2, R2, F1, R1. by destruct (recorded s) as [[v b]|].
Qed.

Lemma in_filter_versions v (k : Z) : k ∈ filter (fun j => v < j) versions -> v < k.
Proof. by intros [? _]%list_elem_of_filter. Qed.

(** A migration that failed half-way is not run again: the next start
    forces its version to be clean and runs the migrations after it, and none
    it has not finished up to that version.  A start that finds no such
    migration runs exactly those that are missing. *)
Theorem failed_migration_is_skipped (s s' : S) :
  initializeDatabase true s = (Ok tt, s') ->
  (forall v, recorded s = Some (v, true) ->
     finished s' = finished s ++ filter (fun k => v < k) versions /\
     (forall k, k <= v -> k ∉ finished s -> k ∉ finished s')) /\
  (recorded s = None -> finished s' = finished s ++ versions) /\
  (forall v, recorded s = Some (v, false) -> finished s' = finished s ++ filter (fun k => v < k) versions).
Proof using.
  intros E. apply initializeDatabase_ok in E. split; [intros v Hv; rewrite Hv in E; split; [done|]|split].
  - intros k Hk Hn. rewrite E. intros [Hi|Hi]%elem_of_app; [done|].
    apply in_filter_versions in Hi. lia.
  - intros Hv. by rewrite Hv in E.
  - intros v Hv. by rewrite Hv in E.
Qed.
End Startup.

(** ** A database whose second migration failed *)

Definition sql_server : Type := option (Z * bool) * list Z.

Definition all_versions : list Z := [1; 2; 3].

#[export] Instance sql_server_Server : Server sql_server := {
  Connect _ s := (Ok tt, s);
  ExecStatement _ s := (Ok tt, s);
  WithInstance s := (Ok tt, s);
  NewWithDatabaseInstance _ s := (Ok tt, s);
  Version s := match s.1 with
               | Some (v, b) => if bool_decide (is_i64 v) then Ok (v, b) else Err (VersionError "version")
               | None => Err ErrNilVersion end;
  Force v s := (Ok tt, (Some (v, false), s.2));
  Up s := match s.1 with
          | Some (_, true) => (Err (UpError "Dirty database version"), s)
          | Some (v, false) => (Ok tt, (Some (3, false), s.2 ++ filter (fun k => v < k) all_versions))
          | None => (Ok tt, (Some (3, false), s.2 ++ all_versions))
          end
}.

#[export] Program Instance sql_server_Migrations : Migrations (S := sql_server) := {
  versions := all_versions;
  recorded s := s.1;
  finished s := s.2
}.
Solve All Obligations with (try done).
Next Obligation. intros s p. simpl. destruct (s.1) as [[v b]|]; [|done]. case_bool_decide; [|done]. by intros [= <-]. Qed.
Next Obligation. intros s. simpl. destruct (s.1) as [[v b]|]; [|done]. by case_bool_decide. Qed.
Next Obligation. by intros v s s' [= <-]. Qed.
Next Obligation.
  intros s s' r. simpl. destruct (s.1) as [[v []]|]; intros [= <- <-] H; [by destruct (H "Dirty database version")|done..].
Qed.

Lemma failed_migration_is_skipped_witness :
  exists s' : sql_server, initializeDatabase test_cfg true (Some (2, true), [1]) = (Ok tt, s') /\ 2 ∉ finished s'.
Proof.
  eexists. split; [vm_compute; reflexivity|].
  apply (failed_migration_is_skipped test_cfg (Some (2, true), [1])) with (v := 2) (k := 2);
    [vm_compute; reflexivity|reflexivity|lia|vm_compute; intros H; inversion H as [|? ? ? H']; inversion H'].
Defined.
