(* ===== verification/Deadlines.v ===== *)
(** * The deadline request handler ([pkg/burstmath/burstmath.go])

    Callers of [CalcDeadline], the collector, the channel of batches and the
    workers as one transition system: [exec] performs one action of one
    goroutine, or none where it is blocked.  The two unbuffered channels are
    rendezvous: a request passes when a caller and the collector meet, a
    deadline when a worker and its caller do.  The calculation itself is C
    code, which writes a deadline into the native request of each of its
    slots; a worker sends what it reads there.  [calc] is the deadline of a
    caller's request, and [PlotTheorems.handler_calculates] puts the code in
    its place. *)

From Stdlib Require Import Ascii String.
From S2P Require Import Prelude GoStrings GoFloat Config Burstmath.
Open Scope list_scope.
Open Scope nat_scope.

(** ** The state *)

(** A call of [CalcDeadline]: at its send, at its receive, or over. *)
Inductive caller := Calling | Waiting | Returned (deadline : Z).

(** A worker: at its select, sending deadlines, or stopped. *)
Inductive worker := Idle | Answering (rest : list nat) | Stopped.

#[global] Instance caller_eq_dec : EqDecision caller.
Proof. solve_decision. Defined.

(** [outbox]: the batch the collector is about to send, when it is at that
    send and not at its select.  [natives]: the deadlines that were written
    into the native requests. *)
Record handler := mk_handler {
  callers : gmap nat caller;
  coll : collector nat;
  outbox : option (batch nat);
  batchReqs : list (batch nat);
  workers : list worker;
  natives : gmap nat Z;
  collecting : bool;
  nil_dereferenced : bool
}.

Definition set_callers (x : gmap nat caller) (s : handler) : handler :=
  mk_handler x (coll s) (outbox s) (batchReqs s) (workers s) (natives s) (collecting s) (nil_dereferenced s).
Definition set_coll (x : collector nat) (b : option (batch nat)) (s : handler) : handler :=
  mk_handler (callers s) x b (batchReqs s) (workers s) (natives s) (collecting s) (nil_dereferenced s).
Definition set_batchReqs (x : list (batch nat)) (s : handler) : handler :=
  mk_handler (callers s) (coll s) (outbox s) x (workers s) (natives s) (collecting s) (nil_dereferenced s).
Definition set_worker (k : nat) (x : worker) (s : handler) : handler :=
  mk_handler (callers s) (coll s) (outbox s) (batchReqs s) (<[k := x]> (workers s)) (natives s) (collecting s) (nil_dereferenced s).
Definition set_natives (x : gmap nat Z) (s : handler) : handler :=
  mk_handler (callers s) (coll s) (outbox s) (batchReqs s) (workers s) x (collecting s) (nil_dereferenced s).
Definition stop_collecting (s : handler) : handler :=
  mk_handler (callers s) (coll s) (outbox s) (batchReqs s) (workers s) (natives s) false (nil_dereferenced s).
Definition segfault (s : handler) : handler :=
  mk_handler (callers s) (coll s) (outbox s) (batchReqs s) (workers s) (natives s) (collecting s) true.

(** ** Creation *)

(** The requests of a batch for each collector, its timeout, and the handler
    at rest; [None] is a panic.  The collector for SSE4 has a timeout of its
    own. *)
Definition NewDeadlineRequestHandler (AVX2 SSE4 : bool) (workerCount : Z) (timeoutSeconds : option Z) :
    option (nat * Z * handler) :=
  let start_handler := mk_handler ∅ start None [] (replicate (Z.to_nat workerCount) Idle) ∅ true false in
  match timeoutSeconds with
  | Some t =>
      if (t <? 0)%Z || (workerCount <? 0)%Z then None
      else if AVX2 then Some (avx2Parallel, GoInt.i64 (t * second), start_handler)
      else if SSE4 then Some (sse4Parallel, (2 * second)%Z, start_handler) else None
  | None =>
      if (workerCount <? 0)%Z then None
      else if AVX2 then Some (avx2Parallel, (2 * second)%Z, start_handler)
      else if SSE4 then Some (sse4Parallel, (2 * second)%Z, start_handler) else None
  end.

(** ** Actions *)

Inductive action :=
| Call (i : nat)            (* a goroutine calls CalcDeadline *)
| Accept (i : nat)          (* the collector receives its request *)
| Fire                      (* the collector receives a timeout *)
| Push                      (* the collector sends a batch *)
| Take (k : nat)            (* a worker receives a batch and has its deadlines calculated *)
| Answer (k : nat)          (* a worker sends a deadline *)
| StopWorker (k : nat)      (* Stop *)
| StopCollector.            (* Stop, after the workers *)

Definition busy (rest : list nat) : worker := match rest with [] => Idle | _ => Answering rest end.

(** The slots of a batch: its requests, and copies of the first. *)
Lemma slots_filled {R} width (b : @batch R) :
  good_batch width b -> exists r0, r0 ∈ omap id (b_reqs b) /\
    calc_slots b = Some (answered b ++ replicate (avx2Parallel - b_pending b) r0) /\ length (answered b) = Nat.min (b_pending b) (length (b_reqs b)).
Proof.
  intros [Hl _ Hs [r0 H0]]. exists r0. split; [by apply list_elem_of_omap; exists (Some r0); split; [apply list_elem_of_lookup_2 in H0|]|].
  assert (Hm : mapM id (take (b_pending b) (b_reqs b)) = Some (answered b) /\ length (answered b) = Nat.min (b_pending b) (length (b_reqs b))).
  { unfold answered. clear H0 Hl. revert Hs. generalize (b_pending b) as n, (b_reqs b) as l.
    induction n as [|n IH]; intros l Hs; [done|]. destruct l as [|x l]; [done|].
    destruct (Hs 0%nat ltac:(lia)) as [r [= ->]]. destruct (IH l) as [E El]; [intros i Hi; apply (Hs (S i)); lia|].
    cbn. unfold mbind in E. rewrite E. cbn. by rewrite El. }
  unfold calc_slots. rewrite (proj1 Hm). destruct (b_reqs b) as [|y l]; [done|]. injection H0 as ->. cbn [head]. split; [done|apply Hm].
Qed.

Section Handler.
Context (calc : nat -> Z) (width : nat).

(** The calculation writes the deadline of each of its slots; the code for SSE4
    looks at the first four. *)
Definition calculated (slots : list nat) (m : gmap nat Z) : gmap nat Z :=
  foldl (fun m i => <[i := calc i]> m) m (take width slots).

(** The collector is at its select. *)
Definition selecting (s : handler) : bool := collecting s && match outbox s with None => true | Some _ => false end.

Definition exec (a : action) (s : handler) : option handler :=
  match a with
  | Call i =>
      match callers s !! i with
      | None => Some (set_callers (<[i := Calling]> (callers s)) s)
      | Some _ => None
      end
  | Accept i =>
      match callers s !! i with
      | Some Calling =>
          if selecting s then
            match collect width (coll s) (Request i) with
            | Some (c, b) => Some (set_callers (<[i := Waiting]> (callers s)) (set_coll c b s))
            | None => None
            end
          else None
      | _ => None
      end
  | Fire =>
      if selecting s then
        match collect width (coll s) Timeout with
        | Some (c, b) => Some (set_coll c b s)
        | None => None
        end
      else None
  | Push =>
      match outbox s with
      | Some b =>
          if length (batchReqs s) <? length (workers s)
          then Some (set_coll (coll s) None (set_batchReqs (batchReqs s ++ [b]) s))
          else None
      | None => None
      end
  | Take k =>
      match workers s !! k, batchReqs s with
      | Some Idle, b :: bs =>
          match calc_slots b with
          | None => Some (segfault s)
          | Some creqs => Some (set_natives (calculated creqs (natives s)) (set_batchReqs bs (set_worker k (busy (answered b)) s)))
          end
      | _, _ => None
      end
  | Answer k =>
      match workers s !! k with
      | Some (Answering (i :: rest)) =>
          match callers s !! i with
          | Some Waiting =>
              Some (set_callers (<[i := Returned (default 0%Z (natives s !! i))]> (callers s)) (set_worker k (busy rest) s))
          | _ => None
          end
      | _ => None
      end
  | StopWorker k =>
      match workers s !! k with Some Idle => Some (set_worker k Stopped s) | _ => None end
  | StopCollector => if selecting s then Some (stop_collecting s) else None
  end.

(** What the handler does by itself, once it was called. *)
Definition internal (a : action) : bool :=
  match a with Accept _ | Fire | Push | Take _ | Answer _ => true | _ => false end.

Fixpoint execs (l : list action) (s : handler) : option handler :=
  match l with
  | [] => Some s
  | a :: l' => match exec a s with Some s' => execs l' s' | None => None end
  end.

Definition initial (workerCount : nat) : handler := mk_handler ∅ start None [] (replicate workerCount Idle) ∅ true false.

Inductive reachable (workerCount : nat) : handler -> Prop :=
| reach_start : reachable workerCount (initial workerCount)
| reach_step s a s' : reachable workerCount s -> exec a s = Some s' -> reachable workerCount s'.

(** ** The invariant *)

Definition rest_of (x : worker) : list nat := match x with Answering rest => rest | _ => [] end.

(** The requests that were accepted and not answered, where they are. *)
Definition in_flight (s : handler) : list nat :=
  waiting (coll s) ++ match outbox s with Some b => answered b | None => [] end ++
  concat (answered <$> batchReqs s) ++ concat (rest_of <$> workers s).

Record sound (s : handler) : Prop := {
  s_coll : wf_collector width (coll s);
  s_used : used (coll s);
  s_outbox : forall b, outbox s = Some b -> good_batch width b;
  s_batches : Forall (good_batch width) (batchReqs s);
  s_flight : NoDup (in_flight s);
  s_waiting : forall i, callers s !! i = Some Waiting <-> i ∈ in_flight s;
  s_returned : forall i d, callers s !! i = Some (Returned d) -> d = calc i;
  s_nonempty : forall k, workers s !! k <> Some (Answering []);
  s_no_nil : nil_dereferenced s = false;
  s_natives : forall i d, natives s !! i = Some d -> d = calc i;
  s_answering : forall i, i ∈ concat (rest_of <$> workers s) -> is_Some (natives s !! i)
}.

Context (Hwidth : 2 <= width <= avx2Parallel).

Lemma workers_update ws k x y :
  ws !! k = Some x ->
  concat (rest_of <$> <[k := y]> ws) ++ rest_of x ≡ₚ rest_of y ++ concat (rest_of <$> ws).
Proof.
  intros Hk. assert (k < length ws) by (by eapply lookup_lt_Some).
  rewrite insert_take_drop by done. rewrite <- (take_drop_middle ws k x Hk) at 3.
  rewrite !fmap_app, !fmap_cons, !concat_app. cbn [concat].
  generalize (concat (rest_of <$> take k ws)), (concat (rest_of <$> drop (S k) ws)). intros a b.
  solve_Permutation.
Qed.

Lemma rest_of_busy l : rest_of (busy l) = l.
Proof. by destruct l. Qed.

Lemma initial_sound n : sound (initial n).
Proof using Hwidth.
  destruct (start_wf (req := nat) width Hwidth) as [Hwf Hu].
  assert (Hf : in_flight (initial n) = []).
  { unfold in_flight. simpl. induction n as [|n IH]; [done|]. exact IH. }
  split; try done.
  - rewrite Hf. constructor.
  - intros i. rewrite Hf. split; [done|by intros ?%not_elem_of_nil].
  - intros k Hk%list_elem_of_lookup_2. by apply elem_of_replicate in Hk as [? _].
  - intros i Hi. exfalso. assert (He : concat (rest_of <$> workers (initial n)) = []) by exact Hf.
    rewrite He in Hi. by apply not_elem_of_nil in Hi.
Qed.

(** The requests in flight up to order are all that [sound] needs of the
    places they are at. *)
Lemma flight_waiting (m : gmap nat caller) l l' (i : nat) x :
  (forall j, m !! j = Some Waiting <-> j ∈ l) -> NoDup l -> m !! i = Some x ->
  match x with Calling => l' ≡ₚ i :: l | _ => l ≡ₚ i :: l' end ->
  let m' := <[i := match x with Calling => Waiting | _ => Returned (calc i) end]> m in
  (forall j, m' !! j = Some Waiting <-> j ∈ l') /\ NoDup l'.
Proof.
  intros Hw Hnd Hi Hp m'. subst m'. split.
  - intros j. destruct (decide (j = i)) as [->|Hne].
    + rewrite lookup_insert_eq. destruct x; [rewrite Hp|rewrite Hp in Hnd..].
      * split; [intros _; left|done].
      * apply NoDup_cons in Hnd as [Hn _]. by split.
      * apply NoDup_cons in Hnd as [Hn _]. by split.
    + rewrite lookup_insert_ne, Hw by done. destruct x; rewrite Hp, elem_of_cons; naive_solver.
  - destruct x; rewrite Hp in *.
    + constructor; [rewrite <- Hw; congruence|done].
    + by apply NoDup_cons in Hnd as [_ ?].
    + by apply NoDup_cons in Hnd as [_ ?].
Qed.

(** An action that moves requests between the places only. *)
Lemma handler_move s s' :
  sound s -> in_flight s' ≡ₚ in_flight s -> callers s' = callers s ->
  wf_collector width (coll s') -> used (coll s') ->
  (forall b, outbox s' = Some b -> good_batch width b) -> Forall (good_batch width) (batchReqs s') ->
  (forall k, workers s' !! k <> Some (Answering [])) -> nil_dereferenced s' = false ->
  (forall i d, natives s' !! i = Some d -> d = calc i) ->
  (forall i, i ∈ concat (rest_of <$> workers s') -> is_Some (natives s' !! i)) -> sound s'.
Proof.
  intros Hs Hp Hc ???? ?? ??. split; try done.
  - rewrite Hp. apply Hs.
  - intros i. rewrite Hc, Hp. apply Hs.
  - intros i d. rewrite Hc. apply Hs.
Qed.

Lemma busy_nonempty l : busy l <> Answering [].
Proof. by destruct l. Qed.

Lemma nonempty_update (ws : list worker) k x :
  (forall j, ws !! j <> Some (Answering [])) -> x <> Answering [] -> forall j, <[k := x]> ws !! j <> Some (Answering []).
Proof. intros Hw Hx j [(-> & -> & _)|[_ ?]]%list_lookup_insert_Some; [done|by eapply Hw]. Qed.

Lemma returned_update (m : gmap nat caller) i x :
  (forall j d, m !! j = Some (Returned d) -> d = calc j) ->
  match x with Returned d => d = calc i | _ => True end ->
  forall j d, <[i := x]> m !! j = Some (Returned d) -> d = calc j.
Proof. intros Hm Hx j d [(-> & ->)|[_ ?]]%lookup_insert_Some; [done|by apply Hm]. Qed.

Lemma selecting_inv s : selecting s = true -> collecting s = true /\ outbox s = None.
Proof. unfold selecting. destruct (outbox s); [by rewrite andb_false_r|by rewrite andb_true_r]. Qed.

Lemma calculated_values slots m :
  (forall i d, m !! i = Some d -> d = calc i) -> forall i d, calculated slots m !! i = Some d -> d = calc i.
Proof.
  unfold calculated. generalize (take width slots) as l. intros l. revert m.
  induction l as [|j l IH]; intros m Hm; simpl; [done|]. apply IH.
  by intros i d [(-> & ->)|[_ Hi]]%lookup_insert_Some; [|apply Hm].
Qed.

Lemma calculated_mono (l : list nat) (m : gmap nat Z) i :
  is_Some (m !! i) -> is_Some (foldl (fun m i => <[i := calc i]> m) m l !! i).
Proof.
  revert m. induction l as [|j l IH]; intros m Hm; simpl; [done|]. apply IH. rewrite lookup_insert. case_decide; [by eexists|done].
Qed.

Lemma calculated_slots slots m i : i ∈ take width slots -> is_Some (calculated slots m !! i).
Proof.
  unfold calculated. generalize (take width slots) as l. intros l. revert m.
  induction l as [|j l IH]; intros m; [by intros ?%not_elem_of_nil|]. intros [->|Hi]%elem_of_cons; simpl; [|by apply IH].
  apply calculated_mono. rewrite lookup_insert_eq. by eexists.
Qed.

(** The calculation writes the deadlines of all requests of the batch. *)
Lemma batch_calculated b slots m i :
  good_batch width b -> calc_slots b = Some slots -> i ∈ answered b -> is_Some (calculated slots m !! i).
Proof using Hwidth.
  intros Hg Es Hi. destruct (slots_filled width b Hg) as (r0 & _ & Es' & Hl). rewrite Es in Es'. injection Es' as ->.
  apply calculated_slots. pose proof (gb_pending width b Hg).
  rewrite take_app_ge by lia. by apply elem_of_app; left.
Qed.

Lemma handler_step_sound a s s' : sound s -> exec a s = Some s' -> sound s'.
Proof using Hwidth.
  intros Hs. pose proof Hs as [Hwf Hu Ho Hb Hnd Hw Hr Hne Hnil Hnat Hans]. destruct a as [i|i| | |k|k|k| ]; cbn [exec].
  - destruct (callers s !! i) eqn:Ei; [done|]. intros [= <-]. split; try done.
    + intros j. rewrite <- Hw. simpl. destruct (decide (j = i)) as [->|]; [|by rewrite lookup_insert_ne].
      rewrite lookup_insert_eq, Ei. done.
    + by apply returned_update.
  - destruct (callers s !! i) as [[| |]|] eqn:Ei; try done.
    destruct (selecting s) eqn:Esel; [|done]. apply selecting_inv in Esel as [_ Eo].
    destruct (collect_request width Hwidth (coll s) i Hwf Hu) as (c & ob & -> & Hwf' & Hu' & Hob).
    intros [= <-].
    destruct (flight_waiting (callers s) (in_flight s)
      (in_flight (set_callers (<[i := Waiting]> (callers s)) (set_coll c ob s))) i Calling Hw Hnd Ei) as [Hw' Hnd'].
    { unfold in_flight. simpl. rewrite Eo. destruct ob as [b|].
      - destruct Hob as (-> & -> & _). solve_Permutation.
      - rewrite Hob. solve_Permutation. }
    split; try done; simpl.
    + intros b ->. apply Hob.
    + by apply returned_update.
  - destruct (selecting s) eqn:Esel; [|done]. apply selecting_inv in Esel as [_ Eo].
    destruct (collect width (coll s) Timeout) as [[c ob]|] eqn:Ec; [|done]. intros [= <-].
    destruct (collect_timeout width Hwidth _ _ _ Hwf Hu Ec) as (? & ? & Hwt & b & -> & Ha & Hg).
    eapply handler_move; try done; simpl; [|by intros ? [= <-]].
    unfold in_flight. simpl. by rewrite Eo, Hwt, Ha.
  - destruct (outbox s) as [b|] eqn:Eo; [|done]. destruct (_ <? _); [|done]. intros [= <-].
    eapply handler_move; try done; simpl.
    + unfold in_flight. simpl. rewrite Eo, fmap_app, concat_app. cbn [fmap list_fmap concat].
      rewrite app_nil_r. solve_Permutation.
    + apply Forall_app. split; [done|]. constructor; [by apply Ho|done].
  - destruct (workers s !! k) as [[|rest|]|] eqn:Ek; try done.
    destruct (batchReqs s) as [|b bs] eqn:Eb; [done|]. apply Forall_cons in Hb as [Hgb Hb].
    destruct (good_batch_calc width Hwidth b Hgb) as (rs & Ers & _). rewrite Ers. intros [= <-].
    pose proof (workers_update (workers s) k Idle (busy (answered b)) Ek) as Hp. rewrite rest_of_busy in Hp.
    cbn [rest_of] in Hp. rewrite app_nil_r in Hp.
    eapply handler_move; try done; simpl; [|by apply nonempty_update, busy_nonempty|by apply calculated_values|].
    + unfold in_flight. simpl. rewrite Hp, Eb. cbn [fmap list_fmap concat]. solve_Permutation.
    + intros i. rewrite Hp. intros [Hi|Hi]%elem_of_app; [by eapply batch_calculated|].
      apply calculated_mono. by apply Hans.
  - destruct (workers s !! k) as [[|[|i rest]|]|] eqn:Ek; try done.
    destruct (callers s !! i) as [[| |]|] eqn:Ei; try done. intros [= <-].
    pose proof (workers_update (workers s) k _ (busy rest) Ek) as Hp. rewrite rest_of_busy in Hp.
    cbn [rest_of] in Hp.
    assert (Hi : i ∈ concat (rest_of <$> workers s)).
    { rewrite <- (take_drop_middle (workers s) k _ Ek), fmap_app, fmap_cons, concat_app. set_solver. }
    destruct (Hans i Hi) as [d Hd]. rewrite Hd. rewrite (Hnat i d Hd). simpl.
    destruct (flight_waiting (callers s) (in_flight s)
      (in_flight (set_callers (<[i := Returned (calc i)]> (callers s)) (set_worker k (busy rest) s))) i Waiting Hw Hnd Ei)
      as [Hw' Hnd'].
    { unfold in_flight. simpl. generalize dependent (concat (rest_of <$> <[k:=busy rest]> (workers s))). intros l Hp.
      assert (Hp' : concat (rest_of <$> workers s) ≡ₚ i :: l).
      { apply (Permutation_app_inv_l rest). rewrite <- Hp. solve_Permutation. }
      rewrite Hp'. solve_Permutation. }
    split; try done; simpl.
    + by apply returned_update.
    + by apply nonempty_update, busy_nonempty.
    + intros j Hj. apply Hans. assert (Hj' : j ∈ rest ++ concat (rest_of <$> workers s)) by (rewrite <- Hp; set_solver).
      apply elem_of_app in Hj' as [Hj'|]; [|done]. rewrite <- (take_drop_middle (workers s) k _ Ek), fmap_app, fmap_cons, concat_app.
      set_solver.
  - destruct (workers s !! k) as [[|rest|]|] eqn:Ek; try done. intros [= <-].
    pose proof (workers_update (workers s) k Idle Stopped Ek) as Hp. cbn [rest_of] in Hp. rewrite app_nil_r in Hp.
    eapply handler_move; try done; simpl; [|by apply nonempty_update|].
    + unfold in_flight. simpl. by rewrite Hp.
    + intros i. rewrite Hp. apply Hans.
  - destruct (selecting s); [|done]. intros [= <-]. by eapply handler_move.
Qed.

Lemma handler_sound n s : reachable n s -> sound s.
Proof using Hwidth. induction 1; [apply initial_sound|by eapply handler_step_sound]. Qed.
(** ** Termination *)

(** The steps a call still needs at most: its acceptance may start a timer,
    which makes a batch, which is sent and taken. *)
Definition cost (c : caller) : nat := match c with Calling => 7 | Waiting => 1 | Returned _ => 0 end.
Definition total (m : gmap nat caller) : nat := map_fold (fun _ c n => cost c + n) 0 m.

Definition work (s : handler) : nat :=
  total (callers s) + (if armed (coll s) then 3 else 0) + (match outbox s with Some _ => 2 | None => 0 end) + length (batchReqs s).

Lemma total_update m (i : nat) x y : m !! i = Some x -> total (<[i := y]> m) + cost x = total m + cost y.
Proof using.
  clear. intros Hi. unfold total.
  rewrite <- (insert_delete_id m i x Hi) at 2. rewrite <- (insert_delete_eq m i y).
  rewrite !map_fold_insert_L by (try apply lookup_delete_eq; intros; lia). lia.
Qed.

Lemma internal_work a s s' : sound s -> internal a = true -> exec a s = Some s' -> work s' < work s.
Proof using Hwidth.
  intros [Hwf Hu Ho Hb Hnd Hw Hr Hne Hnil Hnat Hans] Ha. destruct a as [i|i| | |k|k|k| ]; try done; cbn [exec]; unfold work.
  - destruct (callers s !! i) as [[| |]|] eqn:Ei; try done.
    destruct (selecting s) eqn:Esel; [|done]. apply selecting_inv in Esel as [_ ->].
    pose proof (total_update _ _ _ Waiting Ei) as Ht. simpl cost in Ht.
    destruct (collect width (coll s) (Request i)) as [[c ob]|] eqn:Ec; [|done].
    intros [= <-]. simpl. destruct (armed c), ob, (armed (coll s)); lia.
  - destruct (selecting s) eqn:Esel; [|done]. apply selecting_inv in Esel as [_ ->].
    simpl. destruct (armed (coll s)) eqn:Earm; [|done]. intros [= <-]. simpl. lia.
  - destruct (outbox s) as [b|] eqn:Eo; [|done]. destruct (_ <? _); [|done]. intros [= <-].
    simpl. rewrite length_app. simpl. lia.
  - destruct (workers s !! k) as [[|rest|]|] eqn:Ek; try done.
    destruct (batchReqs s) as [|b bs] eqn:Eb; [done|]. apply Forall_cons in Hb as [Hgb Hb].
    destruct (good_batch_calc width Hwidth b Hgb) as (rs & -> & _). intros [= <-]. simpl. lia.
  - destruct (workers s !! k) as [[|[|i rest]|]|] eqn:Ek; try done.
    destruct (callers s !! i) as [[| |]|] eqn:Ei; try done. intros [= <-].
    pose proof (total_update _ _ _ (Returned (default 0%Z (natives s !! i))) Ei) as Ht. simpl in *. lia.
Qed.

(** The handler was not stopped. *)
Definition running (s : handler) : Prop := collecting s = true /\ (Stopped ∉ workers s) /\ workers s <> [].

Lemma internal_running a s s' : running s -> internal a = true -> exec a s = Some s' -> running s' /\ (dom (callers s') = dom (callers s)).
Proof using.
  clear. intros (Hc & Hn & Hw) Ha. destruct a as [i|i| | |k|k|k| ]; try done; cbn [exec].
  - destruct (callers s !! i) as [[| |]|] eqn:Ei; try done.
    destruct (selecting s); [|done]. destruct (collect _ _ _) as [[c ob]|]; [|done]. intros [= <-].
    split; [done|]. simpl. apply dom_insert_lookup_L. by eexists.
  - destruct (selecting s); [|done]. destruct (collect _ _ _) as [[c ob]|]; [|done]. by intros [= <-].
  - destruct (outbox s); [|done]. destruct (_ <? _); [|done]. by intros [= <-].
  - destruct (workers s !! k) as [[|rest|]|] eqn:Ek; try done.
    destruct (batchReqs s) as [|b bs]; [done|]. destruct (calc_slots b); intros [= <-]; [|done].
    split; [|done]. split; [done|]. simpl. split.
    + intros (j & Hj)%list_elem_of_lookup_1. apply list_lookup_insert_Some in Hj as [(_ & E & _)|[_ Hj]].
      * by destruct (answered b).
      * apply Hn. by eapply list_elem_of_lookup_2.
    + intros E%(f_equal length). rewrite length_insert in E. by destruct (workers s).
  - destruct (workers s !! k) as [[|[|i rest]|]|] eqn:Ek; try done.
    destruct (callers s !! i) as [[| |]|] eqn:Ei; try done. intros [= <-]. simpl. split; [split; [done|split]|].
    + simpl. intros (j & Hj)%list_elem_of_lookup_1. apply list_lookup_insert_Some in Hj as [(_ & E & _)|[_ Hj]].
      * by destruct rest.
      * apply Hn. by eapply list_elem_of_lookup_2.
    + simpl. intros E%(f_equal length). rewrite length_insert in E. by destruct (workers s).
    + apply dom_insert_lookup_L. by eexists.
Qed.

(** While a call is not over, something can happen. *)
Lemma internal_enabled s i c :
  sound s -> running s -> callers s !! i = Some c -> (forall d, c <> Returned d) ->
  exists a s', internal a = true /\ exec a s = Some s'.
Proof using Hwidth.
  intros [Hwf Hu Ho Hb Hnd Hw Hr Hne Hnil Hnat Hans] (Hcol & Hstop & Hws) Hi Hc.
  destruct (decide (Exists (fun x => rest_of x <> []) (workers s))) as [Hbusy|Hidle].
  { apply Exists_exists in Hbusy as (x & Hx & Hrest). destruct x as [|[|j rest]|]; try done.
    apply list_elem_of_lookup_1 in Hx as [k Hk].
    assert (Hj : callers s !! j = Some Waiting).
    { apply Hw. unfold in_flight. rewrite !elem_of_app. right. right. right.
      rewrite <- (take_drop_middle (workers s) k _ Hk), fmap_app, fmap_cons, concat_app. set_solver. }
    eexists (Answer k), _. split; [done|]. simpl. by rewrite Hk, Hj. }
  assert (H0 : workers s !! 0 = Some Idle /\ concat (rest_of <$> workers s) = []).
  { apply not_Exists_Forall in Hidle; [|intros ?; apply _]. clear -Hidle Hstop Hws Hne.
    split.
    - destruct (workers s) as [|x ws]; [done|]. apply Forall_cons in Hidle as [Hx _].
      destruct x as [|[|j rest]|]; [done|by destruct (Hne 0)|by destruct Hx|by destruct Hstop; left].
    - clear Hstop Hws Hne. induction Hidle as [|x ws Hx _ IH]; [done|].
      cbn [fmap list_fmap concat]. rewrite IH, app_nil_r. destruct (rest_of x) eqn:Er; [done|]. exfalso. apply Hx. by rewrite Er. }
  destruct H0 as [H0 Hrest].
  destruct (batchReqs s) as [|b bs] eqn:Eb.
  2:{ apply Forall_cons in Hb as [Hgb _]. destruct (good_batch_calc width Hwidth b Hgb) as (rs & Ers & _).
      eexists (Take 0), _. split; [done|]. cbn [exec]. by rewrite H0, Eb, Ers. }
  destruct (outbox s) as [b|] eqn:Eo.
  { eexists Push, _. split; [done|]. cbn [exec]. rewrite Eo, Eb.
    destruct (workers s); [done|]. reflexivity. }
  assert (Hsel : selecting s = true) by (unfold selecting; by rewrite Hcol, Eo).
  destruct c as [| |d]; [| |by destruct (Hc d)].
  - destruct (collect_request width Hwidth (coll s) i Hwf Hu) as (c' & ob & Ec & _).
    eexists (Accept i), _. split; [done|]. cbn [exec]. by rewrite Hi, Hsel, Ec.
  - apply Hw in Hi. unfold in_flight in Hi. rewrite Eo, Eb, Hrest in Hi. cbn [fmap list_fmap concat] in Hi.
    rewrite !app_nil_r in Hi.
    assert (Ha : armed (coll s) = true).
    { destruct Hwf as [_ _ _ Ha]. apply Ha. destruct (pending (coll s)) eqn:E; [|lia].
      unfold waiting in Hi. rewrite E in Hi. by apply not_elem_of_nil in Hi. }
    eexists Fire, _. split; [done|]. cbn [exec collect]. by rewrite Hsel, Ha.
Qed.

Definition all_answered (s : handler) : Prop := forall i c, callers s !! i = Some c -> c = Returned (calc i).

Lemma quiet_answered s :
  sound s -> running s -> (forall a, internal a = true -> exec a s = None) -> all_answered s.
Proof using Hwidth.
  intros Hs Hr Hq i c Hi. destruct c as [| |d].
  3:{ f_equal. by apply (s_returned s Hs). }
  all: destruct (internal_enabled s i _ Hs Hr Hi) as (a & s' & Ha & E); [done|]; by rewrite (Hq a Ha) in E.
Qed.

Lemma execs_internal l s s' :
  sound s -> running s -> Forall (fun a => internal a = true) l -> execs l s = Some s' ->
  sound s' /\ running s' /\ dom (callers s') = dom (callers s) /\ length l + work s' <= work s.
Proof using Hwidth.
  revert s. induction l as [|a l IH]; intros s Hs Hr Hl; cbn [execs].
  { intros [= <-]. simpl. auto with lia. }
  apply Forall_cons in Hl as [Ha Hl]. destruct (exec a s) as [s1|] eqn:E; [|done]. intros Hex.
  destruct (internal_running a s s1 Hr Ha E) as [Hr1 Hd1]. pose proof (internal_work a s s1 Hs Ha E).
  destruct (IH s1 (handler_step_sound a s s1 Hs E) Hr1 Hl Hex) as (? & ? & ? & ?).
  split_and!; [done|done|congruence|simpl; lia].
Qed.

Lemma answers_exist s :
  sound s -> running s ->
  exists l s', Forall (fun a => internal a = true) l /\ execs l s = Some s' /\ all_answered s'.
Proof using Hwidth.
  remember (work s) as w eqn:Ew. revert s Ew. induction w as [w IH] using lt_wf_ind. intros s -> Hs Hr.
  destruct (decide (map_Forall (fun i c => c = Returned (calc i)) (callers s))) as [Hall|Hsome].
  { exists [], s. split_and!; [done|done|exact Hall]. }
  apply map_not_Forall in Hsome as (i & c & Hi & Hc); [|apply _].
  destruct (internal_enabled s i c Hs Hr Hi) as (a & s1 & Ha & E).
  { intros d ->. by rewrite (s_returned s Hs i d Hi) in Hc. }
  destruct (IH (work s1) (internal_work a s s1 Hs Ha E) s1 eq_refl (handler_step_sound a s s1 Hs E)
    (proj1 (internal_running a s s1 Hr Ha E))) as (l & s' & Hl & Hex & Hall).
  exists (a :: l), s'. split_and!; [by constructor| |done]. simpl. by rewrite E.
Qed.
End Handler.

Lemma widths width : width = avx2Parallel \/ width = sse4Parallel -> 2 <= width <= avx2Parallel.
Proof. unfold avx2Parallel, sse4Parallel. lia. Qed.

(** C19: in every state of the handler, whatever the order in which callers,
    collector, timer and workers act and also when it is being stopped, no
    batch makes a worker dereference a missing request; a call that returned
    has the deadline of its own request; and a request that was accepted and
    not answered is at exactly one place: waiting with the collector, in the
    batch that is being sent, in the channel or with a worker. *)
Theorem deadlines_of_their_requests (calc : nat -> Z) (width n : nat) (s : handler) :
  width = avx2Parallel \/ width = sse4Parallel -> reachable calc width n s ->
  nil_dereferenced s = false /\
  (forall i d, callers s !! i = Some (Returned d) -> d = calc i) /\
  NoDup (in_flight s) /\
  (forall i, callers s !! i = Some Waiting <-> i ∈ in_flight s).
Proof. intros Hw%widths Hr. by destruct (handler_sound calc width Hw n s Hr). Qed.

Definition example_actions : list action :=
  [Call 1; Accept 1; Call 2; Accept 2; Fire; Call 3; Push; Accept 3; Take 0; Answer 0].

Lemma handler_runs calc width n l s s' :
  reachable calc width n s -> execs calc width l s = Some s' -> reachable calc width n s'.
Proof.
  revert s. induction l as [|a l IH]; intros s Hr; cbn [execs]; [by intros [= <-]|].
  destruct (exec calc width a s) as [s1|] eqn:E; [|done]. apply IH. by eapply reach_step.
Qed.

Lemma deadlines_of_their_requests_witness :
  match execs Z.of_nat sse4Parallel example_actions (initial 2) with
  | Some s => in_flight s = [3; 2] /\ NoDup [3; 2]
  | None => False
  end.
Proof.
  destruct (execs Z.of_nat sse4Parallel example_actions (initial 2)) as [s|] eqn:E; [|vm_compute in E; discriminate E].
  pose proof (deadlines_of_their_requests Z.of_nat sse4Parallel 2 s (or_intror eq_refl)
    (handler_runs _ _ _ _ _ _ (reach_start _ _ _) E)) as (_ & _ & Hnd & _).
  assert (Hf : in_flight s = [3; 2]) by (vm_compute in E; injection E as <-; reflexivity).
  rewrite Hf in Hnd. split; [exact Hf|exact Hnd].
Defined.

(** C20: as long as the handler with at least one worker is not stopped, no
    call of [CalcDeadline] is lost: left to themselves, its goroutines and
    its timer make only a bounded number of steps, [work], and where none of
    them can make another step every call has returned its deadline; such a
    state can be reached from every state. *)
Theorem every_deadline_is_answered (calc : nat -> Z) (width n : nat) (s : handler) :
  width = avx2Parallel \/ width = sse4Parallel -> reachable calc width n s -> running s ->
  (forall l s', Forall (fun a => internal a = true) l -> execs calc width l s = Some s' ->
     length l <= work s /\ dom (callers s') = dom (callers s) /\
     ((forall a, internal a = true -> exec calc width a s' = None) -> all_answered calc s')) /\
  exists l s', Forall (fun a => internal a = true) l /\ execs calc width l s = Some s' /\ all_answered calc s'.
Proof.
  intros Hw%widths Hr Hrun. pose proof (handler_sound calc width Hw n s Hr) as Hs. split.
  - intros l s' Hl Hex. destruct (execs_internal calc width Hw l s s' Hs Hrun Hl Hex) as (Hs' & Hr' & Hd & Hlen).
    split_and!; [lia|done|]. by apply (quiet_answered calc width Hw).
  - by apply answers_exist.
Qed.

Lemma every_deadline_is_answered_witness :
  match execs Z.of_nat sse4Parallel example_actions (initial 2) with
  | Some s => exists l s', execs Z.of_nat sse4Parallel l s = Some s' /\ all_answered Z.of_nat s' /\ work s = 5
  | None => False
  end.
Proof.
  destruct (execs Z.of_nat sse4Parallel example_actions (initial 2)) as [s|] eqn:E; [|vm_compute in E; discriminate E].
  destruct (every_deadline_is_answered Z.of_nat sse4Parallel 2 s (or_intror eq_refl)
    (handler_runs _ _ _ _ _ _ (reach_start _ _ _) E)) as (_ & l & s' & _ & Hex & Hall).
  { vm_compute in E. injection E as <-. split_and!; [reflexivity| |discriminate].
    intros H. repeat (apply elem_of_cons in H as [H|H]; [discriminate H|]). by apply not_elem_of_nil in H. }
  exists l, s'. split_and!; [exact Hex|exact Hall|]. vm_compute in E. injection E as <-. vm_compute. reflexivity.
Defined.

(** What [Stop] does to the calls in between: the workers are stopped while
    requests may still wait, and these calls never return. *)
Lemma stop_strands_callers :
  match execs Z.of_nat avx2Parallel [Call 1; Accept 1; StopWorker 0; Fire; Push; StopCollector] (initial 1) with
  | Some s => callers s !! 1 = Some Waiting /\ forall a, internal a = true -> exec Z.of_nat avx2Parallel a s = None
  | None => False
  end.
Proof.
  match goal with |- match ?t with _ => _ end => destruct t as [s|] eqn:E; vm_compute in E; [injection E as <-|discriminate E] end.
  split; [reflexivity|]. intros [i|i| | |[|k]|[|k]|[|k]| ] Ha; try done; try reflexivity.
  cbn [exec]. by destruct (callers _ !! i) as [[]|].
Qed.
