(* ===== verification/Plot.v ===== *)
(** * Scoops and deadlines ([pkg/burstmath/libs/burstmath.c], and the calls of
    [pkg/burstmath/burstmath.go])

    [calculate_scoop], [calculate_deadline] and its versions for four and for
    eight requests.  What the code does not initialise is an argument: the
    memory of [gendata] and of the contexts of the hash.  [None] is undefined
    behaviour of C, a read outside of an array or a division by zero.  The
    two vector versions have one text up to the names of the hash functions;
    [calculate_deadlines] is that text. *)

From stdpp Require Import vector.
From S2P Require Import Prelude Shabal MShabal ShabalHash Burstmath.
Open Scope list_scope.
Open Scope Z_scope.

Definition SCOOP_SIZE : Z := 64.
Definition NUM_SCOOPS : Z := 4096.
Definition NONCE_SIZE : Z := NUM_SCOOPS * SCOOP_SIZE.
Definition HASH_SIZE : Z := 32.
Definition HASH_CAP : Z := 4096.

(** [len] bytes at the offset [off] of an array. *)
Definition read (mem : list Z) (off len : Z) : option (list Z) :=
  if (0 <=? off) && (off + len <=? Z.of_nat (length mem)) then Some (take (Z.to_nat len) (drop (Z.to_nat off) mem)) else None.

(** An array of [uint64_t] in memory, most significant byte first: [htobe64],
    and the bytes [xv[7]], ..., [xv[0]] of [SET_NONCE]. *)
Definition be_bytes (v : Z) : list Z := rev (le_bytes 8 v).

(** ** Scoop *)

Definition calculate_scoop (sc : context) (height : Z) (gensig : list Z) : option Z :=
  gensig ← read gensig 0 32;
  let sc := shabal_init sc 256 in
  let sc := shabal sc gensig in
  let sc := shabal sc (be_bytes height) in
  let new_gensig := shabal_close sc 0 0 in
  Some (Z.lor (Z.shiftl (Z.land (nth 30 new_gensig 0) 0x0F) 8) (nth 31 new_gensig 0)).

(** [&genSig[0]] *)
Definition CalcScoop (sc : context) (height : Z) (genSig : list Z) : option Z :=
  match genSig with [] => None | _ => calculate_scoop sc height genSig end.

(** ** Deadline of a request *)

Definition SET_NONCE (gendata : list Z) (nonce offset : Z) : list Z :=
  store (Z.to_nat (NONCE_SIZE + offset)) (be_bytes nonce) gendata.

(** The bytes hashed when [i] bytes are left to fill. *)
Definition hash_len (i : Z) : Z :=
  let len := NONCE_SIZE + 16 - i in if HASH_CAP <? len then HASH_CAP else len.

Definition xor_final (final gendata : list Z) : list Z :=
  imap (fun i b => if Z.of_nat i <? NONCE_SIZE then Z.lxor b (nth (i mod 32) final 0) else b) gendata.

(** The first half of a scoop and the second half of its mirror image; the
    offsets are computed in [uint32_t]. *)
Definition scoop_of (gendata : list Z) (scoop_nr : Z) : option (list Z) :=
  low ← read gendata ((scoop_nr * SCOOP_SIZE) mod 2 ^ 32) 32;
  high ← read gendata (((4095 - scoop_nr) mod 2 ^ 32 * SCOOP_SIZE) mod 2 ^ 32 + 32) 32;
  Some (low ++ high).

Definition quotient (finals2 : list Z) (base_target : Z) : option Z :=
  if base_target =? 0 then None else Some (le 8 finals2 / base_target).

Section Scalar.
(** The memory of the context when the hash is initialised for the [k]th time
    before the last, and of the context of the deadline. *)
Context (x : nat -> context) (deadline_sc : context).

(** [i] is [HASH_SIZE * k]. *)
Fixpoint hashes (k : nat) (gendata : list Z) : list Z :=
  match k with
  | O => gendata
  | S k' =>
      let i := HASH_SIZE * Z.of_nat k in
      let sc := shabal_init (x k) 256 in
      let sc := shabal sc (take (Z.to_nat (hash_len i)) (drop (Z.to_nat i) gendata)) in
      hashes k' (store (Z.to_nat (i - HASH_SIZE)) (shabal_close sc 0 0) gendata)
  end.

Definition calculate_deadline (gendata : list Z) (req : Native.t) : option Z :=
  let gendata := SET_NONCE gendata (Native.account_id req) 0 in
  let gendata := SET_NONCE gendata (Native.nonce req) 8 in
  let gendata := hashes (Z.to_nat (NONCE_SIZE / HASH_SIZE)) gendata in
  let sc := shabal (shabal_init (x 0) 256) (take (Z.to_nat (16 + NONCE_SIZE)) gendata) in
  let gendata := xor_final (shabal_close sc 0 0) gendata in
  gen_sig ← read (Native.gen_sig req) 0 HASH_SIZE;
  let sc := shabal (shabal_init deadline_sc 256) gen_sig in
  scoop ← scoop_of gendata (Native.scoop_nr req);
  quotient (shabal_close (shabal sc scoop) 0 0) (Native.base_target req).

End Scalar.

(** ** Deadlines of several requests *)

(** One computation for every lane; undefined if one of them is. *)
Fixpoint all_some {X} {n : nat} (v : vec (option X) n) : option (vec X n) :=
  match v with
  | [#] => Some [#]
  | x ::: v => x ← x; v ← all_some v; Some (x ::: v)
  end.

Section Lanes.
(** [init], an update for every piece, [close] *)
Context {n : nat} (hash : list (piece n) -> vec (list Z) n).

Fixpoint vhashes (k : nat) (gendata : vec (list Z) n) : vec (list Z) n :=
  match k with
  | O => gendata
  | S k' =>
      let i := HASH_SIZE * Z.of_nat k in
      let h := hash [(vmap (drop (Z.to_nat i)) gendata, Z.to_nat (hash_len i))] in
      vhashes k' (vzip_with (store (Z.to_nat (i - HASH_SIZE))) h gendata)
  end.

Definition calculate_deadlines (gendata : vec (list Z) n) (reqs : vec Native.t n) : option (vec Z n) :=
  let gendata := vzip_with (fun g req => SET_NONCE g (Native.account_id req) 0) gendata reqs in
  let gendata := vzip_with (fun g req => SET_NONCE g (Native.nonce req) 8) gendata reqs in
  let gendata := vhashes (Z.to_nat (NONCE_SIZE / HASH_SIZE)) gendata in
  let finals := hash [(gendata, Z.to_nat (16 + NONCE_SIZE))] in
  let gendata := vzip_with xor_final finals gendata in
  gen_sigs ← all_some (vmap (fun req => read (Native.gen_sig req) 0 HASH_SIZE) reqs);
  scoops ← all_some (vzip_with (fun g req => scoop_of g (Native.scoop_nr req)) gendata reqs);
  let finals2 := hash [(gen_sigs, Z.to_nat HASH_SIZE); (scoops, Z.to_nat SCOOP_SIZE)] in
  all_some (vzip_with quotient finals2 (vmap Native.base_target reqs)).

End Lanes.

Definition calculate_deadlines_sse4 : vec (list Z) 4 -> vec Native.t 4 -> option (vec Z 4) := calculate_deadlines sse4_hash.
Definition calculate_deadlines_avx2 : vec (list Z) 8 -> vec Native.t 8 -> option (vec Z 8) := calculate_deadlines avx2_hash.

(** ** The worker *)

(** The first [n] of an array of requests. *)
Fixpoint array (n : nat) (l : list Native.t) : option (vec Native.t n) :=
  match n, l with
  | O, _ => Some [#]
  | S n, r :: l => v ← array n l; Some (r ::: v)
  | S _, [] => None
  end.

Definition CalculateDeadlinesSSE4 (gendata : vec (list Z) 4) (reqs : list Native.t) : option (list Z) :=
  reqs ← array 4 reqs; vec_to_list <$> calculate_deadlines_sse4 gendata reqs.
Definition CalculateDeadlinesAVX2 (gendata : vec (list Z) 8) (reqs : list Native.t) : option (list Z) :=
  reqs ← array 8 reqs; vec_to_list <$> calculate_deadlines_avx2 gendata reqs.

(** The deadlines a worker sends for a batch, in the order of its requests;
    [None] also when it would send one that was not calculated. *)
Definition processReqs (gendata4 : vec (list Z) 4) (gendata8 : vec (list Z) 8) (avx2 : bool) (b : @batch Native.t) : option (list Z) :=
  creqs ← calc_slots b;
  deadlines ← (if avx2 then CalculateDeadlinesAVX2 gendata8 creqs else CalculateDeadlinesSSE4 gendata4 creqs);
  if (b_pending b <=? length deadlines)%nat then Some (take (b_pending b) deadlines) else None.
