(* ===== verification/PlotTheorems.v ===== *)
(** * One deadline, whatever computes it

    The reference of a deadline is [deadline_of], in terms of the hash of
    messages ([Shabal256]); [calculate_deadline] computes it whatever the
    memory holds, and so do the vector versions for each of their requests.
    Scoops are in range, so that nothing is read outside of the arrays. *)

From stdpp Require Import vector.
From S2P Require Import Prelude GoStrings Shabal MShabal ShabalLanes ShabalHash Burstmath Deadlines Plot.
Open Scope list_scope.
Open Scope Z_scope.

(** ** Hashes *)

Lemma le_bytes_ok k x : length (le_bytes k x) = k /\ Forall is_byte (le_bytes k x).
Proof.
  revert x. induction k as [|k IH]; intros x; cbn [le_bytes length]; [split; [done|by apply Forall_nil]|].
  destruct (IH (x / 256)) as [Hl Hb]. split; [by rewrite Hl|]. apply Forall_cons_2; [apply Z.mod_pos_bound; lia|exact Hb].
Qed.

Lemma be_bytes_ok v : length (be_bytes v) = 8%nat /\ Forall is_byte (be_bytes v).
Proof. unfold be_bytes. destruct (le_bytes_ok 8 v) as [Hl Hb]. split; [by rewrite length_rev|by apply Forall_rev]. Qed.

Lemma concat_words l : length (concat (le_bytes 4 <$> l)) = (4 * length l)%nat /\ Forall is_byte (concat (le_bytes 4 <$> l)).
Proof.
  induction l as [|x l [Hl Hb]]; [split; [done|by apply Forall_nil]|]. cbn [fmap list_fmap concat].
  destruct (le_bytes_ok 4 x) as [Hx Hbx]. split; [rewrite length_app, Hx, Hl; cbn [length]; lia|by apply Forall_app_2].
Qed.

Lemma rounds_good ws s k : block_words ws -> good s -> good (Nat.iter k (fun s => dec_W (inner ws s)) s).
Proof. intros Hw Hg. induction k as [|k IH]; [exact Hg|]. cbn [Nat.iter]. by apply dec_W_good, inner_good. Qed.

Lemma pad_bytes t : Forall is_byte t -> Forall is_byte (pad t).
Proof.
  intros Ht. unfold pad. apply Forall_app_2; [exact Ht|]. apply Forall_cons_2; [unfold is_byte; lia|].
  apply Forall_replicate. unfold is_byte. lia.
Qed.

Lemma spec_ok msg : Forall is_byte msg -> length (spec msg) = 32%nat /\ Forall is_byte (spec msg).
Proof.
  intros Hm. unfold spec, hash_of, output. destruct (Forall_absorb ([], iv256) msg (Forall_nil_2 _) Hm iv256_good) as [Hb Hg].
  set (s := Nat.iter 4 _ _). assert (Hs : good s) by (by apply rounds_good; [apply words_ok, pad_bytes|]).
  change (16 - Z.to_nat (Z.shiftr 256 5))%nat with 8%nat.
  destruct (concat_words (drop 8 (C s))) as [Hl Hf]. split; [|exact Hf]. rewrite Hl, length_drop, (g_C _ Hs). done.
Qed.

(** The memory of a context holds a block of bytes. *)
Definition block_memory (sc : context) : Prop := length (buf sc) = 64%nat /\ Forall is_byte (buf sc).

Lemma stack_memory : block_memory stack.
Proof. split; [done|]. apply (Forall_replicate is_byte). unfold is_byte. lia. Qed.

Lemma hash_one sc m : block_memory sc -> Forall is_byte m -> shabal_close (shabal (shabal_init sc 256) m) 0 0 = spec m.
Proof.
  intros [Hl Hb] Hm. pose proof (pieces_hash sc [m] Hl Hb) as Hp. cbn [concat] in Hp. rewrite app_nil_r in Hp.
  apply Hp. apply Forall_cons_2; [exact Hm|by apply Forall_nil].
Qed.

Lemma hash_two sc a b :
  block_memory sc -> Forall is_byte a -> Forall is_byte b -> shabal_close (shabal (shabal (shabal_init sc 256) a) b) 0 0 = spec (a ++ b).
Proof.
  intros [Hl Hb] Ha Hb'. pose proof (pieces_hash sc [a; b] Hl Hb) as Hp. cbn [concat] in Hp. rewrite app_nil_r in Hp.
  apply Hp. repeat apply Forall_cons_2; [exact Ha|exact Hb'|by apply Forall_nil].
Qed.

Lemma Shabal256_spec m : Forall is_byte m -> Shabal256 m = spec m.
Proof. intros Hm. unfold Shabal256. exact (hash_one stack m stack_memory Hm). Qed.

Lemma Shabal256_ok m : Forall is_byte m -> length (Shabal256 m) = 32%nat /\ Forall is_byte (Shabal256 m).
Proof. intros Hm. rewrite Shabal256_spec by done. by apply spec_ok. Qed.

(** ** The reference *)

(** The last [16 + 32 * k] bytes of a nonce, before its last hash. *)
Fixpoint chain (seed : list Z) (k : nat) : list Z :=
  match k with
  | O => seed
  | S k => let t := chain seed k in Shabal256 (take (Z.to_nat HASH_CAP) t) ++ t
  end.

Definition hash_count : nat := Z.to_nat (NONCE_SIZE / HASH_SIZE).

Definition nonce_of (account_id nonce : Z) : list Z :=
  let p := chain (be_bytes account_id ++ be_bytes nonce) hash_count in xor_final (Shabal256 p) p.

Definition deadline_of (req : Native.t) : option Z :=
  gen_sig ← read (Native.gen_sig req) 0 HASH_SIZE;
  scoop ← scoop_of (nonce_of (Native.account_id req) (Native.nonce req)) (Native.scoop_nr req);
  quotient (Shabal256 (gen_sig ++ scoop)) (Native.base_target req).

Lemma deadline_hash sc a b :
  block_memory sc -> Forall is_byte a -> Forall is_byte b ->
  shabal_close (shabal (shabal (shabal_init sc 256) a) b) 0 0 = Shabal256 (a ++ b).
Proof. intros Hs Ha Hb. rewrite hash_two by assumption. symmetry. apply Shabal256_spec. by apply Forall_app_2. Qed.

Lemma chain_S seed k : chain seed (S k) = Shabal256 (take (Z.to_nat HASH_CAP) (chain seed k)) ++ chain seed k.
Proof. reflexivity. Qed.

Lemma chain_ok seed k :
  length seed = 16%nat -> Forall is_byte seed -> length (chain seed k) = (16 + 32 * k)%nat /\ Forall is_byte (chain seed k).
Proof.
  intros Hl Hb. induction k as [|k [IHl IHb]]; cbn [chain]; [done|].
  destruct (Shabal256_ok (take (Z.to_nat HASH_CAP) (chain seed k)) (Forall_take _ _ _ IHb)) as [Hhl Hhb].
  split; [rewrite length_app, Hhl, IHl; lia|by apply Forall_app_2].
Qed.

(** ** The loop *)

Lemma NONCE_SIZE_is : NONCE_SIZE = 262144. Proof. done. Qed.
Lemma hash_count_is : Z.of_nat hash_count = 8192. Proof. unfold hash_count. rewrite Z2Nat.id; done. Qed.

(** What the array holds when [32 * k] bytes are left to fill. *)
Record filled (seed : list Z) (k : nat) (g : list Z) : Prop := {
  f_length : Z.of_nat (length g) = NONCE_SIZE + 16;
  f_count : (k <= hash_count)%nat;
  f_bytes : Forall is_byte g;
  f_chain : drop (32 * k) g = chain seed (hash_count - k)
}.

Lemma drop_store k src mem : (k + length src <= length mem)%nat -> drop k (store k src mem) = src ++ drop (k + length src) mem.
Proof. intros Hk. unfold store. rewrite drop_app_ge; rewrite length_take, Nat.min_l by lia; [|lia]. by rewrite Nat.sub_diag. Qed.

Lemma filled_step seed k g h :
  length seed = 16%nat -> Forall is_byte seed -> filled seed (S k) g ->
  h = spec (take (Z.to_nat (hash_len (HASH_SIZE * Z.of_nat (S k)))) (drop (Z.to_nat (HASH_SIZE * Z.of_nat (S k))) g)) ->
  filled seed k (store (Z.to_nat (HASH_SIZE * Z.of_nat (S k) - HASH_SIZE)) h g).
Proof.
  intros Hs Hsb [Hl Hc Hb Hd] Eh. pose proof hash_count_is as Hn. pose proof NONCE_SIZE_is as HN. unfold HASH_SIZE in *.
  replace (Z.to_nat (32 * Z.of_nat (S k))) with (32 * S k)%nat in Eh by lia.
  replace (Z.to_nat (32 * Z.of_nat (S k) - 32)) with (32 * k)%nat by lia. rewrite Hd in Eh.
  destruct (chain_ok seed (hash_count - S k) Hs Hsb) as [Hcl Hcb].
  assert (Et : take (Z.to_nat (hash_len (32 * Z.of_nat (S k)))) (chain seed (hash_count - S k))
               = take (Z.to_nat HASH_CAP) (chain seed (hash_count - S k))).
  { unfold hash_len. cbv zeta. destruct (Z.ltb_spec HASH_CAP (NONCE_SIZE + 16 - 32 * Z.of_nat (S k))) as [_|Hle]; [done|].
    rewrite !take_ge by lia. done. }
  rewrite Et in Eh.
  destruct (spec_ok (take (Z.to_nat HASH_CAP) (chain seed (hash_count - S k))) (Forall_take _ _ _ Hcb)) as [Hhl Hhb].
  rewrite <- Eh in Hhl, Hhb. split.
  - rewrite length_store by lia. done.
  - lia.
  - by apply Forall_store.
  - rewrite drop_store by lia. rewrite Hhl. replace (32 * k + 32)%nat with (32 * S k)%nat by lia. rewrite Hd.
    replace (hash_count - k)%nat with (S (hash_count - S k)) by lia. rewrite chain_S.
    rewrite Shabal256_spec by (by apply Forall_take). by rewrite Eh.
Qed.

Lemma filled_start account nonce g :
  Z.of_nat (length g) = NONCE_SIZE + 16 -> Forall is_byte g ->
  filled (be_bytes account ++ be_bytes nonce) hash_count (SET_NONCE (SET_NONCE g account 0) nonce 8).
Proof.
  intros Hl Hb. pose proof hash_count_is as Hn. pose proof NONCE_SIZE_is as HN. unfold SET_NONCE.
  destruct (be_bytes_ok account) as [Ha Hab], (be_bytes_ok nonce) as [Ho Hob].
  set (g1 := store (Z.to_nat (NONCE_SIZE + 0)) _ _).
  assert (Hl1 : length g1 = length g) by (apply length_store; lia).
  split.
  - rewrite length_store by lia. by rewrite Hl1.
  - done.
  - by repeat apply Forall_store.
  - rewrite Nat.sub_diag. cbn [chain]. replace (32 * hash_count)%nat with (Z.to_nat NONCE_SIZE) by lia.
    set (p := Z.to_nat (NONCE_SIZE + 8)). assert (Ep : p = (Z.to_nat NONCE_SIZE + 8)%nat) by lia.
    unfold store at 1. rewrite (drop_ge g1) by lia. rewrite app_nil_r, drop_app_le by (rewrite length_take; lia). f_equal.
    replace p with (Z.to_nat (NONCE_SIZE + 0) + length (be_bytes account))%nat by lia.
    unfold g1. rewrite take_store by lia. replace (Z.to_nat (NONCE_SIZE + 0)) with (Z.to_nat NONCE_SIZE) by lia.
    rewrite drop_app_ge by (rewrite length_take; lia). rewrite length_take, Nat.min_l, Nat.sub_diag by lia. done.
Qed.

Lemma filled_end seed g : filled seed 0 g -> g = chain seed hash_count.
Proof. intros [_ _ _ Hd]. rewrite Nat.sub_0_r, Nat.mul_0_r, drop_0 in Hd. done. Qed.

(** ** One request *)

Lemma hashes_filled x seed k g :
  (forall k, block_memory (x k)) -> length seed = 16%nat -> Forall is_byte seed ->
  filled seed k g -> filled seed 0 (hashes x k g).
Proof.
  intros Hx Hs Hsb. revert g. induction k as [|k IH]; intros g Hf; [done|]. cbn [hashes]. cbv zeta. apply IH.
  apply filled_step; [done..|]. apply hash_one; [apply Hx|]. apply Forall_take, Forall_drop, (f_bytes _ _ _ Hf).
Qed.

Lemma read_bytes mem off len b : Forall is_byte mem -> read mem off len = Some b -> Forall is_byte b.
Proof. intros Hm. unfold read. destruct (_ && _); [|done]. intros [= <-]. by apply Forall_take, Forall_drop. Qed.

Lemma is_byte_lxor x y : is_byte x -> is_byte y -> is_byte (Z.lxor x y).
Proof.
  intros [Hx Hx'] [Hy Hy']. split; [apply Z.lxor_nonneg; lia|].
  destruct (Z.eq_dec (Z.lxor x y) 0) as [->|Hne]; [lia|]. change 256 with (2 ^ 8). 
  assert (0 < Z.lxor x y) by (pose proof (proj2 (Z.lxor_nonneg x y) ltac:(lia)); lia).
  apply Z.log2_lt_pow2; [done|]. eapply Z.le_lt_trans; [apply Z.log2_lxor; lia|].
  apply Z.max_lub_lt; (destruct (Z.eq_dec x 0); destruct (Z.eq_dec y 0); subst; try (simpl; lia); apply Z.log2_lt_pow2; lia).
Qed.

Lemma nth_byte k l : Forall is_byte l -> is_byte (nth k l 0).
Proof. intros Hl. destruct (nth_in_or_default k l 0) as [Hi| ->]; [|unfold is_byte; lia]. rewrite List.Forall_forall in Hl. by apply Hl. Qed.

Lemma xor_final_ok f g : Forall is_byte f -> Forall is_byte g -> length (xor_final f g) = length g /\ Forall is_byte (xor_final f g).
Proof.
  intros Hf Hg. unfold xor_final. split; [by rewrite length_imap|]. apply Forall_lookup. intros i b Hi.
  rewrite list_lookup_imap in Hi. apply fmap_Some in Hi as (c & Hc & ->). rewrite Forall_lookup in Hg. specialize (Hg i c Hc).
  destruct (_ <? _); [|done]. apply is_byte_lxor; [done|]. by apply nth_byte.
Qed.

Lemma nonce_of_ok a n : Z.of_nat (length (nonce_of a n)) = NONCE_SIZE + 16 /\ Forall is_byte (nonce_of a n).
Proof.
  unfold nonce_of. cbv zeta. pose proof hash_count_is. pose proof NONCE_SIZE_is.
  destruct (be_bytes_ok a) as [Ha Hab], (be_bytes_ok n) as [Hn Hnb].
  destruct (chain_ok (be_bytes a ++ be_bytes n) hash_count) as [Hl Hb]; [by rewrite length_app, Ha, Hn|by apply Forall_app_2|].
  destruct (xor_final_ok (Shabal256 (chain (be_bytes a ++ be_bytes n) hash_count)) _ (proj2 (Shabal256_ok _ Hb)) Hb) as [Hl' Hb'].
  split; [|exact Hb']. rewrite Hl', Hl. lia.
Qed.

Lemma scoop_bytes mem k b : Forall is_byte mem -> scoop_of mem k = Some b -> Forall is_byte b.
Proof.
  intros Hm (low & El & Hs)%bind_Some. apply bind_Some in Hs as (high & Eh & [= <-]).
  apply Forall_app_2; [exact (read_bytes _ _ _ _ Hm El)|exact (read_bytes _ _ _ _ Hm Eh)].
Qed.

Lemma bind_ext_in {X Y} (f g : X -> option Y) (o : option X) : (forall x, o = Some x -> f x = g x) -> o ≫= f = o ≫= g.
Proof. intros H. destruct o as [x|]; [exact (H x eq_refl)|exact (eq_refl None)]. Qed.

(** The memory of [gendata]. *)
Definition nonce_memory (g : list Z) : Prop := Z.of_nat (length g) = NONCE_SIZE + 16 /\ Forall is_byte g.

Lemma deadline_tail sc p req :
  block_memory sc -> Forall is_byte p -> Forall is_byte (Native.gen_sig req) ->
  (gen_sig ← read (Native.gen_sig req) 0 HASH_SIZE;
   scoop ← scoop_of p (Native.scoop_nr req);
   quotient (shabal_close (shabal (shabal (shabal_init sc 256) gen_sig) scoop) 0 0) (Native.base_target req)) =
  (gen_sig ← read (Native.gen_sig req) 0 HASH_SIZE;
   scoop ← scoop_of p (Native.scoop_nr req);
   quotient (Shabal256 (gen_sig ++ scoop)) (Native.base_target req)).
Proof.
  intros Hsc Hob Hg. apply bind_ext_in. intros sig Es. apply bind_ext_in. intros sco Eo.
  rewrite (deadline_hash sc sig sco Hsc (read_bytes _ _ _ _ Hg Es) (scoop_bytes _ _ _ Hob Eo)). exact eq_refl.
Qed.

Lemma calculate_deadline_of x sc g req :
  (forall k, block_memory (x k)) -> block_memory sc -> nonce_memory g -> Forall is_byte (Native.gen_sig req) ->
  calculate_deadline x sc g req = deadline_of req.
Proof.
  intros Hx Hsc [Hl Hb] Hg. unfold calculate_deadline, deadline_of, nonce_of. cbv zeta.
  set (a := Native.account_id req). set (n := Native.nonce req). set (seed := be_bytes a ++ be_bytes n).
  destruct (be_bytes_ok a) as [Ha Hab], (be_bytes_ok n) as [Hn Hnb].
  assert (Hs : length seed = 16%nat) by (unfold seed; by rewrite length_app, Ha, Hn).
  assert (Hsb : Forall is_byte seed) by (by apply Forall_app_2).
  pose proof (hashes_filled x seed hash_count _ Hx Hs Hsb (filled_start a n g Hl Hb)) as Hf.
  change (Z.to_nat (NONCE_SIZE / HASH_SIZE)) with hash_count. rewrite (filled_end _ _ Hf).
  destruct (chain_ok seed hash_count Hs Hsb) as [Hcl Hcb]. pose proof hash_count_is. pose proof NONCE_SIZE_is.
  rewrite take_ge by lia. rewrite hash_one, <- Shabal256_spec by done.
  fold seed.
  destruct (xor_final_ok (Shabal256 (chain seed hash_count)) _ (proj2 (Shabal256_ok _ Hcb)) Hcb) as [_ Hob].
  exact (deadline_tail sc _ req Hsc Hob Hg).
Qed.

(** ** Several requests *)

Lemma all_some_lookup {X} {n} (v : vec (option X) n) w i : all_some v = Some w -> v !!! i = Some (w !!! i).
Proof.
  revert w i. induction v as [|x n v IH]; intros w i; [inv_fin i|]. cbn [all_some]. destruct x as [x|]; [|discriminate].
  cbn [mbind option_bind]. destruct (all_some v) as [v'|] eqn:E; [|discriminate]. intros [= <-].
  inv_fin i; [reflexivity|]. intros i. exact (IH v' i eq_refl).
Qed.

Lemma all_some_none {X} {n} (v : vec (option X) n) : all_some v = None <-> exists i, v !!! i = None.
Proof.
  induction v as [|x n v IH]; [split; [discriminate|intros [i _]; inv_fin i]|]. cbn [all_some]. destruct x as [x|]; cbn [mbind option_bind].
  - destruct (all_some v) as [w|] eqn:E; cbn [mbind option_bind].
    + split; [discriminate|]. intros [i Hi]. inv_fin i; [discriminate|]. intros i Hi. discriminate (proj2 IH (ex_intro _ i Hi)).
    + split; [|done]. intros _. destruct (proj1 IH eq_refl) as [i Hi]. by exists (FS i).
  - split; [|done]. intros _. by exists 0%fin.
Qed.

(** The calculations one after the other, each for all lanes. *)
Lemma all_some_bind {X Y} {n} (f : vec (option X) n) (g : fin n -> X -> option Y) (v : vec (option Y) n) :
  (forall i, v !!! i = f !!! i ≫= g i) -> all_some v = (xs ← all_some f; all_some (fun_to_vec (fun i => g i (xs !!! i)))).
Proof.
  intros Hv. destruct (all_some f) as [xs|] eqn:E; cbn [mbind option_bind].
  - f_equal. apply vec_eq. intros i. by rewrite lookup_fun_to_vec, Hv, (all_some_lookup f xs i E).
  - apply all_some_none in E as [i Hi]. apply all_some_none. exists i. by rewrite Hv, Hi.
Qed.

Section Lanes.
Context {n : nat} (hash : list (piece n) -> vec (list Z) n).
Hypothesis hash_spec : forall pieces i, Forall piece_ok pieces -> hash pieces !!! i = spec (message pieces i).

Lemma hash_first data len i :
  (forall i, Forall is_byte (data !!! i)) -> (forall i, (len <= length (data !!! i))%nat) ->
  hash [(data, len)] !!! i = spec (take len (data !!! i)).
Proof using hash_spec.
  intros Hd Hl. rewrite hash_spec; [|apply Forall_singleton; intros j; split; [exact (Hd j)|exact (Hl j)]].
  unfold message. cbn [fmap list_fmap concat fst snd]. by rewrite app_nil_r.
Qed.

Lemma hash_both a b la lb i :
  (forall i, Forall is_byte (a !!! i) /\ length (a !!! i) = la) -> (forall i, Forall is_byte (b !!! i) /\ length (b !!! i) = lb) ->
  hash [(a, la); (b, lb)] !!! i = Shabal256 ((a !!! i) ++ (b !!! i)).
Proof using hash_spec.
  intros Ha Hb. rewrite hash_spec.
  - unfold message. cbn [fmap list_fmap concat fst snd]. rewrite app_nil_r, !take_ge by (rewrite ?(proj2 (Ha i)), ?(proj2 (Hb i)); lia).
    symmetry. apply Shabal256_spec. apply Forall_app_2; [apply Ha|apply Hb].
  - repeat apply Forall_cons_2; [| |by apply Forall_nil]; intros j; cbn [fst snd].
    + destruct (Ha j) as [H <-]. by split.
    + destruct (Hb j) as [H <-]. by split.
Qed.

Lemma vhashes_filled (seeds : fin n -> list Z) k g :
  (forall i, length (seeds i) = 16%nat /\ Forall is_byte (seeds i)) ->
  (forall i, filled (seeds i) k (g !!! i)) -> forall i, filled (seeds i) 0 (vhashes hash k g !!! i).
Proof using hash_spec.
  intros Hs. pose proof hash_count_is as Hn. pose proof NONCE_SIZE_is as HN.
  revert g. induction k as [|k IH]; intros g Hf; [exact Hf|]. cbn [vhashes]. cbv zeta. apply IH. intros i.
  rewrite vlookup_zip_with. apply filled_step; [apply Hs|apply Hs|apply Hf|].
  rewrite hash_first, vlookup_map; [reflexivity| |].
  - intros j. rewrite vlookup_map. apply Forall_drop, (f_bytes _ _ _ (Hf j)).
  - intros j. rewrite vlookup_map, length_drop. pose proof (f_length _ _ _ (Hf j)) as Hl. pose proof (f_count _ _ _ (Hf j)) as Hc.
    unfold hash_len, HASH_SIZE. cbv zeta. destruct (Z.ltb_spec HASH_CAP (NONCE_SIZE + 16 - 32 * Z.of_nat (S k))); lia.
Qed.

Definition seed_of (req : Native.t) : list Z := be_bytes (Native.account_id req) ++ be_bytes (Native.nonce req).

Lemma seed_ok req : length (seed_of req) = 16%nat /\ Forall is_byte (seed_of req).
Proof.
  unfold seed_of. destruct (be_bytes_ok (Native.account_id req)) as [Ha Hab], (be_bytes_ok (Native.nonce req)) as [Hn Hnb].
  split; [by rewrite length_app, Ha, Hn|by apply Forall_app_2].
Qed.

Lemma read_length mem off len b : read mem off len = Some b -> 0 <= len -> length b = Z.to_nat len.
Proof.
  unfold read. destruct (Z.leb_spec 0 off); [|discriminate]. destruct (Z.leb_spec (off + len) (Z.of_nat (length mem))); [|discriminate].
  intros [= <-] Hl. rewrite length_take, length_drop. lia.
Qed.

Lemma scoop_length mem k b : scoop_of mem k = Some b -> length b = Z.to_nat SCOOP_SIZE.
Proof.
  intros (low & El & Hs)%bind_Some. apply bind_Some in Hs as (high & Eh & [= <-]).
  apply read_length in El, Eh; [|lia..]. rewrite length_app, El, Eh. reflexivity.
Qed.

(** Every lane has the nonce of its request. *)
Lemma nonces g reqs :
  (forall i, nonce_memory (g !!! i)) ->
  vhashes hash hash_count (vzip_with (fun g req => SET_NONCE g (Native.nonce req) 8)
      (vzip_with (fun g req => SET_NONCE g (Native.account_id req) 0) g reqs) reqs)
  = vmap (fun req => chain (seed_of req) hash_count) reqs.
Proof using hash_spec.
  intros Hg. apply vec_eq. intros i. rewrite vlookup_map. apply filled_end.
  pose proof (vhashes_filled (fun i => seed_of (reqs !!! i)) hash_count
    (vzip_with (fun g req => SET_NONCE g (Native.nonce req) 8) (vzip_with (fun g req => SET_NONCE g (Native.account_id req) 0) g reqs) reqs)) as Hf.
  apply Hf.
  - intros j. apply seed_ok.
  - intros j. rewrite !vlookup_zip_with. destruct (Hg j) as [Hl Hb]. exact (filled_start _ _ _ Hl Hb).
Qed.

Lemma chain_full req :
  length (chain (seed_of req) hash_count) = Z.to_nat (16 + NONCE_SIZE) /\ Forall is_byte (chain (seed_of req) hash_count).
Proof.
  destruct (chain_ok (seed_of req) hash_count (proj1 (seed_ok req)) (proj2 (seed_ok req))) as [Hl Hb].
  pose proof hash_count_is. pose proof NONCE_SIZE_is. split; [rewrite Hl; lia|exact Hb].
Qed.

Lemma xored_nonces reqs i :
  vzip_with xor_final (hash [(vmap (fun req => chain (seed_of req) hash_count) reqs, Z.to_nat (16 + NONCE_SIZE))])
    (vmap (fun req => chain (seed_of req) hash_count) reqs) !!! i
  = nonce_of (Native.account_id (reqs !!! i)) (Native.nonce (reqs !!! i)).
Proof using hash_spec.
  unfold nonce_of. cbv zeta. rewrite vlookup_zip_with, hash_first.
  - rewrite vlookup_map. destruct (chain_full (reqs !!! i)) as [Hl Hb]. rewrite take_ge by lia.
    rewrite <- (Shabal256_spec _ Hb). exact eq_refl.
  - intros j. rewrite vlookup_map. apply chain_full.
  - intros j. apply Nat.eq_le_incl. symmetry. rewrite vlookup_map. exact (proj1 (chain_full (reqs !!! j))).
Qed.

Lemma calculate_deadlines_of g reqs :
  (forall i, nonce_memory (g !!! i)) -> (forall i, Forall is_byte (Native.gen_sig (reqs !!! i))) ->
  calculate_deadlines hash g reqs = all_some (vmap deadline_of reqs).
Proof using hash_spec.
  intros Hg Hr. unfold calculate_deadlines. cbv zeta. change (Z.to_nat (NONCE_SIZE / HASH_SIZE)) with hash_count.
  rewrite (nonces g reqs Hg).
  rewrite (all_some_bind (vmap (fun req => read (Native.gen_sig req) 0 HASH_SIZE) reqs)
    (fun i sig => scoop ← scoop_of (nonce_of (Native.account_id (reqs !!! i)) (Native.nonce (reqs !!! i))) (Native.scoop_nr (reqs !!! i));
       quotient (Shabal256 (sig ++ scoop)) (Native.base_target (reqs !!! i))) (vmap deadline_of reqs))
    by (intros i; rewrite !vlookup_map; exact eq_refl).
  apply bind_ext_in. intros sigs Es.
  set (plots := vzip_with xor_final _ _). pose proof (xored_nonces reqs : forall i, plots !!! i = _) as Hp. clearbody plots.
  rewrite (all_some_bind (vzip_with (fun g req => scoop_of g (Native.scoop_nr req)) plots reqs)
    (fun i scoop => quotient (Shabal256 ((sigs !!! i) ++ scoop)) (Native.base_target (reqs !!! i)))).
  2:{ intros i. etransitivity; [exact (lookup_fun_to_vec _ i)|].
      assert (Ep : vzip_with (fun g req => scoop_of g (Native.scoop_nr req)) plots reqs !!! i
                   = scoop_of (nonce_of (Native.account_id (reqs !!! i)) (Native.nonce (reqs !!! i))) (Native.scoop_nr (reqs !!! i))).
      { etransitivity; [exact (vlookup_zip_with _ plots reqs i)|]. cbv beta. rewrite (Hp i). exact eq_refl. }
      rewrite Ep. exact eq_refl. }
  apply bind_ext_in. intros scoops Eo. f_equal. apply vec_eq. intros i.
  etransitivity; [exact (vlookup_zip_with _ _ _ i)|]. etransitivity; [|symmetry; exact (lookup_fun_to_vec _ i)].
  rewrite (vlookup_map _ reqs i). cbv beta. f_equal. apply hash_both; intros j.
  - pose proof (all_some_lookup _ _ j Es) as Ej. rewrite vlookup_map in Ej.
    split; [exact (read_bytes _ _ _ _ (Hr j) Ej)|exact (read_length _ _ _ _ Ej ltac:(unfold HASH_SIZE; lia))].
  - pose proof (all_some_lookup _ _ j Eo) as Ej. rewrite vlookup_zip_with, Hp in Ej.
    split; [exact (scoop_bytes _ _ _ (proj2 (nonce_of_ok _ _)) Ej)|exact (scoop_length _ _ _ Ej)].
Qed.

End Lanes.

(** ** The properties *)

(** C21: the code for four and for eight requests computes for each of them
    the deadline that [calculate_deadline] computes, whatever the memory
    they start with, and is undefined only where that is for one of them. *)
Theorem vector_deadlines x deadline_sc gendata gendata4 gendata8 (reqs4 : vec Native.t 4) (reqs8 : vec Native.t 8) :
  (forall k, block_memory (x k)) -> block_memory deadline_sc -> nonce_memory gendata ->
  (forall i, nonce_memory (gendata4 !!! i)) -> (forall i, nonce_memory (gendata8 !!! i)) ->
  (forall i, Forall is_byte (Native.gen_sig (reqs4 !!! i))) -> (forall i, Forall is_byte (Native.gen_sig (reqs8 !!! i))) ->
  calculate_deadlines_sse4 gendata4 reqs4 = all_some (vmap (calculate_deadline x deadline_sc gendata) reqs4) /\
  calculate_deadlines_avx2 gendata8 reqs8 = all_some (vmap (calculate_deadline x deadline_sc gendata) reqs8).
Proof.
  intros Hx Hd Hg H4 H8 Hr4 Hr8.
  assert (E : forall n (reqs : vec Native.t n), (forall i, Forall is_byte (Native.gen_sig (reqs !!! i))) ->
    vmap (calculate_deadline x deadline_sc gendata) reqs = vmap deadline_of reqs).
  { intros n reqs Hr. apply vec_eq. intros i. rewrite !vlookup_map. exact (calculate_deadline_of x _ _ _ Hx Hd Hg (Hr i)). }
  rewrite (E _ _ Hr4), (E _ _ Hr8). split.
  - exact (calculate_deadlines_of sse4_hash sse4_digest _ _ H4 Hr4).
  - exact (calculate_deadlines_of avx2_hash avx2_digest _ _ H8 Hr8).
Qed.

Lemma low_bits a n : 0 <= n -> 0 <= Z.land a (Z.ones n) < 2 ^ n.
Proof. intros Hn. rewrite Z.land_ones by done. apply Z.mod_pos_bound. lia. Qed.

Lemma scoop_number h : Forall is_byte h -> 0 <= Z.lor (Z.shiftl (Z.land (nth 30 h 0) 0x0F) 8) (nth 31 h 0) < NUM_SCOOPS.
Proof.
  intros Hh. pose proof (low_bits (nth 30 h 0) 4 ltac:(lia)) as Ha. change (Z.ones 4) with 15 in Ha.
  pose proof (nth_byte 31 h Hh) as Hb. unfold is_byte in Hb. set (a := Z.land _ _) in *. set (b := nth 31 h 0) in *. clearbody a b.
  assert (E : Z.lor (Z.shiftl a 8) b = a * 256 + b).
  { rewrite Z.shiftl_mul_pow2 by lia. pose proof (Z.add_lor_land (a * 2 ^ 8) b) as Hab.
    enough (Z.land (a * 2 ^ 8) b = 0) by lia.
    rewrite <- (Z.mod_small b (2 ^ 8)) by lia. rewrite <- Z.land_ones by lia.
    rewrite (Z.land_comm b), Z.land_assoc, Z.land_ones by lia. by rewrite Z.mod_mul. }
  rewrite E. unfold NUM_SCOOPS. lia.
Qed.

Lemma read_all mem len : Z.of_nat (length mem) = len -> read mem 0 len = Some mem.
Proof.
  intros Hl. unfold read. rewrite !(proj2 (Z.leb_le _ _)) by lia. cbn [andb]. rewrite drop_0, take_ge by lia. exact eq_refl.
Qed.

Lemma read_inside mem off len : 0 <= off -> 0 <= len -> off + len <= Z.of_nat (length mem) -> exists b, read mem off len = Some b.
Proof. intros Ho Hl H. unfold read. rewrite !(proj2 (Z.leb_le _ _)) by lia. cbn [andb]. by eexists. Qed.

Lemma scoop_inside mem k : Z.of_nat (length mem) = NONCE_SIZE + 16 -> 0 <= k < NUM_SCOOPS -> exists b, scoop_of mem k = Some b.
Proof.
  intros Hl Hk. unfold NUM_SCOOPS in Hk. pose proof NONCE_SIZE_is as HN. unfold scoop_of, SCOOP_SIZE.
  rewrite !Z.mod_small by (rewrite ?Z.mod_small; lia).
  destruct (read_inside mem (k * 64) 32) as [a ->]; [lia..|].
  destruct (read_inside mem ((4095 - k) * 64 + 32) 32) as [b ->]; [lia..|]. by eexists.
Qed.

Lemma quotient_range h bt :
  Forall is_byte h -> 0 < bt < 2 ^ 64 -> exists d, quotient h bt = Some d /\ 0 <= d < 2 ^ 64 /\ d * bt < 2 ^ 64.
Proof.
  intros Hh Hb. unfold quotient. rewrite (proj2 (Z.eqb_neq bt 0)) by lia. eexists. split; [reflexivity|].
  pose proof (le_range 8 h Hh) as Hl. change (256 ^ Z.of_nat 8) with (2 ^ 64) in Hl. set (v := le 8 h) in *. clearbody v.
  pose proof (Z.mul_div_le v bt ltac:(lia)). pose proof (Z.div_pos v bt ltac:(lia) ltac:(lia)).
  split; [split; [done|]|]; [|lia]. nia.
Qed.

(** A request as the pool makes it. *)
Record in_range (req : Native.t) : Prop := {
  ir_scoop : 0 <= Native.scoop_nr req < NUM_SCOOPS;
  ir_target : 0 < Native.base_target req < 2 ^ 64;
  ir_sig : length (Native.gen_sig req) = 32%nat;
  ir_bytes : Forall is_byte (Native.gen_sig req)
}.

Lemma deadline_of_in_range req :
  in_range req -> exists d, deadline_of req = Some d /\ 0 <= d < 2 ^ 64 /\ d * Native.base_target req < 2 ^ 64.
Proof.
  intros [Hs Ht Hl Hb]. unfold deadline_of. rewrite read_all by (rewrite Hl; reflexivity). cbn [mbind option_bind].
  destruct (nonce_of_ok (Native.account_id req) (Native.nonce req)) as [Hnl Hnb].
  destruct (scoop_inside (nonce_of (Native.account_id req) (Native.nonce req)) _ Hnl Hs) as [b Eb]. pose proof (scoop_bytes _ _ _ Hnb Eb) as Hbb.
  rewrite Eb. cbn [mbind option_bind]. apply quotient_range; [|exact Ht]. apply Shabal256_ok. exact (Forall_app_2 _ _ _ Hb Hbb).
Qed.

(** C23: a signature that [DecodeGeneratorSignature] accepts has a scoop
    number below 4096 at every height; with it and a base target that is not
    zero no deadline is undefined: nothing is read outside of the plot, and
    times the base target the deadline is a 64-bit number. *)
Theorem deadlines_are_defined genSigStr genSig (height : Z) sc x deadline_sc gendata account_id nonce base_target :
  DecodeGeneratorSignature genSigStr = Ok genSig ->
  block_memory sc -> (forall k, block_memory (x k)) -> block_memory deadline_sc -> nonce_memory gendata -> 0 < base_target < 2 ^ 64 ->
  exists scoop d, CalcScoop sc height genSig = Some scoop /\ 0 <= scoop < NUM_SCOOPS /\
    calculate_deadline x deadline_sc gendata (Native.mk account_id nonce base_target scoop genSig) = Some d /\
    0 <= d < 2 ^ 64 /\ d * base_target < 2 ^ 64.
Proof.
  intros Hdec Hsc Hx Hd Hg Hb. pose proof (DecodeGeneratorSignature_spec genSigStr) as Hs. rewrite Hdec in Hs.
  destruct Hs as (_ & _ & Hl & Hbytes). set (scoop := Z.lor (Z.shiftl (Z.land (nth 30 (spec (genSig ++ be_bytes height)) 0) 0x0F) 8)
    (nth 31 (spec (genSig ++ be_bytes height)) 0)).
  destruct (be_bytes_ok height) as [_ Hh].
  assert (Hscoop : 0 <= scoop < NUM_SCOOPS) by (apply scoop_number, spec_ok; exact (Forall_app_2 _ _ _ Hbytes Hh)).
  exists scoop. destruct (deadline_of_in_range (Native.mk account_id nonce base_target scoop genSig)) as (d & Ed & Hrange);
    [split; cbn [Native.scoop_nr Native.base_target Native.gen_sig]; assumption|].
  exists d. split; [|split; [exact Hscoop|split; [|exact Hrange]]].
  - unfold CalcScoop, calculate_scoop. destruct genSig as [|b l]; [discriminate|]. rewrite read_all by (rewrite Hl; reflexivity).
    cbn [mbind option_bind]. cbv zeta. rewrite (hash_two sc (b :: l) (be_bytes height) Hsc Hbytes Hh). exact eq_refl.
  - rewrite calculate_deadline_of; assumption.
Qed.

(** ** The workers *)

Lemma array_take n (l : list Native.t) : (n <= length l)%nat -> exists v, array n l = Some v /\ vec_to_list v = take n l.
Proof.
  revert l. induction n as [|n IH]; intros l Hl; [by exists [#]|]. destruct l as [|r l]; [simpl in Hl; lia|].
  destruct (IH l ltac:(simpl in Hl; lia)) as (v & Ev & Hv). exists (r ::: v). cbn [array]. rewrite Ev. cbn [mbind option_bind].
  split; [exact eq_refl|]. cbn [take vec_to_list]. by rewrite Hv.
Qed.

Lemma all_some_total {X Y} {n} (f : X -> option Y) (k : X -> Y) (v : vec X n) :
  (forall i, f (v !!! i) = Some (k (v !!! i))) -> all_some (vmap f v) = Some (vmap k v).
Proof.
  intros Hf. destruct (all_some (vmap f v)) as [w|] eqn:E.
  - f_equal. apply vec_eq. intros i. pose proof (all_some_lookup _ _ i E) as Hi. rewrite vlookup_map, Hf in Hi.
    rewrite vlookup_map. by injection Hi.
  - apply all_some_none in E as [i Hi]. by rewrite vlookup_map, Hf in Hi.
Qed.

Definition map_batch {R} (f : nat -> R) (b : @batch nat) : @batch R := mk_batch (b_pending b) ((fun o : option nat => f <$> o) <$> b_reqs b).

Lemma map_good {R} (f : nat -> R) width b : good_batch width b -> good_batch width (map_batch f b).
Proof.
  intros [Hl Hp Hs [r0 H0]]. split; cbn [map_batch b_reqs b_pending].
  - by rewrite length_fmap.
  - done.
  - intros i Hi. destruct (Hs i Hi) as [r Hr]. exists (f r). by rewrite list_lookup_fmap, Hr.
  - exists (f r0). by rewrite list_lookup_fmap, H0.
Qed.

Lemma map_answered {R} (f : nat -> R) b : answered (map_batch f b) = f <$> answered b.
Proof.
  unfold answered, map_batch. cbn [b_reqs b_pending]. rewrite <- fmap_take. generalize (take (b_pending b) (b_reqs b)) as l.
  induction l as [|[x|] l IH]; [done|..]; cbn; [by rewrite <- IH|exact IH].
Qed.

Lemma lanes_deadlines {n} (hash : list (piece n) -> vec (list Z) n) g (reqs : list Native.t) :
  (forall pieces i, Forall piece_ok pieces -> hash pieces !!! i = spec (message pieces i)) ->
  (forall i, nonce_memory (g !!! i)) -> (n <= length reqs)%nat -> Forall in_range reqs ->
  (reqs ← array n reqs; vec_to_list <$> calculate_deadlines hash g reqs)
  = Some ((fun r => default 0 (deadline_of r)) <$> take n reqs).
Proof.
  intros Hh Hg Hn Hr. destruct (array_take n reqs Hn) as (v & -> & Hv). cbn [mbind option_bind].
  assert (Hin : forall i, in_range (v !!! i)).
  { intros i. rewrite Forall_forall in Hr. apply Hr. apply (subseteq_take n reqs). rewrite <- Hv. apply elem_of_vlookup. by exists i. }
  rewrite calculate_deadlines_of; [|exact Hh|exact Hg|intros i; apply (ir_bytes _ (Hin i))].
  rewrite (all_some_total deadline_of (fun r => default 0 (deadline_of r))).
  - cbn [fmap option_fmap option_map]. rewrite vec_to_list_map, Hv. exact eq_refl.
  - intros i. destruct (deadline_of_in_range _ (Hin i)) as (d & E & _). rewrite E. exact eq_refl.
Qed.

Lemma processReqs_answers (request : nat -> Native.t) width (avx2 : bool) g4 g8 b :
  width = (if avx2 then avx2Parallel else sse4Parallel) ->
  (forall i, nonce_memory (g4 !!! i)) -> (forall i, nonce_memory (g8 !!! i)) -> (forall i, in_range (request i)) ->
  good_batch width b ->
  processReqs g4 g8 avx2 (map_batch request b) = Some ((fun i => default 0 (deadline_of (request i))) <$> answered b).
Proof.
  intros Hw H4 H8 Hr Hb. pose proof (map_good request width b Hb) as Hm. destruct (slots_filled width _ Hm) as (r0 & Hr0 & Es & Hlen).
  unfold processReqs. rewrite Es. cbn [mbind option_bind]. change (b_pending (map_batch request b)) with (b_pending b) in *.
  rewrite map_answered in *. destruct Hm as [Hml _ _ _]. rewrite Hml in Hlen. destruct Hb as [_ Hp _ _].
  assert (Hpa : (b_pending b <= avx2Parallel)%nat) by (subst width; destruct avx2; unfold avx2Parallel, sse4Parallel in *; lia).
  rewrite Nat.min_l in Hlen by exact Hpa. set (l := (request <$> answered b) ++ replicate (avx2Parallel - b_pending b) r0).
  assert (Hl : length l = avx2Parallel) by (unfold l; rewrite length_app, length_replicate; lia).
  assert (Hin : Forall in_range l).
  { apply Forall_app_2; [by apply Forall_fmap, Forall_true|]. apply Forall_replicate.
    apply list_elem_of_omap in Hr0 as (o & Ho & Eo). cbn [map_batch b_reqs] in Ho. apply list_elem_of_fmap in Ho as (o' & -> & _).
    destruct o' as [i|]; [|discriminate Eo]. injection Eo as <-. apply Hr. }
  assert (E : (if avx2 then CalculateDeadlinesAVX2 g8 l else CalculateDeadlinesSSE4 g4 l)
              = Some ((fun r => default 0 (deadline_of r)) <$> take width l)).
  { subst width. destruct avx2; apply lanes_deadlines; first [exact avx2_digest|exact sse4_digest|assumption|idtac];
      rewrite Hl; unfold avx2Parallel; lia. }
  rewrite E. cbn [mbind option_bind]. rewrite length_fmap, length_take, Hl.
  rewrite (proj2 (Nat.leb_le _ _)) by (unfold avx2Parallel in *; lia). f_equal.
  rewrite <- fmap_take, take_take, Nat.min_l by lia. unfold l. rewrite take_app_le, take_ge by lia.
  rewrite <- list_fmap_compose. exact eq_refl.
Qed.

(** C22: a caller of the handler gets the deadline of its own request, as
    [calculate_deadline] defines it: in every state the handler reaches, each
    batch, in the channel or about to be sent, makes a worker calculate and
    send exactly the deadlines of the requests in it, with the code for eight
    or for four requests, also when the batch is not full; and a call that
    returned has the deadline of its request. *)
Theorem handler_calculates (request : nat -> Native.t) (avx2 : bool) x deadline_sc gendata gendata4 gendata8 n s :
  let width := if avx2 then avx2Parallel else sse4Parallel in
  let calc := fun i => default 0 (calculate_deadline x deadline_sc gendata (request i)) in
  (forall k, block_memory (x k)) -> block_memory deadline_sc -> nonce_memory gendata ->
  (forall i, nonce_memory (gendata4 !!! i)) -> (forall i, nonce_memory (gendata8 !!! i)) ->
  (forall i, in_range (request i)) -> reachable calc width n s ->
  (forall b, b ∈ batchReqs s \/ outbox s = Some b ->
     processReqs gendata4 gendata8 avx2 (map_batch request b) = Some (calc <$> answered b)) /\
  (forall i d, callers s !! i = Some (Returned d) -> calculate_deadline x deadline_sc gendata (request i) = Some d).
Proof.
  intros width calc Hx Hd Hg H4 H8 Hr Hs.
  assert (Hw : (2 <= width <= avx2Parallel)%nat) by (unfold width, avx2Parallel, sse4Parallel; destruct avx2; lia).
  pose proof (handler_sound calc width Hw n s Hs) as Hsound.
  assert (Hc : forall i, calculate_deadline x deadline_sc gendata (request i) = deadline_of (request i)).
  { intros i. exact (calculate_deadline_of x _ _ _ Hx Hd Hg (ir_bytes _ (Hr i))). }
  split.
  - intros b Hb. assert (Hgood : good_batch width b).
    { destruct Hb as [Hb|Hb]; [|exact (s_outbox _ _ _ Hsound b Hb)]. pose proof (s_batches _ _ _ Hsound) as Hf.
      rewrite Forall_forall in Hf. exact (Hf b Hb). }
    rewrite (processReqs_answers request width avx2 gendata4 gendata8 b eq_refl H4 H8 Hr Hgood).
    apply (f_equal Some).
    apply list_fmap_ext. intros _ i _. exact (f_equal (default 0) (eq_sym (Hc i))).
  - intros i d Hi. rewrite (s_returned _ _ _ Hsound i d Hi). unfold calc. rewrite (Hc i).
    destruct (deadline_of_in_range _ (Hr i)) as (d' & E & _). rewrite E. exact eq_refl.
Qed.

(** ** Examples *)

(** The scoops of [TestCalcScoop]. *)
Definition sig1 : string := "2a0757c8af2aa43b29515c872385ede31d0742b1ea29b93a1a8c38a11b8a37a0".
Definition sig2 : string := "56747285d0a52dbf7f45bcf7b45b86bd48a11315500d5d5424ee3a1e7c63f712".
Definition sig_bytes (s : string) : list Z :=
  match DecodeGeneratorSignature (bytes s) with Ok sig => sig | Err _ => [] end.

Example TestCalcScoop :
  CalcScoop stack 41189 (sig_bytes sig1) = Some 0x1e /\ CalcScoop stack 41190 (sig_bytes sig2) = Some 0x07.
Proof. vm_compute. split; reflexivity. Qed.

Definition zeros : list Z := replicate (Z.to_nat (NONCE_SIZE + 16)) 0.

Lemma zero_memory : nonce_memory zeros.
Proof.
  unfold nonce_memory, zeros. split; [rewrite length_replicate, Z2Nat.id; [exact eq_refl|unfold NONCE_SIZE, NUM_SCOOPS, SCOOP_SIZE; lia]|].
  apply (Forall_replicate is_byte). unfold is_byte. lia.
Qed.

Lemma zero_memories n (i : fin n) : nonce_memory (vreplicate n zeros !!! i).
Proof. rewrite vlookup_replicate. exact zero_memory. Qed.

(** The request of [TestCalculateDeadlines], for several nonces. *)
Definition test_request (i : nat) : Native.t := Native.mk 10282355196851764065 (6729 + Z.of_nat i) 18325193796 30 (sig_bytes sig1).

Lemma test_in_range i : in_range (test_request i).
Proof.
  split; cbn [test_request Native.scoop_nr Native.base_target Native.gen_sig].
  - unfold NUM_SCOOPS. lia.
  - lia.
  - vm_compute. reflexivity.
  - apply (bool_decide_unpack (Forall (fun b => 0 <= b < 256) _)). vm_compute. exact I.
Qed.

Definition test_requests (n : nat) : vec Native.t n := fun_to_vec (fun i : fin n => test_request (fin_to_nat i)).

Lemma test_bytes n (i : fin n) : Forall is_byte (Native.gen_sig (test_requests n !!! i)).
Proof. unfold test_requests. rewrite lookup_fun_to_vec. apply (ir_bytes _ (test_in_range _)). Qed.

Lemma vector_deadlines_witness :
  calculate_deadlines_sse4 (vreplicate 4 zeros) (test_requests 4)
    = all_some (vmap (calculate_deadline (fun _ => stack) stack zeros) (test_requests 4)) /\
  calculate_deadlines_avx2 (vreplicate 8 zeros) (test_requests 8)
    = all_some (vmap (calculate_deadline (fun _ => stack) stack zeros) (test_requests 8)).
Proof.
  exact (vector_deadlines (fun _ => stack) stack zeros (vreplicate 4 zeros) (vreplicate 8 zeros) (test_requests 4) (test_requests 8)
    (fun _ => stack_memory) stack_memory zero_memory (zero_memories 4) (zero_memories 8) (test_bytes 4) (test_bytes 8)).
Defined.

Lemma test_signature : DecodeGeneratorSignature (bytes sig1) = Ok (sig_bytes sig1).
Proof. vm_compute. reflexivity. Qed.

Lemma deadlines_are_defined_witness :
  exists scoop d, CalcScoop stack 41189 (sig_bytes sig1) = Some scoop /\ 0 <= scoop < NUM_SCOOPS /\
    calculate_deadline (fun _ => stack) stack zeros (Native.mk 10282355196851764065 6729 18325193796 scoop (sig_bytes sig1)) = Some d /\
    0 <= d < 2 ^ 64 /\ d * 18325193796 < 2 ^ 64.
Proof.
  refine (deadlines_are_defined (bytes sig1) (sig_bytes sig1) 41189 stack (fun _ => stack) stack zeros _ _ _
    test_signature stack_memory (fun _ => stack_memory) stack_memory zero_memory _).
  split; reflexivity.
Defined.

Definition queued : list action := [Call 1; Accept 1; Call 2; Accept 2; Fire; Push]%nat.

Definition test_batch : @batch nat := mk_batch 2 [Some 1; Some 2; None; None; None; None; None; None]%nat.

Lemma queued_batch calc : (b ← head <$> (batchReqs <$> execs calc sse4Parallel queued (initial 2)); b) = Some test_batch.
Proof. vm_compute. reflexivity. Qed.

Lemma queued_reachable calc : exists s, reachable calc sse4Parallel 2 s /\ test_batch ∈ batchReqs s.
Proof.
  pose proof (queued_batch calc) as Hq. destruct (execs calc sse4Parallel queued (initial 2)) as [s|] eqn:E; [|discriminate Hq].
  exists s. split; [exact (handler_runs calc sse4Parallel 2 queued _ s (reach_start _ _ _) E)|].
  cbn in Hq. destruct (batchReqs s) as [|b l]; [discriminate Hq|]. injection Hq as ->. left.
Qed.

Lemma handler_calculates_witness :
  processReqs (vreplicate 4 zeros) (vreplicate 8 zeros) false (map_batch test_request test_batch)
  = Some ((fun i => default 0 (calculate_deadline (fun _ => stack) stack zeros (test_request i))) <$> [1; 2]%nat).
Proof.
  destruct (queued_reachable (fun i => default 0 (calculate_deadline (fun _ => stack) stack zeros (test_request i)))) as (s & Hs & Hb).
  exact (proj1 (handler_calculates test_request false (fun _ => stack) stack zeros (vreplicate 4 zeros) (vreplicate 8 zeros) 2 s
    (fun _ => stack_memory) stack_memory zero_memory (zero_memories 4) (zero_memories 8) test_in_range Hs) test_batch (or_introl Hb)).
Defined.
