(* ===== verification/Shares.v ===== *)
(** * Estimated capacity of a miner

    The numerical core of the pool: the weight of a deadline, the table of
    the factors alpha ([computeAlphas], [alpha] of [pkg/modelx/cache.go]),
    the estimated effective plot size [eeps] and [round] ([modelx.go]). *)

From S2P Require Import Prelude GoFloat.
Import GoInt.

Definition GenesisBaseTarget : Z := 18325193796.

Definition weight (deadline baseTarget : Z) : Z := u64 (deadline * baseTarget).
Definition weightDeadline (deadline baseTarget : Z) : float64 := of_Z (weight deadline baseTarget).

(** ** The factors alpha *)

Definition computeAlpha (nAvg nMin i : Z) : float64 :=
  if i <? nMin - 1 then fzero
  else
    let nConf := of_Z (i + 1) in
    fsub (of_Z 1)
      (fmul (fdiv (fsub (of_Z nAvg) nConf) nConf)
            (log (fdiv (of_Z nAvg) (fsub (of_Z nAvg) nConf)))).

(** [None]: [make] of a negative length, or the last assignment out of range. *)
Definition computeAlphas (nAvg nMin : Z) : option (list float64) :=
  if nAvg <? 0 then None
  else aset (computeAlpha nAvg nMin <$> zrange (Z.to_nat nAvg)) (Z.to_nat (nAvg - 1)) (of_Z 1).

(** Only called with [nConf], a length or a count, that is not negative. *)
Definition alpha (alphas : list float64) (nConf : Z) : float64 :=
  if nConf =? 0 then fzero
  else if Z.of_nat (length alphas) <? nConf then of_Z 1
  else default fzero (alphas !! Z.to_nat (nConf - 1)).

Definition eeps (alphas : list float64) (nConf : Z) (weightedDeadlineSum : float64) : float64 :=
  if feqb weightedDeadlineSum fzero then fzero
  else fdiv (fmul (fmul (alpha alphas nConf) (of_Z 240)) (of_Z (nConf - 1)))
            (fdiv weightedDeadlineSum (of_Z GenesisBaseTarget)).

Definition round (f : float64) : Z :=
  if fltb (fabs f) (dy 1 (-1)) then 0
  else to_int64 (fadd f (copysign (dy 1 (-1)) f)).

(** ** The values of the tests of the repository *)

Definition test_alphas : list float64 := default [] (computeAlphas 360 5).

Example TestWeightDeadline : weightDeadline 1337 16672 = decimal 22290464 0.
Proof. vm_compute. reflexivity. Qed.

Example TestEeps :
  eeps test_alphas 13 fzero = fzero /\ feqb (eeps test_alphas 0 (of_Z 13)) fzero = true /\
  eeps test_alphas 7 (of_Z 1234567890) = decimal 2091678509540103 13.
Proof. vm_compute. done. Qed.

Example TestRound :
  round (decimal 549 2) = 5 /\ round (decimal (-549) 2) = -5 /\ round (decimal 45 1) = 5 /\
  round (decimal (-45) 1) = -5 /\ round fzero = 0.
Proof. vm_compute. done. Qed.

Example TestCalculateEEPS :
  eeps test_alphas 6 (decimal 127398714615601414 1) = decimal 14464712184653721 21.
Proof. vm_compute. reflexivity. Qed.

(** ** [round] *)

(** [round] rounds to the nearest integer, halves away from zero:
    for [f = c / 2 ^ k] with [|c| < 2 ^ 52] it is the quotient towards zero
    of [f + 1/2] or [f - 1/2]. *)
Theorem round_nearest (c k : Z) :
  1 <= k <= 52 -> - 2 ^ 52 < c < 2 ^ 52 ->
  round (dy c (- k)) = Z.quot (if c <? 0 then c - 2 ^ (k - 1) else c + 2 ^ (k - 1)) (2 ^ k).
Proof.
  intros Hk Hc. set (h := 2 ^ (k - 1)).
  assert (Hh : 0 < h <= 2 ^ 51)
    by (split; [apply Z.pow_pos_nonneg|apply Z.pow_le_mono_r]; lia).
  assert (Hh2 : 2 ^ k = 2 * h) by (unfold h; rewrite <- Z.pow_succ_r by lia; f_equal; lia).
  assert (He : mid (- k)) by (unfold mid; lia).
  assert (Hhalf : dy 1 (-1) = dy h (- k)).
  { rewrite <- (dy_shift 1 (-1) (k - 1)) by (unfold small, mid; lia).
    f_equal; unfold h; lia. }
  unfold round. rewrite Hhalf, fabs_dy by (done || unfold small; lia).
  rewrite fltb_dy by (done || unfold small; lia). destruct (Z.ltb_spec (Z.abs c) h).
  - symmetry. rewrite Hh2. destruct (Z.ltb_spec c 0); [rewrite <- (Z.opp_involutive (c - h)), Z.quot_opp_l by lia|];
      rewrite Z.quot_small; lia.
  - rewrite copysign_dy by (done || unfold small; lia).
    rewrite fadd_dy by (done || unfold small; destruct (c <? 0); lia).
    unfold to_int64. rewrite trunc_dy by (done || unfold small; destruct (c <? 0); lia).
    replace (- - k) with k by lia.
    replace (c + (if c <? 0 then - h else h)) with (if c <? 0 then c - h else c + h)
      by (destruct (c <? 0); lia).
    rewrite bool_decide_eq_true_2; [done|]. unfold is_i64.
    assert (Z.abs ((if c <? 0 then c - h else c + h) ÷ 2 ^ k) <= 2 ^ 53); [|lia].
    rewrite <- Z.quot_abs by lia. rewrite Z.quot_div_nonneg by lia.
    apply Z.div_le_upper_bound; destruct (c <? 0); nia.
Qed.

Lemma round_nearest_witness : round (dy (-9) (-1)) = -5.
Proof. refine (eq_trans (round_nearest (-9) 1 _ _) _); [lia|lia|reflexivity]. Defined.

(** [round] of the [float64] of an integer is the integer up to
    [2 ^ 51], but not for all integers: [2 ^ 52 + 1] becomes [2 ^ 52 + 2]. *)
Theorem round_integer (z : Z) :
  (- 2 ^ 51 < z < 2 ^ 51 -> round (of_Z z) = z) /\ round (of_Z (2 ^ 52 + 1)) = 2 ^ 52 + 2.
Proof.
  split; [|by vm_compute]. intros Hz. unfold of_Z.
  rewrite <- (dy_shift z 0 1) by (unfold small, mid; lia).
  change (0 - 1) with (-(1)). rewrite round_nearest by lia.
  change (2 ^ (1 - 1)) with 1. change (2 ^ 1) with 2.
  destruct (Z.ltb_spec (z * 2) 0).
  - rewrite <- (Z.opp_involutive (z * 2 - 1)), Z.quot_opp_l, Z.quot_div_nonneg by lia.
    assert (E : - (z * 2 - 1) / 2 = - z) by (symmetry; apply (Z.div_unique _ 2 _ 1); lia). lia.
  - rewrite Z.quot_div_nonneg by lia. symmetry. apply (Z.div_unique _ 2 _ 1); lia.
Qed.
