(* ===== verification/FloatError.v ===== *)
(** * Rounding errors

    The values of [float64] numbers that are not negative, as integers in
    units of the smallest one, [2 ^ -1074] ([units]), and how far sums,
    products and quotients are from the exact ones: by at most the
    [2 ^ 52]-th part of the exact value, and one unit ([fadd_error],
    [fmul_error], [fdiv_error]). *)

From Stdlib Require Import Floats.SpecFloat.
From S2P Require Import Prelude GoFloat Shares.
Open Scope list_scope.
Open Scope Z_scope.

(** ** Values *)

(** One, and the precision, in units. *)
Definition one : Z := 2 ^ 1074.
Definition prec : Z := 2 ^ 52.

Definition units (x : float64) : Z :=
  match x with S754_finite false m e => Zpos m * 2 ^ (e + 1074) | _ => 0 end.

(** Finite, not negative, and in the form the operations give. *)
Definition fin (x : float64) : Prop :=
  match x with
  | S754_zero false => True
  | S754_finite false m e => fexp 53 1024 (dg m + e) = e /\ e <= 971
  | _ => False
  end.

#[export] Instance fin_dec x : Decision (fin x).
Proof. destruct x as [[]|[]| |[] m e]; apply _. Defined.

Lemma fexp_max z : fexp 53 1024 z = Z.max (z - 53) (-1074).
Proof. done. Qed.

Lemma units_nonneg x : 0 <= units x.
Proof. destruct x as [| | |[] m e]; simpl; try lia. Qed.

Lemma fin_exponent m e : fin (S754_finite false m e) -> -1074 <= e <= 971 /\ dg m <= 53.
Proof. simpl. rewrite fexp_max. lia. Qed.

(** ** Shifting out *)

Lemma shr_1_m r : 0 <= shr_m r -> shr_m (shr_1 r) = shr_m r / 2.
Proof.
  destruct r as [[|[p|p|]|p] b s]; simpl; intros Hm; try done; try lia.
  - change (Zpos p~1) with (2 * Zpos p + 1). apply (Z.div_unique _ 2 _ 1); lia.
  - change (Zpos p~0) with (2 * Zpos p). rewrite Z.mul_comm, Z.div_mul; lia.
Qed.

Lemma iter_shr_m n r : 0 <= shr_m r -> shr_m (SpecFloat.iter_pos shr_1 n r) = shr_m r / 2 ^ Zpos n.
Proof.
  intros Hm. rewrite iter_pos_spec. induction n as [|n IH] using Pos.peano_ind; [by apply shr_1_m|].
  rewrite Pos.iter_succ, Pos2Z.inj_succ, Z.pow_succ_r by lia. rewrite shr_1_m.
  - rewrite IH, Z.div_div by lia. f_equal. lia.
  - rewrite IH. apply Z.div_pos; [done|]. lia.
Qed.

Lemma shr_spec r e n : 0 <= shr_m r ->
  exists r', shr r e n = (r', e + Z.max 0 n) /\ shr_m r' = shr_m r / 2 ^ Z.max 0 n /\ (n <= 0 -> r' = r).
Proof.
  intros Hm. destruct n as [|n|n]; simpl.
  - exists r. rewrite Z.add_0_r, Z.div_1_r. done.
  - eexists. split; [reflexivity|]. split; [by apply iter_shr_m|lia].
  - exists r. rewrite Z.add_0_r, Z.div_1_r. done.
Qed.

Lemma record_m m l : shr_m (shr_record_of_loc m l) = m.
Proof. by destruct l as [|[]]. Qed.

Lemma round_nearest_even_between m l : m <= round_nearest_even m l <= m + 1.
Proof. destruct l as [|[]]; simpl; [lia| |lia|lia]. destruct (Z.even m); lia. Qed.

Lemma Zdigits2_bound m : 0 < m -> 2 ^ (Zdigits2 m - 1) <= m < 2 ^ Zdigits2 m.
Proof. destruct m as [|p|p]; try lia. intros _. apply dg_bounds. Qed.

Lemma Zdigits2_le m n : 0 <= n -> 0 <= m < 2 ^ n -> Zdigits2 m <= n.
Proof. destruct m as [|p|p]; simpl; try lia. intros. apply dg_le; lia. Qed.

Lemma Zdigits2_ge m n : 0 <= n -> 2 ^ n <= m -> n < Zdigits2 m.
Proof.
  intros Hn Hm. assert (0 < 2 ^ n) by (apply Z.pow_pos_nonneg; lia).
  pose proof (Zdigits2_bound m ltac:(lia)) as [_ Hb]. apply (Z.pow_lt_mono_r_iff 2); [lia| |lia].
  destruct m; simpl; lia.
Qed.

(** ** Rounding *)

(** The bits that are kept. *)
Definition kept (m e : Z) : Z := m / 2 ^ (fexp 53 1024 (Zdigits2 m + e) - e).

Lemma kept_range m e :
  0 <= m -> e <= fexp 53 1024 (Zdigits2 m + e) ->
  let E := fexp 53 1024 (Zdigits2 m + e) in
  0 <= kept m e < 2 ^ 53 /\ (-1074 < E -> 2 ^ 52 <= kept m e) /\
  kept m e * 2 ^ (E - e) <= m < (kept m e + 1) * 2 ^ (E - e).
Proof.
  intros Hm He. unfold kept. cbv zeta. set (E := fexp 53 1024 (Zdigits2 m + e)) in *.
  assert (HE : E = Z.max (Zdigits2 m + e - 53) (-1074)) by apply fexp_max.
  assert (Hp : 0 < 2 ^ (E - e)) by (apply Z.pow_pos_nonneg; lia).
  pose proof (Z.div_mod m (2 ^ (E - e)) ltac:(lia)) as Hd. pose proof (Z.mod_pos_bound m (2 ^ (E - e)) Hp).
  assert (0 <= m / 2 ^ (E - e)) by (apply Z.div_pos; lia).
  split_and!; [done| | |nia|nia].
  - destruct (Z.eq_dec m 0) as [->|Hm0]; [by rewrite Z.div_0_l by lia|].
    pose proof (Zdigits2_bound m ltac:(lia)) as [_ Hb]. apply Z.div_lt_upper_bound; [done|].
    rewrite <- Z.pow_add_r by lia. eapply Z.lt_le_trans; [exact Hb|]. apply Z.pow_le_mono_r; lia.
  - intros HE1. assert (Hm0 : m <> 0).
    { intros ->. cbn [Zdigits2] in HE. lia. }
    pose proof (Zdigits2_bound m ltac:(lia)) as [Hb _]. apply Z.div_le_lower_bound; [done|].
    rewrite <- Z.pow_add_r by lia. replace (E - e + 52) with (Zdigits2 m - 1) by lia. done.
Qed.

(** The second step of rounding, for a mantissa of 53 bits, or [2 ^ 53]. *)
Lemma normalize_kept M E :
  0 <= M <= 2 ^ 53 -> -1074 <= E <= 970 -> (-1074 < E -> 2 ^ 52 <= M) ->
  let '(r, e) := shr_fexp 53 1024 M E loc_Exact in
  let y := match shr_m r with
           | Z0 => S754_zero false
           | Zpos m => if e <=? 1024 - 53 then S754_finite false m e else S754_infinity false
           | Zneg _ => S754_nan end in
  fin y /\ units y = M * 2 ^ (E + 1074).
Proof.
  intros HM HE H52. unfold shr_fexp. change (shr_record_of_loc M loc_Exact) with {| shr_m := M; shr_r := false; shr_s := false |}.
  destruct (shr_spec {| shr_m := M; shr_r := false; shr_s := false |} E (fexp 53 1024 (Zdigits2 M + E) - E)) as (r & -> & Hr & Hr0);
    [simpl; lia|]. cbn [shr_m] in Hr. rewrite fexp_max in *.
  destruct (Z.eq_dec M (2 ^ 53)) as [->|Hne].
  - change (Zdigits2 (2 ^ 53)) with 54 in *. replace (Z.max 0 (Z.max (54 + E - 53) (-1074) - E)) with 1 in * by lia.
    rewrite Hr. change (2 ^ 53 / 2 ^ 1) with (Zpos (2 ^ 52)). destruct (Z.leb_spec (E + 1) (1024 - 53)); [|lia].
    split.
    + cbn [fin]. rewrite fexp_max. change (dg (2 ^ 52)) with 53. lia.
    + cbn [units]. replace (E + 1 + 1074) with (1 + (E + 1074)) by lia. rewrite Z.pow_add_r by lia. lia.
  - assert (Hd : Zdigits2 M <= 53) by (apply Zdigits2_le; lia).
    rewrite Hr0 by lia. cbn [shr_m]. replace (Z.max 0 (Z.max (Zdigits2 M + E - 53) (-1074) - E)) with 0 by lia.
    rewrite Z.add_0_r. destruct M as [|p|p]; [done| |lia]. destruct (Z.leb_spec E (1024 - 53)); [|lia].
    split; [|done]. cbn [fin]. rewrite fexp_max. split; [|lia]. change (dg p) with (Zdigits2 (Zpos p)).
    destruct (Z.eq_dec E (-1074)); [lia|]. assert (52 < Zdigits2 (Zpos p)) by (apply Zdigits2_ge; lia). lia.
Qed.

Lemma round_aux_spec m e l y :
  0 <= m -> e <= fexp 53 1024 (Zdigits2 m + e) <= 970 ->
  binary_round_aux 53 1024 false m e l = y ->
  let E := fexp 53 1024 (Zdigits2 m + e) in
  exists M, fin y /\ units y = M * 2 ^ (E + 1074) /\ kept m e <= M <= kept m e + 1 /\ (l = loc_Exact -> E = e -> M = m).
Proof.
  intros Hm He Ey E. destruct (kept_range m e Hm ltac:(lia)) as (Hk & H52 & _). fold E in He, H52.
  assert (HE : -1074 <= E) by (unfold E; rewrite fexp_max; lia).
  unfold binary_round_aux, shr_fexp at 1 in Ey. fold E in Ey.
  destruct (shr_spec (shr_record_of_loc m l) e (E - e)) as (r & Es & Hr & Hr0); [by rewrite record_m|].
  rewrite Es in Ey. rewrite record_m, Z.max_r in Hr by lia. change (m / 2 ^ (E - e)) with (kept m e) in Hr.
  rewrite Z.max_r in Ey by lia. replace (e + (E - e)) with E in Ey by lia.
  pose proof (round_nearest_even_between (shr_m r) (loc_of_shr_record r)) as Hb.
  set (M := round_nearest_even (shr_m r) (loc_of_shr_record r)) in *. rewrite Hr in Hb.
  pose proof (normalize_kept M E ltac:(lia) ltac:(lia) ltac:(lia)) as Hn.
  destruct (shr_fexp 53 1024 M E loc_Exact) as [r2 e2]. rewrite Ey in Hn. exists M. destruct Hn as [Hf Hu].
  split_and!; [exact Hf|exact Hu|lia..|]. intros -> HEe. specialize (Hr0 ltac:(lia)). subst M. by rewrite Hr0.
Qed.

(** ** The error of an operation *)

(** The exponent that a value below [2 ^ 1023] gets. *)
Lemma exponent_small m e s D X :
  0 <= m -> 0 < D -> 0 <= e + s -> 0 <= s + 1023 -> (m = 0 -> e <= 1023) -> m * 2 ^ (e + s) * D <= X -> X < 2 ^ (s + 1023) * D ->
  fexp 53 1024 (Zdigits2 m + e) <= 970.
Proof.
  intros Hm HD Hs Hs2 He Hl HX. rewrite fexp_max. destruct (Z.eq_dec m 0) as [->|Hm0]; [specialize (He eq_refl); simpl; lia|].
  pose proof (Zdigits2_bound m ltac:(lia)) as [Hb _].
  assert (Hd : 0 < Zdigits2 m) by (destruct m; simpl; lia).
  assert (Hlt : m * 2 ^ (e + s) < 2 ^ (s + 1023)) by nia.
  assert (Hp : 2 ^ (Zdigits2 m - 1 + (e + s)) < 2 ^ (s + 1023)).
  { rewrite Z.pow_add_r by lia. eapply Z.le_lt_trans; [|exact Hlt]. apply Z.mul_le_mono_nonneg_r; [|done].
    apply Z.pow_nonneg. lia. }
  apply Z.pow_lt_mono_r_iff in Hp; lia.
Qed.

(** [X] stands for [D] times the exact value, in units of [2 ^ -s]. *)
Lemma round_error m e l y s D X :
  0 <= m -> 0 < D -> 1074 <= s -> 0 <= e + s -> e <= fexp 53 1024 (Zdigits2 m + e) <= 970 ->
  binary_round_aux 53 1024 false m e l = y ->
  m * 2 ^ (e + s) * D <= X <= (m + 1) * 2 ^ (e + s) * D -> (l = loc_Exact -> X = m * 2 ^ (e + s) * D) ->
  fin y /\ prec * Z.abs (units y * 2 ^ (s - 1074) * D - X) <= X + prec * 2 ^ (s - 1074) * D /\
  (l = loc_Exact -> -1074 <= e -> prec * Z.abs (units y * 2 ^ (s - 1074) * D - X) <= X).
Proof.
  intros Hm HD Hs Hes He Ey HX Hexact.
  destruct (round_aux_spec m e l y Hm He Ey) as (M & Hf & Hu & HM & Hid).
  destruct (kept_range m e Hm ltac:(lia)) as (Hk & H52 & Hkm). cbv zeta in *.
  set (E := fexp 53 1024 (Zdigits2 m + e)) in *. set (k := kept m e) in *.
  assert (HE : -1074 <= E) by (unfold E; rewrite fexp_max; lia). clearbody E k.
  set (P := 2 ^ (E - e)) in *. set (Q := 2 ^ (e + s)) in *.
  assert (HP : 0 < P) by (apply Z.pow_pos_nonneg; lia). assert (HQ : 0 < Q) by (apply Z.pow_pos_nonneg; lia).
  assert (Ey' : units y * 2 ^ (s - 1074) = M * (P * Q)).
  { rewrite Hu. unfold P, Q. rewrite <- Z.mul_assoc, <- !Z.pow_add_r by lia. f_equal. f_equal. lia. }
  assert (Hab : Z.abs (M * (P * Q) * D - X) <= P * Q * D /\ k * (P * Q) * D <= X).
  { assert (k * P * Q * D <= m * Q * D) by (apply Z.mul_le_mono_nonneg_r; [lia|]; nia).
    assert ((m + 1) * Q * D <= (k + 1) * P * Q * D) by (apply Z.mul_le_mono_nonneg_r; [lia|]; nia).
    split; [|lia].
    assert (k * (P * Q * D) <= M * (P * Q * D) <= (k + 1) * (P * Q * D)) by nia. nia. }
  destruct Hab as [Hab HkX]. rewrite Ey'. split; [done|].
  assert (Hrel : -1074 < E -> prec * Z.abs (M * (P * Q) * D - X) <= X).
  { intros HE1. specialize (H52 HE1). unfold prec. assert (2 ^ 52 * (P * Q * D) <= k * (P * Q * D)) by nia. lia. }
  assert (HPQ : P * Q = 2 ^ (E + s)) by (unfold P, Q; rewrite <- Z.pow_add_r by lia; f_equal; lia).
  assert (HX0 : 0 <= X) by (assert (0 <= m * Q * D) by (apply Z.mul_nonneg_nonneg; [apply Z.mul_nonneg_nonneg|]; lia); lia).
  split.
  - destruct (Z.eq_dec E (-1074)) as [EE|HE1].
    + replace (2 ^ (s - 1074)) with (P * Q) by (rewrite HPQ; f_equal; lia).
      assert (prec * Z.abs (M * (P * Q) * D - X) <= prec * (P * Q * D)) by (apply Z.mul_le_mono_nonneg_l; [done|lia]). lia.
    + assert (0 <= prec * 2 ^ (s - 1074) * D).
      { apply Z.mul_nonneg_nonneg; [apply Z.mul_nonneg_nonneg; [done|]|lia]. apply Z.pow_nonneg. lia. }
      specialize (Hrel ltac:(lia)). lia.
  - intros Hl He1. destruct (Z.eq_dec E (-1074)) as [EE|HE1]; [|apply Hrel; lia].
    rewrite (Hid Hl ltac:(lia)), (Hexact Hl). assert (P = 1) as -> by (unfold P; replace (E - e) with 0 by lia; done).
    replace (m * (1 * Q) * D - m * Q * D) with 0 by lia. unfold prec. simpl. nia.
Qed.

Lemma exactly_between m p X D :
  X = m * 2 ^ p * D -> 0 <= D -> m * 2 ^ p * D <= X <= (m + 1) * 2 ^ p * D.
Proof.
  intros -> HD. split; [done|]. apply Z.mul_le_mono_nonneg_r; [done|]. apply Z.mul_le_mono_nonneg_r; [|lia].
  apply Z.pow_nonneg. lia.
Qed.

(** Below [2 ^ 1023]. *)
Definition bounded (x : Z) : Prop := x < 2 ^ (1074 + 1023).

Lemma binary_round_error p e X :
  -1074 <= e -> X = Zpos p * 2 ^ (e + 1074) -> bounded X ->
  fin (binary_round 53 1024 false p e) /\ prec * Z.abs (units (binary_round 53 1024 false p e) - X) <= X.
Proof.
  intros He HXp HX. unfold binary_round. set (E := fexp 53 1024 (Zpos (digits2_pos p) + e)).
  destruct (shl_align p e E) as [mz e'] eqn:Es. destruct (shl_align_spec p e E) as [E3 E4]. rewrite Es in E3, E4.
  cbn [fst snd] in E3, E4.
  assert (Hdz : Zdigits2 (Zpos mz) = dg p + Z.max 0 (e - E)) by (rewrite E3; apply dg_shift; lia).
  assert (HE : fexp 53 1024 (Zdigits2 (Zpos mz) + e') = E).
  { rewrite Hdz. unfold E, dg. f_equal. lia. }
  assert (HE1 : -1074 <= E) by (unfold E; rewrite fexp_max; lia).
  assert (HXz : X = Zpos mz * 2 ^ (e' + 1074) * 1).
  { rewrite HXp, E3, Z.mul_1_r, <- Z.mul_assoc, <- Z.pow_add_r by lia. do 2 f_equal. lia. }
  assert (H970 : E <= 970).
  { rewrite <- HE. eapply (exponent_small (Zpos mz) e' 1074 1); [lia|lia|lia|lia|lia|by apply Z.eq_le_incl, eq_sym, HXz|].
    unfold bounded in HX. lia. }
  destruct (round_error (Zpos mz) e' loc_Exact _ 1074 1 X
    ltac:(lia) ltac:(lia) ltac:(lia) ltac:(lia) ltac:(lia) eq_refl (exactly_between _ _ _ 1 HXz ltac:(lia)) (fun _ => HXz)) as (Hf & _ & Herr).
  split; [exact Hf|]. specialize (Herr eq_refl ltac:(lia)). rewrite Z.sub_diag, Z.pow_0_r, !Z.mul_1_r in Herr. exact Herr.
Qed.

Lemma fadd_error a b :
  fin a -> fin b -> bounded (units a + units b) ->
  fin (fadd a b) /\ prec * Z.abs (units (fadd a b) - (units a + units b)) <= units a + units b.
Proof.
  intros Ha Hb HX. pose proof (units_nonneg a). pose proof (units_nonneg b).
  destruct a as [[]|[]| |[] m1 e1]; try done; destruct b as [[]|[]| |[] m2 e2]; try done;
    try (split; [done|]; cbn [fadd SFadd units]; rewrite ?Z.add_0_l, ?Z.add_0_r, ?Z.sub_diag; unfold prec; simpl; lia).
  apply fin_exponent in Ha as [He1 Hd1]. apply fin_exponent in Hb as [He2 Hd2].
  unfold fadd. cbn [SFadd cond_Zopp]. set (ez := Z.min e1 e2).
  destruct (shl_align_spec m1 e1 ez) as [E1 _]. destruct (shl_align_spec m2 e2 ez) as [E2 _].
  destruct (Zpos (fst (shl_align m1 e1 ez)) + Zpos (fst (shl_align m2 e2 ez))) as [|p|p] eqn:Ep; [lia| |lia].
  cbn [binary_normalize]. apply binary_round_error; [lia| |done].
  cbn [units]. rewrite <- Ep, E1, E2, Z.mul_add_distr_r.
  rewrite <- !Z.mul_assoc, <- !Z.pow_add_r by lia. do 2 f_equal; f_equal; lia.
Qed.

Lemma fmul_error a b :
  fin a -> fin b -> units a * units b < 2 ^ (2148 + 1023) ->
  fin (fmul a b) /\ prec * Z.abs (units (fmul a b) * one - units a * units b) <= units a * units b + prec * one.
Proof.
  intros Ha Hb HX. assert (H1 : 0 < one) by (apply Z.pow_pos_nonneg; lia).
  destruct a as [[]|[]| |[] m1 e1]; try done; destruct b as [[]|[]| |[] m2 e2]; try done;
    try (split; [done|]; cbn [fmul SFmul units]; rewrite ?Z.mul_0_l, ?Z.mul_0_r; unfold prec; simpl; lia).
  apply fin_exponent in Ha as Ha'. destruct Ha' as [He1 Hd1]. apply fin_exponent in Hb as Hb'. destruct Hb' as [He2 Hd2].
  unfold fmul. cbn [SFmul xorb]. set (m := Zpos (m1 * m2)). set (e := e1 + e2).
  assert (HXz : units (S754_finite false m1 e1) * units (S754_finite false m2 e2) = m * 2 ^ (e + 2148) * 1).
  { cbn [units]. unfold m, e. rewrite Pos2Z.inj_mul. replace (e1 + e2 + 2148) with ((e1 + 1074) + (e2 + 1074)) by lia.
    rewrite (Z.pow_add_r 2 (e1 + 1074) (e2 + 1074)) by lia. ring. }
  assert (He : e <= fexp 53 1024 (Zdigits2 m + e)).
  { rewrite fexp_max. destruct Ha as [Hc1 _], Hb as [Hc2 _]. rewrite fexp_max in Hc1, Hc2. pose proof (dg_pos m1). pose proof (dg_pos m2).
    pose proof (dg_bounds m1) as [B1 _]. pose proof (dg_bounds m2) as [B2 _].
    assert (Hm : dg m1 + dg m2 - 2 < Zdigits2 m).
    { apply Zdigits2_ge; [lia|]. unfold m. rewrite Pos2Z.inj_mul. replace (dg m1 + dg m2 - 2) with ((dg m1 - 1) + (dg m2 - 1)) by lia.
      rewrite Z.pow_add_r by lia. apply Z.mul_le_mono_nonneg; try done; apply Z.pow_nonneg; lia. }
    unfold e. lia. }
  assert (H970 : fexp 53 1024 (Zdigits2 m + e) <= 970).
  { eapply (exponent_small m e 2148 1); [unfold m; lia|lia|lia|lia|unfold m; lia|by apply Z.eq_le_incl, eq_sym, HXz|lia]. }
  destruct (round_error m e loc_Exact _ 2148 1 (units (S754_finite false m1 e1) * units (S754_finite false m2 e2))
    ltac:(unfold m; lia) ltac:(lia) ltac:(lia) ltac:(lia) ltac:(lia) eq_refl (exactly_between _ _ _ 1 HXz ltac:(lia)) (fun _ => HXz)) as (Hf & Herr & _).
  split; [exact Hf|]. rewrite !Z.mul_1_r in Herr. change (2148 - 1074) with 1074 in Herr. exact Herr.
Qed.

Lemma new_location_exact n k : new_location n k = loc_Exact -> k = 0.
Proof.
  unfold new_location, new_location_even, new_location_odd. destruct (Z.even n), (Z.eqb_spec k 0); done.
Qed.

(** The integer quotient that [SFdiv] rounds. *)
Lemma div_core_spec m1 e1 m2 e2 q e l :
  -1074 <= e1 <= 971 -> -1074 <= e2 <= 971 ->
  SFdiv_core_binary 53 1024 (Zpos m1) e1 (Zpos m2) e2 = (q, e, l) ->
  let X := Zpos m1 * 2 ^ (e1 - e2 + 2148) in
  0 <= q /\ 0 <= e + 2148 /\ e <= fexp 53 1024 (Zdigits2 q + e) /\ (q = 0 -> e <= 1023) /\
  q * 2 ^ (e + 2148) * Zpos m2 <= X <= (q + 1) * 2 ^ (e + 2148) * Zpos m2 /\
  (l = loc_Exact -> X = q * 2 ^ (e + 2148) * Zpos m2).
Proof.
  intros He1 He2. unfold SFdiv_core_binary. rewrite fexp_max. cbn [Zdigits2].
  change (Zpos (digits2_pos m1)) with (dg m1). change (Zpos (digits2_pos m2)) with (dg m2).
  set (e' := Z.min _ (e1 - e2)). set (sh := e1 - e2 - e').
  assert (Hsh : 0 <= sh) by lia.
  assert (Em : (match sh with Zpos _ => Z.shiftl (Zpos m1) sh | Z0 => Zpos m1 | Zneg _ => 0 end) = Zpos m1 * 2 ^ sh).
  { destruct sh; [by rewrite Z.mul_1_r|by apply Z.shiftl_mul_pow2|lia]. }
  rewrite Em. pose proof (Z.div_mod (Zpos m1 * 2 ^ sh) (Zpos m2) ltac:(lia)) as Hdm.
  pose proof (Z.mod_pos_bound (Zpos m1 * 2 ^ sh) (Zpos m2) ltac:(lia)) as Hr.
  unfold Z.div, Z.modulo in Hdm, Hr. destruct (Z.div_eucl (Zpos m1 * 2 ^ sh) (Zpos m2)) as [q' r]. intros [= -> <- <-]. cbv zeta.
  assert (Hq : 0 <= q) by nia.
  assert (HX : Zpos m1 * 2 ^ (e1 - e2 + 2148) = Zpos m1 * 2 ^ sh * 2 ^ (e' + 2148)).
  { rewrite <- Z.mul_assoc, <- Z.pow_add_r by lia. do 2 f_equal. lia. }
  assert (HT : 0 < 2 ^ (e' + 2148)) by (apply Z.pow_pos_nonneg; lia).
  assert (Hbig : -1074 < e' -> 2 ^ 52 <= q).
  { intros He'. pose proof (dg_bounds m1) as [B1 _]. pose proof (dg_bounds m2) as [_ B2]. pose proof (dg_pos m1). pose proof (dg_pos m2).
    assert (2 ^ (dg m1 - 1 + sh) <= Zpos m1 * 2 ^ sh).
    { rewrite Z.pow_add_r by lia. apply Z.mul_le_mono_nonneg_r; [apply Z.pow_nonneg; lia|done]. }
    assert (2 ^ (dg m2 + 52) <= 2 ^ (dg m1 - 1 + sh)) by (apply Z.pow_le_mono_r; lia).
    rewrite (Z.pow_add_r 2 (dg m2) 52) in * by lia. nia. }
  split_and!; [done|lia| | | | |].
  - rewrite fexp_max. destruct (Z.le_gt_cases e' (-1074)); [lia|].
    assert (52 < Zdigits2 q) by (apply Zdigits2_ge; [lia|apply Hbig; lia]). lia.
  - intros ->. destruct (Z.le_gt_cases e' (-1074)); [lia|]. specialize (Hbig ltac:(lia)). lia.
  - rewrite HX. nia.
  - rewrite HX. nia.
  - intros ->%new_location_exact. rewrite HX, Hdm. ring.
Qed.

Lemma fdiv_error a b :
  fin a -> fin b -> 0 < units b -> units a * one < 2 ^ (1074 + 1023) * units b ->
  fin (fdiv a b) /\ prec * Z.abs (units (fdiv a b) * units b - units a * one) <= units a * one + prec * units b.
Proof.
  intros Ha Hb Hb0 HX. destruct b as [[]|[]| |[] m2 e2]; try done; try (simpl in Hb0; lia).
  destruct a as [[]|[]| |[] m1 e1]; try done.
  { split; [done|]. cbn [fdiv SFdiv xorb units]. rewrite Z.mul_0_l, Z.sub_0_l, Z.mul_0_l. change (Z.abs (- 0)) with 0.
    rewrite Z.mul_0_r, Z.add_0_l. apply Z.mul_nonneg_nonneg; [done|]. cbn [units] in Hb0. lia. }
  apply fin_exponent in Ha as [He1 _]. apply fin_exponent in Hb as [He2 _].
  unfold fdiv. cbn [SFdiv xorb].
  destruct (SFdiv_core_binary 53 1024 (Zpos m1) e1 (Zpos m2) e2) as [[q e] l] eqn:Eq.
  destruct (div_core_spec m1 e1 m2 e2 q e l He1 He2 Eq) as (Hq & Hes & Hfe & Hq0 & HXq & Hl). cbv zeta in *.
  set (X := Zpos m1 * 2 ^ (e1 - e2 + 2148)) in *. set (T := 2 ^ (e2 + 1074)).
  assert (HT : 0 < T) by (apply Z.pow_pos_nonneg; lia). assert (H1 : 0 < one) by (apply Z.pow_pos_nonneg; lia).
  assert (Ub : units (S754_finite false m2 e2) = Zpos m2 * T) by done.
  assert (Ua : X * T = units (S754_finite false m1 e1) * one * one).
  { unfold X, T. cbn [units]. unfold one. rewrite <- !Z.mul_assoc. f_equal. rewrite <- !Z.pow_add_r by lia. f_equal. lia. }
  assert (HXs : X < 2 ^ (2148 + 1023) * Zpos m2).
  { rewrite Ub in HX. replace (2 ^ (2148 + 1023)) with (2 ^ (1074 + 1023) * one) by (unfold one; rewrite <- Z.pow_add_r; [done|lia..]).
    generalize dependent (2 ^ (1074 + 1023)). intros W HW. nia. }
  destruct (round_error q e l _ 2148 (Zpos m2) X Hq ltac:(lia) ltac:(lia) Hes
    (conj Hfe (exponent_small q e 2148 (Zpos m2) X Hq ltac:(lia) Hes ltac:(lia) Hq0 (proj1 HXq) HXs)) eq_refl HXq Hl) as (Hf & Herr & _).
  split; [exact Hf|]. change (2 ^ (2148 - 1074)) with one in Herr. set (u := units (binary_round_aux _ _ _ _ _ _)) in *.
  rewrite Ub. set (A := units (S754_finite false m1 e1)) in *. clearbody A u X T.
  clear - Ua Herr H1 HT. revert H1 Ua Herr. generalize one as O. intros O H1 Ua Herr.
  apply (Z.mul_le_mono_pos_r _ _ O H1).
  replace (prec * Z.abs (u * (Zpos m2 * T) - A * O) * O) with (prec * (Z.abs (u * O * Zpos m2 - X) * T)).
  - replace ((A * O + prec * (Zpos m2 * T)) * O) with ((X + prec * O * Zpos m2) * T) by (rewrite Z.mul_add_distr_r, Ua; ring).
    rewrite Z.mul_assoc. apply Z.mul_le_mono_nonneg_r; [lia|done].
  - assert (E : Z.abs ((u * (Zpos m2 * T) - A * O) * O) = Z.abs ((u * O * Zpos m2 - X) * T)).
    { f_equal. rewrite !Z.mul_sub_distr_r, Ua. ring. }
    rewrite !Z.abs_mul, (Z.abs_eq O), (Z.abs_eq T) in E by lia. rewrite <- E. ring.
Qed.

(** ** Integers, truncation, [round] *)

Lemma one_pos : 0 < one.
Proof. by apply Z.pow_pos_nonneg. Qed.

Lemma bounded_pow x k : k <= 1022 -> x <= 2 ^ k * one -> bounded x.
Proof.
  intros Hk Hx. pose proof one_pos. unfold bounded. eapply Z.le_lt_trans; [exact Hx|].
  replace (2 ^ (1074 + 1023)) with (2 ^ 1023 * one) by (unfold one; by rewrite <- Z.pow_add_r).
  apply Z.mul_lt_mono_pos_r; [done|]. apply Z.pow_lt_mono_r; lia.
Qed.

Lemma of_Z_exact z : 0 <= z < 2 ^ 53 -> fin (of_Z z) /\ units (of_Z z) = z * one.
Proof.
  intros Hz. destruct z as [|p|p]; [done| |lia]. pose proof (dg_pos p) as Hd.
  assert (Hd' : dg p <= 53) by (apply dg_le; lia).
  unfold of_Z, dy. cbn [binary_normalize]. rewrite binary_round_canon by lia. unfold canon. cbn [fin units].
  set (m := Z.to_pos _). assert (Hm : Zpos m = Zpos p * 2 ^ (53 - dg p)).
  { unfold m. apply Z2Pos.id. apply Z.mul_pos_pos; [lia|]. apply Z.pow_pos_nonneg; lia. }
  split; [|rewrite Hm, <- Z.mul_assoc, <- Z.pow_add_r by lia; unfold one; do 2 f_equal; lia].
  rewrite fexp_max. change (dg m) with (Zdigits2 (Zpos m)). rewrite Hm, dg_shift by lia. lia.
Qed.

(** Beyond [2 ^ 53] too. *)
Lemma of_Z_error z :
  0 <= z <= 2 ^ 1000 -> fin (of_Z z) /\ prec * Z.abs (units (of_Z z) - z * one) <= z * one.
Proof.
  intros Hz. destruct z as [|p|p]; [done| |lia]. unfold of_Z, dy. cbn [binary_normalize].
  apply binary_round_error; [lia|done|]. apply (bounded_pow _ 1000); [lia|].
  pose proof one_pos. apply Z.mul_le_mono_nonneg_r; lia.
Qed.

Lemma trunc_units x :
  fin x -> exists z, trunc x = Some z /\ 0 <= z /\ z * one <= units x < (z + 1) * one.
Proof.
  pose proof one_pos. destruct x as [[]|[]| |[] m e]; try done; [exists 0; split_and!; [done|simpl; lia..]|].
  intros [He _]%fin_exponent. eexists. split; [reflexivity|]. cbn [units]. destruct (Z.leb_spec 0 e).
  - assert (0 < 2 ^ e) by (apply Z.pow_pos_nonneg; lia).
    rewrite Z.pow_add_r by lia. fold one. generalize dependent one. intros. split; nia.
  - assert (Hp : 0 < 2 ^ (- e)) by (apply Z.pow_pos_nonneg; lia).
    assert (Ho : one = 2 ^ (- e) * 2 ^ (e + 1074)) by (unfold one; rewrite <- Z.pow_add_r by lia; f_equal; lia).
    assert (Hq : 0 < 2 ^ (e + 1074)) by (apply Z.pow_pos_nonneg; lia). rewrite Ho.
    pose proof (Z.div_mod (Zpos m) (2 ^ (- e)) ltac:(lia)) as Hd. pose proof (Z.mod_pos_bound (Zpos m) (2 ^ (- e)) Hp).
    assert (0 <= Zpos m / 2 ^ (- e)) by (apply Z.div_pos; lia).
    generalize dependent (Zpos m / 2 ^ (- e)). generalize dependent (2 ^ (e + 1074)). generalize dependent (2 ^ (- e)).
    intros P. intros. split; [done|]. nia.
Qed.

Definition half : float64 := dy 1 (-1).

Lemma half_units : fin half /\ 2 * units half = one.
Proof. by vm_compute. Qed.

Lemma fltb_finite m e n d :
  fltb (S754_finite false m e) (S754_finite false n d) = true -> e < d \/ (e = d /\ Zpos m < Zpos n).
Proof.
  unfold fltb, SFltb. cbn [SFcompare]. destruct (Z.compare_spec e d) as [He|Hlt|Hgt]; [|by left|done].
  change (PosDef.Pos.compare_cont Eq m n) with (Pos.compare m n). intros Hc. right. split; [done|].
  by destruct (Pos.compare_spec m n) as [|Hm|].
Qed.

Lemma below_half x : fin x -> fltb x half = true -> 2 * units x <= one.
Proof.
  destruct x as [[]|[]| |[] m e]; try done. change half with (S754_finite false (2 ^ 52) (-53)).
  intros [He Hd]%fin_exponent [Hlt|[-> Hm]]%fltb_finite; cbn [units];
    (replace one with (2 * (2 ^ 52 * 2 ^ (-53 + 1074))) by (by vm_compute)); apply Z.mul_le_mono_nonneg_l; try lia.
  pose proof (dg_bounds m) as [_ Hm]. assert (2 ^ dg m <= 2 ^ 53) by (apply Z.pow_le_mono_r; lia).
  transitivity (2 ^ 53 * 2 ^ (e + 1074)); [apply Z.mul_le_mono_nonneg_r; [apply Z.pow_nonneg; lia|lia]|].
  rewrite <- !Z.pow_add_r by lia. apply Z.pow_le_mono_r; lia.
Qed.

(** [round] is off by a half, and by the error of the sum with a half. *)
Lemma round_fin f :
  fin f -> units f < 2 ^ 62 * one ->
  0 <= round f /\ 2 * (prec * Z.abs (round f * one - units f)) <= prec * one + 2 * units f + one.
Proof.
  intros Hf Hlt. pose proof one_pos as H1. pose proof (units_nonneg f) as Hu. destruct half_units as [Hh Hh2].
  unfold round. fold half.
  assert (Ha : fabs f = f) by (by destruct f as [[]|[]| |[]]). rewrite Ha.
  destruct (fltb f half) eqn:El.
  { pose proof (below_half f Hf El). split; [done|]. unfold prec. lia. }
  replace (copysign half f) with half by (by destruct f as [[]|[]| |[]]).
  destruct (fadd_error f half Hf Hh) as [Hg Herr].
  { unfold bounded. replace (2 ^ (1074 + 1023)) with (2 ^ 1023 * one) by (unfold one; by rewrite <- Z.pow_add_r).
    change (2 ^ 1023) with (2 ^ 63 * 2 ^ 960). assert (2 ^ 63 * one <= 2 ^ 63 * 2 ^ 960 * one); [|lia].
    apply Z.mul_le_mono_nonneg_r; lia. }
  destruct (trunc_units _ Hg) as (z & Ez & Hz0 & Hz). unfold to_int64. rewrite Ez.
  assert (Hz63 : z < 2 ^ 63) by (unfold prec in Herr; generalize dependent one; intros; nia).
  rewrite bool_decide_eq_true_2 by (unfold GoInt.is_i64; lia). split; [done|]. unfold prec in *. lia.
Qed.

(** ** Orders of magnitude *)

Lemma pow_units k : 0 <= k -> 2 ^ (1074 + k) = 2 ^ k * one.
Proof. intros Hk. rewrite Z.pow_add_r by lia. apply Z.mul_comm. Qed.

Lemma big_one : 2 ^ 1000 <= one.
Proof. by apply Z.pow_le_mono_r. Qed.

Lemma fmul_le a b x y :
  fin a -> fin b -> 0 <= x -> 0 <= y -> units a <= x * one -> units b <= y * one -> x * y <= 2 ^ 500 ->
  fin (fmul a b) /\ units (fmul a b) <= (2 * (x * y) + 1) * one.
Proof.
  intros Ha Hb Hx Hy Hax Hby Hxy. pose proof one_pos as H1. pose proof (units_nonneg a). pose proof (units_nonneg b).
  assert (Hab : units a * units b <= x * y * one * one).
  { replace (x * y * one * one) with (x * one * (y * one)) by ring. by apply Z.mul_le_mono_nonneg. }
  destruct (fmul_error a b Ha Hb) as [Hf Herr].
  { eapply Z.le_lt_trans; [exact Hab|]. replace (2 ^ (2148 + 1023)) with (2 ^ 1023 * one * one).
    - apply Z.mul_lt_mono_pos_r; [done|]. apply Z.mul_lt_mono_pos_r; [done|].
      eapply Z.le_lt_trans; [exact Hxy|]. by apply Z.pow_lt_mono_r.
    - unfold one. by rewrite <- !Z.pow_add_r. }
  split; [done|]. apply (Z.mul_le_mono_pos_r _ _ one H1).
  assert (one <= one * one) by nia. assert (0 <= units a * units b) by (by apply Z.mul_nonneg_nonneg). unfold prec in *. lia.
Qed.

Lemma fdiv_le a b x y :
  fin a -> fin b -> 0 <= x -> 0 <= y -> units a <= x * one -> one <= y * units b -> x * y <= 2 ^ 500 ->
  fin (fdiv a b) /\ units (fdiv a b) <= (2 * (x * y) + 1) * one.
Proof.
  intros Ha Hb Hx Hy Hax Hby Hxy. pose proof one_pos as H1. pose proof (units_nonneg a). pose proof (units_nonneg b) as Hb0.
  assert (Hbp : 0 < units b) by (destruct (Z.eq_dec (units b) 0) as [E|]; [rewrite E in Hby|]; lia).
  assert (Hab : units a * one <= x * y * one * units b).
  { transitivity (x * one * (y * units b)); [by apply Z.mul_le_mono_nonneg; lia|apply Z.eq_le_incl; ring]. }
  destruct (fdiv_error a b Ha Hb Hbp) as [Hf Herr].
  { eapply Z.le_lt_trans; [exact Hab|]. rewrite pow_units by lia.
    apply Z.mul_lt_mono_pos_r; [done|]. apply Z.mul_lt_mono_pos_r; [done|].
    eapply Z.le_lt_trans; [exact Hxy|]. by apply Z.pow_lt_mono_r. }
  split; [done|]. apply (Z.mul_le_mono_pos_r _ _ _ Hbp). assert (units b <= one * units b) by nia. unfold prec in *. lia.
Qed.

Lemma fdiv_ge a b x y :
  fin a -> fin b -> 0 < units b -> 0 <= x -> 0 <= y -> one <= x * units a -> units a <= 2 ^ 300 * units b ->
  units b <= y * one -> x * y <= 2 ^ 500 -> one <= 4 * (x * y) * units (fdiv a b).
Proof.
  intros Ha Hb Hbp Hx Hy Hax Hab Hby Hxy. pose proof one_pos as H1. pose proof big_one.
  pose proof (units_nonneg a). pose proof (units_nonneg (fdiv a b)).
  destruct (fdiv_error a b Ha Hb Hbp) as [_ Herr].
  { rewrite pow_units by lia. replace (2 ^ 1023 * one * units b) with (2 ^ 1023 * units b * one) by ring.
    apply Z.mul_lt_mono_pos_r; [done|]. eapply Z.le_lt_trans; [exact Hab|].
    apply Z.mul_lt_mono_pos_r; [done|]. by apply Z.pow_lt_mono_r. }
  set (d := units (fdiv a b)) in *. set (A := units a) in *. set (B := units b) in *. clearbody d A B.
  assert (Hdb : A * one <= 2 * (d * B) + 2 * B) by (unfold prec in *; lia).
  assert (Hdy : A * one <= (2 * (d * y) + 2 * y) * one).
  { assert (d * B <= d * (y * one)) by (by apply Z.mul_le_mono_nonneg_l). lia. }
  apply Z.mul_le_mono_pos_r in Hdy; [|done].
  assert (Hxd : x * A <= x * (2 * (d * y) + 2 * y)) by (by apply Z.mul_le_mono_nonneg_l).
  assert (2 * (x * y) <= 2 ^ 501) by lia. assert (2 ^ 501 * 2 <= 2 ^ 1000) by done. lia.
Qed.

(** ** Sums *)

(** [s] is the sum of [n] numbers, one after the other, whose exact sum is [E]. *)
Definition sum_of (n : Z) (s : float64) (E : Z) : Prop :=
  fin s /\ 0 <= E /\ prec * Z.abs (units s - E) <= 2 * n * E.

Lemma sum_of_none : sum_of 0 fzero 0.
Proof. done. Qed.

Lemma sum_of_add n s E e :
  sum_of n s E -> fin e -> 0 <= n <= 2 ^ 48 -> E + units e <= 2 ^ 200 * one ->
  sum_of (n + 1) (fadd s e) (E + units e).
Proof.
  intros (Hs & HE & Herr) He Hn Hb. pose proof (units_nonneg e). pose proof (units_nonneg s). pose proof one_pos.
  assert (Hs2 : prec * units s <= prec * E + 2 * n * E) by (unfold prec in *; lia).
  assert (HnE : 2 * n * E <= prec * E) by (apply Z.mul_le_mono_nonneg_r; unfold prec; lia).
  assert (Hs3 : units s <= 2 * E) by (unfold prec in *; lia).
  destruct (fadd_error s e Hs He) as [Hf Hadd].
  { apply (bounded_pow _ 201); [lia|]. change (2 ^ 201) with (2 * 2 ^ 200). lia. }
  split_and!; [done|lia|]. assert (0 <= n * units e) by nia. unfold prec in *. lia.
Qed.

(** ** Shares of an amount

    [n] parts are divided by their sum [S], multiplied by [R] and rounded:
    [B], [A] and [P] are the sums of the results. *)
Lemma shares_add_up n R O S E B A P :
  0 <= n <= 2 ^ 48 -> 0 <= R <= 2 ^ 48 -> n * R <= 2 ^ 48 -> 2 ^ 200 <= O ->
  0 < S -> 0 <= E -> 0 <= B -> 0 <= A ->
  prec * Z.abs (S - E) <= 2 * n * E -> prec * Z.abs (B * S - E * O) <= E * O + n * (prec * S) ->
  prec * Z.abs (A - B * R) <= B * R + n * prec -> 2 * prec * Z.abs (P * O - A) <= 2 * A + n * (prec * O + O) ->
  2 * Z.abs (P - R) <= n /\ B <= 2 * O.
Proof.
  intros Hn HR HnR HO HS HE HB HA H1 H2 H3 H4.
  assert (E7 : 7 * E <= 8 * S).
  { assert (2 * n * E <= 2 * 2 ^ 48 * E) by (apply Z.mul_le_mono_nonneg_r; lia). unfold prec in *. lia. }
  assert (B7 : 7 * (prec * Z.abs (B - O)) <= 8 * (2 * n + 1) * O + 7 * (n * prec)).
  { apply (Z.mul_le_mono_pos_r _ _ S HS).
    assert (Hx : Z.abs (B - O) * S = Z.abs ((B * S - E * O) - (S - E) * O)).
    { rewrite <- (Z.abs_eq S) at 1 by lia. rewrite <- Z.abs_mul. f_equal. ring. }
    assert (Hy : prec * Z.abs ((B * S - E * O) - (S - E) * O) <= E * O + n * (prec * S) + 2 * n * E * O).
    { assert (Z.abs ((S - E) * O) = Z.abs (S - E) * O) by (rewrite Z.abs_mul, (Z.abs_eq O); lia).
      assert (prec * Z.abs (S - E) * O <= 2 * n * E * O) by (apply Z.mul_le_mono_nonneg_r; lia). unfold prec in *. lia. }
    assert (Hz : 7 * ((2 * n + 1) * O * E) <= (2 * n + 1) * O * (8 * S)).
    { assert (0 <= (2 * n + 1) * O) by (apply Z.mul_nonneg_nonneg; lia).
      replace (7 * ((2 * n + 1) * O * E)) with ((2 * n + 1) * O * (7 * E)) by ring. by apply Z.mul_le_mono_nonneg_l. }
    rewrite <- Hx in Hy. lia. }
  assert (HnH : n * prec <= 2 ^ 100) by (unfold prec; lia).
  assert (HnO : n * O <= 2 ^ 48 * O) by (apply Z.mul_le_mono_nonneg_r; lia).
  assert (HRO : R * O <= 2 ^ 48 * O) by (apply Z.mul_le_mono_nonneg_r; lia).
  assert (HnRO : n * R * O <= 2 ^ 48 * O) by (apply Z.mul_le_mono_nonneg_r; lia).
  assert (B2 : B <= 2 * O) by (unfold prec in *; lia). split; [|exact B2].
  assert (HBR : B * R <= 2 * O * R) by (apply Z.mul_le_mono_nonneg_r; lia).
  assert (BR7 : 7 * (prec * Z.abs (B * R - R * O)) <= 16 * (n * R * O) + 8 * (R * O) + 7 * (n * R * prec)).
  { replace (B * R - R * O) with ((B - O) * R) by ring. rewrite Z.abs_mul, (Z.abs_eq R) by lia.
    apply (Z.mul_le_mono_nonneg_r _ _ R) in B7; lia. }
  assert (HnRH : n * R * prec <= 2 ^ 100) by (unfold prec; lia).
  assert (A7 : 7 * (prec * Z.abs (A - R * O)) <= 38 * 2 ^ 48 * O + 14 * 2 ^ 100) by (unfold prec in *; lia).
  assert (A2 : A <= 2 * 2 ^ 48 * O) by (unfold prec in *; lia).
  assert (A1 : 14 * A <= 28 * (R * O) + 2 * O + 28 * 2 ^ 100) by (unfold prec in *; lia).
  assert (Hp : 2 * Z.abs (P * O - R * O) * (7 * prec) < (n + 1) * O * (7 * prec)) by (unfold prec in *; lia).
  apply Z.mul_lt_mono_pos_r in Hp; [|done]. rewrite <- Z.mul_sub_distr_r, Z.abs_mul, (Z.abs_eq O), Z.mul_assoc in Hp by lia.
  apply Z.mul_lt_mono_pos_r in Hp; lia.
Qed.
