(* ===== verification/Miner.v ===== *)
(** * Miners ([type Miner] of [pkg/modelx/modelx.go])

    A miner keeps pointers to the parameters of its deadlines: one to those
    of the current block and, by block height, those of the confirmed ones.
    The same object can be reached both ways, and [UpdateOrCreateNonceSubmission]
    writes through the pointers, so the objects live in a store of their
    own: [objs] lists them by address. *)

From S2P Require Import Prelude GoFloat Shares.
Open Scope string_scope.
Open Scope list_scope.
Open Scope Z_scope.
Import GoInt.

Record DeadlineParams := mk_dp { Deadline : Z; BaseTarget : Z; Height : Z }.

#[export] Instance dp_eq_dec : EqDecision DeadlineParams.
Proof. solve_decision. Defined.

Record Miner := mk_Miner {
  ID : Z;
  Address : string;
  Name : string;
  Pending : Z;
  CurrentDeadlineParams : option nat;
  DeadlinesParams : gmap Z nat;
  WeightedDeadlineSum : float64;
  PayoutDetail : string;
  UserAgent : string;
  objs : list DeadlineParams
}.

(** ** Updates of fields *)

Definition set_name (s : string) (m : Miner) : Miner :=
  mk_Miner (ID m) (Address m) s (Pending m) (CurrentDeadlineParams m) (DeadlinesParams m)
    (WeightedDeadlineSum m) (PayoutDetail m) (UserAgent m) (objs m).
Definition set_pending (p : Z) (m : Miner) : Miner :=
  mk_Miner (ID m) (Address m) (Name m) p (CurrentDeadlineParams m) (DeadlinesParams m)
    (WeightedDeadlineSum m) (PayoutDetail m) (UserAgent m) (objs m).
Definition set_current (a : option nat) (m : Miner) : Miner :=
  mk_Miner (ID m) (Address m) (Name m) (Pending m) a (DeadlinesParams m)
    (WeightedDeadlineSum m) (PayoutDetail m) (UserAgent m) (objs m).
Definition set_confirmed (dps : gmap Z nat) (w : float64) (m : Miner) : Miner :=
  mk_Miner (ID m) (Address m) (Name m) (Pending m) (CurrentDeadlineParams m) dps
    w (PayoutDetail m) (UserAgent m) (objs m).
Definition set_payoutDetail (s : string) (m : Miner) : Miner :=
  mk_Miner (ID m) (Address m) (Name m) (Pending m) (CurrentDeadlineParams m) (DeadlinesParams m)
    (WeightedDeadlineSum m) s (UserAgent m) (objs m).
Definition set_userAgent (s : string) (m : Miner) : Miner :=
  mk_Miner (ID m) (Address m) (Name m) (Pending m) (CurrentDeadlineParams m) (DeadlinesParams m)
    (WeightedDeadlineSum m) (PayoutDetail m) s (objs m).
Definition set_objs (l : list DeadlineParams) (m : Miner) : Miner :=
  mk_Miner (ID m) (Address m) (Name m) (Pending m) (CurrentDeadlineParams m) (DeadlinesParams m)
    (WeightedDeadlineSum m) (PayoutDetail m) (UserAgent m) l.

(** A miner as the program creates it. *)
Definition new_miner (id : Z) (address name : string) (pending : Z) (detail : string) : Miner :=
  mk_Miner id address name pending None ∅ fzero detail "" [].

(** [&DeadlineParams{...}] *)
Definition alloc (dp : DeadlineParams) (m : Miner) : nat * Miner :=
  (length (objs m), set_objs (objs m ++ [dp]) m).

(** ** Operations *)

Section Operations.
Local Open Scope go_scope.

Definition deref (m : Miner) (a : nat) : option DeadlineParams := objs m !! a.

Definition weight_of (dp : DeadlineParams) : float64 := weightDeadline (Deadline dp) (BaseTarget dp).

(** [None]: a pointer without an object, which no run reaches ([wf]). *)
Definition removeDeadlineParams (height : Z) (m : Miner) : option Miner :=
  match DeadlinesParams m !! height with
  | Some a =>
      match deref m a with
      | Some dp => Some (set_confirmed (delete height (DeadlinesParams m))
                           (fsub (WeightedDeadlineSum m) (weight_of dp)) m)
      | None => None
      end
  | None => Some m
  end.

Definition addDeadlineParams (m : Miner) : option Miner :=
  match CurrentDeadlineParams m with
  | None => Some m
  | Some a =>
      match deref m a with
      | None => None
      | Some dp =>
          match DeadlinesParams m !! Height dp with
          | Some _ => Some m
          | None => Some (set_confirmed (<[Height dp := a]> (DeadlinesParams m))
                            (fadd (WeightedDeadlineSum m) (weight_of dp)) m)
          end
      end
  end.

Definition CurrentBlockHeight (m : Miner) : Z :=
  match CurrentDeadlineParams m ≫= deref m with Some dp => Height dp | None => 0 end.

Definition CurrentDeadline (m : Miner) : Z :=
  match CurrentDeadlineParams m ≫= deref m with
  | Some dp => Deadline dp
  | None => 2 ^ 64 - 1
  end.

Definition NConf (m : Miner) : Z := Z.of_nat (size (DeadlinesParams m)).

Definition CalculateEEPS (alphas : list float64) (m : Miner) : float64 :=
  eeps alphas (NConf m) (WeightedDeadlineSum m).

(** The write through the pointer to the current parameters. *)
Definition update_current_deadline (deadline : Z) (m : Miner) : option Miner :=
  match CurrentDeadlineParams m with
  | None => None
  | Some a =>
      match deref m a with
      | None => None
      | Some dp => Some (set_objs (<[a := mk_dp deadline (BaseTarget dp) (Height dp)]> (objs m)) m)
      end
  end.

(** The write through the pointer of a confirmed deadline, with the sum. *)
Definition update_confirmed (height deadline baseTarget : Z) (m : Miner) : option Miner :=
  match DeadlinesParams m !! height with
  | None => None
  | Some a =>
      match deref m a with
      | None => None
      | Some dp =>
          Some (set_objs (<[a := mk_dp deadline baseTarget height]> (objs m))
                 (set_confirmed (DeadlinesParams m)
                   (fadd (WeightedDeadlineSum m)
                     (fsub (weightDeadline deadline baseTarget) (weight_of dp))) m))
      end
  end.

(** The last block of [UpdateOrCreateNonceSubmission]: a new object. *)
Definition insert_deadline (height deadline baseTarget : Z) (m : Miner) : Miner :=
  let '(a, m') := alloc (mk_dp deadline baseTarget height) m in
  if CurrentBlockHeight m <? height then set_current (Some a) m'
  else set_confirmed (<[height := a]> (DeadlinesParams m'))
         (fadd (WeightedDeadlineSum m') (weightDeadline deadline baseTarget)) m'.

End Operations.

(** ** The values of the repository's tests *)

Definition empty_miner : Miner := new_miner 0 "" "" 0 "".

Example TestRemoveDeadlineParams :
  let m := set_objs [mk_dp 4 3 0] (set_confirmed {[999 := 0%nat]} fzero empty_miner) in
  removeDeadlineParams 1 m = Some m /\
  (WeightedDeadlineSum <$> removeDeadlineParams 999 m) = Some (of_Z (-12)).
Proof. by vm_compute. Qed.

(** ** The invariant

    Pointers are valid, parameters are filed under their height, and the
    weighted sum is the sum of the weights of the confirmed deadlines.  Sums
    of integers below [2 ^ 53] are exact in [float64]. *)

Definition weight_at (m : Miner) (a : nat) : Z :=
  match objs m !! a with Some dp => weight (Deadline dp) (BaseTarget dp) | None => 0 end.

Definition weight_sum (m : Miner) : Z :=
  map_fold (fun _ a acc => weight_at m a + acc) 0 (DeadlinesParams m).

Record wf (m : Miner) : Prop := {
  wf_confirmed : forall h a, DeadlinesParams m !! h = Some a -> exists dp, objs m !! a = Some dp /\ Height dp = h;
  wf_current : forall a, CurrentDeadlineParams m = Some a -> is_Some (objs m !! a)
}.

Definition exact_sum (m : Miner) : Prop :=
  small (weight_sum m) /\ WeightedDeadlineSum m = of_Z (weight_sum m).

Lemma map_fold_sum_insert (f : nat -> Z) (dps : gmap Z nat) h a :
  dps !! h = None ->
  map_fold (fun _ a acc => f a + acc) 0 (<[h := a]> dps) = f a + map_fold (fun _ a acc => f a + acc) 0 dps.
Proof. intros. apply (map_fold_insert_L (fun _ a acc => f a + acc)); [intros; lia|done]. Qed.

Lemma map_fold_sum_delete (f : nat -> Z) (dps : gmap Z nat) h a :
  dps !! h = Some a ->
  map_fold (fun _ a acc => f a + acc) 0 dps = f a + map_fold (fun _ a acc => f a + acc) 0 (delete h dps).
Proof.
  intros H. rewrite <- (map_fold_sum_insert f (delete h dps) h a) by apply lookup_delete_eq.
  by rewrite insert_delete_eq, insert_id.
Qed.

Lemma map_fold_sum_ext (f g : nat -> Z) (dps : gmap Z nat) :
  (forall h a, dps !! h = Some a -> f a = g a) ->
  map_fold (fun _ a acc => f a + acc) 0 dps = map_fold (fun _ a acc => g a + acc) 0 dps.
Proof.
  induction dps as [|h a dps Hn IH] using map_ind; intros H; [done|].
  rewrite !map_fold_sum_insert by done. f_equal.
  - apply (H h). apply lookup_insert_eq.
  - apply IH. intros h' a' Hh. apply (H h'). rewrite lookup_insert_ne; [done|congruence].
Qed.

Lemma weight_nonneg m a : 0 <= weight_at m a.
Proof.
  unfold weight_at, weight. destruct (objs m !! a); [|lia].
  apply u64_range.
Qed.

Lemma map_fold_sum_nonneg (f : nat -> Z) (dps : gmap Z nat) :
  (forall a, 0 <= f a) -> 0 <= map_fold (fun _ a acc => f a + acc) 0 dps.
Proof.
  intros Hf. induction dps as [|h a dps Hn IH] using map_ind; [done|].
  rewrite map_fold_sum_insert by done. specialize (Hf a). lia.
Qed.

Lemma weight_sum_nonneg m : 0 <= weight_sum m.
Proof. apply map_fold_sum_nonneg, weight_nonneg. Qed.

Lemma weight_sum_set_confirmed dps w m :
  weight_sum (set_confirmed dps w m) = map_fold (fun _ a acc => weight_at m a + acc) 0 dps.
Proof. done. Qed.

(** The sum of new confirmed deadlines, when it stays small. *)
Lemma exact_sum_confirm m dps' z :
  exact_sum m -> small z -> small (weight_sum m + z) ->
  weight_sum (set_confirmed dps' (fadd (WeightedDeadlineSum m) (of_Z z)) m) = weight_sum m + z ->
  exact_sum (set_confirmed dps' (fadd (WeightedDeadlineSum m) (of_Z z)) m).
Proof.
  intros [Hs E] Hz Hsz Esum. split; rewrite Esum; [done|]. simpl. rewrite E.
  by apply fadd_dy.
Qed.

Lemma small_le a b : 0 <= a <= b -> small b -> small a.
Proof. unfold small. lia. Qed.

Lemma weight_of_at m a dp : objs m !! a = Some dp -> weight_of dp = of_Z (weight_at m a).
Proof. intros H. unfold weight_of, weightDeadline, weight_at. by rewrite H. Qed.

(** Removing a height: total, and the sum follows. *)
Lemma removeDeadlineParams_spec m h :
  wf m -> exact_sum m ->
  exists m', removeDeadlineParams h m = Some m' /\ wf m' /\ exact_sum m' /\
             DeadlinesParams m' = delete h (DeadlinesParams m) /\
             CurrentDeadlineParams m' = CurrentDeadlineParams m /\ objs m' = objs m.
Proof.
  intros [Hc Hcur] [Hs E]. unfold removeDeadlineParams, deref.
  destruct (DeadlinesParams m !! h) as [a|] eqn:Ha.
  - destruct (Hc h a Ha) as (dp & Hdp & _). rewrite Hdp. eexists. split; [done|].
    assert (Esum := map_fold_sum_delete (weight_at m) _ _ _ Ha). fold (weight_sum m) in Esum.
    assert (H0 := weight_nonneg m a).
    assert (H1 := map_fold_sum_nonneg (weight_at m) (delete h (DeadlinesParams m)) (weight_nonneg m)).
    split_and!; try done.
    + split; simpl; [|done]. intros h' a' [_ Ha']%lookup_delete_Some. by apply Hc.
    + unfold exact_sum. rewrite weight_sum_set_confirmed.
      split; [apply (small_le _ (weight_sum m)); [lia|done]|]. simpl.
      rewrite E, (weight_of_at m a dp Hdp). unfold of_Z.
      rewrite fsub_dy; [f_equal; lia|unfold mid; lia|done|..];
        apply (small_le _ (weight_sum m)); done || lia.
  - exists m. split_and!; try done. by rewrite delete_id.
Qed.

(** Confirming the current deadline: total, and the sum follows. *)
Lemma addDeadlineParams_spec m :
  wf m -> exact_sum m ->
  small (weight_sum m + from_option (weight_at m) 0 (CurrentDeadlineParams m)) ->
  exists m', addDeadlineParams m = Some m' /\ wf m' /\ exact_sum m' /\
             (forall h, h <> CurrentBlockHeight m -> DeadlinesParams m' !! h = DeadlinesParams m !! h) /\
             (CurrentDeadlineParams m <> None -> is_Some (DeadlinesParams m' !! CurrentBlockHeight m)) /\
             CurrentDeadlineParams m' = CurrentDeadlineParams m /\ objs m' = objs m.
Proof.
  intros Hwf Hex Hsm. assert (Hwf' := Hwf). destruct Hwf' as [Hc Hcur].
  unfold addDeadlineParams, CurrentBlockHeight, deref.
  destruct (CurrentDeadlineParams m) as [a|] eqn:Ea; [|by exists m]. simpl in *.
  destruct (Hcur a eq_refl) as [dp Hdp]. rewrite Hdp. simpl.
  destruct (DeadlinesParams m !! Height dp) as [a'|] eqn:Ha'.
  { exists m. split_and!; try done; by rewrite Ha'. }
  eexists. split; [done|]. rewrite (weight_of_at m a dp Hdp) in *.
  assert (H0 := weight_nonneg m a). assert (H1 := weight_sum_nonneg m).
  split_and!; simpl.
  - split; simpl; [|by rewrite Ea]. intros h a1. rewrite lookup_insert_Some.
    intros [[<- <-]|[_ H]]; [by exists dp|by apply Hc].
  - apply exact_sum_confirm; [done|apply (small_le _ (weight_sum m + weight_at m a)); [lia|done]|done|].
    rewrite weight_sum_set_confirmed, map_fold_sum_insert by done. fold (weight_sum m). lia.
  - intros h Hh. by rewrite lookup_insert_ne by congruence.
  - by rewrite lookup_insert_eq.
  - done.
  - done.
Qed.

(** C36: removing any height and confirming the current deadline always
    succeed on a well-formed miner and keep the weighted sum equal to the sum
    of the weights of the confirmed deadlines, without rounding error, as long
    as the sum is below [2 ^ 53]. *)
Theorem deadline_sum_invariant (m : Miner) (h : Z) :
  wf m -> exact_sum m ->
  (exists m', removeDeadlineParams h m = Some m' /\ wf m' /\ exact_sum m' /\
              DeadlinesParams m' = delete h (DeadlinesParams m)) /\
  (small (weight_sum m + from_option (weight_at m) 0 (CurrentDeadlineParams m)) ->
   exists m', addDeadlineParams m = Some m' /\ wf m' /\ exact_sum m' /\
              (CurrentDeadlineParams m <> None -> is_Some (DeadlinesParams m' !! CurrentBlockHeight m))).
Proof.
  intros Hwf Hex. split.
  - destruct (removeDeadlineParams_spec m h Hwf Hex) as (m' & ? & ? & ? & ? & _). by exists m'.
  - intros Hsm. destruct (addDeadlineParams_spec m Hwf Hex Hsm) as (m' & ? & ? & ? & _ & ? & _).
    by exists m'.
Qed.

(** A miner with a confirmed deadline 4 at height 999 and a current one at 1000. *)
Definition two_deadlines : Miner :=
  set_objs [mk_dp 4 3 999; mk_dp 5 3 1000]
    (set_current (Some 1%nat) (set_confirmed {[999 := 0%nat]} (of_Z 12) empty_miner)).

Lemma two_deadlines_ok : wf two_deadlines /\ exact_sum two_deadlines.
Proof.
  split; [split; simpl|split; [unfold small; vm_compute; done|by vm_compute]].
  - intros h a [<- <-]%lookup_singleton_Some. by eexists.
  - intros a [= <-]. by eexists.
Qed.

Lemma deadline_sum_invariant_witness :
  exists m', removeDeadlineParams 999 two_deadlines = Some m' /\ exact_sum m'.
Proof.
  destruct (deadline_sum_invariant two_deadlines 999 (proj1 two_deadlines_ok) (proj2 two_deadlines_ok))
    as [(m' & H1 & _ & H2 & _) _].
  exists m'. split; [exact H1|exact H2].
Defined.

(** ** Writing through the pointer to the current deadline *)

Lemma weight_at_update_other m a b dp :
  a <> b -> weight_at (set_objs (<[a := dp]> (objs m)) m) b = weight_at m b.
Proof. intros H. unfold weight_at. simpl. by rewrite list_lookup_insert_ne. Qed.

(** A better deadline for the current block keeps the invariant when the
    current deadline is not confirmed yet; but when it is (the block was
    closed, and the miner still submits for it), the object is shared, its
    weight changes and the weighted sum does not: the two then differ. *)
Theorem update_current_deadline_sum (d : Z) :
  (forall m, wf m -> exact_sum m ->
    (forall a h, CurrentDeadlineParams m = Some a -> DeadlinesParams m !! h <> Some a) ->
    forall m', update_current_deadline d m = Some m' -> wf m' /\ exact_sum m') /\
  (exists m m', wf m /\ exact_sum m /\ addDeadlineParams two_deadlines = Some m /\
    update_current_deadline 2 m = Some m' /\ ~ exact_sum m').
Proof.
  split.
  - intros m [Hc Hcur] [Hs E] Hsep m'. unfold update_current_deadline, deref.
    destruct (CurrentDeadlineParams m) as [a|] eqn:Ea; [|done].
    destruct (objs m !! a) as [dp|] eqn:Hdp; [|done]. intros [= <-].
    split.
    + split; simpl.
      * intros h b Hb. destruct (decide (a = b)) as [->|Hne]; [by destruct (Hsep b h eq_refl)|].
        rewrite list_lookup_insert_ne by done. by apply Hc.
      * rewrite Ea. intros b [= <-]. rewrite list_lookup_insert_eq; [by eexists|by eapply lookup_lt_Some].
    + assert (Esum : weight_sum (set_objs (<[a := mk_dp d (BaseTarget dp) (Height dp)]> (objs m)) m) = weight_sum m).
      { apply map_fold_sum_ext. intros h b Hb. apply weight_at_update_other.
        intros ->. by destruct (Hsep b h eq_refl). }
      split; rewrite Esum; done.
  - destruct two_deadlines_ok as [Hwf Hex].
    destruct (addDeadlineParams_spec two_deadlines Hwf Hex) as (m & Hm & Hwf' & Hex' & _ & _ & _ & _).
    { unfold small. by vm_compute. }
    exists m. destruct (update_current_deadline 2 m) as [m'|] eqn:Hm'.
    + exists m'. split_and!; try done. intros [_ E].
      assert (Hv : Some m' = addDeadlineParams two_deadlines ≫= update_current_deadline 2) by by rewrite Hm.
      vm_compute in Hv. injection Hv as ->. by vm_compute in E.
    + assert (Hv : None = addDeadlineParams two_deadlines ≫= update_current_deadline 2) by by rewrite Hm.
      by vm_compute in Hv.
Qed.

(** ** Well-formedness of the other updates *)

Lemma wf_new_miner id address name p detail : wf (new_miner id address name p detail).
Proof. split; simpl; [set_solver|done]. Qed.

(** Updates that leave pointers and objects alone. *)
Lemma wf_same m m' :
  CurrentDeadlineParams m' = CurrentDeadlineParams m -> DeadlinesParams m' = DeadlinesParams m ->
  objs m' = objs m -> wf m -> wf m'.
Proof. intros E1 E2 E3 [H1 H2]. split; [by rewrite E2, E3|by rewrite E1, E3]. Qed.

Lemma wf_removeDeadlineParams h m m' : removeDeadlineParams h m = Some m' -> wf m -> wf m'.
Proof.
  unfold removeDeadlineParams. intros E [H1 H2].
  destruct (DeadlinesParams m !! h) as [a|]; [|by injection E as <-].
  destruct (deref m a); [|done]. injection E as <-. split; simpl; [|done].
  intros h' a' [_ Ha]%lookup_delete_Some. by apply H1.
Qed.

Lemma wf_addDeadlineParams m m' : addDeadlineParams m = Some m' -> wf m -> wf m'.
Proof.
  unfold addDeadlineParams, deref. intros E Hwf.
  destruct (CurrentDeadlineParams m) as [a|] eqn:Ea; [|by injection E as <-].
  destruct (objs m !! a) as [dp|] eqn:Hdp; [|done].
  destruct (DeadlinesParams m !! Height dp); [by injection E as <-|]. injection E as <-.
  destruct Hwf as [H1 H2]. split; simpl; [|done]. intros h a' [[<- <-]|[_ Ha]]%lookup_insert_Some; [by exists dp|by apply H1].
Qed.

(** Replacing an object by one of the same height. *)
Lemma wf_replace m a dp dp' :
  objs m !! a = Some dp -> Height dp' = Height dp -> wf m -> wf (set_objs (<[a := dp']> (objs m)) m).
Proof.
  intros Ha Hh [H1 H2]. split; simpl.
  - intros h b Hb. destruct (H1 h b Hb) as (x & Hx & Ex). destruct (decide (a = b)) as [->|Hne].
    + rewrite list_lookup_insert_eq by (by eapply lookup_lt_Some). exists dp'. split; [done|]. congruence.
    + rewrite list_lookup_insert_ne by done. by exists x.
  - intros b Hb. destruct (decide (a = b)) as [->|Hne].
    + rewrite list_lookup_insert_eq by (by eapply lookup_lt_Some). by eexists.
    + rewrite list_lookup_insert_ne by done. by apply H2.
Qed.

Lemma wf_update_current_deadline d m m' : update_current_deadline d m = Some m' -> wf m -> wf m'.
Proof.
  unfold update_current_deadline, deref. intros E Hwf.
  destruct (CurrentDeadlineParams m) as [a|]; [|done]. destruct (objs m !! a) as [dp|] eqn:Hdp; [|done].
  injection E as <-. by eapply wf_replace.
Qed.

Lemma wf_update_confirmed h d bt m m' : update_confirmed h d bt m = Some m' -> wf m -> wf m'.
Proof.
  unfold update_confirmed, deref. intros E Hwf.
  destruct (DeadlinesParams m !! h) as [a|] eqn:Ha; [|done]. destruct (objs m !! a) as [dp|] eqn:Hdp; [|done].
  injection E as <-. destruct (wf_confirmed m Hwf h a Ha) as (dp' & Hdp' & Hh).
  apply (wf_replace (set_confirmed (DeadlinesParams m) _ m) a dp); [done|simpl; congruence|by apply (wf_same m)].
Qed.

Lemma wf_alloc dp m : wf m -> wf (alloc dp m).2.
Proof.
  intros [H1 H2]. split; simpl.
  - intros h a Ha. destruct (H1 h a Ha) as (x & Hx & Ex). exists x. split; [by apply lookup_app_l_Some|done].
  - intros a Ha. destruct (H2 a Ha) as [x Hx]. exists x. by apply lookup_app_l_Some.
Qed.

Lemma alloc_lookup dp m : objs (alloc dp m).2 !! (alloc dp m).1 = Some dp.
Proof. simpl. by rewrite list_lookup_middle. Qed.

Lemma wf_set_current a m : is_Some (objs m !! a) -> wf m -> wf (set_current (Some a) m).
Proof. intros Ha [H1 H2]. split; simpl; [done|]. by intros b [= <-]. Qed.

Lemma wf_set_confirmed h a dp w m :
  objs m !! a = Some dp -> Height dp = h -> wf m -> wf (set_confirmed (<[h := a]> (DeadlinesParams m)) w m).
Proof.
  intros Ha Hh [H1 H2]. split; simpl; [|done].
  intros h' a' [[<- <-]|[_ Hb]]%lookup_insert_Some; [by exists dp|by apply H1].
Qed.

Lemma wf_insert_deadline h d bt m : wf m -> wf (insert_deadline h d bt m).
Proof.
  intros Hwf. unfold insert_deadline.
  pose proof (alloc_lookup (mk_dp d bt h) m) as Hl. pose proof (wf_alloc (mk_dp d bt h) m Hwf) as Ha.
  destruct (alloc (mk_dp d bt h) m) as [a m']. simpl in *.
  destruct (CurrentBlockHeight m <? h); [apply wf_set_current; [by eexists|done]|by eapply wf_set_confirmed].
Qed.

(** Whose miner it is never changes. *)
Ltac same_id :=
  intros;
  repeat match goal with
  | E : context [match ?x with _ => _ end] |- _ => destruct x eqn:?
  end; simplify_eq/=; try done.

Lemma ID_removeDeadlineParams h m m' : removeDeadlineParams h m = Some m' -> ID m' = ID m.
Proof. unfold removeDeadlineParams. same_id. Qed.
Lemma ID_addDeadlineParams m m' : addDeadlineParams m = Some m' -> ID m' = ID m.
Proof. unfold addDeadlineParams. same_id. Qed.
Lemma ID_update_current_deadline d m m' : update_current_deadline d m = Some m' -> ID m' = ID m.
Proof. unfold update_current_deadline. same_id. Qed.
Lemma ID_update_confirmed h d bt m m' : update_confirmed h d bt m = Some m' -> ID m' = ID m.
Proof. unfold update_confirmed. same_id. Qed.
Lemma ID_insert_deadline h d bt m : ID (insert_deadline h d bt m) = ID m.
Proof. unfold insert_deadline. simpl. by destruct (_ <? _). Qed.
