(* ===== verification/DB.v ===== *)
(** * The database

    The tables of [migrations/2_initial_create.up.sql] and
    [migrations/3_multiout_transactions.up.sql] as finite maps from primary
    keys to rows, and the effect of the SQL statements the pool sends, one
    definition per statement; the statements are in [pkg/modelx/modelx.go].

    A statement gives an error where the schema makes the server refuse it: a
    duplicate key, a foreign key without its row, a signed amount out of the
    range of its column, a name too long for its column ([STRICT_TRANS_TABLES],
    the default of MariaDB since 10.2).  The unsigned columns - ids, heights,
    deadlines, nonces, base targets - take [uint64] values, which they hold.
    [ON DELETE CASCADE] is [prune]: rows whose foreign key
    has lost its row go, until none is left.

    Times are nanoseconds, and a [DATETIME] column holds seconds. *)

From Stdlib Require Import Ascii String.
From S2P Require Import Prelude.
Import GoInt.

(** ** Rows *)

Record account_row := mk_account {
  a_address : string;
  a_name : option string;
  a_pending : Z;
  a_min_payout_value : option Z;
  a_payout_interval : option string;
  a_next_payout_date : option Z
}.

Record ns_row := mk_ns {
  ns_miner : Z;
  ns_height : Z;
  ns_deadline : Z;
  ns_nonce : Z
}.

Record block_row := mk_block_row {
  b_base_target : Z;
  b_scoop : Z;
  b_generation_signature : string;
  b_winner_verified : bool;
  b_reward : option Z;
  b_winner_id : option Z;
  b_best : option Z;
  b_created : Z;
  b_generation_time : Z
}.

Record tx_row := mk_tx {
  t_transaction_id : option Z;
  t_block_height : option Z;
  t_created : Z
}.

Record recipient_row := mk_recipient {
  r_transaction : Z;
  r_recipient : Z;
  r_amount : Z
}.

(** The auto-increment counters are the next free ids. *)
Record DB := mk_DB {
  account : gmap Z account_row;
  miner : gmap Z (option Z);
  nonce_submission : gmap Z ns_row;
  block : gmap Z block_row;
  transaction : gmap Z tx_row;
  transaction_recipient : gmap Z recipient_row;
  next_ns : Z;
  next_tx : Z;
  next_recipient : Z
}.

Definition empty_DB : DB := mk_DB ∅ ∅ ∅ ∅ ∅ ∅ 1 1 1.

Definition with_account (x : gmap Z account_row) (d : DB) : DB :=
  mk_DB x (miner d) (nonce_submission d) (block d) (transaction d) (transaction_recipient d)
    (next_ns d) (next_tx d) (next_recipient d).
Definition with_miner (x : gmap Z (option Z)) (d : DB) : DB :=
  mk_DB (account d) x (nonce_submission d) (block d) (transaction d) (transaction_recipient d)
    (next_ns d) (next_tx d) (next_recipient d).
Definition with_ns (x : gmap Z ns_row) (n : Z) (d : DB) : DB :=
  mk_DB (account d) (miner d) x (block d) (transaction d) (transaction_recipient d)
    n (next_tx d) (next_recipient d).
Definition with_block (x : gmap Z block_row) (d : DB) : DB :=
  mk_DB (account d) (miner d) (nonce_submission d) x (transaction d) (transaction_recipient d)
    (next_ns d) (next_tx d) (next_recipient d).
Definition with_tx (x : gmap Z tx_row) (n : Z) (d : DB) : DB :=
  mk_DB (account d) (miner d) (nonce_submission d) (block d) x (transaction_recipient d)
    (next_ns d) n (next_recipient d).
Definition with_recipient (x : gmap Z recipient_row) (n : Z) (d : DB) : DB :=
  mk_DB (account d) (miner d) (nonce_submission d) (block d) (transaction d) x
    (next_ns d) (next_tx d) n.

(** ** Errors, dates and predicates *)

Inductive sql_error :=
| Duplicate_key
| Foreign_key
| Out_of_range
| Data_too_long
| Unknown_column
| Syntax_error
| No_rows
| Connection_lost.

#[export] Instance sql_error_eq_dec : EqDecision sql_error.
Proof. solve_decision. Defined.

(** MariaDB, which the README asks for, drops the fraction of a second of a
    time stored into a [DATETIME] column (MySQL would round it). *)
Definition datetime (t : Z) : Z := t / 10 ^ 9.
Definition sql_now (t : Z) : Z := t / 10 ^ 9.

(** [column <= date] of a [DATETIME] column and a time. *)
Definition date_le (column t : Z) : bool := column * 10 ^ 9 <=? t.

Definition opt_test {A} (P : A -> bool) (o : option A) : bool :=
  match o with Some a => P a | None => false end.

(** ** Lengths

    [VARCHAR(n)] holds [n] characters; a character of a UTF-8 string is a byte
    with the continuation bytes that follow it. *)

Definition continues (c : ascii) : bool := ((128 <=? Z.of_nat (nat_of_ascii c)) && (Z.of_nat (nat_of_ascii c) <? 192))%Z.

Fixpoint char_count (s : string) : nat :=
  match s with
  | EmptyString => 0
  | String c s' => if continues c then char_count s' else S (char_count s')
  end.

(** [VARCHAR(n)], when the rest is cut off. *)
Fixpoint take_chars (n : nat) (s : string) : string :=
  match s with
  | EmptyString => EmptyString
  | String c s' =>
      if continues c then String c (take_chars n s')
      else match n with O => EmptyString | S n' => String c (take_chars n' s') end
  end.

Definition address_length : nat := 20.
Definition name_length : nat := 100.
Definition interval_length : nat := 20.
Definition signature_length : nat := 64.

Lemma take_chars_count n s : (char_count (take_chars n s) <= n)%nat.
Proof.
  revert n. induction s as [|c s IH]; intros n; simpl; [lia|]. destruct (continues c) eqn:E; simpl; [by rewrite E|].
  destruct n as [|n]; simpl; [lia|]. rewrite E. specialize (IH n). lia.
Qed.

(** What fits is not cut. *)
Lemma take_chars_all n s : (char_count s <= n)%nat -> take_chars n s = s.
Proof.
  revert n. induction s as [|c s IH]; intros n; simpl; [done|]. destruct (continues c); [intros; by rewrite IH|].
  destruct n as [|n]; [lia|]. intros. rewrite IH; [done|lia].
Qed.

Lemma char_count_length s : (char_count s <= String.length s)%nat.
Proof. induction s as [|c s IH]; simpl; [done|]. destruct (continues c); lia. Qed.

(** ** [ON DELETE CASCADE] *)

Definition fk {A} (target : gmap Z A) (o : option Z) : bool :=
  match o with None => true | Some k => bool_decide (is_Some (target !! k)) end.

(** The rows whose foreign keys all have their row. *)
Definition prune_step (d : DB) : DB :=
  mk_DB (account d)
    (filter (fun p => fk (account d) (Some p.1) = true) (miner d))
    (filter (fun p => fk (account d) (Some (ns_miner p.2)) && fk (block d) (Some (ns_height p.2)) = true)
       (nonce_submission d))
    (filter (fun p => fk (account d) (b_winner_id p.2) && fk (nonce_submission d) (b_best p.2) = true) (block d))
    (filter (fun p => fk (block d) (t_block_height p.2) = true) (transaction d))
    (filter (fun p => fk (account d) (Some (r_recipient p.2)) && fk (transaction d) (Some (r_transaction p.2)) = true)
       (transaction_recipient d))
    (next_ns d) (next_tx d) (next_recipient d).

(** A chain of cascades alternates between blocks and nonce submissions and
    ends in transactions and their recipients. *)
Definition prune (d : DB) : DB :=
  Nat.iter (size (block d) + size (nonce_submission d) + 3)%nat prune_step d.

(** ** Statements on [account] *)

Definition add_to_pending (z : Z) (r : account_row) : account_row :=
  mk_account (a_address r) (a_name r) (a_pending r + z) (a_min_payout_value r) (a_payout_interval r)
    (a_next_payout_date r).

(** [INSERT IGNORE INTO account (id, address, name)]: strings that are too long
    are cut off. *)
Definition insert_account (id : Z) (address : string) (name : option string) (d : DB) : result sql_error DB :=
  let address := take_chars address_length address in
  Ok (if bool_decide (is_Some (account d !! id)) ||
         existsb (fun p => bool_decide (a_address p.2 = address)) (map_to_list (account d))
      then d
      else with_account (<[id := mk_account address (take_chars name_length <$> name) 0 None None None]> (account d)) d).

(** [UPDATE account SET pending = pending + ? WHERE id = ?] *)
Definition add_pending (z id : Z) (d : DB) : result sql_error DB :=
  match account d !! id with
  | None => Ok d
  | Some r =>
      if bool_decide (is_i64 (a_pending r + z))
      then Ok (with_account (<[id := add_to_pending z r]> (account d)) d)
      else Err Out_of_range
  end.

(** [UPDATE account SET next_payout_date = ? WHERE id = ?] *)
Definition set_next_payout_date (t : option Z) (id : Z) (d : DB) : result sql_error DB :=
  Ok (with_account (alter (fun r => mk_account (a_address r) (a_name r) (a_pending r)
        (a_min_payout_value r) (a_payout_interval r) (datetime <$> t)) id (account d)) d).

(** [UPDATE account SET name = ? WHERE id = ?] *)
Definition set_account_name (name : string) (id : Z) (d : DB) : result sql_error DB :=
  if bool_decide (is_Some (account d !! id)) && (name_length <? char_count name)%nat then Err Data_too_long
  else Ok (with_account (alter (fun r => mk_account (a_address r) (Some name) (a_pending r)
        (a_min_payout_value r) (a_payout_interval r) (a_next_payout_date r)) id (account d)) d).

(** The statement [setMinPayoutSQL]. *)
Definition set_payout (minPayout : option Z) (interval : option string) (next : option Z) (cost id : Z)
    (d : DB) : result sql_error DB :=
  match account d !! id with
  | None => Ok d
  | Some r =>
      if bool_decide (is_i64 (a_pending r - cost))
      then Ok (with_account (<[id := mk_account (a_address r) (a_name r) (a_pending r - cost)
                 minPayout interval (datetime <$> next)]> (account d)) d)
      else Err Out_of_range
  end.

(** ** Statements on [miner] *)

Definition insert_miner (id : Z) (d : DB) : result sql_error DB :=
  Ok (if bool_decide (is_Some (miner d !! id)) || negb (fk (account d) (Some id)) then d
      else with_miner (<[id := None]> (miner d)) d).

Definition set_capacity (capacity id : Z) (d : DB) : result sql_error DB :=
  Ok (with_miner (alter (fun _ => Some capacity) id (miner d)) d).

(** ** Statements on [block] *)

Definition insert_block (height : Z) (r : block_row) (d : DB) : result sql_error DB :=
  if bool_decide (is_Some (block d !! height)) then Err Duplicate_key
  else Ok (with_block (<[height := r]> (block d)) d).

Definition set_generation_time (t height : Z) (d : DB) : result sql_error DB :=
  Ok (with_block (alter (fun r => mk_block_row (b_base_target r) (b_scoop r) (b_generation_signature r)
        (b_winner_verified r) (b_reward r) (b_winner_id r) (b_best r) (b_created r) t) height (block d)) d).

Definition set_best (best : option Z) (r : block_row) : block_row :=
  mk_block_row (b_base_target r) (b_scoop r) (b_generation_signature r) (b_winner_verified r)
    (b_reward r) (b_winner_id r) best (b_created r) (b_generation_time r).

Definition set_verified (r : block_row) : block_row :=
  mk_block_row (b_base_target r) (b_scoop r) (b_generation_signature r) true
    (b_reward r) (b_winner_id r) (b_best r) (b_created r) (b_generation_time r).

(** The id of the submission of a miner on a block. *)
Definition find_ns (height miner_id : Z) (d : DB) : option Z :=
  (fun q : nat * (Z * ns_row) => q.2.1) <$>
    list_find (fun p : Z * ns_row => ns_height p.2 = height /\ ns_miner p.2 = miner_id)
      (map_to_list (nonce_submission d)).

(** [UpdateBestSubmission] *)
Definition update_best (miner_id height : Z) (d : DB) : result sql_error DB :=
  Ok (with_block (alter (set_best (find_ns height miner_id d)) height (block d)) d).

(** [UPDATE block SET winner_verified = 1 WHERE height = ?] *)
Definition verify_block (height : Z) (d : DB) : result sql_error DB :=
  Ok (with_block (alter set_verified height (block d)) d).

(** The update of [rewardBlock]. *)
Definition update_won_block (reward winner height : Z) (d : DB) : result sql_error DB :=
  match block d !! height with
  | None => Ok d
  | Some r =>
      if fk (account d) (Some winner)
      then Ok (with_block (<[height := mk_block_row (b_base_target r) (b_scoop r) (b_generation_signature r)
                 true (Some reward) (Some winner) (b_best r) (b_created r) (b_generation_time r)]> (block d)) d)
      else Err Foreign_key
  end.

(** ** Statements on [nonce_submission] *)

Definition insert_ns (miner_id height deadline nonce : Z) (d : DB) : result sql_error DB :=
  if bool_decide (is_Some (find_ns height miner_id d)) then Err Duplicate_key
  else if negb (fk (account d) (Some miner_id) && fk (block d) (Some height)) then Err Foreign_key
  else Ok (with_ns (<[next_ns d := mk_ns miner_id height deadline nonce]> (nonce_submission d)) (next_ns d + 1) d).

Definition update_ns (deadline nonce miner_id height : Z) (d : DB) : result sql_error DB :=
  Ok (with_ns ((fun r => if (ns_miner r =? miner_id) && (ns_height r =? height)
                         then mk_ns miner_id height deadline nonce else r) <$> nonce_submission d) (next_ns d) d).

(** ** Statements on [transaction] and [transaction_recipient] *)

(** [INSERT INTO transaction (id) VALUES(NULL)], with [LastInsertId]. *)
Definition insert_tx (now : Z) (d : DB) : result sql_error (Z * DB) :=
  Ok (next_tx d, with_tx (<[next_tx d := mk_tx None None (sql_now now)]> (transaction d)) (next_tx d + 1) d).

Definition insert_recipient (tx recipient amount : Z) (d : DB) : result sql_error DB :=
  if negb (fk (transaction d) (Some tx) && fk (account d) (Some recipient)) then Err Foreign_key
  else Ok (with_recipient (<[next_recipient d := mk_recipient tx recipient amount]> (transaction_recipient d))
             (next_recipient d + 1) d).

(** [UPDATE transaction SET transaction_id = ?, created = NOW() WHERE id = ?] *)
Definition set_tx_id (txID now id : Z) (d : DB) : result sql_error DB :=
  Ok (with_tx (alter (fun r => mk_tx (Some txID) (t_block_height r) (sql_now now)) id (transaction d)) (next_tx d) d).

(** [UPDATE transaction SET transaction_id = NULL WHERE transaction_id = ?] *)
Definition clear_tx_id (txID : Z) (d : DB) : result sql_error DB :=
  Ok (with_tx ((fun r => if bool_decide (t_transaction_id r = Some txID)
                         then mk_tx None (t_block_height r) (t_created r) else r) <$> transaction d) (next_tx d) d).

(** The statement with [IF EXISTS] of [validateTransactions]. *)
Definition confirm_tx (height txID : Z) (d : DB) : result sql_error DB :=
  if bool_decide (is_Some (block d !! height))
  then Ok (with_tx ((fun r => if bool_decide (t_transaction_id r = Some txID)
                              then mk_tx (Some txID) (Some height) (t_created r) else r) <$> transaction d)
             (next_tx d) d)
  else Ok (prune (with_tx (filter (fun p => t_transaction_id p.2 <> Some txID) (transaction d)) (next_tx d) d)).

(** ** Money *)

Definition sum_values {A} (f : A -> Z) (m : gmap Z A) : Z := map_fold (fun _ a acc => f a + acc) 0 m.

(** The sum of the pending amounts of all accounts. *)
Definition total_pending (d : DB) : Z := sum_values a_pending (account d).

(** The sum of the amounts of all recorded payments. *)
Definition total_paid (d : DB) : Z := sum_values r_amount (transaction_recipient d).

Lemma sum_insert {A} (f : A -> Z) (m : gmap Z A) k a :
  m !! k = None -> sum_values f (<[k := a]> m) = f a + sum_values f m.
Proof. intros. apply (map_fold_insert_L (fun _ a acc => f a + acc)); [intros; lia|done]. Qed.

Lemma sum_delete {A} (f : A -> Z) (m : gmap Z A) k a :
  m !! k = Some a -> sum_values f m = f a + sum_values f (delete k m).
Proof.
  intros H. rewrite <- (sum_insert f (delete k m) k a) by apply lookup_delete_eq.
  by rewrite insert_delete_eq, insert_id.
Qed.

Lemma sum_update {A} (f : A -> Z) (m : gmap Z A) k a b :
  m !! k = Some a -> sum_values f (<[k := b]> m) = sum_values f m + f b - f a.
Proof.
  intros H. rewrite (sum_delete f m k a H), <- insert_delete_eq, sum_insert by apply lookup_delete_eq. lia.
Qed.

Lemma sum_fmap {A} (f : A -> Z) (g : A -> A) (m : gmap Z A) :
  (forall a, f (g a) = f a) -> sum_values f (g <$> m) = sum_values f m.
Proof.
  intros H. induction m as [|k a m Hn IH] using map_ind; [done|].
  rewrite fmap_insert, !sum_insert, IH, H by (done || by rewrite lookup_fmap, Hn). done.
Qed.

Lemma sum_alter {A} (f : A -> Z) (g : A -> A) (m : gmap Z A) k :
  (forall a, f (g a) = f a) -> sum_values f (alter g k m) = sum_values f m.
Proof.
  intros H. destruct (m !! k) as [a|] eqn:E.
  - assert (alter g k m = <[k := g a]> m) as ->.
    { apply map_eq. intros j. rewrite lookup_alter, lookup_insert. case_decide; subst; by rewrite ?E. }
    rewrite (sum_update f m k a) by done. rewrite H. lia.
  - assert (alter g k m = m) as ->; [|done].
    apply map_eq. intros j. rewrite lookup_alter. case_decide; subst; by rewrite ?E.
Qed.

Lemma find_ns_None h id d k r :
  find_ns h id d = None -> nonce_submission d !! k = Some r -> ns_miner r = id -> ns_height r <> h.
Proof.
  unfold find_ns. intros E Hk Hid Hh. apply fmap_None, list_find_None in E.
  rewrite Forall_forall in E. apply (E (k, r)); [|done]. by apply elem_of_map_to_list.
Qed.
