(* ===== verification/Migration.v ===== *)
(** * The third migration ([migrations/3_multiout_transactions])

    The scripts that split the table of transactions into transactions and
    recipients ([up]) and back ([down]), statement by statement, on the two
    versions of the table.  A script is a list of statements; since MySQL
    commits at every change of a table, what a script that stops has done
    stays ([run_prefix]).  [proc_foreign_key_check] is that of
    [migrations/1_create_proc_foreign_key_check.up.sql]. *)

From S2P Require Import Prelude DB.
Open Scope string_scope.
Open Scope list_scope.
Open Scope Z_scope.

(** ** Tables *)

(** A row of [transaction] before the migration: one payment. *)
Record old_row := mk_old { o_amount : Z; o_recipient_id : Z; o_created : Z }.

#[export] Instance old_row_eq_dec : EqDecision old_row.
Proof. solve_decision. Defined.

(** Either version of [transaction]; an auto-increment counter is the next
    free id. *)
Inductive table := Old (rows : gmap Z old_row) | New (rows : gmap Z tx_row) (next : Z).

Record tables := mk_tables {
  transaction_table : option table;
  transaction_old : option table;
  recipient_table : option (gmap Z recipient_row * Z);
  constraints : gset string
}.

Inductive migration_error := Table_exists | No_such_table | Wrong_columns | Violated (constraint : string).

Definition statement : Type := tables -> result migration_error tables.

(** The statements of a script, up to the first that fails. *)
Fixpoint run (l : list statement) (s : tables) : result migration_error tables :=
  match l with
  | [] => Ok s
  | f :: l' => (try s <- f s ;; run l' s)%go
  end.

(** What a script leaves that is interrupted after [n] statements. *)
Definition run_prefix (n : nat) (l : list statement) : tables -> result migration_error tables := run (take n l).

(** ** Statements *)

(** Rows get consecutive ids. *)
Fixpoint insert_all {A} (l : list A) (rows : gmap Z A) (next : Z) : gmap Z A * Z :=
  match l with
  | [] => (rows, next)
  | x :: l' => insert_all l' (<[next := x]> rows) (next + 1)
  end.

Definition rename_transaction : statement := fun s =>
  match transaction_table s, transaction_old s with
  | Some t, None => Ok (mk_tables None (Some t) (recipient_table s) (constraints s))
  | Some _, Some _ => Err Table_exists
  | None, _ => Err No_such_table
  end.

(** [CREATE TABLE IF NOT EXISTS] *)
Definition create_transaction (empty : table) : statement := fun s =>
  Ok (mk_tables (Some (default empty (transaction_table s))) (transaction_old s) (recipient_table s) (constraints s)).

Definition create_recipient : statement := fun s =>
  Ok (mk_tables (transaction_table s) (transaction_old s) (Some (default (∅, 1) (recipient_table s))) (constraints s)).

(** [DROP TABLE] *)
Definition drop_old : statement := fun s =>
  match transaction_old s with
  | Some _ => Ok (mk_tables (transaction_table s) None (recipient_table s) (constraints s))
  | None => Err No_such_table
  end.

(** [DROP TABLE IF EXISTS], with the constraints of the table. *)
Definition drop_old_if_exists : statement := fun s =>
  Ok (mk_tables (transaction_table s) None (recipient_table s) (constraints s ∖ {["transaction_block_fk"]})).

Definition drop_recipient : statement := fun s =>
  Ok (mk_tables (transaction_table s) (transaction_old s) None
    (constraints s ∖ {["transaction_recipient_account_fk"; "transaction_recipient_transaction_fk"]})).

Section Scripts.
(** The ids of the referenced tables, and the orders in which a [SELECT]
    gives the rows of a table and of a join. *)
Context (accounts blocks : gset Z).
Context (scan : list (Z * old_row) -> list (Z * old_row)) (scan_perm : forall l, scan l ≡ₚ l).
Context (scan_join : list recipient_row -> list recipient_row) (scan_join_perm : forall l, scan_join l ≡ₚ l).

(** [INSERT INTO transaction (transaction_id, created) SELECT id, created
    FROM transaction_old] *)
Definition copy_transactions : statement := fun s =>
  match transaction_table s, transaction_old s with
  | Some (New rows next), Some (Old old) =>
      let '(rows, next) := insert_all ((fun p => mk_tx (Some p.1) None (o_created p.2)) <$> scan (map_to_list old)) rows next in
      Ok (mk_tables (Some (New rows next)) (transaction_old s) (recipient_table s) (constraints s))
  | Some _, Some _ => Err Wrong_columns
  | _, _ => Err No_such_table
  end.

(** [transaction t JOIN transaction_old AS o ON transaction_id = o.id] *)
Definition joined (rows : gmap Z tx_row) (old : gmap Z old_row) : list recipient_row :=
  omap (fun kt => id ← t_transaction_id kt.2; o ← old !! id; Some (mk_recipient kt.1 (o_recipient_id o) (o_amount o)))
    (map_to_list rows).

Definition copy_recipients : statement := fun s =>
  match transaction_table s, transaction_old s, recipient_table s with
  | Some (New rows _), Some (Old old), Some (recipients, next) =>
      Ok (mk_tables (transaction_table s) (transaction_old s)
            (Some (insert_all (scan_join (joined rows old)) recipients next)) (constraints s))
  | Some _, Some _, Some _ => Err Wrong_columns
  | _, _, _ => Err No_such_table
  end.

(** [proc_foreign_key_check] with a statement that adds the constraint, and
    [exsts] false: nothing happens if it is there already. *)
Definition proc_foreign_key_check (name : string) (holds : tables -> bool) : statement := fun s =>
  if bool_decide (name ∈ constraints s) then Ok s
  else if holds s
       then Ok (mk_tables (transaction_table s) (transaction_old s) (recipient_table s) ({[name]} ∪ constraints s))
       else Err (Violated name).

Definition recipients_have_accounts (s : tables) : bool :=
  match recipient_table s with
  | Some (recipients, _) => forallb (fun p => bool_decide (r_recipient p.2 ∈ accounts)) (map_to_list recipients)
  | None => false
  end.

Definition recipients_have_transactions (s : tables) : bool :=
  match recipient_table s, transaction_table s with
  | Some (recipients, _), Some (New rows _) =>
      forallb (fun p => bool_decide (is_Some (rows !! r_transaction p.2))) (map_to_list recipients)
  | _, _ => false
  end.

Definition transactions_have_blocks (s : tables) : bool :=
  match transaction_table s with
  | Some (New rows _) =>
      forallb (fun p => match t_block_height p.2 with Some h => bool_decide (h ∈ blocks) | None => true end) (map_to_list rows)
  | _ => false
  end.

Definition payments_have_accounts (s : tables) : bool :=
  match transaction_table s with
  | Some (Old rows) => forallb (fun p => bool_decide (o_recipient_id p.2 ∈ accounts)) (map_to_list rows)
  | _ => false
  end.

(** The old table goes with its constraint. *)
Definition drop_old_table : statement := fun s =>
  (try s <- drop_old s ;;
   Ok (mk_tables (transaction_table s) (transaction_old s) (recipient_table s) (constraints s ∖ {["account_fk"]})))%go.

Definition up : list statement :=
  [create_recipient; rename_transaction; create_transaction (New ∅ 1); copy_transactions; copy_recipients; drop_old_table;
   proc_foreign_key_check "transaction_recipient_account_fk" recipients_have_accounts;
   proc_foreign_key_check "transaction_recipient_transaction_fk" recipients_have_transactions;
   proc_foreign_key_check "transaction_block_fk" transactions_have_blocks].

(** ** Back *)

(** [transaction_old t JOIN transaction_recipient r ON t.id = r.transaction_id
    WHERE t.transaction_id IS NOT NULL]: the payments that were sent. *)
Definition sent_payments (rows : gmap Z tx_row) (recipients : gmap Z recipient_row) : list (Z * old_row) :=
  omap (fun kr => t ← rows !! r_transaction kr.2; id ← t_transaction_id t;
                  Some (id, mk_old (r_amount kr.2) (r_recipient kr.2) (t_created t)))
    (map_to_list recipients).

(** [INSERT IGNORE]: a row whose key is there is left out. *)
Fixpoint insert_ignore (l : list (Z * old_row)) (rows : gmap Z old_row) : gmap Z old_row :=
  match l with
  | [] => rows
  | p :: l' => insert_ignore l' (match rows !! p.1 with Some _ => rows | None => <[p.1 := p.2]> rows end)
  end.

Definition copy_back : statement := fun s =>
  match transaction_table s, transaction_old s, recipient_table s with
  | Some (Old rows), Some (New old _), Some (recipients, _) =>
      Ok (mk_tables (Some (Old (insert_ignore (scan (sent_payments old recipients)) rows))) (transaction_old s)
            (recipient_table s) (constraints s))
  | Some _, Some _, Some _ => Err Wrong_columns
  | _, _, _ => Err No_such_table
  end.

Definition down : list statement :=
  [rename_transaction; create_transaction (Old ∅); copy_back; drop_recipient; drop_old_if_exists;
   proc_foreign_key_check "account_fk" payments_have_accounts].
End Scripts.

(** ** Lists that are selected from *)

Lemma omap_fmap {A B C} (f : A -> B) (g : B -> option C) (l : list A) : omap g (f <$> l) = omap (fun x => g (f x)) l.
Proof. induction l as [|x l IH]; [done|]. cbn [fmap list_fmap omap list_omap]. by rewrite IH. Qed.

Lemma omap_omap {A B C} (f : A -> option B) (g : B -> option C) (l : list A) : omap g (omap f l) = omap (fun x => f x ≫= g) l.
Proof. induction l as [|x l IH]; [done|]. cbn [omap list_omap]. destruct (f x); cbn [omap list_omap mbind option_bind]; by rewrite IH. Qed.

Lemma omap_Some {A} (l : list A) : omap Some l = l.
Proof. induction l as [|x l IH]; [done|]. cbn [fmap list_fmap omap list_omap]. by rewrite IH. Qed.

Lemma omap_ext_in {A C} (f g : A -> option C) (l : list A) : (forall x, x ∈ l -> f x = g x) -> omap f l = omap g l.
Proof.
  induction l as [|x l IH]; intros H; [done|]. cbn [omap list_omap]. rewrite (H x) by left. rewrite IH; [done|]. intros y Hy. apply H. by right.
Qed.

(** ** Rows that are inserted *)

Definition fresh_from {A} (m : gmap Z A) (next : Z) : Prop := forall k, is_Some (m !! k) -> k < next.

Lemma insert_all_spec {A} (l : list A) rows next :
  fresh_from rows next ->
  let r := insert_all l rows next in
  map_to_list r.1 ≡ₚ zip (seqZ next (Z.of_nat (List.length l))) l ++ map_to_list rows /\ fresh_from r.1 r.2.
Proof.
  revert rows next. induction l as [|x l IH]; intros rows next Hf; [done|]. cbn [insert_all].
  assert (Hn : rows !! next = None) by (apply eq_None_not_Some; intros H%Hf; lia).
  destruct (IH (<[next := x]> rows) (next + 1)) as [Hp Hfr].
  { intros k. rewrite lookup_insert_is_Some'. intros [<-|H%Hf]; lia. }
  split; [|exact Hfr]. rewrite Hp, map_to_list_insert by done. cbn [List.length]. rewrite Nat2Z.inj_succ.
  rewrite (seqZ_cons next) by lia. rewrite Z.pred_succ. cbn [zip_with app]. replace (Z.succ next) with (next + 1) by lia.
  by rewrite Permutation_middle.
Qed.

Lemma insert_all_values {A} (l : list A) : (map_to_list (insert_all l ∅ 1).1).*2 ≡ₚ l.
Proof.
  destruct (insert_all_spec l ∅ 1) as [Hp _]; [by intros k [? ?]|]. rewrite Hp, map_to_list_empty, app_nil_r.
  rewrite snd_zip; [done|]. rewrite length_seqZ. lia.
Qed.

Lemma insert_all_elem {A} (l : list A) k x : (insert_all l ∅ 1).1 !! k = Some x -> x ∈ l.
Proof.
  intros H. rewrite <- (insert_all_values l). apply list_elem_of_fmap. exists (k, x). split; [done|]. by apply elem_of_map_to_list.
Qed.

(** ** What the scripts do *)

Section Theorems.
Context (accounts blocks : gset Z).
Context (scan : list (Z * old_row) -> list (Z * old_row)) (scan_perm : forall l, scan l ≡ₚ l).
Context (scan_join : list recipient_row -> list recipient_row) (scan_join_perm : forall l, scan_join l ≡ₚ l).

(** The database before: payments to accounts, and nothing of the new. *)
Definition before (rows : gmap Z old_row) : tables := mk_tables (Some (Old rows)) None None {["account_fk"]}.

Definition to_accounts (rows : gmap Z old_row) : Prop := map_Forall (fun _ o => o_recipient_id o ∈ accounts) rows.

(** The tables that the script fills. *)
Definition new_rows (old : gmap Z old_row) : gmap Z tx_row * Z :=
  insert_all ((fun p => mk_tx (Some p.1) None (o_created p.2)) <$> scan (map_to_list old)) ∅ 1.
Definition new_recipients (old : gmap Z old_row) : gmap Z recipient_row * Z :=
  insert_all (scan_join (joined (new_rows old).1 old)) ∅ 1.

(** A transaction of the new table is one of the old. *)
Lemma new_rows_elem old k t :
  (new_rows old).1 !! k = Some t -> exists id o, old !! id = Some o /\ t = mk_tx (Some id) None (o_created o).
Proof using scan_perm.
  intros ([id o] & -> & H)%insert_all_elem%list_elem_of_fmap. rewrite scan_perm in H. apply elem_of_map_to_list in H.
  by exists id, o.
Qed.

Lemma new_recipients_elem old k r :
  (new_recipients old).1 !! k = Some r ->
  exists id o, old !! id = Some o /\ (new_rows old).1 !! r_transaction r = Some (mk_tx (Some id) None (o_created o)) /\
    r_recipient r = o_recipient_id o /\ r_amount r = o_amount o.
Proof using scan_perm scan_join_perm.
  intros H%insert_all_elem. rewrite scan_join_perm in H. apply list_elem_of_omap in H as ([k' t] & Ht & E).
  apply elem_of_map_to_list in Ht. cbn [fst snd] in E. destruct (new_rows_elem old k' t Ht) as (id & o & Ho & ->).
  simpl in E. rewrite Ho in E. injection E as <-. by exists id, o.
Qed.

(** The payments of the new tables are those of the old. *)
Lemma up_payments old : sent_payments (new_rows old).1 (new_recipients old).1 ≡ₚ map_to_list old.
Proof using scan_perm scan_join_perm.
  set (rows := (new_rows old).1).
  set (view := fun r : recipient_row => t ← rows !! r_transaction r; id ← t_transaction_id t;
                  Some (id, mk_old (r_amount r) (r_recipient r) (t_created t))).
  assert (E1 : sent_payments rows (new_recipients old).1 = omap view (map_to_list (new_recipients old).1).*2).
  { unfold sent_payments. rewrite omap_fmap. done. }
  rewrite E1. unfold new_recipients. rewrite insert_all_values, scan_join_perm. unfold joined. fold rows. rewrite omap_omap.
  transitivity (omap (fun t => id ← t_transaction_id t; o ← old !! id; Some (id, mk_old (o_amount o) (o_recipient_id o) (t_created t)))
                  (map_to_list rows).*2).
  { rewrite omap_fmap. apply reflexive_eq, omap_ext_in. intros [k t] Hk%elem_of_map_to_list. cbn [fst snd].
    destruct (new_rows_elem old k t Hk) as (id & o & Ho & ->). simpl. rewrite Ho. simpl. unfold view. simpl. by rewrite Hk. }
  unfold rows, new_rows. rewrite insert_all_values, omap_fmap.
  transitivity (omap Some (scan (map_to_list old))); [|by rewrite omap_Some, scan_perm].
  apply reflexive_eq, omap_ext_in. intros [id o] Ho. rewrite scan_perm in Ho. apply elem_of_map_to_list in Ho. simpl.
  rewrite Ho. simpl. by destruct o.
Qed.

(** The tables after the script. *)
Definition after (old : gmap Z old_row) : tables :=
  mk_tables (Some (New (new_rows old).1 (new_rows old).2)) None (Some (new_recipients old))
    {["transaction_block_fk"; "transaction_recipient_transaction_fk"; "transaction_recipient_account_fk"]}.

Lemma forallb_map_to_list {A} (P : Z * A -> bool) (m : gmap Z A) :
  (forall k x, m !! k = Some x -> P (k, x) = true) -> forallb P (map_to_list m) = true.
Proof.
  intros H. apply forallb_forall. intros [k x] Hx%list_elem_of_In%elem_of_map_to_list. by apply H.
Qed.

Lemma run_up old : to_accounts old -> run (up accounts blocks scan scan_join) (before old) = Ok (after old).
Proof using scan_perm scan_join_perm.
  intros Ha. unfold up, before. cbn [run]. unfold create_recipient, rename_transaction, create_transaction.
  cbn [transaction_table transaction_old recipient_table constraints default from_option id]. unfold copy_transactions.
  cbn [transaction_table transaction_old recipient_table constraints]. fold (new_rows old).
  destruct (new_rows old) as [rows next] eqn:Er. unfold copy_recipients.
  cbn [transaction_table transaction_old recipient_table constraints].
  change (insert_all (scan_join (joined rows old)) ∅ 1) with (insert_all (scan_join (joined (rows, next).1 old)) ∅ 1).
  rewrite <- Er. fold (new_recipients old). unfold drop_old_table, drop_old.
  cbn [transaction_table transaction_old recipient_table constraints run].
  unfold proc_foreign_key_check at 1. rewrite bool_decide_eq_false_2 by set_solver.
  assert (recipients_have_accounts accounts (mk_tables (Some (New rows next)) None (Some (new_recipients old)) ({["account_fk"]} ∖ {["account_fk"]})) = true) as ->.
  { unfold recipients_have_accounts. cbn [recipient_table]. destruct (new_recipients old) as [recs n] eqn:En.
    apply forallb_map_to_list. intros k r Hr. cbn [snd]. apply bool_decide_eq_true.
    assert (Hr' : (new_recipients old).1 !! k = Some r) by by rewrite En.
    apply new_recipients_elem in Hr' as (id & o & Ho & _ & -> & _). by apply (Ha id). }
  unfold proc_foreign_key_check at 1. cbn [transaction_table transaction_old recipient_table constraints].
  rewrite bool_decide_eq_false_2 by set_solver.
  assert (forall ks, recipients_have_transactions (mk_tables (Some (New rows next)) None (Some (new_recipients old)) ks) = true) as Ht.
  { intros ks. unfold recipients_have_transactions. cbn [recipient_table transaction_table]. destruct (new_recipients old) as [recs n] eqn:En.
    apply forallb_map_to_list. intros k r Hr. cbn [snd]. apply bool_decide_eq_true.
    assert (Hr' : (new_recipients old).1 !! k = Some r) by by rewrite En.
    apply new_recipients_elem in Hr' as (id & o & _ & Hl & _). rewrite Er in Hl. by eexists. }
  rewrite Ht. unfold proc_foreign_key_check. cbn [transaction_table transaction_old recipient_table constraints].
  rewrite bool_decide_eq_false_2 by set_solver.
  assert (forall ks, transactions_have_blocks blocks (mk_tables (Some (New rows next)) None (Some (new_recipients old)) ks) = true) as Hb.
  { intros ks. unfold transactions_have_blocks. cbn [transaction_table]. apply forallb_map_to_list. intros k t Hk. cbn [snd].
    assert (Hk' : (new_rows old).1 !! k = Some t) by by rewrite Er. by apply new_rows_elem in Hk' as (id & o & _ & ->). }
  rewrite Hb. unfold after. rewrite Er. by do 3 f_equal.
Qed.

(** C9: the migration turns every payment of the old table into a transaction with
    one recipient, and makes up none: whatever the orders in which the
    server reads the rows, the payments that the new tables say were sent -
    id, amount, recipient, time - are those of the old.  Ids are fresh, and
    no constraint is violated. *)
Theorem up_keeps_every_payment (old : gmap Z old_row) :
  to_accounts old ->
  exists rows next recipients next_r cs,
    run (up accounts blocks scan scan_join) (before old)
    = Ok (mk_tables (Some (New rows next)) None (Some (recipients, next_r)) cs) /\
    sent_payments rows recipients ≡ₚ map_to_list old /\
    fresh_from rows next /\ fresh_from recipients next_r /\
    (forall k r, recipients !! k = Some r -> r_recipient r ∈ accounts /\ is_Some (rows !! r_transaction r)) /\
    (forall k t, rows !! k = Some t -> t_block_height t = None /\ exists id, t_transaction_id t = Some id /\ is_Some (old !! id)).
Proof using scan_perm scan_join_perm.
  intros Ha. exists (new_rows old).1, (new_rows old).2, (new_recipients old).1, (new_recipients old).2, (constraints (after old)).
  split_and!.
  - rewrite run_up by done. unfold after. by destruct (new_recipients old).
  - apply up_payments.
  - apply insert_all_spec. by intros k [? ?].
  - apply insert_all_spec. by intros k [? ?].
  - intros k r Hr. destruct (new_recipients_elem old k r Hr) as (id & o & Ho & Ht & -> & _). split; [by apply (Ha id)|by eexists].
  - intros k t Hk. destruct (new_rows_elem old k t Hk) as (id & o & Ho & ->). split; [done|]. exists id. split; [done|by eexists].
Qed.

(** *** Back *)

Lemma insert_ignore_Some l rows id o :
  insert_ignore l rows !! id = Some o -> rows !! id = Some o \/ (id, o) ∈ l.
Proof.
  revert rows. induction l as [|[id' o'] l IH]; intros rows; [by left|]. cbn [insert_ignore fst snd].
  intros [H|H]%IH; [|right; by right]. destruct (rows !! id') as [x|] eqn:E; [by left|].
  apply lookup_insert_Some in H as [[-> ->]|[_ H]]; [right; left|by left].
Qed.

Lemma insert_ignore_is_Some l rows id :
  is_Some (insert_ignore l rows !! id) <-> is_Some (rows !! id) \/ exists o, (id, o) ∈ l.
Proof.
  revert rows. induction l as [|[id' o'] l IH]; intros rows; cbn [insert_ignore fst snd].
  { split; [by left|]. intros [H|[o H%not_elem_of_nil]]; done. }
  rewrite IH. destruct (rows !! id') as [x|] eqn:E.
  - split; [intros [H|[o H]]; [by left|right; exists o; by right]|]. intros [H|[o H]]; [by left|].
    apply elem_of_cons in H as [[= -> ->]|H]; [left; by eexists|right; by exists o].
  - rewrite lookup_insert_is_Some'. split.
    + intros [[->|H]|[o H]]; [right; exists o'; left|by left|right; exists o; by right].
    + intros [H|[o H]]; [left; by right|]. apply elem_of_cons in H as [[= -> ->]|H]; [left; by left|right; by exists o].
Qed.

Lemma run_down rows next recipients next_r cs :
  "account_fk" ∉ cs ->
  (forall k r, recipients !! k = Some r -> r_recipient r ∈ accounts) ->
  run (down accounts scan) (mk_tables (Some (New rows next)) None (Some (recipients, next_r)) cs)
  = Ok (mk_tables (Some (Old (insert_ignore (scan (sent_payments rows recipients)) ∅))) None None
      ({["account_fk"]} ∪ (cs ∖ {["transaction_recipient_account_fk"; "transaction_recipient_transaction_fk"]}) ∖ {["transaction_block_fk"]})).
Proof using scan_perm.
  intros Hc Ha. unfold down, rename_transaction, create_transaction, copy_back, drop_recipient, drop_old_if_exists.
  cbn [run transaction_table transaction_old recipient_table constraints default from_option id].
  unfold proc_foreign_key_check. cbn [transaction_table transaction_old recipient_table constraints].
  rewrite bool_decide_eq_false_2 by (clear -Hc; set_solver).
  assert (forall ks, payments_have_accounts accounts (mk_tables (Some (Old (insert_ignore (scan (sent_payments rows recipients)) ∅))) None None ks) = true) as ->.
  { intros ks. unfold payments_have_accounts. cbn [transaction_table]. apply forallb_map_to_list. intros id o Ho. cbn [snd].
    apply bool_decide_eq_true. apply insert_ignore_Some in Ho as [Ho|Ho]; [by rewrite lookup_empty in Ho|].
    rewrite scan_perm in Ho. unfold sent_payments in Ho. apply list_elem_of_omap in Ho as ([k r] & Hr & E).
    apply elem_of_map_to_list in Hr. cbn [snd] in E. destruct (rows !! r_transaction r) as [t|]; [|done]. simpl in E.
    destruct (t_transaction_id t); [|done]. injection E as <- <-. simpl. by eapply Ha. }
  done.
Qed.

(** C10: running the migration and taking it back gives the table there was. *)
Theorem down_undoes_up (old : gmap Z old_row) :
  to_accounts old ->
  exists s, run (up accounts blocks scan scan_join) (before old) = Ok s /\
            run (down accounts scan) s = Ok (before old).
Proof using scan_perm scan_join_perm.
  intros Ha. exists (after old). split; [by apply run_up|]. unfold after. destruct (new_recipients old) as [recs n] eqn:En.
  rewrite run_down; [|set_solver|].
  - unfold before. do 4 f_equal.
    assert (Hp : scan (sent_payments (new_rows old).1 recs) ≡ₚ map_to_list old).
    { rewrite scan_perm. change recs with (recs, n).1. rewrite <- En. apply up_payments. }
    apply map_eq. intros id. apply option_eq. intros o. split.
    + intros [H|H]%insert_ignore_Some; [by rewrite lookup_empty in H|]. rewrite Hp in H. by apply elem_of_map_to_list.
    + intros Ho. assert (Hs : is_Some (insert_ignore (scan (sent_payments (new_rows old).1 recs)) ∅ !! id)).
      { apply insert_ignore_is_Some. right. exists o. rewrite Hp. by apply elem_of_map_to_list. }
      destruct Hs as [o' Ho']. rewrite Ho'. apply insert_ignore_Some in Ho' as [H|H]; [by rewrite lookup_empty in H|].
      rewrite Hp in H. apply elem_of_map_to_list in H. by rewrite Ho in H.
  - intros k r Hr. assert (Hr' : (new_recipients old).1 !! k = Some r) by by rewrite En.
    apply new_recipients_elem in Hr' as (id & o & Ho & _ & -> & _). by apply (Ha id).
Qed.

(** Taken back, each transaction that was sent keeps one of its recipients,
    whichever is read first, and transactions that were not sent go. *)
Theorem down_keeps_one_recipient rows next recipients next_r cs :
  "account_fk" ∉ cs ->
  (forall k r, recipients !! k = Some r -> r_recipient r ∈ accounts) ->
  exists old cs', run (down accounts scan) (mk_tables (Some (New rows next)) None (Some (recipients, next_r)) cs)
    = Ok (mk_tables (Some (Old old)) None None cs') /\
    (forall id o, old !! id = Some o -> (id, o) ∈ sent_payments rows recipients) /\
    (forall id, is_Some (old !! id) <-> exists o, (id, o) ∈ sent_payments rows recipients).
Proof using scan_perm.
  intros Hc Ha. do 2 eexists. split; [by apply run_down|]. split.
  - intros id o [H|H]%insert_ignore_Some; [by rewrite lookup_empty in H|]. by rewrite scan_perm in H.
  - intros id. rewrite insert_ignore_is_Some, lookup_empty. setoid_rewrite scan_perm. split; [|by right].
    intros [[? ?]|H]; done.
Qed.

End Theorems.

(** ** Examples *)

Definition as_read {A} (l : list A) : list A := l.

(** A transaction to two recipients, and one that was not sent. *)
Definition multi_out : tables :=
  mk_tables (Some (New {[1 := mk_tx (Some 77) None 5; 2 := mk_tx None None 6]} 3)) None
    (Some ({[1 := mk_recipient 1 10 300; 2 := mk_recipient 1 11 400; 3 := mk_recipient 2 10 500]}, 4)) ∅.

(** Of 1200 only 300 or 400 are left. *)
Example down_loses_payments :
  run (down {[10; 11]} as_read) multi_out
  = Ok (mk_tables (Some (Old {[77 := mk_old 400 11 5]})) None None {["account_fk"]}).
Proof. by vm_compute. Qed.

Definition two_payments : gmap Z old_row := {[77 := mk_old 300 10 5; 78 := mk_old 400 11 6]}.

Lemma two_payments_to_accounts : to_accounts {[10; 11]} two_payments.
Proof. apply (bool_decide_unpack _). by vm_compute. Qed.

(** A script that is interrupted between the two tables: no payment is in the
    new tables, whose migration is not run again. *)
Example interrupted_migration :
  run_prefix 3 (up {[10; 11]} ∅ as_read as_read) (before two_payments)
  = Ok (mk_tables (Some (New ∅ 1)) (Some (Old two_payments)) (Some (∅, 1)) {["account_fk"]}) /\
  run (up {[10; 11]} ∅ as_read as_read)
    (mk_tables (Some (New ∅ 1)) (Some (Old two_payments)) (Some (∅, 1)) {["account_fk"]}) = Err Table_exists.
Proof. split; by vm_compute. Qed.

Lemma up_keeps_every_payment_witness :
  exists rows next recipients next_r cs,
    run (up {[10; 11]} ∅ as_read as_read) (before two_payments)
    = Ok (mk_tables (Some (New rows next)) None (Some (recipients, next_r)) cs) /\
    sent_payments rows recipients ≡ₚ map_to_list two_payments.
Proof.
  destruct (up_keeps_every_payment {[10; 11]} ∅ as_read (fun l => Permutation_refl l) as_read (fun l => Permutation_refl l)
    two_payments two_payments_to_accounts) as (rows & next & recs & n & cs & E & Hp & _).
  exists rows, next, recs, n, cs. split; [exact E|exact Hp].
Defined.

Lemma down_undoes_up_witness :
  exists s, run (up {[10; 11]} ∅ as_read as_read) (before two_payments) = Ok s /\
            run (down {[10; 11]} as_read) s = Ok (before two_payments).
Proof.
  exact (down_undoes_up {[10; 11]} ∅ as_read (fun l => Permutation_refl l) as_read (fun l => Permutation_refl l)
    two_payments two_payments_to_accounts).
Defined.
