(* ===== verification/Cache.v ===== *)
(** * The cache ([type cache] of [pkg/modelx/cache.go])

    The state the goroutines of the pool share.  Miners are objects that the
    cache points at: [miners] maps account ids to addresses.  Each operation
    of the source holds a lock or is atomic, so it is one function on the
    state. *)

From S2P Require Import Prelude GoStrings GoParse GoJson GoFloat Config Blocks Shares Miner.
From Stdlib Require Import Ascii String.
Open Scope string_scope.
Open Scope list_scope.
Open Scope Z_scope.

(** ** Data *)

Module Block.
Record t := mk {
  Height : Z;
  BaseTarget : Z;
  Scoop : Z;
  GenerationSignature : string;
  GenerationSignatureBytes : list Z;
  WinnerVerified : bool;
  WinnerID : option Z;
  Reward : option Z;
  BestNonceSubmissionID : option Z;
  Created : Z;
  GenerationTime : Z
}.
Definition zero : t := mk 0 0 0 "" [] false None None None 0 0.
End Block.

Module NonceSubmission.
Record t := mk {
  Nonce : Z;
  Deadline : Z;
  MinerID : Z;
  Height : Z;
  Name : string;
  Address : string;
  RoundStart : Z;
  GenerationSignature : string
}.
Definition zero : t := mk 0 0 0 0 "" "" 0 "".
End NonceSubmission.

Module RoundInfo.
Record t := mk {
  Scoop : Z;
  BaseTarget : Z;
  Height : Z;
  GenSig : list Z;
  RoundStart : Z;
  GenerationSignature : string
}.
End RoundInfo.

Record cache := mk_cache {
  miners : gmap Z nat;
  bestNonceSubmission : NonceSubmission.t;
  currentBlock : Block.t;
  poolCap : float64;
  minerCount : Z;
  rewardRecipient : gmap Z bool;
  slowBlocks : blocks;
  fastBlocks : blocks;
  alphas : list float64;
  miningInfoJSON : string;
  roundInfo : RoundInfo.t
}.

Definition with_miners (x : gmap Z nat) (c : cache) : cache :=
  mk_cache x (bestNonceSubmission c) (currentBlock c) (poolCap c) (minerCount c) (rewardRecipient c)
    (slowBlocks c) (fastBlocks c) (alphas c) (miningInfoJSON c) (roundInfo c).
Definition with_blocks (slow fast : blocks) (c : cache) : cache :=
  mk_cache (miners c) (bestNonceSubmission c) (currentBlock c) (poolCap c) (minerCount c) (rewardRecipient c)
    slow fast (alphas c) (miningInfoJSON c) (roundInfo c).

(** ** JSON *)

Definition quote : string := String (ascii_of_N 34) "".

(** A string as [json.Marshal] writes it. *)
Definition json_string (s : string) : string := of_bytes (marshal_string (bytes s)).

(** An object with already encoded values, keys in order. *)
Definition json_object (fields : list (string * string)) : string :=
  of_bytes (123 :: join 44 ((fun p => marshal_string (bytes p.1) ++ 58 :: bytes p.2) <$> fields) ++ [125]).

Definition json_uint (z : Z) : string := of_bytes (FormatUint z).

(** ** Operations *)

Section Operations.
Context (Cfg : Config).

Definition StorePoolCap (cap : float64) (c : cache) : cache :=
  mk_cache (miners c) (bestNonceSubmission c) (currentBlock c) cap (minerCount c) (rewardRecipient c)
    (slowBlocks c) (fastBlocks c) (alphas c) (miningInfoJSON c) (roundInfo c).

Definition GetPoolCap (c : cache) : float64 := poolCap c.

Definition StoreMinerCount (i : Z) (c : cache) : cache :=
  mk_cache (miners c) (bestNonceSubmission c) (currentBlock c) (poolCap c) i (rewardRecipient c)
    (slowBlocks c) (fastBlocks c) (alphas c) (miningInfoJSON c) (roundInfo c).

Definition GetMinerCount (c : cache) : Z := minerCount c.

Definition round_info_of (b : Block.t) : RoundInfo.t :=
  RoundInfo.mk (Block.Scoop b) (Block.BaseTarget b) (Block.Height b) (Block.GenerationSignatureBytes b)
    (Block.Created b) (Block.GenerationSignature b).

Definition StoreRoundInfo (b : Block.t) (c : cache) : cache :=
  mk_cache (miners c) (bestNonceSubmission c) b (poolCap c) (minerCount c) (rewardRecipient c)
    (slowBlocks c) (fastBlocks c) (alphas c) (miningInfoJSON c) (round_info_of b).

(** [json.Marshal] of a map sorts its keys. *)
Definition mining_info_json (b : Block.t) : string :=
  json_object [("baseTarget", json_uint (Block.BaseTarget b));
               ("generationSignature", json_string (Block.GenerationSignature b));
               ("height", json_uint (Block.Height b));
               ("targetDeadline", json_uint (DeadlineLimit Cfg))].

Definition StoreMiningInfo (b : Block.t) (c : cache) : cache :=
  mk_cache (miners c) (bestNonceSubmission c) (currentBlock c) (poolCap c) (minerCount c) (rewardRecipient c)
    (slowBlocks c) (fastBlocks c) (alphas c) (mining_info_json b) (roundInfo c).

Definition StoreCurrentBlock (b : Block.t) (c : cache) : cache := StoreMiningInfo b (StoreRoundInfo b c).

Definition GetMiningInfoJSON (c : cache) : string := miningInfoJSON c.
Definition GetRoundInfo (c : cache) : RoundInfo.t := roundInfo c.
Definition CurrentBlock (c : cache) : Block.t := currentBlock c.

(** The address is the one the program goes on with. *)
Definition LoadOrStoreMiner (id : Z) (a : nat) (c : cache) : nat * cache :=
  match miners c !! id with
  | Some a' => (a', c)
  | None => (a, with_miners (<[id := a]> (miners c)) c)
  end.

Definition GetMiner (id : Z) (c : cache) : option nat := miners c !! id.

Definition DeleteMiner (id : Z) (c : cache) : cache := with_miners (delete id (miners c)) c.

Definition IsRewardRecipient (id : Z) (c : cache) : bool * bool :=
  match rewardRecipient c !! id with Some isCorrect => (isCorrect, true) | None => (false, false) end.

Definition StoreRewardRecipients (r : gmap Z bool) (c : cache) : cache :=
  mk_cache (miners c) (bestNonceSubmission c) (currentBlock c) (poolCap c) (minerCount c) r
    (slowBlocks c) (fastBlocks c) (alphas c) (miningInfoJSON c) (roundInfo c).

Definition StoreRewardRecipient (id : Z) (isCorrect : bool) (c : cache) : cache :=
  StoreRewardRecipients (<[id := isCorrect]> (rewardRecipient c)) c.

Definition StoreBestNonceSubmission (ns : NonceSubmission.t) (c : cache) : cache :=
  mk_cache (miners c) ns (currentBlock c) (poolCap c) (minerCount c) (rewardRecipient c)
    (slowBlocks c) (fastBlocks c) (alphas c) (miningInfoJSON c) (roundInfo c).

Definition BestNonceSubmission (c : cache) : NonceSubmission.t := bestNonceSubmission c.

(** Whether the block was slow, and whether it is known. *)
Definition WasSlowBlock (height : Z) (c : cache) : bool * bool :=
  if exists_height (slowBlocks c) height then (true, true)
  else if exists_height (fastBlocks c) height then (false, true)
  else (false, false).

Definition AddSlowBlock (height : Z) (c : cache) : Z * cache :=
  let '(r, b) := add (slowBlocks c) height in (r, with_blocks b (fastBlocks c) c).

Definition AddBlock (height generationTime : Z) (c : cache) : Z * cache :=
  if generationTime <? TMin Cfg
  then let '(r, b) := add (fastBlocks c) height in (r, with_blocks (slowBlocks c) b c)
  else AddSlowBlock height c.

(** [None] where [computeAlphas] or [newBlocks] panic. *)
Definition InitCache : option cache :=
  match computeAlphas (NAVG Cfg) (NMin Cfg), newBlocks (NAVG Cfg) with
  | Some al, Some b =>
      Some (StoreCurrentBlock Block.zero
        (mk_cache ∅ NonceSubmission.zero Block.zero fzero 0 ∅ b b al "" (round_info_of Block.zero)))
  | _, _ => None
  end.

(** ** The invariant of the block caches *)

Record wf_blocks (c : cache) : Prop := {
  wf_slow : Blocks.wf (slowBlocks c);
  wf_fast : Blocks.wf (fastBlocks c)
}.

Lemma AddBlock_wf h t c : wf_blocks c -> wf_blocks (AddBlock h t c).2.
Proof.
  intros [Hs Hf]. unfold AddBlock, AddSlowBlock. destruct (t <? TMin Cfg).
  - destruct (add (fastBlocks c) h) as [r b] eqn:E. split; simpl; [done|].
    change b with (r, b).2. rewrite <- E. by apply add_wf.
  - destruct (add (slowBlocks c) h) as [r b] eqn:E. split; simpl; [|done].
    change b with (r, b).2. rewrite <- E. by apply add_wf.
Qed.

Lemma AddBlock_only h k t c : (WasSlowBlock h c).2 = false -> h <> k -> (WasSlowBlock h (AddBlock k t c).2).2 = false.
Proof.
  unfold WasSlowBlock, AddBlock, AddSlowBlock. intros Hh Hk.
  destruct (exists_height (slowBlocks c) h) eqn:Es; [done|]. destruct (exists_height (fastBlocks c) h) eqn:Ef; [done|].
  destruct (t <? TMin Cfg).
  - destruct (add (fastBlocks c) k) as [r b] eqn:E. simpl. rewrite Es.
    destruct (exists_height b h) eqn:Eb; [|done]. change b with (r, b).2 in Eb. rewrite <- E in Eb.
    apply exists_height_add in Eb as [?|?]; congruence.
  - destruct (add (slowBlocks c) k) as [r b] eqn:E. simpl. rewrite Ef.
    destruct (exists_height b h) eqn:Eb; [|done]. change b with (r, b).2 in Eb. rewrite <- E in Eb.
    apply exists_height_add in Eb as [?|?]; congruence.
Qed.

Lemma AddBlock_others k t c : exists slow fast, (AddBlock k t c).2 = with_blocks slow fast c.
Proof.
  unfold AddBlock, AddSlowBlock. destruct (t <? TMin Cfg); destruct (add _ k); simpl; by do 2 eexists.
Qed.

End Operations.

(** With a validated configuration the cache can be initialised, knows
    no block, and has a factor alpha per number of confirmed deadlines up to
    [NAVG], the last one 1. *)
Theorem InitCache_ok (cfg : Config) :
  Config.valid cfg ->
  exists c, InitCache cfg = Some c /\ wf_blocks c /\
            (forall h, WasSlowBlock h c = (false, false)) /\
            Z.of_nat (List.length (alphas c)) = NAVG cfg /\
            alpha (alphas c) 0 = fzero /\
            (forall n, NAVG cfg <= n -> alpha (alphas c) n = of_Z 1).
Proof.
  intros Hv. assert (Hn := Config.valid_nAvg _ Hv). unfold InitCache, computeAlphas.
  destruct (NAVG cfg <? 0) eqn:E; zbool; [lia|]. clear E.
  set (l := computeAlpha (NAVG cfg) (NMin cfg) <$> zrange (Z.to_nat (NAVG cfg))).
  assert (Hl : List.length l = Z.to_nat (NAVG cfg)) by (unfold l, zrange; by rewrite !length_fmap, length_seq).
  rewrite aset_ok by lia.
  destruct (newBlocks (NAVG cfg)) as [b|] eqn:Eb; [|unfold newBlocks in Eb; destruct (_ <=? _) eqn:?; zbool; done || lia].
  apply newBlocks_wf in Eb as Hb. destruct Hb as (Hb & _ & _).
  eexists. split; [done|]. simpl. split_and!.
  - done.
  - intros h. unfold WasSlowBlock, exists_height. cbn [slowBlocks fastBlocks StoreCurrentBlock StoreMiningInfo StoreRoundInfo].
    assert (Blocks.index b = ∅) as ->.
    { unfold newBlocks in Eb. destruct (NAVG cfg <=? 0); [done|]. by injection Eb as <-. }
    by rewrite bool_decide_eq_false_2 by set_solver.
  - rewrite length_insert, Hl. lia.
  - done.
  - intros n Hnn. unfold alpha. destruct (Z.eqb_spec n 0); [lia|]. rewrite length_insert, Hl.
    destruct (Z.ltb_spec (Z.of_nat (Z.to_nat (NAVG cfg))) n); [done|].
    replace n with (NAVG cfg) by lia. by rewrite list_lookup_insert_eq by lia.
Qed.

Lemma InitCache_ok_witness :
  exists c, InitCache test_cfg = Some c /\ Z.of_nat (List.length (alphas c)) = 100.
Proof.
  destruct (InitCache_ok test_cfg) as (c & H1 & _ & _ & H2 & _).
  - split; vm_compute; done.
  - exists c. split; [exact H1|exact H2].
Defined.
