(* ===== verification/Wallet.v ===== *)
(** * Wallet nodes ([pkg/wallet/wallet.go])

    The replies of the wallet's JSON API as the program keeps them, the
    processing of a request ([processJSONRequest]; the HTTP client is a
    library, hence a parameter; the query encoder is in [WalletRequests],
    the decoders of the replies in [Replies]) and the encoding of the recipients of a multi-out
    transaction. *)

From Stdlib Require Import Ascii String.
From S2P Require Import Prelude GoStrings GoFloat GoParse.
Open Scope string_scope.
Open Scope list_scope.
Open Scope Z_scope.

Definition MaxMultiRecipients : Z := 64.

(** ** Replies *)

Module MiningInfo.
Record t := mk { GenerationSignature : string; BaseTarget : Z; Height : Z }.
Definition zero : t := mk "" 0 0.
End MiningInfo.

Module BlockReply.
Record t := mk {
  PreviousBlockHash : string;
  PayloadLength : Z;
  TotalAmountNQT : Z;
  GenerationSignature : string;
  Generator : Z;
  GeneratorPublicKey : string;
  BaseTarget : Z;
  PayloadHash : string;
  GeneratorRS : string;
  BlockReward : Z;
  ScoopNum : Z;
  NumberOfTransactions : Z;
  BlockSignature : string;
  Transactions : list Z;
  Nonce : Z;
  Version : Z;
  TotalFeeNQT : Z;
  PreviousBlock : Z;
  Block : Z;
  NextBlock : Z;
  Height : Z;
  Timestamp : Z
}.
(** A reply with the fields the pool reads. *)
Definition of_fields (generator nonce reward fee height ntx timestamp : Z) : t :=
  mk "" 0 0 "" generator "" 0 "" "" reward 0 ntx "" [] nonce 0 fee 0 0 0 height timestamp.
End BlockReply.

Module SubmitNonceReply.
Record t := mk { Deadline : Z; Result : string }.
End SubmitNonceReply.

Module AccountReply.
Record t := mk {
  UnconfirmedBalanceNQT : Z;
  GuaranteedBalanceNQT : Z;
  EffectiveBalanceNXT : Z;
  AccountRS : string;
  Name : string;
  ForgedBalanceNQT : Z;
  BalanceNQT : Z;
  PublicKey : string;
  Account : Z
}.
End AccountReply.

(** The signed transaction of [SendMoneyReply] and [SendMoneyMultiReply]; the
    program reads its id and its bytes. *)
Module SendMoneyReply.
Record t := mk { TxID : Z; TransactionBytes : string }.
End SendMoneyReply.

Module BroadcastReply.
Record t := mk { FullHash : string; TxID : Z }.
End BroadcastReply.

(** Of the transactions of an account the program reads the sender and the
    message. *)
Module AccountTransaction.
Record t := mk { Sender : Z; Message : string }.
End AccountTransaction.

Module TransactionReply.
Record t := mk { Transaction : Z; Height : Z }.
End TransactionReply.

(** ** [processJSONRequest] *)

Definition StatusOK : Z := 200.

Section Request.
Context {Reply : Type}.
Context (http : string -> string -> result string (Z * string)) (unmarshal : string -> result string Reply)
        (getError : Reply -> string).

Definition processJSONRequest (apiURL method : string) (values : result string string) : result string Reply :=
  (try v <- values ;;
   let u := String.append apiURL v in
   match http (if bool_decide (method = "GET") then "GET" else "POST") u with
   | Err e => Err (String.append "request to " (String.append u (String.append ": " e)))
   | Ok (statusCode, body) =>
       if negb (statusCode =? StatusOK)
       then Err (String.append "wrong status code: " (String.append (of_bytes (FormatUint statusCode))
                   (String.append " for url " u)))
       else try dest <- unmarshal body ;;
            if bool_decide (getError dest <> "")
            then Err (String.append "request to " (String.append u (String.append ": " (getError dest))))
            else Ok dest
   end)%go.

End Request.

Definition apiURL (url : string) : string := String.append url "/burst?".

(** ** [EncodeRecipients] *)

(** [fmt.Sprint] of an [int64] *)
Definition FormatInt (z : Z) : list Z := if z <? 0 then 45 :: FormatUint (- z) else FormatUint z.

(** ["id:amount;"] as bytes *)
Definition recipient_bytes (p : Z * Z) : list Z := FormatUint p.1 ++ 58 :: FormatInt p.2 ++ [59].

(** The entries come in the order of the iteration over the map. *)
Definition EncodeRecipients (entries : list (Z * Z)) : outcome string (list Z) :=
  if (List.length entries =? 0)%nat then Fail_with "no recipients"
  else if MaxMultiRecipients <? Z.of_nat (List.length entries) then Panic
  else
    let recipients := concat (recipient_bytes <$> entries) in
    Return (firstn (List.length recipients - 1) recipients).

Example TestEncodeRecipients :
  EncodeRecipients [] = Fail_with "no recipients" /\
  EncodeRecipients [(1, 2); (3, 4)] = Return (bytes "1:2;3:4") /\
  EncodeRecipients ((fun i => (i, 1)) <$> zrange 65) = Panic.
Proof. by vm_compute. Qed.

(** ** Reading recipients back *)

(** [strings.Split] *)
Fixpoint split (sep : Z) (s : list Z) : list (list Z) :=
  match s with
  | [] => [[]]
  | c :: s' =>
      if c =? sep then [] :: split sep s'
      else match split sep s' with [] => [[c]] | x :: xs => (c :: x) :: xs end
  end.

Definition read_recipient (s : list Z) : option (Z * Z) :=
  match split 58 s with
  | [a; b] => match ParseUint a, ParseInt b with Ok id, Ok amount => Some (id, amount) | _, _ => None end
  | _ => None
  end.

(** What a node reads in the parameter [recipients]. *)
Definition read_recipients (s : list Z) : option (list (Z * Z)) := mapM read_recipient (split 59 s).

Lemma split_none sep s : sep ∉ s -> split sep s = [s].
Proof.
  induction s as [|c s IH]; simpl; [done|]. intros Hs. apply not_elem_of_cons in Hs as [Hc Hs].
  destruct (Z.eqb_spec c sep); [congruence|]. by rewrite IH.
Qed.

Lemma split_app sep s s' : sep ∉ s -> split sep (s ++ sep :: s') = s :: split sep s'.
Proof.
  induction s as [|c s IH]; simpl; [by rewrite Z.eqb_refl|]. intros Hs. apply not_elem_of_cons in Hs as [Hc Hs].
  destruct (Z.eqb_spec c sep); [congruence|]. by rewrite IH.
Qed.

Lemma FormatUint_bytes n c : c ∈ FormatUint n -> 48 <= c <= 57.
Proof.
  unfold FormatUint. intros (d & -> & Hd)%list_elem_of_fmap.
  assert (Hok : digits_ok 10 (rev (to_digits 20 10 n))) by (apply Forall_rev, to_digits_range; lia).
  unfold digits_ok in Hok. rewrite Forall_forall in Hok. apply Hok in Hd. unfold digit_byte. lia.
Qed.

Lemma FormatInt_bytes z c : c ∈ FormatInt z -> 48 <= c <= 57 \/ c = 45.
Proof.
  unfold FormatInt. destruct (z <? 0); [|left; by eapply FormatUint_bytes].
  intros [->|Hc]%elem_of_cons; [by right|left; by eapply FormatUint_bytes].
Qed.

Lemma ParseUint_FormatUint n : GoInt.is_u64 n -> ParseUint (FormatUint n) = Ok n.
Proof.
  intros Hn. unfold GoInt.is_u64 in Hn. unfold FormatUint.
  assert (Hv : value 10 (rev (to_digits 20 10 n)) = n).
  { apply value_to_digits; [lia|]. change (10 ^ Z.of_nat 20) with 100000000000000000000. lia. }
  rewrite ParseUint_digits, Hv.
  - by destruct (Z.ltb_spec n (2 ^ 64)); [|lia].
  - apply Forall_rev, to_digits_range. lia.
  - intros E%(f_equal List.length). by rewrite length_rev in E.
Qed.

Lemma FormatUint_cons n : exists c s, FormatUint n = c :: s.
Proof.
  destruct (FormatUint n) as [|c s] eqn:E; [|by exists c, s]. apply (f_equal List.length) in E.
  unfold FormatUint in E. by rewrite length_fmap, length_rev in E.
Qed.

Lemma ParseInt_FormatInt z : GoInt.is_i64 z -> ParseInt (FormatInt z) = Ok z.
Proof.
  unfold GoInt.is_i64, ParseInt, FormatInt. intros Hz. destruct (Z.ltb_spec z 0).
  - simpl. rewrite ParseUint_FormatUint by (unfold GoInt.is_u64; lia). cbn [negb andb].
    destruct (Z.ltb_spec (2 ^ 63) (- z)); [lia|]. by rewrite Z.opp_involutive.
  - assert (sign_of (FormatUint z) = (false, FormatUint z)) as ->.
    { destruct (FormatUint_cons z) as (c & s & E). rewrite E. unfold sign_of.
      assert (Hc : 48 <= c <= 57) by (apply (FormatUint_bytes z); rewrite E; left).
      assert (Hcases : c ∈ (Z.add 48 <$> zrange 10)) by (apply list_elem_of_fmap; exists (c - 48); rewrite elem_of_zrange; lia).
      clear Hc E. revert Hcases. repeat (intros [-> | H']%elem_of_cons; [done|revert H']). by intros ?%not_elem_of_nil. }
    rewrite ParseUint_FormatUint by (unfold GoInt.is_u64; lia). cbn [negb andb].
    by destruct (Z.leb_spec (2 ^ 63) z); [lia|].
Qed.

Definition recipient_core (p : Z * Z) : list Z := FormatUint p.1 ++ 58 :: FormatInt p.2.

Lemma recipient_core_sep p : 59 ∉ recipient_core p.
Proof.
  unfold recipient_core. rewrite elem_of_app, elem_of_cons.
  intros [H%FormatUint_bytes|[?|H%FormatInt_bytes]]; lia.
Qed.

Lemma read_recipient_core p : GoInt.is_u64 p.1 -> GoInt.is_i64 p.2 -> read_recipient (recipient_core p) = Some p.
Proof.
  intros H1 H2. unfold read_recipient, recipient_core.
  assert (58 ∉ FormatUint p.1) by (intros ?%FormatUint_bytes; lia).
  assert (58 ∉ FormatInt p.2) by (intros ?%FormatInt_bytes; lia).
  rewrite split_app, split_none by done.
  rewrite ParseUint_FormatUint, ParseInt_FormatInt by done. by destruct p.
Qed.

Lemma split_recipients p es :
  let s := concat (recipient_bytes <$> (p :: es)) in
  split 59 (firstn (List.length s - 1) s) = recipient_core <$> (p :: es).
Proof.
  assert (Hb : forall q, recipient_bytes q = recipient_core q ++ [59]).
  { intros q. unfold recipient_bytes, recipient_core. by rewrite <- app_assoc. }
  revert p. induction es as [|q es IH]; intros p; simpl.
  - rewrite app_nil_r, Hb, length_app. simpl.
    replace (List.length (recipient_core p) + 1 - 1)%nat with (List.length (recipient_core p)) by lia.
    rewrite take_app_length. apply split_none, recipient_core_sep.
  - specialize (IH q). simpl in IH. set (rest := recipient_bytes q ++ _) in *.
    assert (Hr : (0 < List.length rest)%nat) by (unfold rest; rewrite Hb, !length_app; simpl; lia).
    rewrite Hb, <- app_assoc. simpl.
    replace (List.length (recipient_core p ++ 59%Z :: rest) - 1)%nat
      with (List.length (recipient_core p) + S (List.length rest - 1))%nat by (rewrite length_app; simpl; lia).
    rewrite take_app_add. simpl. rewrite split_app by apply recipient_core_sep. by rewrite IH.
Qed.

Lemma recipient_bytes_are_bytes p : Forall is_byte (recipient_bytes p).
Proof.
  apply Forall_forall. intros c. unfold recipient_bytes, is_byte. rewrite elem_of_app, elem_of_cons, elem_of_app, list_elem_of_singleton.
  intros [H%FormatUint_bytes|[?|[H%FormatInt_bytes|?]]]; lia.
Qed.

(** What a node reads when the encoding succeeds. *)
Lemma EncodeRecipients_read (entries : list (Z * Z)) :
  Forall (fun p => GoInt.is_u64 p.1 /\ GoInt.is_i64 p.2) entries ->
  match EncodeRecipients entries with
  | Return s => read_recipients s = Some entries /\ Forall is_byte s
  | _ => True
  end.
Proof.
  intros He. unfold EncodeRecipients. destruct entries as [|p es]; [done|].
  destruct (List.length (p :: es) =? 0)%nat; [done|]. destruct (_ <? _); [done|]. split.
  - unfold read_recipients. rewrite split_recipients. induction He as [|q l [H1 H2] _ IH]; [done|].
    cbn [fmap list_fmap mapM]. rewrite read_recipient_core by done. simpl. by rewrite IH.
  - apply Forall_take, Forall_concat, Forall_fmap, Forall_true. intros q. apply recipient_bytes_are_bytes.
Qed.

(** Up to 64 recipients, whatever the order in which Go iterates over the
    map, are encoded so that reading the parameter back gives the very same
    accounts and amounts; no recipients are an error, more than 64 a panic. *)
Theorem EncodeRecipients_roundtrip (entries : list (Z * Z)) :
  Forall (fun p => GoInt.is_u64 p.1 /\ GoInt.is_i64 p.2) entries ->
  match EncodeRecipients entries with
  | Return s => read_recipients s = Some entries /\ 1 <= Z.of_nat (List.length entries) <= 64
  | Fail_with _ => entries = []
  | Panic => 64 < Z.of_nat (List.length entries)
  end.
Proof.
  intros He. pose proof (EncodeRecipients_read entries He) as Hr. revert Hr.
  unfold EncodeRecipients. destruct entries as [|p es]; [done|]. cbn [List.length].
  destruct (S (List.length es) =? 0)%nat eqn:E0; [done|]. unfold MaxMultiRecipients.
  destruct (Z.ltb_spec 64 (Z.of_nat (S (List.length es)))); [done|]. intros [Hr _]. split; [done|lia].
Qed.

Lemma EncodeRecipients_roundtrip_witness :
  match EncodeRecipients [(18446744073709551615, 5); (3, 4)] with
  | Return s => read_recipients s = Some [(18446744073709551615, 5); (3, 4)]
  | _ => False
  end.
Proof.
  assert (H := EncodeRecipients_roundtrip [(18446744073709551615, 5); (3, 4)]
                 ltac:(repeat constructor; vm_compute; congruence)).
  exact (proj1 H).
Defined.
