(* ===== verification/JsonDecode.v ===== *)
(** * [encoding/json]: decoding into Go values

    [Unmarshal] reads a text into a value of a Go type that is described by
    data, as the library does by reflection: the fields of a struct with their
    tags, the option [string], keys that differ in case, values that are there
    before.  An error is one of three classes, without the details of Go's
    message.  Every value that is decoded has its type ([decode_well_typed]),
    and what is encoded is decoded ([Unmarshal_print]). *)

From Stdlib Require Import Ascii String.
From S2P Require Import Prelude GoStrings GoParse GoJson JsonText Wallet.
Open Scope string_scope.
Open Scope list_scope.
Open Scope Z_scope.
Import GoInt.

(** ** Types and values *)

(** A type with a method [UnmarshalJSON] is a named [uint64]; the fields of a
    struct are those of [json]'s [typeFields], where embedded structs are
    flattened: a name, whether the tag has the option [string], and the
    type. *)
Unset Elimination Schemes.
Inductive gotype :=
| TString
| TBool
| TInt (w : Z)
| TUint (w : Z)
| TUnmarshaler (u : json -> Z -> result string Z)
| TSlice (t : gotype)
| TStruct (fs : list (string * (bool * gotype))).

(** A slice has a length and the elements of its array that were written so
    far. *)
Inductive goval :=
| GStr (s : list Z)
| GBool (b : bool)
| GInt (z : Z)
| GSlice (len : nat) (array : list goval)
| GStruct (vs : list goval).
Set Elimination Schemes.

Lemma gotype_ind (P : gotype -> Prop) :
  P TString -> P TBool -> (forall w, P (TInt w)) -> (forall w, P (TUint w)) -> (forall u, P (TUnmarshaler u)) ->
  (forall t, P t -> P (TSlice t)) -> (forall fs, Forall (fun f => P f.2.2) fs -> P (TStruct fs)) -> forall t, P t.
Proof.
  intros Hs Hb Hi Hu Hm Hl Hf. fix IH 1. intros [| |w|w|u|t|fs]; [done|done|done|done|done|apply Hl, IH|apply Hf].
  induction fs as [|[n [q t]] fs IHfs]; constructor; [apply IH|exact IHfs].
Qed.

(** Go's zero value *)
Fixpoint zero (t : gotype) : goval :=
  match t with
  | TString => GStr []
  | TBool => GBool false
  | TInt _ | TUint _ | TUnmarshaler _ => GInt 0
  | TSlice _ => GSlice 0 []
  | TStruct fs => GStruct ((fun f => zero f.2.2) <$> fs)
  end.

(** ** Literals *)

Definition UnmarshalTypeError : string := "json: cannot unmarshal into Go value".
Definition invalid_string_tag : string := "json: invalid use of ,string struct tag".
Definition SyntaxError : string := "json: invalid text".

Definition fits (t : gotype) (z : Z) : bool :=
  match t with
  | TInt w => (- 2 ^ (w - 1) <=? z) && (z <? 2 ^ (w - 1))
  | TUint w => (0 <=? z) && (z <? 2 ^ w)
  | _ => false
  end.

(** The number of a literal. *)
Definition store_number (t : gotype) (s : list Z) : result string goval :=
  match (match t with TInt _ => ParseInt s | TUint _ => ParseUint s | _ => Err ErrSyntax end) with
  | Ok n => if fits t n then Ok (GInt n) else Err UnmarshalTypeError
  | Err _ => Err UnmarshalTypeError
  end.

(** [literalStore] for a literal of the text; null leaves the value as it is. *)
Definition store_literal (t : gotype) (j : json) (old : goval) : result string goval :=
  match j, t with
  | JNull, _ => Ok old
  | JBool b, TBool => Ok (GBool b)
  | JStr s, TString => Ok (GStr s)
  | JNum lit, _ => store_number t lit
  | _, _ => Err UnmarshalTypeError
  end.

(** [literalStore] for the content of a string, where the tag asks for it. *)
Definition store_quoted (t : gotype) (j : json) (old : goval) : result string goval :=
  match j with
  | JNull => Ok old
  | JStr [] => Err invalid_string_tag
  | JStr (c :: s) =>
      if c =? 110 then (if bool_decide (c :: s = bytes "null") then Ok old else Err invalid_string_tag)
      else if (c =? 116) || (c =? 102) then
        match t with
        | TBool =>
            if bool_decide (c :: s = bytes "true") then Ok (GBool true)
            else if bool_decide (c :: s = bytes "false") then Ok (GBool false) else Err invalid_string_tag
        | _ => Err invalid_string_tag
        end
      else if c =? 34 then
        match t, parse_string s with TString, Some (x, []) => Ok (GStr x) | _, _ => Err invalid_string_tag end
      else if (c =? 45) || is_digit c then store_number t (c :: s)
      else Err invalid_string_tag
  | _ => Err invalid_string_tag
  end.

(** ** Fields *)

(** Comparison of a name in ASCII with a key, but for case, where the Kelvin
    sign is a K and the long s an s. *)
Definition is_letter (c : Z) : bool := ((65 <=? c) && (c <=? 90)) || ((97 <=? c) && (c <=? 122)).

Fixpoint equalFold (name key : list Z) : bool :=
  match name, key with
  | [], [] => true
  | a :: name', b :: key' =>
      if b <? 128 then
        ((a =? b) || (is_letter a && is_letter b && (lower a =? lower b))) && equalFold name' key'
      else
        match key' with
        | b1 :: key'' =>
            if (lower a =? 115) && (b =? 197) && (b1 =? 191) then equalFold name' key''
            else match key'' with
                 | b2 :: key''' =>
                     if (lower a =? 107) && (b =? 226) && (b1 =? 132) && (b2 =? 170) then equalFold name' key''' else false
                 | [] => false
                 end
        | [] => false
        end
  | _, _ => false
  end.

Fixpoint find_index (p : list Z -> bool) (names : list (list Z)) : option nat :=
  match names with
  | [] => None
  | n :: names' => if p n then Some O else S <$> find_index p names'
  end.

(** The field with the name itself, else the first that differs in case. *)
Definition find_field (names : list (list Z)) (key : list Z) : option nat :=
  match find_index (fun n => bool_decide (n = key)) names with
  | Some i => Some i
  | None => find_index (fun n => equalFold n key) names
  end.

(** ** [Unmarshal] *)

Notation decoder := (json -> goval -> result string goval).

(** The loop over an array: an element is decoded into what the slice has at
    its place. *)
Fixpoint decode_elements (d : decoder) (fresh : goval) (l : list json) (array : list goval) : result string (list goval) :=
  match l with
  | [] => Ok array
  | x :: l' =>
      (try y <- d x (match array with old :: _ => old | [] => fresh end) ;;
       try ys <- decode_elements d fresh l' (tl array) ;;
       Ok (y :: ys))%go
  end.

(** A member of an object; an unknown key is skipped. *)
Definition decode_member (names : list (list Z)) (ds : list decoder) (p : list Z * json) (vs : list goval)
    : result string (list goval) :=
  match find_field names p.1 with
  | None => Ok vs
  | Some i =>
      match ds !! i, vs !! i with
      | Some d, Some old => (try v <- d p.2 old ;; Ok (<[i := v]> vs))%go
      | _, _ => Ok vs
      end
  end.

Fixpoint decode_members (names : list (list Z)) (ds : list decoder) (l : list (list Z * json)) (vs : list goval)
    : result string (list goval) :=
  match l with
  | [] => Ok vs
  | p :: l' => (try vs <- decode_member names ds p vs ;; decode_members names ds l' vs)%go
  end.

Fixpoint decode (t : gotype) : decoder :=
  match t with
  | TUnmarshaler u => fun j old =>
      match old with GInt i => (try z <- u j i ;; Ok (GInt z))%go | _ => Err UnmarshalTypeError end
  | TSlice t' =>
      let d := decode t' in
      fun j old =>
        match j, old with
        | JNull, _ => Ok (GSlice 0 [])
        | JArr [], _ => Ok (GSlice 0 [])
        | JArr l, GSlice _ array => (try vs <- decode_elements d (zero t') l array ;; Ok (GSlice (List.length l) vs))%go
        | _, _ => Err UnmarshalTypeError
        end
  | TStruct fs =>
      let names := (fun f : string * (bool * gotype) => bytes f.1) <$> fs in
      let ds := (fun f : string * (bool * gotype) => if f.2.1 then store_quoted f.2.2 else decode f.2.2) <$> fs in
      fun j old =>
        match j, old with
        | JNull, _ => Ok old
        | JObj l, GStruct vs => (try vs <- decode_members names ds l vs ;; Ok (GStruct vs))%go
        | _, _ => Err UnmarshalTypeError
        end
  | _ => store_literal t
  end.

(** [json.Unmarshal] *)
Definition Unmarshal (t : gotype) (b : list Z) (old : goval) : result string goval :=
  match parse b with
  | None => Err SyntaxError
  | Some j => decode t j old
  end.

(** ** Values of a type *)

Definition Forall_fields (P : gotype -> goval -> Prop) : list (string * (bool * gotype)) -> list goval -> Prop :=
  Forall2 (fun f v => P f.2.2 v).

Fixpoint well_typed (t : gotype) (v : goval) {struct t} : Prop :=
  match t, v with
  | TString, GStr _ => True
  | TBool, GBool _ => True
  | TInt _, GInt z | TUint _, GInt z => fits t z = true
  | TUnmarshaler _, GInt z => is_u64 z
  | TSlice t', GSlice n array => (n <= List.length array)%nat /\ Forall (well_typed t') array
  | TStruct fs, GStruct vs =>
      (fix go (fs : list (string * (bool * gotype))) vs :=
         match fs, vs with
         | [], [] => True
         | f :: fs', v :: vs' => well_typed f.2.2 v /\ go fs' vs'
         | _, _ => False
         end) fs vs
  | _, _ => False
  end.

Lemma well_typed_struct fs vs : well_typed (TStruct fs) (GStruct vs) <-> Forall2 (fun f v => well_typed f.2.2 v) fs vs.
Proof.
  simpl. revert vs. induction fs as [|f fs IH]; intros [|v vs]; rewrite ?Forall2_cons, ?IH; split; try done;
    by inversion 1.
Qed.

(** The methods keep to their type, and the widths are positive. *)
Fixpoint proper (t : gotype) : Prop :=
  match t with
  | TString | TBool => True
  | TInt w | TUint w => 0 < w
  | TUnmarshaler u => forall j i z, is_u64 i -> u j i = Ok z -> is_u64 z
  | TSlice t' => proper t'
  | TStruct fs =>
      (fix go (fs : list (string * (bool * gotype))) := match fs with [] => True | f :: fs' => proper f.2.2 /\ go fs' end) fs
  end.

Lemma proper_struct fs : proper (TStruct fs) <-> Forall (fun f => proper f.2.2) fs.
Proof. simpl. induction fs as [|f fs IH]; rewrite ?Forall_cons, ?IH; split; try done; by constructor. Qed.

Lemma zero_well_typed t : proper t -> well_typed t (zero t).
Proof.
  induction t as [| |w|w|u|t IH|fs IH] using gotype_ind; intros Hp.
  - done.
  - done.
  - simpl in *. assert (0 < 2 ^ (w - 1)) by (apply Z.pow_pos_nonneg; lia). lia.
  - simpl in *. assert (0 < 2 ^ w) by (apply Z.pow_pos_nonneg; lia). lia.
  - done.
  - done.
  - apply well_typed_struct. apply proper_struct in Hp. cbn [zero].
    induction IH as [|f fs Hf _ IH']; inversion Hp; cbn [fmap list_fmap]; constructor; auto.
Qed.

Definition sound_decoder (t : gotype) (d : decoder) : Prop :=
  forall j old v, well_typed t old -> d j old = Ok v -> well_typed t v.

Lemma store_number_sound t s v : store_number t s = Ok v -> well_typed t v.
Proof.
  unfold store_number. destruct t; try done.
  - destruct (ParseInt s); [|done]. destruct (fits _ _) eqn:E; [|done]. by intros [= <-].
  - destruct (ParseUint s); [|done]. destruct (fits _ _) eqn:E; [|done]. by intros [= <-].
Qed.

Lemma store_literal_sound t : sound_decoder t (store_literal t).
Proof.
  intros j old v Ho. unfold store_literal.
  destruct j, t; try done; try (intros [= <-]; done); try apply store_number_sound.
Qed.

Lemma store_quoted_sound t : sound_decoder t (store_quoted t).
Proof.
  intros j old v Ho. unfold store_quoted. destruct j as [|b|lit|[|c s]|l|l]; try done; [by intros [= <-]|].
  destruct (c =? 110); [case_bool_decide; [by intros [= <-]|done]|].
  destruct (_ || _).
  { destruct t; try done. repeat case_bool_decide; try done; by intros [= <-]. }
  destruct (c =? 34).
  { destruct t; try done. destruct (parse_string s) as [[x [|? ?]]|]; try done. by intros [= <-]. }
  destruct (_ || _); [apply store_number_sound|done].
Qed.

Lemma decode_elements_sound t d l array vs :
  sound_decoder t d -> well_typed t (zero t) -> Forall (well_typed t) array ->
  decode_elements d (zero t) l array = Ok vs -> Forall (well_typed t) vs /\ (List.length l <= List.length vs)%nat.
Proof.
  intros Hd Hz. revert array vs. induction l as [|x l IH]; intros array vs Ha; simpl.
  { intros [= <-]. split; [done|lia]. }
  destruct (d x _) as [y|e] eqn:Ey; [|done].
  destruct (decode_elements d (zero t) l (tl array)) as [ys|e] eqn:Es; [|done]. intros [= <-].
  apply IH in Es as [Hys Hl]; [|by destruct Ha]. split; [constructor; [|done]|simpl; lia].
  eapply Hd; [|exact Ey]. by destruct Ha.
Qed.

Lemma decode_members_sound fs ds names l vs vs' :
  Forall2 (fun (f : string * (bool * gotype)) d => sound_decoder f.2.2 d) fs ds ->
  Forall2 (fun f v => well_typed f.2.2 v) fs vs ->
  decode_members names ds l vs = Ok vs' -> Forall2 (fun f v => well_typed f.2.2 v) fs vs'.
Proof.
  intros Hds. revert vs. induction l as [|p l IH]; intros vs Hvs; simpl; [by intros [= <-]|].
  destruct (decode_member names ds p vs) as [vs1|e] eqn:E; [|done]. apply IH. revert E.
  unfold decode_member. destruct (find_field names p.1) as [i|]; [|by intros [= <-]].
  destruct (ds !! i) as [d|] eqn:Ed; [|by intros [= <-]]. destruct (vs !! i) as [old|] eqn:Eo; [|by intros [= <-]].
  destruct (d p.2 old) as [v|e] eqn:Ev; [|done]. intros [= <-].
  destruct (Forall2_lookup_r _ _ _ _ _ Hds Ed) as (f & Ef & Hd).
  rewrite <- (list_insert_id fs i f) by done. apply Forall2_insert; [done|].
  eapply Hd; [|exact Ev]. exact (Forall2_lookup_lr _ _ _ _ _ _ Hvs Ef Eo).
Qed.

(** Whatever the text, what is decoded has the type: numbers are in the range
    of their width. *)
Lemma decode_well_typed t : proper t -> sound_decoder t (decode t).
Proof.
  induction t as [| |w|w|u|t IH|fs IH] using gotype_ind; intros Hp;
    try (apply store_literal_sound); intros j old v Ho.
  - cbn. destruct old as [| |i| |]; try done. destruct (u j i) as [z|e] eqn:E; [|done]. intros [= <-].
    by eapply Hp.
  - cbn [decode]. pose proof (zero_well_typed t Hp) as Hz.
    destruct j as [| | | |[|x l]|l]; try done; try (by intros [= <-]; split; simpl; [lia|constructor]).
    destruct old as [| | |n array|]; try done. destruct (decode_elements _ _ _ _) as [vs|e] eqn:E; [|done].
    intros [= <-]. destruct Ho as [_ Ha]. apply (decode_elements_sound t) in E; [|by apply IH|done|done].
    destruct E as [H1 H2]. by split.
  - cbn [decode]. destruct j as [| | | |l|l]; try done; [by intros [= <-]|].
    destruct old as [| | | |vs]; try done. destruct (decode_members _ _ _ _) as [vs'|e] eqn:E; [|done].
    intros [= <-]. apply well_typed_struct. apply well_typed_struct in Ho. eapply decode_members_sound; [|exact Ho|exact E].
    apply proper_struct in Hp. clear -IH Hp. induction IH as [|f fs Hf _ IH']; inversion Hp; [constructor|].
    cbn [fmap list_fmap]. constructor; [|by apply IH']. destruct f.2.1; [apply store_quoted_sound|by apply Hf].
Qed.

Lemma Unmarshal_well_typed t b v : proper t -> Unmarshal t b (zero t) = Ok v -> well_typed t v.
Proof.
  intros Hp. unfold Unmarshal. destruct (parse b); [|done]. apply decode_well_typed; [done|by apply zero_well_typed].
Qed.

(** ** Encoding *)

(** How a node writes a number in quotes, and a value of a type. *)
Definition encode_quoted (v : goval) : json :=
  match v with GInt z => JStr (FormatInt z) | _ => JNull end.

Fixpoint encode (t : gotype) (v : goval) {struct t} : json :=
  match t, v with
  | TString, GStr s => JStr s
  | TBool, GBool b => JBool b
  | TInt _, GInt z | TUint _, GInt z => JNum (FormatInt z)
  | TUnmarshaler _, GInt z => JStr (FormatUint z)
  | TSlice t', GSlice _ array => JArr (encode t' <$> array)
  | TStruct fs, GStruct vs =>
      JObj ((fix go (fs : list (string * (bool * gotype))) vs :=
         match fs, vs with
         | f :: fs', v :: vs' => (bytes f.1, if f.2.1 then encode_quoted v else encode f.2.2 v) :: go fs' vs'
         | _, _ => []
         end) fs vs)
  | _, _ => JNull
  end.

(** The types that the program decodes: integers of at most 64 bits, the
    option [string] on integers only, and names that differ. *)
Fixpoint regular (t : gotype) : Prop :=
  match t with
  | TString | TBool => True
  | TInt w | TUint w => 0 < w <= 64
  | TUnmarshaler u => forall i z, is_u64 z -> u (JStr (FormatUint z)) i = Ok z
  | TSlice t' => regular t'
  | TStruct fs =>
      NoDup ((fun f => bytes f.1) <$> fs) /\ Forall (fun f => valid_utf8 (bytes f.1)) fs /\
      (fix go (fs : list (string * (bool * gotype))) :=
         match fs with
         | [] => True
         | f :: fs' =>
             (f.2.1 = true -> match f.2.2 with TInt _ | TUint _ => True | _ => False end) /\ regular f.2.2 /\ go fs'
         end) fs
  end.

(** A value that has the type: strings of valid UTF-8, slices that were made
    at once. *)
Fixpoint sendable (t : gotype) (v : goval) {struct t} : Prop :=
  match t, v with
  | TString, GStr s => text s
  | TBool, GBool _ => True
  | TInt _, GInt z | TUint _, GInt z => fits t z = true
  | TUnmarshaler _, GInt z => is_u64 z
  | TSlice t', GSlice n array => n = List.length array /\ Forall (sendable t') array
  | TStruct fs, GStruct vs =>
      (fix go (fs : list (string * (bool * gotype))) vs :=
         match fs, vs with
         | [], [] => True
         | f :: fs', v :: vs' => sendable f.2.2 v /\ go fs' vs'
         | _, _ => False
         end) fs vs
  | _, _ => False
  end.

(** ** Decoding what was encoded *)

Lemma leading_digit fuel n :
  0 < n < 10 ^ Z.of_nat fuel -> exists d ds, rev (to_digits fuel 10 n) = d :: ds /\ 0 < d.
Proof.
  revert n. induction fuel as [|f IH]; intros n Hn; [simpl in Hn; lia|]. simpl. destruct (Z.eqb_spec (n / 10) 0) as [E|E].
  - exists (n mod 10), []. split; [done|]. pose proof (Z.div_mod n 10). lia.
  - pose proof (div_lt_pow 10 ltac:(lia) n f ltac:(lia)). destruct (IH (n / 10)) as (d & ds & -> & Hd); [lia|].
    by exists d, (ds ++ [n mod 10]).
Qed.

Lemma FormatUint_number n : 0 <= n < 2 ^ 64 -> is_number (FormatUint n) /\ forall c s, FormatUint n = c :: s -> is_digit c = true.
Proof.
  intros Hn. assert (Hd : Forall (fun c => 48 <= c <= 57) (FormatUint n)).
  { apply Forall_forall. intros c. apply FormatUint_bytes. }
  split; [|intros c s E; rewrite E, Forall_cons in Hd; unfold is_digit; lia].
  assert (Hp : integer_part (FormatUint n) = Some (FormatUint n, []) /\ sign_part (FormatUint n) = ([], FormatUint n)).
  { destruct (decide (n = 0)) as [->|Hn0]; [done|].
    destruct (leading_digit 20 n) as (d & ds & E & Hd0).
    { change (10 ^ Z.of_nat 20) with 100000000000000000000. lia. }
    assert (Ef : FormatUint n = (48 + d) :: (digit_byte <$> ds)) by (unfold FormatUint; by rewrite E).
    rewrite Ef in *. unfold integer_part, sign_part. assert (48 <= 48 + d <= 57) by (by apply Forall_cons in Hd as [? _]).
    destruct (Z.eqb_spec (48 + d) 48); [lia|]. destruct (Z.eqb_spec (48 + d) 45); [lia|].
    unfold digits1. by rewrite span_all_digits. }
  destruct Hp as [Hi Hs]. unfold is_number. apply parse_number_parts.
  eexists [], _, _, [], [], [], []. split_and!; [exact Hs|exact Hi|done|done|]. by rewrite app_nil_r.
Qed.

Lemma FormatInt_number z : is_i64 z \/ is_u64 z -> is_number (FormatInt z).
Proof.
  unfold is_i64, is_u64. intros Hz. unfold FormatInt. destruct (Z.ltb_spec z 0); [|apply FormatUint_number; lia].
  destruct (FormatUint_number (- z)) as [Hn _]; [lia|]. unfold is_number in *.
  destruct (FormatUint_cons (- z)) as (c & s & E). pose proof (FormatUint_bytes (- z) c ltac:(rewrite E; left)).
  apply parse_number_parts in Hn as (sg & s1 & a & s2 & b & s3 & c' & H1 & H2 & H3 & H4 & H5).
  apply parse_number_parts. exists [45], (FormatUint (- z)), a, s2, b, s3, c'.
  rewrite E in H1. simpl in H1. destruct (Z.eqb_spec c 45); [lia|]. injection H1 as <- <-. rewrite <- E in *.
  split_and!; [done|done|done|done|]. rewrite H5. done.
Qed.

Lemma fits_range t z : fits t z = true -> regular t -> is_i64 z \/ is_u64 z.
Proof.
  unfold is_i64, is_u64. destruct t as [| |w|w| | |]; try done; simpl; intros Hf [H0 H64].
  - left. pose proof (Z.pow_le_mono_r 2 (w - 1) 63 ltac:(lia) ltac:(lia)). lia.
  - right. pose proof (Z.pow_le_mono_r 2 w 64 ltac:(lia) ltac:(lia)). lia.
Qed.

Lemma store_number_FormatInt t z : fits t z = true -> regular t -> store_number t (FormatInt z) = Ok (GInt z).
Proof.
  intros Hf Hr. unfold store_number. destruct t as [| |w|w| | |]; try done; pose proof Hf as Hz; simpl in Hz, Hr.
  - rewrite ParseInt_FormatInt; [by rewrite Hf|]. unfold is_i64.
    pose proof (Z.pow_le_mono_r 2 (w - 1) 63 ltac:(lia) ltac:(lia)). lia.
  - unfold FormatInt. destruct (Z.ltb_spec z 0); [lia|]. rewrite ParseUint_FormatUint; [by rewrite Hf|].
    unfold is_u64. pose proof (Z.pow_le_mono_r 2 w 64 ltac:(lia) ltac:(lia)). lia.
Qed.

Lemma store_quoted_FormatInt t z old :
  fits t z = true -> regular t -> store_quoted t (encode_quoted (GInt z)) old = Ok (GInt z).
Proof.
  intros Hf Hr. pose proof (store_number_FormatInt t z Hf Hr) as E. simpl.
  assert (Hc : exists c s, FormatInt z = c :: s /\ (48 <= c <= 57 \/ c = 45)).
  { assert (exists c s, FormatInt z = c :: s) as (c & s & Ec).
    { unfold FormatInt. destruct (z <? 0); [by eexists _, _|apply FormatUint_cons]. }
    exists c, s. split; [done|]. apply (FormatInt_bytes z). rewrite Ec. left. }
  destruct Hc as (c & s & Ec & Hc). rewrite Ec in *.
  assert ((c =? 110) = false /\ (c =? 116) || (c =? 102) = false /\ (c =? 34) = false /\ (c =? 45) || is_digit c = true)
    as (-> & -> & -> & ->) by (unfold is_digit; lia). done.
Qed.

Lemma find_index_NoDup names n i : NoDup names -> names !! i = Some n -> find_index (fun m => bool_decide (m = n)) names = Some i.
Proof.
  intros Hnd. revert i. induction Hnd as [|m names Hm _ IH]; intros i Hi; [done|]. simpl. destruct i as [|i]; simpl in Hi.
  - injection Hi as ->. by rewrite bool_decide_true.
  - rewrite bool_decide_false; [by rewrite (IH i)|]. intros ->. apply Hm. by eapply list_elem_of_lookup_2.
Qed.

Lemma decode_elements_encode d fresh (enc : goval -> json) vs :
  Forall (fun v => d (enc v) fresh = Ok v) vs -> decode_elements d fresh (enc <$> vs) [] = Ok vs.
Proof. induction 1 as [|v vs Hv _ IH]; [done|]. cbn. rewrite Hv. by rewrite IH. Qed.

(** The members of an object, one for each field. *)
Lemma decode_members_encode {F} (name : F -> list Z) (dec : F -> decoder) (enc : F -> goval -> json) (fresh : F -> goval) fs vs :
  NoDup (name <$> fs) -> Forall2 (fun f v => dec f (enc f v) (fresh f) = Ok v) fs vs ->
  decode_members (name <$> fs) (dec <$> fs) (zip_with (fun f v => (name f, enc f v)) fs vs) (fresh <$> fs) = Ok vs.
Proof.
  intros Hnd Hd.
  enough (G : forall fs1 vs1, List.length fs1 = List.length vs1 -> NoDup (name <$> fs1 ++ fs) ->
    decode_members (name <$> fs1 ++ fs) (dec <$> fs1 ++ fs) (zip_with (fun f v => (name f, enc f v)) fs vs)
      (vs1 ++ (fresh <$> fs)) = Ok (vs1 ++ vs)) by by apply (G [] []).
  clear Hnd. induction Hd as [|f v fs vs Hfv _ IH]; intros fs1 vs1 Hl Hnd; [done|].
  cbn [zip_with decode_members]. unfold decode_member. cbn [fst].
  assert (Hlk : forall {A} (g : F -> A), (g <$> fs1 ++ f :: fs) !! List.length fs1 = Some (g f)).
  { intros A g. by rewrite list_lookup_fmap, list_lookup_middle. }
  unfold find_field. rewrite (find_index_NoDup _ _ _ Hnd (Hlk _ name)). rewrite Hlk.
  cbn [fmap list_fmap]. rewrite list_lookup_middle by done. cbn [snd]. rewrite Hfv.
  rewrite Hl, <- (Nat.add_0_r (List.length vs1)), insert_app_r. cbn [insert list_insert].
  specialize (IH (fs1 ++ [f]) (vs1 ++ [v])). rewrite <- !app_assoc in IH. apply IH; [|done].
  rewrite !length_app. simpl. lia.
Qed.

Lemma regular_struct fs :
  regular (TStruct fs) <->
  NoDup ((fun f => bytes f.1) <$> fs) /\ Forall (fun f => valid_utf8 (bytes f.1)) fs /\
  Forall (fun f => (f.2.1 = true -> match f.2.2 with TInt _ | TUint _ => True | _ => False end) /\ regular f.2.2) fs.
Proof.
  simpl. do 2 (apply and_iff_compat_l).
  induction fs as [|f fs IH]; rewrite ?Forall_cons, ?IH; [by split|tauto].
Qed.

Lemma sendable_struct fs vs : sendable (TStruct fs) (GStruct vs) <-> Forall2 (fun f v => sendable f.2.2 v) fs vs.
Proof.
  simpl. revert vs. induction fs as [|f fs IH]; intros [|v vs]; rewrite ?Forall2_cons, ?IH; split; try done;
    by inversion 1.
Qed.

Definition encode_field (f : string * (bool * gotype)) (v : goval) : json :=
  if f.2.1 then encode_quoted v else encode f.2.2 v.

Lemma encode_struct fs vs :
  encode (TStruct fs) (GStruct vs) = JObj (zip_with (fun f v => (bytes f.1, encode_field f v)) fs vs).
Proof. reflexivity. Qed.

Lemma quoted_value (f : string * (bool * gotype)) v :
  (f.2.1 = true -> match f.2.2 with TInt _ | TUint _ => True | _ => False end) -> f.2.1 = true -> sendable f.2.2 v ->
  exists z, v = GInt z /\ fits f.2.2 z = true.
Proof. intros Hq Eq Hs. specialize (Hq Eq). destruct f.2.2, v; try done; by eexists. Qed.

Lemma decode_encode t v : regular t -> sendable t v -> decode t (encode t v) (zero t) = Ok v.
Proof.
  revert v. induction t as [| |w|w|u|t IH|fs IH] using gotype_ind; intros v Hr Hs.
  - by destruct v.
  - by destruct v.
  - destruct v; try done. by apply (store_number_FormatInt (TInt w)).
  - destruct v; try done. by apply (store_number_FormatInt (TUint w)).
  - destruct v; try done. cbn in *. by rewrite Hr.
  - destruct v as [| | |n array|]; try done. destruct Hs as [-> Hs]. cbn [encode zero decode].
    destruct array as [|x l]; [done|]. set (array := x :: l) in *.
    change (encode t <$> array) with (encode t x :: (encode t <$> l)). cbn [List.length].
    change (encode t x :: (encode t <$> l)) with (encode t <$> array).
    rewrite decode_elements_encode; [by rewrite length_fmap|].
    eapply Forall_impl; [exact Hs|]. intros y. by apply IH.
  - destruct v as [| | | |vs]; try done. apply sendable_struct in Hs. apply regular_struct in Hr as (Hnd & _ & Hr).
    rewrite encode_struct. cbn [decode zero].
    rewrite (decode_members_encode (fun f : string * (bool * gotype) => bytes f.1)
               (fun f => if f.2.1 then store_quoted f.2.2 else decode f.2.2) encode_field (fun f => zero f.2.2)); [done..|].
    clear Hnd. revert Hr IH. induction Hs as [|f v fs vs Hv _ IHs]; intros Hr IH; [constructor|].
    apply Forall_cons in Hr as [[Hq Hf] Hr]. apply Forall_cons in IH as [IHf IH]. constructor; [|by apply IHs].
    unfold encode_field. destruct f.2.1 eqn:Eq; [|by apply IHf].
    destruct (quoted_value f v) as (z & -> & Hz); [by rewrite Eq|done..|]. by apply store_quoted_FormatInt.
Qed.

Lemma digits_text s : Forall (fun c => 0 <= c < 128) s -> text s.
Proof.
  intros H. split; [eapply Forall_impl; [exact H|]; unfold is_byte; simpl; lia|].
  unfold valid_utf8. induction H as [|c s Hc _ IH]; [done|]. rewrite runes_cons. by destruct (Z.ltb_spec c 128); [|lia].
Qed.

Lemma encode_wf t v : regular t -> sendable t v -> wf (encode t v).
Proof.
  revert v. induction t as [| |w|w|u|t IH|fs IH] using gotype_ind; intros v Hr Hs.
  - destruct v; try done. by constructor.
  - destruct v; try done. constructor.
  - destruct v; try done. constructor. by apply FormatInt_number, (fits_range (TInt w)).
  - destruct v; try done. constructor. by apply FormatInt_number, (fits_range (TUint w)).
  - destruct v; try done. constructor. apply digits_text, Forall_forall. intros c Hc%FormatUint_bytes. lia.
  - destruct v as [| | |n array|]; try done. destruct Hs as [-> Hs]. constructor. apply Forall_fmap.
    eapply Forall_impl; [exact Hs|]. intros y. by apply IH.
  - destruct v as [| | | |vs]; try done. apply sendable_struct in Hs. apply regular_struct in Hr as (_ & Hn & Hr).
    rewrite encode_struct. constructor.
    revert Hr Hn IH. induction Hs as [|f v fs vs Hv _ IHs]; intros Hr Hn IH; [constructor|].
    apply Forall_cons in Hr as [[Hq Hf] Hr]. apply Forall_cons in IH as [IHf IH]. apply Forall_cons in Hn as [Hfn Hn].
    constructor; [|by apply IHs]. cbn [fst snd]. split; [split; [apply bytes_range|done]|].
    unfold encode_field. destruct f.2.1 eqn:Eq; [|by apply IHf].
    destruct (quoted_value f v) as (z & -> & Hz); [by rewrite Eq|done..|]. constructor. apply digits_text, Forall_forall.
    intros c Hc%FormatInt_bytes. lia.
Qed.

(** A text that was written for a value is decoded as the value. *)
Lemma Unmarshal_print t v : regular t -> sendable t v -> Unmarshal t (print (encode t v)) (zero t) = Ok v.
Proof.
  intros Hr Hs. unfold Unmarshal. rewrite parse_print by by apply encode_wf. by apply decode_encode.
Qed.
