(* ===== verification/WalletRequests.v ===== *)
(** * The requests to a wallet node ([pkg/wallet/wallet.go])

    The request structs with their [url] tags, the query string they are
    sent as, and the interface [Wallet] with the implementation that
    [NewWallet] gives.  [reflectValue] follows [query.Values] of
    go-querystring on the kinds of fields the requests have; [Encode] and
    [QueryEscape] are those of [net/url].  The HTTP client is a
    parameter; so is the decoder of a reply, which is in [Replies]. *)

From Stdlib Require Import Ascii String.
From stdpp Require Import sorting.
From S2P Require Import Prelude GoStrings GoFloat GoParse Burstmath Wallet.
Open Scope string_scope.
Open Scope list_scope.
Open Scope Z_scope.
Import GoInt.

(** ** [url.QueryEscape] *)

Definition unreserved (c : Z) : bool :=
  ((97 <=? c) && (c <=? 122)) || ((65 <=? c) && (c <=? 90)) || ((48 <=? c) && (c <=? 57)) ||
  (c =? 45) || (c =? 95) || (c =? 46) || (c =? 126).

Definition upper_hex (d : Z) : Z := if d <? 10 then 48 + d else 55 + d.

Definition escape_byte (c : Z) : list Z :=
  if c =? 32 then [43] else if unreserved c then [c] else [37; upper_hex (c / 16); upper_hex (c mod 16)].

Definition QueryEscape (s : list Z) : list Z := concat (escape_byte <$> s).

(** How a node reads it. *)
Fixpoint unescape (s : list Z) : option (list Z) :=
  match s with
  | [] => Some []
  | c :: s' =>
      if c =? 37 then
        match s' with
        | a :: b :: s'' =>
            match hex_value a, hex_value b, unescape s'' with
            | Some x, Some y, Some r => Some (16 * x + y :: r)
            | _, _, _ => None
            end
        | _ => None
        end
      else match unescape s' with Some r => Some ((if c =? 43 then 32 else c) :: r) | None => None end
  end.

(** ** [url.Values] *)

(** Keys and values, in the order in which they were added. *)
Notation Values := (list (list Z * list Z)).

Fixpoint bytes_le (a b : list Z) : bool :=
  match a, b with
  | [], _ => true
  | _ :: _, [] => false
  | x :: a', y :: b' => (x <? y) || ((x =? y) && bytes_le a' b')
  end.

Definition key_le (a b : list Z) : Prop := bytes_le a b = true.
#[export] Instance key_le_dec a b : Decision (key_le a b).
Proof. unfold key_le. apply _. Defined.

(** The keys in order, each with its values in the order they were added. *)
Definition sorted (v : Values) : Values :=
  k ← merge_sort key_le (remove_dups v.*1); filter (fun p => p.1 = k) v.

Definition pair_bytes (p : list Z * list Z) : list Z := QueryEscape p.1 ++ 61 :: QueryEscape p.2.

(** [url.Values.Encode] *)
Definition Encode (v : Values) : list Z := join 38 (pair_bytes <$> sorted v).

(** How a node reads it: pairs between ampersands. *)
Definition read_pair (s : list Z) : option (list Z * list Z) :=
  match split 61 s with
  | [k; v] => match unescape k, unescape v with Some k, Some v => Some (k, v) | _, _ => None end
  | _ => None
  end.

Definition read_query (s : list Z) : option Values :=
  match s with [] => Some [] | _ => mapM read_pair (split 38 s) end.

(** The first value of a key. *)
Fixpoint value_of (k : list Z) (v : Values) : option (list Z) :=
  match v with
  | [] => None
  | p :: v' => if bool_decide (p.1 = k) then Some p.2 else value_of k v'
  end.

(** ** [query.Values] *)

Inductive field_value := VUint (z : Z) | VInt (z : Z) | VBool (b : bool) | VString (s : list Z).

(** [fmt.Sprint] *)
Definition valueString (v : field_value) : list Z :=
  match v with
  | VUint z => FormatUint z
  | VInt z => FormatInt z
  | VBool b => bytes (if b then "true" else "false")
  | VString s => s
  end.

Definition isEmptyValue (v : field_value) : bool :=
  match v with
  | VUint z | VInt z => z =? 0
  | VBool b => negb b
  | VString s => (List.length s =? 0)%nat
  end.

Record field := mk_field { tag_name : string; omitempty : bool; field_val : field_value }.

(** An exported field with a tag. *)
Definition reflect_field (f : field) : option (list Z * list Z) :=
  if omitempty f && isEmptyValue (field_val f) then None
  else Some (bytes (tag_name f), valueString (field_val f)).

(** The fields of the embedded [requestTypeField] come last. *)
Definition reflectValue (fields : list field) (requestType : string) : Values :=
  omap reflect_field (fields ++ [mk_field "requestType" false (VString (bytes requestType))]).

(** ** Requests *)

(** What the type of a request and its method of [wallet] fix: the HTTP
    method, [RequestType], and the tagged fields. *)
Class Request (R : Type) := {
  http_method : string;
  RequestType : string;
  url_fields : R -> list field
}.
#[export] Hint Mode Request + : typeclass_instances.
Arguments http_method R {_}.
Arguments RequestType R {_}.

Definition parameters {R} `{Request R} (req : R) : Values := reflectValue (url_fields req) (RequestType R).

(** [v.Encode()] of a request. *)
Definition query {R} `{Request R} (req : R) : list Z := Encode (parameters req).

Module GetMiningInfoRequest.
Record t := mk {}.
End GetMiningInfoRequest.
#[export] Instance GetMiningInfo_request : Request GetMiningInfoRequest.t := {
  http_method := "GET"; RequestType := "getMiningInfo"; url_fields _ := []
}.

Module SubmitNonceRequest.
Record t := mk { AccountID : Z; Nonce : Z; SecretPhrase : string }.
End SubmitNonceRequest.
#[export] Instance SubmitNonce_request : Request SubmitNonceRequest.t := {
  http_method := "POST"; RequestType := "submitNonce";
  url_fields r := [mk_field "accountId" false (VUint (SubmitNonceRequest.AccountID r));
                   mk_field "nonce" false (VUint (SubmitNonceRequest.Nonce r));
                   mk_field "secretPhrase" false (VString (bytes (SubmitNonceRequest.SecretPhrase r)))]
}.

Module GetBlockRequest.
Record t := mk { Block : Z; Height : Z; Timestamp : Z; IncludeTransactions : bool }.
End GetBlockRequest.
#[export] Instance GetBlock_request : Request GetBlockRequest.t := {
  http_method := "GET"; RequestType := "getBlock";
  url_fields r := [mk_field "block" true (VUint (GetBlockRequest.Block r));
                   mk_field "height" true (VUint (GetBlockRequest.Height r));
                   mk_field "timestamp" true (VInt (GetBlockRequest.Timestamp r));
                   mk_field "includeTransactions" true (VBool (GetBlockRequest.IncludeTransactions r))]
}.

Module GetAccountsWithRewardRecipientRequest.
Record t := mk { AccountID : Z }.
End GetAccountsWithRewardRecipientRequest.
#[export] Instance GetAccountsWithRewardRecipient_request : Request GetAccountsWithRewardRecipientRequest.t := {
  http_method := "POST"; RequestType := "getAccountsWithRewardRecipient";
  url_fields r := [mk_field "account" false (VUint (GetAccountsWithRewardRecipientRequest.AccountID r))]
}.

Module SendMoneyRequest.
Record t := mk {
  Recipient : Z; AmountNQT : Z; FeeNQT : Z; Deadline : Z; ReferencedTransactionFullHash : string;
  Broadcast : bool; SecretPhrase : string
}.
End SendMoneyRequest.
#[export] Instance SendMoney_request : Request SendMoneyRequest.t := {
  http_method := "POST"; RequestType := "sendMoney";
  url_fields r := [mk_field "recipient" false (VUint (SendMoneyRequest.Recipient r));
                   mk_field "amountNQT" false (VInt (SendMoneyRequest.AmountNQT r));
                   mk_field "feeNQT" false (VInt (SendMoneyRequest.FeeNQT r));
                   mk_field "deadline" false (VUint (SendMoneyRequest.Deadline r));
                   mk_field "referencedTransactionFullHash" true
                     (VString (bytes (SendMoneyRequest.ReferencedTransactionFullHash r)));
                   mk_field "broadcast" false (VBool (SendMoneyRequest.Broadcast r));
                   mk_field "secretPhrase" false (VString (bytes (SendMoneyRequest.SecretPhrase r)))]
}.

Module BroadcastTransactionRequest.
Record t := mk { TransactionBytes : string; TransactionJSON : string }.
End BroadcastTransactionRequest.
#[export] Instance BroadcastTransaction_request : Request BroadcastTransactionRequest.t := {
  http_method := "POST"; RequestType := "broadcastTransaction";
  url_fields r := [mk_field "transactionBytes" true (VString (bytes (BroadcastTransactionRequest.TransactionBytes r)));
                   mk_field "transactionJSON" true (VString (bytes (BroadcastTransactionRequest.TransactionJSON r)))]
}.

Module SendMoneyMultiRequest.
Record t := mk {
  Recipients : list Z; FeeNQT : Z; Deadline : Z; ReferencedTransactionFullHash : string;
  Broadcast : bool; SecretPhrase : string
}.
End SendMoneyMultiRequest.
#[export] Instance SendMoneyMulti_request : Request SendMoneyMultiRequest.t := {
  http_method := "POST"; RequestType := "sendMoneyMulti";
  url_fields r := [mk_field "recipients" false (VString (SendMoneyMultiRequest.Recipients r));
                   mk_field "feeNQT" false (VInt (SendMoneyMultiRequest.FeeNQT r));
                   mk_field "deadline" false (VUint (SendMoneyMultiRequest.Deadline r));
                   mk_field "referencedTransactionFullHash" true
                     (VString (bytes (SendMoneyMultiRequest.ReferencedTransactionFullHash r)));
                   mk_field "broadcast" false (VBool (SendMoneyMultiRequest.Broadcast r));
                   mk_field "secretPhrase" false (VString (bytes (SendMoneyMultiRequest.SecretPhrase r)))]
}.

(** The tag of [Subtype] repeats the name [type]. *)
Module GetAccountTransactionsRequest.
Record t := mk {
  Account : Z; Timestamp : Z; Type_ : Z; Subtype : Z; FirstIndex : Z; LastIndex : Z; NumberOfConfirmations : Z
}.
End GetAccountTransactionsRequest.
#[export] Instance GetAccountTransactions_request : Request GetAccountTransactionsRequest.t := {
  http_method := "POST"; RequestType := "getAccountTransactions";
  url_fields r := [mk_field "account" false (VUint (GetAccountTransactionsRequest.Account r));
                   mk_field "timestamp" true (VInt (GetAccountTransactionsRequest.Timestamp r));
                   mk_field "type" true (VInt (GetAccountTransactionsRequest.Type_ r));
                   mk_field "type" true (VInt (GetAccountTransactionsRequest.Subtype r));
                   mk_field "firstIndex" true (VInt (GetAccountTransactionsRequest.FirstIndex r));
                   mk_field "lastIndex" true (VInt (GetAccountTransactionsRequest.LastIndex r));
                   mk_field "numberOfConfirmations" true (VInt (GetAccountTransactionsRequest.NumberOfConfirmations r))]
}.

Module GetAccountRequest.
Record t := mk { Account : Z }.
End GetAccountRequest.
#[export] Instance GetAccount_request : Request GetAccountRequest.t := {
  http_method := "GET"; RequestType := "getAccount";
  url_fields r := [mk_field "account" false (VUint (GetAccountRequest.Account r))]
}.

Module GetTransactionRequest.
Record t := mk { Transaction : Z; FullHash : string }.
End GetTransactionRequest.
#[export] Instance GetTransaction_request : Request GetTransactionRequest.t := {
  http_method := "GET"; RequestType := "getTransaction";
  url_fields r := [mk_field "transaction" false (VUint (GetTransactionRequest.Transaction r));
                   mk_field "fullHash" false (VString (bytes (GetTransactionRequest.FullHash r)))]
}.

(** ** The interface [Wallet] *)

(** The number of the operation, and of the request within it. *)
Definition stamp : Type := nat * nat.

(** A node, with the url under which the handler keeps it. *)
Record Wallet := mk_Wallet {
  url : string;
  w_GetMiningInfo : stamp -> result string MiningInfo.t;
  w_GetBlock : stamp -> GetBlockRequest.t -> result string BlockReply.t;
  w_SubmitNonce : stamp -> SubmitNonceRequest.t -> result string SubmitNonceReply.t;
  w_SendMoney : stamp -> SendMoneyRequest.t -> result string SendMoneyReply.t;
  w_SendMoneyMulti : stamp -> SendMoneyMultiRequest.t -> result string SendMoneyReply.t;
  w_BroadcastTransaction : stamp -> BroadcastTransactionRequest.t -> result string BroadcastReply.t;
  w_GetAccount : stamp -> GetAccountRequest.t -> result string AccountReply.t;
  w_GetAccountTransactions : stamp -> GetAccountTransactionsRequest.t -> result string (list AccountTransaction.t);
  w_GetAccountsWithRewardRecipient : stamp -> GetAccountsWithRewardRecipientRequest.t -> result string (list Z);
  w_GetTransaction : stamp -> GetTransactionRequest.t -> result string TransactionReply.t
}.

(** ** [NewWallet]

    The client gives the status and the body of the response or an error;
    the decoder gives a reply with its [errorDescription]. *)

Class Decoder (Reply : Type) := unmarshal : string -> result string (Reply * string).

Section NewWallet.
Context (client : stamp -> string -> string -> result string (Z * string)).
Context `{!Decoder MiningInfo.t} `{!Decoder BlockReply.t} `{!Decoder SubmitNonceReply.t} `{!Decoder SendMoneyReply.t}.
Context `{!Decoder BroadcastReply.t} `{!Decoder AccountReply.t} `{!Decoder (list AccountTransaction.t)}.
Context `{!Decoder (list Z)} `{!Decoder TransactionReply.t}.

(** The methods of [wallet]. *)
Definition send {R Reply} `{!Request R} {Dec : Decoder Reply} (u : string) (t : stamp) (req : R) : result string Reply :=
  match processJSONRequest (client t) (unmarshal (Reply := Reply)) snd (apiURL u) (http_method R)
          (Ok (of_bytes (query req))) with
  | Ok p => Ok p.1
  | Err e => Err e
  end.

Definition NewWallet (u : string) : Wallet := {|
  url := u;
  w_GetMiningInfo t := send u t GetMiningInfoRequest.mk;
  w_GetBlock := send u;
  w_SubmitNonce := send u;
  w_SendMoney := send u;
  w_SendMoneyMulti := send u;
  w_BroadcastTransaction := send u;
  w_GetAccount := send u;
  w_GetAccountTransactions := send u;
  w_GetAccountsWithRewardRecipient := send u;
  w_GetTransaction := send u
|}.

End NewWallet.

(** ** Reading a query back *)

Lemma hex_value_upper d : 0 <= d < 16 -> hex_value (upper_hex d) = Some d.
Proof.
  by_range 16%nat (fun d => match hex_value (upper_hex d) with Some d' => d' =? d | None => false end).
  intros Hd. specialize (H d Hd). destruct (hex_value (upper_hex d)) as [d'|]; [|done]. zbool. by subst.
Qed.

(** Appended to anything, an escaped string is read as the string. *)
Lemma unescape_escape s t :
  Forall is_byte s -> unescape (QueryEscape s ++ t) = (fun r => s ++ r) <$> unescape t.
Proof.
  induction 1 as [|c s Hc Hs IH]; [simpl; by destruct (unescape t)|].
  unfold QueryEscape. rewrite fmap_cons. cbn [concat]. fold (QueryEscape s). rewrite <- app_assoc.
  unfold escape_byte, is_byte in *. destruct (Z.eqb_spec c 32) as [->|H32].
  - cbn [app unescape Z.eqb Pos.eqb]. rewrite IH. by destruct (unescape t).
  - destruct (unreserved c) eqn:Eu.
    + cbn [app unescape].
      assert (Hne : c <> 37 /\ c <> 43) by (split; intros ->; by vm_compute in Eu).
      destruct (Z.eqb_spec c 37); [lia|]. rewrite IH. destruct (unescape t); simpl; [|done].
      by destruct (Z.eqb_spec c 43); [lia|].
    + cbn [app unescape Z.eqb Pos.eqb]. rewrite !hex_value_upper, IH.
      * destruct (unescape t); simpl; [|done]. by rewrite <- Z.div_mod by lia.
      * apply Z.mod_pos_bound. lia.
      * split; [apply Z.div_pos; lia|apply Z.div_lt_upper_bound; lia].
Qed.

(** Bytes that separate pairs, and keys from values. *)
Definition separator (c : Z) : Prop := c = 38 \/ c = 59 \/ c = 61.

Lemma escape_separator s c : Forall is_byte s -> c ∈ QueryEscape s -> ~ separator c.
Proof.
  intros Hs. induction Hs as [|a s Ha Hs IH]; [by intros ?%not_elem_of_nil|].
  unfold QueryEscape. rewrite fmap_cons. cbn [concat]. rewrite elem_of_app. intros [Hc|Hc]; [|by apply IH].
  unfold separator. revert Hc. unfold escape_byte, upper_hex, is_byte in *. destruct (Z.eqb_spec a 32).
  { intros ->%list_elem_of_singleton. lia. }
  destruct (unreserved a) eqn:Eu.
  { intros Ec%list_elem_of_singleton Hs3. subst c. destruct Hs3 as [E|[E|E]]; subst a; by vm_compute in Eu. }
  assert (0 <= a / 16 < 16) by (split; [apply Z.div_pos|apply Z.div_lt_upper_bound]; lia).
  pose proof (Z.mod_pos_bound a 16 ltac:(lia)).
  rewrite !elem_of_cons, elem_of_nil. intros Hc. repeat destruct_match_in Hc; zbool; lia.
Qed.

Lemma read_pair_bytes p :
  Forall is_byte p.1 -> Forall is_byte p.2 -> read_pair (pair_bytes p) = Some p.
Proof.
  intros H1 H2. unfold read_pair, pair_bytes.
  assert (61 ∉ QueryEscape p.1) by (intros ?%escape_separator; [unfold separator in *; lia|done]).
  assert (61 ∉ QueryEscape p.2) by (intros ?%escape_separator; [unfold separator in *; lia|done]).
  rewrite split_app, split_none by done.
  pose proof (unescape_escape p.1 [] H1) as E1. pose proof (unescape_escape p.2 [] H2) as E2.
  rewrite app_nil_r in E1, E2. rewrite E1, E2. simpl. rewrite !app_nil_r. by destruct p.
Qed.

Lemma split_join sep l : l <> [] -> (forall x, x ∈ l -> sep ∉ x) -> split sep (join sep l) = l.
Proof.
  intros Hne Hl. induction l as [|x [|y l] IH]; [done|apply split_none, Hl; left|].
  change (join sep (x :: y :: l)) with (x ++ sep :: join sep (y :: l)).
  rewrite split_app by (apply Hl; left). rewrite IH; [done|done|]. intros z Hz. apply Hl. by right.
Qed.

(** *** The order of the keys *)

Lemma filter_other k k' (v : Values) :
  k' <> k -> filter (fun p => p.1 = k') (filter (fun p => ~ p.1 = k) v) = filter (fun p => p.1 = k') v.
Proof. intros Hne. apply list_filter_filter_l. congruence. Qed.

Lemma list_bind_filter_ne k ks (v : Values) :
  k ∉ ks -> (k' ← ks; filter (fun p => p.1 = k') (filter (fun p => ~ p.1 = k) v))
            = (k' ← ks; filter (fun p => p.1 = k') v).
Proof.
  induction ks as [|k' ks IH]; [done|]. intros [Hne Hks]%not_elem_of_cons. cbn [mbind list_bind].
  rewrite filter_other by done. f_equal. by apply IH.
Qed.

Lemma grouped_perm ks (v : Values) :
  NoDup ks -> (forall p, p ∈ v -> p.1 ∈ ks) -> (k ← ks; filter (fun p => p.1 = k) v) ≡ₚ v.
Proof.
  revert v. induction ks as [|k ks IH]; intros v Hnd Hv.
  { destruct v as [|p v]; [done|]. destruct (not_elem_of_nil p.1). apply Hv. left. }
  apply NoDup_cons in Hnd as [Hk Hnd]. cbn [mbind list_bind].
  transitivity (filter (fun p => p.1 = k) v ++ filter (fun p => ~ p.1 = k) v); [|by rewrite filter_app_complement].
  apply Permutation_app_head. rewrite <- (IH (filter (fun p => ~ p.1 = k) v)) at 1; [|done|].
  - rewrite <- (list_bind_filter_ne k ks v Hk).
    done.
  - intros p [Hp Hpv]%list_elem_of_filter. apply Hv, elem_of_cons in Hpv as [?|?]; [done|done].
Qed.

Lemma keys_of (v : Values) p : p ∈ v -> p.1 ∈ merge_sort key_le (remove_dups v.*1).
Proof. intros Hp. rewrite merge_sort_Permutation, elem_of_remove_dups. by apply list_elem_of_fmap_2. Qed.

Lemma keys_NoDup (v : Values) : NoDup (merge_sort key_le (remove_dups v.*1)).
Proof. rewrite merge_sort_Permutation. apply NoDup_remove_dups. Qed.

Lemma sorted_perm (v : Values) : sorted v ≡ₚ v.
Proof. apply grouped_perm; [apply keys_NoDup|apply keys_of]. Qed.

Lemma filter_other_key (k : list Z) (v : Values) :
  (forall p, p ∈ v -> p.1 <> k) -> filter (fun p => p.1 = k) v = [].
Proof.
  intros Hv. apply elem_of_nil_inv. intros p [Hp Hpv]%list_elem_of_filter. by apply (Hv p).
Qed.

(** Sorting does not reorder the values of a key. *)
Lemma sorted_filter k (v : Values) :
  filter (fun p => p.1 = k) (sorted v) = filter (fun p => p.1 = k) v.
Proof.
  unfold sorted. pose proof (keys_NoDup v) as Hnd. pose proof (keys_of v) as Hv.
  remember (merge_sort key_le (remove_dups v.*1)) as ks eqn:E. clear E.
  destruct (decide (k ∈ ks)) as [Hin|Hout].
  - clear Hv. induction ks as [|k' ks IH]; [by apply not_elem_of_nil in Hin|].
    apply NoDup_cons in Hnd as [Hk Hnd]. cbn [mbind list_bind]. rewrite filter_app.
    destruct (decide (k' = k)) as [->|Hne].
    + rewrite list_filter_filter_l by done. rewrite (filter_other_key k (mbind _ ks)), app_nil_r; [done|].
      intros p (k' & Hp & Hk')%list_elem_of_bind. apply list_elem_of_filter in Hp as [<- _]. by intros <-.
    + apply elem_of_cons in Hin as [?|Hin]; [done|]. rewrite (filter_other_key k (filter _ v)).
      * by apply IH.
      * intros p [-> _]%list_elem_of_filter. done.
  - rewrite !filter_other_key; [done|..].
    + intros p Hp <-. by apply Hout, Hv.
    + intros p (k' & Hp & Hk')%list_elem_of_bind. apply list_elem_of_filter in Hp as [<- _]. by intros <-.
Qed.

Lemma value_of_filter k (v : Values) : value_of k v = snd <$> head (filter (fun p => p.1 = k) (v : Values)).
Proof.
  induction v as [|p v IH]; [done|]. rewrite filter_cons. simpl. case_bool_decide; case_decide; done.
Qed.

Lemma value_of_sorted k (v : Values) : value_of k (sorted v) = value_of k v.
Proof. by rewrite !value_of_filter, sorted_filter. Qed.

Definition byte_pair (p : list Z * list Z) : Prop := Forall is_byte p.1 /\ Forall is_byte p.2.

Lemma pair_bytes_no_ampersand p : byte_pair p -> 38 ∉ pair_bytes p.
Proof.
  intros [H1 H2]. unfold pair_bytes. rewrite elem_of_app, elem_of_cons.
  intros [?%escape_separator|[?|?%escape_separator]]; unfold separator in *; first [lia|done].
Qed.

(** A query is read back as the pairs it was made of, ordered by key. *)
Lemma read_Encode v : Forall byte_pair v -> read_query (Encode v) = Some (sorted v).
Proof.
  intros Hv. assert (Hs : Forall byte_pair (sorted v)) by (by rewrite sorted_perm).
  unfold Encode. destruct (sorted v) as [|p s]; [done|].
  assert (Hne : exists c t, join 38 (pair_bytes <$> p :: s) = c :: t).
  { destruct (join 38 (pair_bytes <$> p :: s)) as [|c t] eqn:E; [|by eexists _, _]. exfalso.
    apply (f_equal List.length) in E. revert E. destruct s; simpl; unfold pair_bytes;
      rewrite ?length_app; simpl; rewrite ?length_app; simpl; lia. }
  destruct Hne as (c & t & E). unfold read_query. rewrite E, <- E.
  rewrite split_join; [|done|].
  - apply mapM_Some_2. clear E. induction Hs as [|q s' [H1 H2] Hs IH]; [constructor|].
    rewrite fmap_cons. constructor; [by apply read_pair_bytes|done].
  - intros x (q & -> & Hq)%list_elem_of_fmap. apply pair_bytes_no_ampersand.
    rewrite Forall_forall in Hs. by apply Hs.
Qed.

(** ** Requests on the wire *)

Lemma digits_are_bytes s : (forall c, c ∈ s -> 48 <= c <= 57 \/ c = 45) -> Forall is_byte s.
Proof. intros Hs. apply Forall_forall. intros c Hc. specialize (Hs c Hc). unfold is_byte. lia. Qed.

Definition byte_field (f : field) : Prop :=
  match field_val f with VString s => Forall is_byte s | _ => True end.

Lemma reflect_field_bytes f p : byte_field f -> reflect_field f = Some p -> byte_pair p.
Proof.
  unfold reflect_field, byte_field. destruct (omitempty f && isEmptyValue (field_val f)); [done|]. intros Hf [= <-].
  split; [apply bytes_range|]. simpl. destruct (field_val f); simpl; [..|done].
  - apply digits_are_bytes. intros c ?%FormatUint_bytes. by left.
  - apply digits_are_bytes. by intros c ?%FormatInt_bytes.
  - apply bytes_range.
Qed.

Lemma parameters_bytes {R} `{Request R} (req : R) :
  Forall byte_field (url_fields req) -> Forall byte_pair (parameters req).
Proof.
  intros Hf. unfold parameters, reflectValue. apply Forall_forall. intros p (f & Hin & E)%list_elem_of_omap.
  apply (reflect_field_bytes f); [|done]. apply elem_of_app in Hin as [Hin|Hin%list_elem_of_singleton].
  - rewrite Forall_forall in Hf. by apply Hf.
  - subst f. apply bytes_range.
Qed.

(** The query string of a request is read back as its parameters: each with
    its values, in the order of the fields. *)
Theorem query_roundtrip {R} `{Request R} (req : R) :
  Forall byte_field (url_fields req) ->
  exists ps, read_query (query req) = Some ps /\ ps ≡ₚ parameters req /\
             forall k, value_of k ps = value_of k (parameters req).
Proof.
  intros Hf. exists (sorted (parameters req)). split_and!; [|apply sorted_perm|intros k; apply value_of_sorted].
  by apply read_Encode, parameters_bytes.
Qed.

Definition get_uint (k : string) (ps : Values) : option Z :=
  s ← value_of (bytes k) ps; match ParseUint s with Ok n => Some n | Err _ => None end.
Definition get_int (k : string) (ps : Values) : option Z :=
  s ← value_of (bytes k) ps; match ParseInt s with Ok n => Some n | Err _ => None end.
Definition get_bool (k : string) (ps : Values) : option bool :=
  s ← value_of (bytes k) ps;
  if bool_decide (s = bytes "true") then Some true else if bool_decide (s = bytes "false") then Some false else None.
Definition get_string (k : string) (ps : Values) : option string := of_bytes <$> value_of (bytes k) ps.

(** What a node makes of a payment. *)
Definition read_SendMoney (s : list Z) : option SendMoneyRequest.t :=
  ps ← read_query s;
  if bool_decide (get_string "requestType" ps <> Some "sendMoney"%string) then None else
  recipient ← get_uint "recipient" ps;
  amount ← get_int "amountNQT" ps;
  fee ← get_int "feeNQT" ps;
  deadline ← get_uint "deadline" ps;
  broadcast ← get_bool "broadcast" ps;
  phrase ← get_string "secretPhrase" ps;
  Some (SendMoneyRequest.mk recipient amount fee deadline
          (default "" (get_string "referencedTransactionFullHash" ps)) broadcast phrase).

Definition read_SendMoneyMulti (s : list Z) : option (list (Z * Z) * SendMoneyMultiRequest.t) :=
  ps ← read_query s;
  if bool_decide (get_string "requestType" ps <> Some "sendMoneyMulti"%string) then None else
  rs ← value_of (bytes "recipients") ps;
  recipients ← read_recipients rs;
  fee ← get_int "feeNQT" ps;
  deadline ← get_uint "deadline" ps;
  broadcast ← get_bool "broadcast" ps;
  phrase ← get_string "secretPhrase" ps;
  Some (recipients, SendMoneyMultiRequest.mk rs fee deadline
          (default "" (get_string "referencedTransactionFullHash" ps)) broadcast phrase).

Lemma value_of_field k f fs :
  value_of k (omap reflect_field (f :: fs)) =
  if bool_decide (bytes (tag_name f) = k) && negb (omitempty f && isEmptyValue (field_val f))
  then Some (valueString (field_val f)) else value_of k (omap reflect_field fs).
Proof.
  cbn [omap list_omap]. unfold reflect_field at 1. destruct (omitempty f && isEmptyValue (field_val f)); simpl.
  - by rewrite andb_false_r.
  - by case_bool_decide.
Qed.

Lemma get_bool_value b : (if bool_decide (bytes (if b : bool then "true" else "false") = bytes "true") then Some true
  else if bool_decide (bytes (if b then "true" else "false") = bytes "false") then Some false else None) = Some b.
Proof. by destruct b. Qed.

(** Looks a parameter up by its name. *)
Ltac lookup_parameter :=
  repeat (rewrite value_of_field; cbn [tag_name omitempty field_val];
    match goal with
    | |- context [bool_decide (bytes ?a = bytes ?b)] =>
        let t := eval vm_compute in (bool_decide (bytes a = bytes b)) in
        change (bool_decide (bytes a = bytes b)) with t
    end; cbn [andb negb]).

Definition typed_SendMoney (r : SendMoneyRequest.t) : Prop :=
  is_u64 (SendMoneyRequest.Recipient r) /\ is_i64 (SendMoneyRequest.AmountNQT r) /\
  is_i64 (SendMoneyRequest.FeeNQT r) /\ is_u64 (SendMoneyRequest.Deadline r).

Definition typed_SendMoneyMulti (r : SendMoneyMultiRequest.t) : Prop :=
  is_i64 (SendMoneyMultiRequest.FeeNQT r) /\ is_u64 (SendMoneyMultiRequest.Deadline r).

Lemma of_bytes_optional (s : string) v :
  v = (if negb (true && (List.length (bytes s) =? 0)%nat) then Some (bytes s) else None) ->
  default ""%string (of_bytes <$> v) = s.
Proof.
  intros ->. destruct (List.length (bytes s) =? 0)%nat eqn:El; cbn; [|apply of_bytes_bytes].
  destruct s; [done|]. by vm_compute in El.
Qed.

Lemma read_SendMoney_query r : typed_SendMoney r -> read_SendMoney (query r) = Some r.
Proof.
  intros (H1 & H2 & H3 & H4). destruct (query_roundtrip r) as (ps & E & _ & Hv).
  { repeat constructor; unfold byte_field; simpl; try done; apply bytes_range. }
  unfold read_SendMoney. rewrite E. cbn [mbind option_bind].
  unfold get_uint, get_int, get_bool, get_string. rewrite !Hv.
  destruct r as [recipient amount fee deadline ref broadcast phrase]. cbn in H1, H2, H3, H4.
  unfold parameters, reflectValue. cbn [url_fields SendMoney_request app RequestType
    SendMoneyRequest.Recipient SendMoneyRequest.AmountNQT SendMoneyRequest.FeeNQT SendMoneyRequest.Deadline
    SendMoneyRequest.ReferencedTransactionFullHash SendMoneyRequest.Broadcast SendMoneyRequest.SecretPhrase].
  lookup_parameter. cbn [valueString isEmptyValue mbind option_bind omap list_omap value_of].
  rewrite ParseUint_FormatUint, !ParseInt_FormatInt by done. cbn [mbind option_bind].
  rewrite ParseUint_FormatUint by done. cbn [mbind option_bind].
  rewrite get_bool_value. cbn [mbind option_bind]. rewrite (of_bytes_optional ref) by done.
  cbn [fmap option_fmap option_map mbind option_bind]. rewrite !of_bytes_bytes.
  by case_bool_decide.
Qed.

Lemma read_SendMoneyMulti_query r entries :
  typed_SendMoneyMulti r -> Forall is_byte (SendMoneyMultiRequest.Recipients r) ->
  read_recipients (SendMoneyMultiRequest.Recipients r) = Some entries ->
  read_SendMoneyMulti (query r) = Some (entries, r).
Proof.
  intros (H1 & H2) Hb Hr. destruct (query_roundtrip r) as (ps & E & _ & Hv).
  { repeat constructor; unfold byte_field; simpl; try done; apply bytes_range. }
  unfold read_SendMoneyMulti. rewrite E. cbn [mbind option_bind].
  unfold get_uint, get_int, get_bool, get_string. rewrite !Hv.
  destruct r as [recipients fee deadline ref broadcast phrase]. cbn in H1, H2.
  cbn [SendMoneyMultiRequest.Recipients] in Hr.
  unfold parameters, reflectValue. cbn [url_fields SendMoneyMulti_request app RequestType
    SendMoneyMultiRequest.Recipients SendMoneyMultiRequest.FeeNQT SendMoneyMultiRequest.Deadline
    SendMoneyMultiRequest.ReferencedTransactionFullHash SendMoneyMultiRequest.Broadcast SendMoneyMultiRequest.SecretPhrase].
  lookup_parameter. cbn [valueString isEmptyValue mbind option_bind omap list_omap value_of].
  rewrite Hr, !ParseInt_FormatInt by done. cbn [mbind option_bind].
  rewrite ParseUint_FormatUint by done. cbn [mbind option_bind].
  rewrite get_bool_value. cbn [mbind option_bind]. rewrite (of_bytes_optional ref) by done.
  cbn [fmap option_fmap option_map mbind option_bind]. rewrite !of_bytes_bytes.
  by case_bool_decide.
Qed.

(** C33: a node reads every payment request as the very payment that was meant:
    recipient, amount, fee, deadline, phrase, and for payments to several
    accounts the same recipients and amounts, whatever characters the phrase
    has and in whatever order the map of recipients was iterated. *)
Theorem payments_on_the_wire :
  (forall r, typed_SendMoney r -> read_SendMoney (query r) = Some r) /\
  (forall entries r, Forall (fun p => is_u64 p.1 /\ is_i64 p.2) entries -> typed_SendMoneyMulti r ->
     EncodeRecipients entries = Return (SendMoneyMultiRequest.Recipients r) ->
     read_SendMoneyMulti (query r) = Some (entries, r)).
Proof.
  split; [exact read_SendMoney_query|]. intros entries r He Hr E.
  pose proof (EncodeRecipients_read entries He) as Hs. rewrite E in Hs. destruct Hs as [Hs Hb].
  by apply read_SendMoneyMulti_query.
Qed.

(** What a node reads of a request for a block or for transactions: height 0
    is left out, so that the genesis block cannot be asked for - the node
    answers for its last block; and the subtype of transactions is sent as a
    second [type], never as [subtype]. *)
Theorem omitted_parameters :
  (forall h, is_u64 h -> exists ps, read_query (query (GetBlockRequest.mk 0 h 0 false)) = Some ps /\
     get_string "requestType" ps = Some "getBlock"%string /\ get_uint "block" ps = None /\ get_int "timestamp" ps = None /\
     get_uint "height" ps = if h =? 0 then None else Some h) /\
  (forall r, is_i64 (GetAccountTransactionsRequest.Type_ r) ->
   exists ps, read_query (query r) = Some ps /\ value_of (bytes "subtype") ps = None /\
     (GetAccountTransactionsRequest.Type_ r <> 0 -> get_int "type" ps = Some (GetAccountTransactionsRequest.Type_ r))).
Proof.
  split.
  - intros h Hh. destruct (query_roundtrip (GetBlockRequest.mk 0 h 0 false)) as (ps & E & _ & Hv).
    { repeat constructor. }
    exists ps. unfold get_string, get_uint, get_int. rewrite !Hv. unfold parameters, reflectValue.
    cbn [url_fields GetBlock_request app RequestType GetBlockRequest.Block GetBlockRequest.Height
      GetBlockRequest.Timestamp GetBlockRequest.IncludeTransactions].
    lookup_parameter. cbn [isEmptyValue valueString Z.eqb negb]. split_and!; [done|by vm_compute|done|done|].
    destruct (h =? 0); cbn [negb mbind option_bind]; [done|]. by rewrite ParseUint_FormatUint.
  - intros r Ht. destruct (query_roundtrip r) as (ps & E & _ & Hv).
    { repeat constructor. }
    exists ps. unfold get_int. rewrite !Hv. unfold parameters, reflectValue.
    cbn [url_fields GetAccountTransactions_request app RequestType].
    lookup_parameter. split_and!; [done|done|]. intros Hne. cbn [isEmptyValue valueString].
    destruct (Z.eqb_spec (GetAccountTransactionsRequest.Type_ r) 0); [done|].
    cbn [negb mbind option_bind]. by rewrite ParseInt_FormatInt.
Qed.

(** ** The secret in the log *)

Definition contains (s part : list Z) : Prop := exists pre post, s = pre ++ part ++ post.

Lemma contains_app_l s t part : contains s part -> contains (s ++ t) part.
Proof. intros (a & b & ->). exists a, (b ++ t). by rewrite <- !app_assoc. Qed.

Lemma contains_app_r s t part : contains t part -> contains (s ++ t) part.
Proof. intros (a & b & ->). exists (s ++ a), b. by rewrite <- !app_assoc. Qed.

Lemma contains_join sep l x : x ∈ l -> contains (join sep l) x.
Proof.
  intros Hx. induction l as [|y [|z l] IH]; [by apply not_elem_of_nil in Hx|..].
  - apply list_elem_of_singleton in Hx as ->. exists [], []. by rewrite app_nil_r.
  - change (join sep (y :: z :: l)) with (y ++ [sep] ++ join sep (z :: l)).
    apply elem_of_cons in Hx as [->|Hx]; [by exists [], ([sep] ++ join sep (z :: l))|].
    by apply contains_app_r, contains_app_r, IH.
Qed.

Lemma contains_query {R} `{Request R} (req : R) p : p ∈ parameters req -> contains (query req) (pair_bytes p).
Proof. intros Hp. apply contains_join, list_elem_of_fmap_2. by rewrite sorted_perm. Qed.

Lemma bytes_append a b : bytes (String.append a b) = bytes a ++ bytes b.
Proof.
  unfold bytes. induction a as [|c a IH]; [done|]. cbn [String.append list_ascii_of_string]. rewrite !fmap_cons.
  simpl. by rewrite <- IH.
Qed.

Lemma escape_is_bytes s : Forall is_byte s -> Forall is_byte (QueryEscape s).
Proof.
  induction 1 as [|c s Hc Hs IH]; [constructor|]. unfold QueryEscape. rewrite fmap_cons. cbn [concat].
  apply Forall_app_2; [|done]. unfold escape_byte, upper_hex, is_byte in *.
  assert (0 <= c / 16 < 16) by (split; [apply Z.div_pos|apply Z.div_lt_upper_bound]; lia).
  pose proof (Z.mod_pos_bound c 16 ltac:(lia)).
  repeat destruct_match; repeat constructor; zbool; lia.
Qed.

Lemma join_is_bytes l : Forall (Forall is_byte) l -> Forall is_byte (join 38 l).
Proof.
  induction 1 as [|x l Hx Hl IH]; [constructor|]. destruct l as [|y l]; [done|].
  change (Forall is_byte (x ++ 38 :: join 38 (y :: l))). apply Forall_app_2; [done|]. by constructor.
Qed.

Lemma query_is_bytes {R} `{Request R} (req : R) : Forall byte_field (url_fields req) -> Forall is_byte (query req).
Proof.
  intros Hf%parameters_bytes. apply join_is_bytes, Forall_fmap. rewrite sorted_perm.
  eapply Forall_impl; [exact Hf|]. intros p [H1 H2]. unfold compose, pair_bytes.
  apply Forall_app_2; [by apply escape_is_bytes|]. constructor; [done|by apply escape_is_bytes].
Qed.

(** An error of a node, of its connection or of its status repeats the url
    of the request, which has the passphrase of the pool in clear: the
    handler writes it to the log.  Only an error of the decoder does not. *)
Theorem errors_show_the_request {R Reply} `{Request R} `{Decoder Reply} client (u : string) (t : stamp) (req : R) e p :
  Forall byte_field (url_fields req) -> p ∈ parameters req ->
  send client u t req = Err e ->
  (forall v status body, client t v (String.append (apiURL u) (of_bytes (query req))) = Ok (status, body) ->
     is_ok (unmarshal body) = true) ->
  contains (bytes e) (pair_bytes p).
Proof.
  intros Hf Hp Hs Hdec. set (U := String.append (apiURL u) (of_bytes (query req))).
  assert (HU : contains (bytes U) (pair_bytes p)).
  { unfold U. rewrite bytes_append, bytes_of_bytes by (by apply query_is_bytes).
    by apply contains_app_r, contains_query. }
  assert (Hin : forall a b, contains (bytes (String.append a (String.append U b))) (pair_bytes p)).
  { intros a b. rewrite !bytes_append. by apply contains_app_r, contains_app_l. }
  unfold send, processJSONRequest in Hs. cbv zeta in Hs. fold U in Hs.
  destruct (client t _ U) as [[st body]|e'] eqn:Ec; [|by injection Hs as <-].
  destruct (negb (st =? StatusOK)); [injection Hs as <-|].
  - rewrite !bytes_append. do 3 apply contains_app_r. done.
  - specialize (Hdec _ _ _ Ec). destruct (unmarshal body) as [[r d]|]; [|done].
    case_bool_decide; [by injection Hs as <-|done].
Qed.

Lemma payments_on_the_wire_witness :
  read_SendMoney (query (SendMoneyRequest.mk 7 (-5) 735000 1440 "" false "pass phrase & more")) =
    Some (SendMoneyRequest.mk 7 (-5) 735000 1440 "" false "pass phrase & more") /\
  read_SendMoneyMulti (query (SendMoneyMultiRequest.mk (bytes "2:5;1:-7") 735000 1440 "" false "s3cret")) =
    Some ([(2, 5); (1, -7)], SendMoneyMultiRequest.mk (bytes "2:5;1:-7") 735000 1440 "" false "s3cret").
Proof.
  destruct payments_on_the_wire as [H1 H2]. split.
  - apply H1. unfold typed_SendMoney, is_u64, is_i64. simpl. lia.
  - apply H2; [repeat constructor; unfold is_u64, is_i64; simpl; lia|unfold typed_SendMoneyMulti, is_u64, is_i64; simpl; lia|].
    vm_compute. reflexivity.
Defined.

(** The error of a node that is down. *)
Lemma errors_show_the_request_witness :
  exists e, contains (bytes e) (pair_bytes (bytes "secretPhrase", bytes "s3cret")).
Proof.
  pose (down := fun (_ : stamp) (_ _ : string) => Err (A := Z * string) "timeout").
  pose (dec := (fun _ => Err "") : Decoder SubmitNonceReply.t).
  destruct (send (Dec := dec) down "http://a" (0%nat, 0%nat) (SubmitNonceRequest.mk 1 2 "s3cret")) as [r|e] eqn:E;
    [vm_compute in E; discriminate E|].
  exists e. refine (@errors_show_the_request _ _ _ dec down "http://a" (0%nat, 0%nat) (SubmitNonceRequest.mk 1 2 "s3cret") e _ _ _ E _).
  - do 2 (apply Forall_cons_2; [exact I|]). apply Forall_cons_2; [apply bytes_range|constructor].
  - vm_compute. repeat constructor.
  - intros v st body Hc. discriminate Hc.
Defined.
