(* ===== verification/World.v ===== *)
(** * The world the pool acts on

    The state of the process and its database, the environment that answers
    its calls, and the monad its operations are written in.

    An operation is a function on worlds that gives a value or panics; a
    panic keeps what was committed before.  Everything outside the process is
    a function of the number of external steps done so far ([tick]): the
    clock, the failures of database calls, the answers of the wallets, the
    order in which Go iterates over a map or the server lists rows without
    [ORDER BY].  Theorems hold for every environment. *)

From S2P Require Import Prelude GoFloat Config Miner DB Cache Wallet.
Open Scope list_scope.
Open Scope Z_scope.

(** ** What the pool calls

    [WalletHandler] is the interface of [pkg/wallethandler]. *)

Class WalletHandler := {
  GetMiningInfo : nat -> result string MiningInfo.t;
  GetBlockInfo : nat -> Z -> result string BlockReply.t;
  SubmitNonce : nat -> Z -> Z -> Z -> result string unit;
  SendPayment : nat -> Z -> Z -> result string Z;
  SendPayments : nat -> list (Z * Z) -> outcome string Z;
  GetAccountInfo : nat -> Z -> result string AccountReply.t;
  WonBlock : nat -> Z -> Z -> Z -> result string (bool * BlockReply.t);
  GetGenerationTime : nat -> Z -> result string Z;
  GetIncomingMsgsSince : nat -> Z -> result string (gmap Z string);
  GetRewardRecipients : nat -> result string (gmap Z bool);
  GetTransaction : nat -> Z -> result string TransactionReply.t * bool
}.

Class Env := {
  Cfg : Config;
  walletHandler :: WalletHandler;
  clock : nat -> Z;
  db_fault : nat -> bool;
  order : nat -> list Z -> list Z;
  order_perm : forall n l, order n l ≡ₚ l;
  (* calculate_scoop of the C library *)
  CalcScoop : Z -> list Z -> Z;
  (* Time.String, in the local time zone *)
  time_String : Z -> string;
  (* a DATETIME as the server converts it to text; the argument is in seconds *)
  datetime_String : Z -> string;
  (* the query on the wallet's own database, when the pool is connected to it *)
  walletDB : option (nat -> result sql_error (list Z))
}.

(** ** State *)

(** A call of the wallet that pays: the recipients and its answer. *)
Record payment := mk_payment { paid_to : list (Z * Z); paid_result : option Z }.

Record World := mk_World {
  db : DB;
  Cache : cache;
  objects : list Miner;
  tick : nat;
  sent : list payment
}.

Definition set_db (d : DB) (w : World) : World := mk_World d (Cache w) (objects w) (tick w) (sent w).
Definition set_cache (c : cache) (w : World) : World := mk_World (db w) c (objects w) (tick w) (sent w).
Definition set_objects (l : list Miner) (w : World) : World := mk_World (db w) (Cache w) l (tick w) (sent w).
Definition set_tick (n : nat) (w : World) : World := mk_World (db w) (Cache w) (objects w) n (sent w).
Definition set_sent (l : list payment) (w : World) : World := mk_World (db w) (Cache w) (objects w) (tick w) l.

(** ** The monad *)

Definition M (A : Type) : Type := World -> option A * World.

#[export] Instance M_ret : MRet M := fun A a w => (Some a, w).
#[export] Instance M_bind : MBind M := fun A B k c w =>
  match c w with (Some a, w') => k a w' | (None, w') => (None, w') end.

Definition panic {A} : M A := fun w => (None, w).
Definition get {A} (f : World -> A) : M A := fun w => (Some (f w), w).
Definition modify (f : World -> World) : M unit := fun w => (Some tt, f w).

Fixpoint for_each {A} (l : list A) (body : A -> M unit) : M unit :=
  match l with
  | [] => mret tt
  | a :: l' => body a ;; for_each l' body
  end.

Definition of_option {A} (o : option A) : M A :=
  match o with Some a => mret a | None => panic end.

Section Operations.
Context `{Env}.

(** *** External steps *)

Definition step : M nat := fun w => (Some (tick w), set_tick (S (tick w)) w).

(** [time.Now()], and [NOW()] of a statement. *)
Definition now : M Z := n ← step; mret (clock n).

(** An iteration over the keys of a map, or rows in no given order. *)
Definition range_keys (keys : list Z) : M (list Z) := n ← step; mret (order n keys).

Definition call {A} (f : nat -> A) : M A := n ← step; mret (f n).

(** *** The database *)

(** A query. *)
Definition Select {A} (q : DB -> A) : M (result sql_error A) :=
  n ← step;
  if db_fault n then mret (Err Connection_lost) else d ← get db; mret (Ok (q d)).

(** A query the server may refuse to evaluate. *)
Definition TrySelect {A} (q : DB -> result sql_error A) : M (result sql_error A) :=
  n ← step;
  if db_fault n then mret (Err Connection_lost) else d ← get db; mret (q d).

(** A statement outside a transaction. *)
Definition Exec (f : DB -> result sql_error DB) : M (result sql_error unit) :=
  n ← step;
  if db_fault n then mret (Err Connection_lost)
  else d ← get db;
       match f d with
       | Ok d' => modify (set_db d') ;; mret (Ok tt)
       | Err e => mret (Err e)
       end.

Definition MustExec (f : DB -> result sql_error DB) : M unit :=
  r ← Exec f; match r with Ok _ => mret tt | Err _ => panic end.

Lemma MustExec_run f w :
  MustExec f w =
  let w1 := set_tick (S (tick w)) w in
  if db_fault (tick w) then (None, w1)
  else match f (db w) with Ok d => (Some tt, set_db d w1) | Err _ => (None, w1) end.
Proof.
  unfold MustExec, Exec, step, get, modify, mbind, M_bind, mret, M_ret. simpl.
  destruct (db_fault (tick w)); [done|]. change (db (set_tick _ w)) with (db w). by destruct (f (db w)).
Qed.

Lemma now_run w : now w = (Some (clock (tick w)), set_tick (S (tick w)) w).
Proof. done. Qed.

(** *** Transactions

    A transaction works on a copy of the database, which [Commit] installs
    and a rollback forgets. *)

Definition Begin : M (result sql_error DB) := Select (fun d => d).

Definition Prepare (tx : DB) : M (result sql_error DB) :=
  n ← step; if db_fault n then mret (Err Connection_lost) else mret (Ok tx).

Definition TxExec {A} (f : DB -> result sql_error A) (tx : DB) : M (result sql_error A) :=
  n ← step; if db_fault n then mret (Err Connection_lost) else mret (f tx).

Definition Commit (tx : DB) : M (result sql_error unit) :=
  n ← step;
  if db_fault n then mret (Err Connection_lost) else modify (set_db tx) ;; mret (Ok tt).

(** The error of a statement ends the transaction. *)
Definition and_then {E A B} (c : M (result E A)) (k : A -> M (result E B)) : M (result E B) :=
  r ← c; match r with Ok a => k a | Err e => mret (Err e) end.

Fixpoint tx_each {A} (l : list A) (body : A -> DB -> M (result sql_error DB)) (tx : DB) : M (result sql_error DB) :=
  match l with
  | [] => mret (Ok tx)
  | a :: l' => and_then (body a tx) (tx_each l' body)
  end.

(** *** Miners *)

Definition miner_at (a : nat) : M Miner := l ← get objects; of_option (l !! a).

Definition set_miner (a : nat) (m : Miner) : M unit := modify (fun w => set_objects (<[a := m]> (objects w)) w).

Definition update_miner (a : nat) (f : Miner -> Miner) : M unit := m ← miner_at a; set_miner a (f m).

(** An update that may go through a missing pointer. *)
Definition try_update_miner (a : nat) (f : Miner -> option Miner) : M unit :=
  m ← miner_at a; m' ← of_option (f m); set_miner a m'.

Lemma update_miner_run a f w m :
  objects w !! a = Some m ->
  update_miner a f w = (Some tt, set_objects (<[a := f m]> (objects w)) w).
Proof. intros E. unfold update_miner, miner_at, get, mbind, M_bind. simpl. by rewrite E. Qed.

Definition new_object (m : Miner) : M nat :=
  l ← get objects; modify (set_objects (l ++ [m])) ;; mret (length l).

Definition with_cache (f : cache -> cache) : M unit := modify (fun w => set_cache (f (Cache w)) w).

(** [Cache.MinerRange]: the entries of the map, each still there when it is visited. *)
Definition MinerRange (f : Z -> nat -> M unit) : M unit :=
  c ← get Cache;
  keys ← range_keys (elements (dom (miners c)));
  for_each keys (fun id =>
    c' ← get Cache;
    match miners c' !! id with Some a => f id a | None => mret tt end).

End Operations.

Notation "'tdo' x <- c1 ;; c2" := (and_then c1 (fun x => c2))
  (at level 60, x pattern, c1 at next level, right associativity) : go_scope.

Lemma and_then_assoc {E A B C} (c : M (result E A)) (k : A -> M (result E B)) (l : B -> M (result E C)) w :
  and_then (and_then c k) l w = and_then c (fun a => and_then (k a) l) w.
Proof. unfold and_then, mbind, M_bind. destruct (c w) as [[[a|e]|] w']; done. Qed.

(** ** Relations that operations respect

    [preserves R c]: whatever the environment does, and also when [c]
    panics, the world after [c] is related to the one before. *)

Definition preserves (R : World -> World -> Prop) {A} (c : M A) : Prop := forall w, R w (c w).2.

Section Preserves.
Context (R : World -> World -> Prop) `{!PreOrder R}.

Lemma preserves_ret {A} (a : A) : preserves R (mret a).
Proof. intros w. simpl. reflexivity. Qed.

Lemma preserves_panic {A} : preserves R (@panic A).
Proof. intros w. simpl. reflexivity. Qed.

Lemma preserves_get {A} (f : World -> A) : preserves R (get f).
Proof. intros w. simpl. reflexivity. Qed.

Lemma preserves_bind {A B} (c : M A) (k : A -> M B) :
  preserves R c -> (forall a, preserves R (k a)) -> preserves R (c ≫= k).
Proof.
  intros Hc Hk w. unfold mbind, M_bind. specialize (Hc w).
  destruct (c w) as [[a|] w'] eqn:E; simpl in *; [|done].
  transitivity w'; [done|apply Hk].
Qed.

Lemma preserves_for_each {A} (l : list A) body :
  (forall a, preserves R (body a)) -> preserves R (for_each l body).
Proof.
  intros Hb. induction l as [|a l IH]; simpl; [apply preserves_ret|].
  apply preserves_bind; [apply Hb|done].
Qed.

Lemma preserves_of_option {A} (o : option A) : preserves R (of_option o).
Proof. destruct o; [apply preserves_ret|apply preserves_panic]. Qed.

Lemma preserves_and_then {E A B} (c : M (result E A)) (k : A -> M (result E B)) :
  preserves R c -> (forall a, preserves R (k a)) -> preserves R (and_then c k).
Proof.
  intros Hc Hk. apply preserves_bind; [done|]. intros [a|e]; [apply Hk|apply preserves_ret].
Qed.

End Preserves.

Lemma preserves_weaken {A} (R1 R2 : World -> World -> Prop) (c : M A) :
  (forall w w', R1 w w' -> R2 w w') -> preserves R1 c -> preserves R2 c.
Proof. intros HR Hc w. apply HR, Hc. Qed.

(** ** Reasoning about transactions *)

(** Only the step counter differs. *)
Definition only_ticks (w w' : World) : Prop :=
  db w' = db w /\ Cache w' = Cache w /\ objects w' = objects w /\ sent w' = sent w.

#[export] Instance only_ticks_preorder : PreOrder only_ticks.
Proof. unfold only_ticks. split; [done|]. intros ?? ? (?&?&?&?) (?&?&?&?). split_and!; congruence. Qed.

(** [c], run on a transaction where [P] holds, does not panic and touches
    nothing but the transaction; if it succeeds, [Q] holds of its result. *)
Definition tx_triple {A} (P : DB -> Prop) (c : DB -> M (result sql_error A)) (Q : A -> Prop) : Prop :=
  forall tx w, P tx ->
    exists r, (c tx w).1 = Some r /\ only_ticks w (c tx w).2 /\ match r with Ok a => Q a | Err _ => True end.

Section Transactions.
Context `{Env}.

Lemma tx_ret {A} (P : DB -> Prop) (f : DB -> A) (Q : A -> Prop) :
  (forall tx, P tx -> Q (f tx)) -> tx_triple P (fun tx => mret (Ok (f tx))) Q.
Proof. intros HQ tx w HP. exists (Ok (f tx)). split_and!; [done|done|by apply HQ]. Qed.

Lemma tx_exec {A} (P : DB -> Prop) (f : DB -> result sql_error A) (Q : A -> Prop) :
  (forall tx a, P tx -> f tx = Ok a -> Q a) -> tx_triple P (TxExec f) Q.
Proof.
  intros HQ tx w HP. unfold TxExec, mbind, M_bind, step. simpl.
  destruct (db_fault (tick w)); [by eexists|].
  exists (f tx). split_and!; [done|done|]. destruct (f tx) eqn:E; [|done]. by eapply HQ.
Qed.

Lemma tx_prepare (P : DB -> Prop) : tx_triple P Prepare P.
Proof.
  intros tx w HP. unfold Prepare, mbind, M_bind, step. simpl.
  destruct (db_fault (tick w)); by eexists.
Qed.

Lemma tx_now {A} (P : DB -> Prop) (k : Z -> DB -> M (result sql_error A)) (Q : A -> Prop) :
  (forall t, tx_triple P (k t) Q) -> tx_triple P (fun tx => t ← now; k t tx) Q.
Proof.
  intros Hk tx w HP. destruct (Hk (clock (tick w)) tx (set_tick (S (tick w)) w) HP) as (r & E & F & HQ).
  exists r. split_and!; [done| |done]. etrans; [|exact F]. done.
Qed.

Lemma tx_bind {A B} (P : DB -> Prop) (c : DB -> M (result sql_error A)) (k : A -> M (result sql_error B))
    (Q : A -> Prop) (R : B -> Prop) :
  tx_triple P c Q ->
  (forall a w, Q a -> exists r, (k a w).1 = Some r /\ only_ticks w (k a w).2 /\
                               match r with Ok b => R b | Err _ => True end) ->
  tx_triple P (fun tx => and_then (c tx) k) R.
Proof.
  intros Hc Hk tx w HP. destruct (Hc tx w HP) as (r & E & F & HQ).
  unfold and_then, mbind, M_bind. destruct (c tx w) as [o w'] eqn:Ec. simpl in *. subst o.
  destruct r as [a|e]; [|by exists (Err e)].
  destruct (Hk a w' HQ) as (r & E' & F' & HR). exists r. split_and!; [done|by etrans|done].
Qed.

Lemma tx_then {B} (P Q : DB -> Prop) (c : DB -> M (result sql_error DB)) (k : DB -> M (result sql_error B))
    (R : B -> Prop) :
  tx_triple P c Q -> tx_triple Q k R -> tx_triple P (fun tx => and_then (c tx) k) R.
Proof. intros Hc Hk. eapply tx_bind; [exact Hc|]. intros a w Ha. by apply Hk. Qed.

(** Loops: [I l] holds when the elements [l] are done. *)
Lemma tx_loop {A} (I : list A -> DB -> Prop) (l l0 : list A) body :
  (forall l1 a l2, l0 ++ l = l1 ++ a :: l2 -> tx_triple (I l1) (body a) (I (l1 ++ [a]))) ->
  tx_triple (I l0) (tx_each l body) (I (l0 ++ l)).
Proof.
  revert l0. induction l as [|a l IH]; intros l0 Hb; simpl.
  - rewrite app_nil_r. by apply (tx_ret (I l0) (fun tx => tx)).
  - apply (tx_then (I l0) (I (l0 ++ [a]))); [by eapply Hb|].
    replace (l0 ++ a :: l) with ((l0 ++ [a]) ++ l) by (by rewrite <- app_assoc).
    apply IH. intros l1 b l2 E. apply (Hb l1 b l2). by rewrite <- E, <- app_assoc.
Qed.

(** A whole transaction: either it commits a database with [Q], or the
    database is as before. *)
Lemma run_transaction (w : World) (body : DB -> M (result sql_error DB)) (Q : DB -> Prop) :
  tx_triple (fun tx => tx = db w) body Q ->
  exists r w', (and_then Begin (fun tx => and_then (body tx) (fun tx => Commit tx))) w = (Some r, w') /\
    Cache w' = Cache w /\ objects w' = objects w /\ sent w' = sent w /\
    match r with Ok _ => Q (db w') | Err _ => db w' = db w end.
Proof.
  intros Hb. unfold and_then at 1, Begin, Select, mbind, M_bind, step, get, mret, M_ret. simpl.
  destruct (db_fault (tick w)); [by do 2 eexists|].
  set (w1 := set_tick (S (tick w)) w).
  destruct (Hb (db w) w1 eq_refl) as (r & E & F & HQ).
  unfold and_then, mbind, M_bind. change (db w1) with (db w).
  destruct (body (db w) w1) as [o w2]. simpl in *. subst o. destruct F as (F1 & F2 & F3 & F4).
  destruct r as [tx|e]; [|by do 2 eexists].
  unfold Commit, mbind, M_bind, step, modify, mret, M_ret. simpl.
  destruct (db_fault (tick w2)); by do 2 eexists.
Qed.

End Transactions.

(** ** Runs *)

Lemma bind_run {A B} (c : M A) (k : A -> M B) w a w' :
  c w = (Some a, w') -> (c ≫= k) w = k a w'.
Proof. intros E. unfold mbind, M_bind. by rewrite E. Qed.

Lemma get_bind {A B} (f : World -> A) (k : A -> M B) w : (get f ≫= k) w = k (f w) w.
Proof. done. Qed.

Lemma ret_bind {A B} (a : A) (k : A -> M B) w : (mret a ≫= k) w = k a w.
Proof. done. Qed.

Lemma call_bind `{Env} {A B} (f : nat -> A) (k : A -> M B) w :
  (call f ≫= k) w = k (f (tick w)) (set_tick (S (tick w)) w).
Proof. done. Qed.

Lemma range_keys_bind `{Env} {B} keys (k : list Z -> M B) w :
  (range_keys keys ≫= k) w = k (order (tick w) keys) (set_tick (S (tick w)) w).
Proof. done. Qed.

Lemma now_bind `{Env} {B} (k : Z -> M B) w : (now ≫= k) w = k (clock (tick w)) (set_tick (S (tick w)) w).
Proof. done. Qed.

Lemma with_cache_bind {B} f (k : unit -> M B) w : (with_cache f ≫= k) w = k tt (set_cache (f (Cache w)) w).
Proof. done. Qed.

(** A statement that the server accepts. *)
Lemma MustExec_bind `{Env} {B} f (k : unit -> M B) w d :
  db_fault (tick w) = false -> f (db w) = Ok d ->
  (MustExec f ≫= k) w = k tt (set_db d (set_tick (S (tick w)) w)).
Proof. intros Hf Hd. unfold mbind, M_bind. rewrite MustExec_run. simpl. by rewrite Hf, Hd. Qed.

Lemma MustExec_refused `{Env} {B} f (k : unit -> M B) w e : f (db w) = Err e -> (MustExec f ≫= k) w = (None, set_tick (S (tick w)) w).
Proof. intros Hd. unfold mbind, M_bind. rewrite MustExec_run. simpl. rewrite Hd. by destruct (db_fault _). Qed.

(** A loop whose body never panics where [I] holds, and keeps [I]. *)
Lemma for_each_total {A} (I : World -> Prop) (R : World -> World -> Prop) `{!PreOrder R} (l : list A) body :
  (forall a w, I w -> exists w', body a w = (Some tt, w') /\ I w' /\ R w w') ->
  forall w, I w -> exists w', for_each l body w = (Some tt, w') /\ I w' /\ R w w'.
Proof.
  intros Hb. induction l as [|a l IH]; intros w HI; simpl; [by exists w|].
  destruct (Hb a w HI) as (w1 & E1 & HI1 & HR1). rewrite (bind_run _ _ _ _ _ E1).
  destruct (IH w1 HI1) as (w2 & E2 & HI2 & HR2). exists w2. split_and!; [done|done|by etrans].
Qed.

(** The pointers of the cache are valid. *)
Definition wf_pointers (w : World) : Prop :=
  forall id a, miners (Cache w) !! id = Some a -> is_Some (objects w !! a).

Lemma wf_pointers_update w a m :
  wf_pointers w -> is_Some (objects w !! a) -> wf_pointers (set_objects (<[a := m]> (objects w)) w).
Proof.
  intros Hp Ha id b Hb. simpl. destruct (Hp id b Hb) as [m' Hm'].
  destruct (decide (a = b)) as [->|Hne];
    [rewrite list_lookup_insert_eq by (by eapply lookup_lt_Some); by eexists|by rewrite list_lookup_insert_ne].
Qed.

(** Nothing but miners changes. *)
Definition only_miners (w w' : World) : Prop :=
  db w' = db w /\ Cache w' = Cache w /\ sent w' = sent w /\ length (objects w') = length (objects w).

#[export] Instance only_miners_preorder : PreOrder only_miners.
Proof. unfold only_miners. split; [done|]. intros ??? (?&?&?&?) (?&?&?&?). split_and!; congruence. Qed.

(** *** Loops over cached miners *)

(** No miner is cached under two ids. *)
Definition own_pointers (w : World) : Prop :=
  forall id1 id2 a, miners (Cache w) !! id1 = Some a -> miners (Cache w) !! id2 = Some a -> id1 = id2.

(** The miners of [w'] are those of [w], where the ones cached under an id
    that has an entry are changed by [f]. *)
Definition cached_changed (f : Z -> option (Miner -> Miner)) (w w' : World) : Prop :=
  (forall id a m, miners (Cache w) !! id = Some a -> objects w !! a = Some m ->
     objects w' !! a = Some (default m ((fun g => g m) <$> f id))) /\
  (forall a, (forall id, miners (Cache w) !! id <> Some a) -> objects w' !! a = objects w !! a).

Lemma cached_changed_ext f g w w' : (forall id, f id = g id) -> cached_changed f w w' -> cached_changed g w w'.
Proof. intros Hfg [Hin Hout]. split; [|done]. intros id a m. rewrite <- Hfg. apply Hin. Qed.

Lemma update_cached_run (f : Miner -> Miner) id w :
  wf_pointers w ->
  exists w', (c ← get Cache; match GetMiner id c with None => mret tt | Some a => update_miner a f end) w = (Some tt, w') /\
    wf_pointers w' /\ only_miners w w' /\
    (own_pointers w -> cached_changed (fun i => if i =? id then Some f else None) w w').
Proof.
  intros Hp. rewrite (bind_run _ _ w (Cache w) w) by done.
  destruct (GetMiner id (Cache w)) as [a|] eqn:Ea.
  - destruct (Hp _ _ Ea) as [m Hm]. rewrite (update_miner_run _ _ _ m Hm). eexists. split; [done|].
    split; [apply wf_pointers_update; [done|by eexists]|]. split; [unfold only_miners; simpl; by rewrite length_insert|].
    intros Ho. split; simpl.
    + intros i b mb Hb Hmb. destruct (Z.eqb_spec i id) as [->|Hne]; simpl.
      * assert (b = a) as -> by (change (GetMiner id (Cache w) = Some b) in Hb; congruence). simplify_eq. by rewrite list_lookup_insert_eq by (by eapply lookup_lt_Some).
      * rewrite list_lookup_insert_ne; [done|]. intros <-. by apply Hne, (Ho i id a).
    + intros b Hb. apply list_lookup_insert_ne. intros <-. by apply (Hb id).
  - exists w. split_and!; [done..|]. intros _. split; [|done]. intros i b mb Hb Hmb.
    destruct (Z.eqb_spec i id) as [->|]; [|done]. change (GetMiner id (Cache w) = Some b) in Hb. congruence.
Qed.

(** The entry for an id in a list. *)
Fixpoint entry_for {A} (key : A -> Z) (l : list A) (id : Z) : option A :=
  match l with [] => None | x :: l' => if id =? key x then Some x else entry_for key l' id end.

Lemma entry_for_None {A} (key : A -> Z) l id : entry_for key l id = None <-> id ∉ key <$> l.
Proof.
  induction l as [|x l IH]; simpl; [split; [set_solver|done]|].
  destruct (Z.eqb_spec id (key x)) as [->|]; [split; [done|set_solver]|]. rewrite IH. set_solver.
Qed.

Lemma entry_for_Some {A} (key : A -> Z) l x : NoDup (key <$> l) -> x ∈ l -> entry_for key l (key x) = Some x.
Proof.
  induction l as [|y l IH]; [set_solver|]. simpl. intros [Hy Hnd]%NoDup_cons [->|Hx]%elem_of_cons;
    [by rewrite Z.eqb_refl|]. destruct (Z.eqb_spec (key x) (key y)) as [E|]; [|by apply IH].
  rewrite <- E in Hy. exfalso. apply Hy, list_elem_of_fmap. by exists x.
Qed.

(** A loop that updates the cached miner of each of its entries. *)
Lemma cached_loop {A} (key : A -> Z) (f : A -> Miner -> Miner) (body : A -> M unit) (l : list A) w :
  (forall x w, body x w = (c ← get Cache;
                           match GetMiner (key x) c with None => mret tt | Some a => update_miner a (f x) end) w) ->
  wf_pointers w ->
  exists w', for_each l body w = (Some tt, w') /\ only_miners w w' /\
    (own_pointers w -> NoDup (key <$> l) -> cached_changed (fun id => f <$> entry_for key l id) w w').
Proof.
  intros Hb. revert w. induction l as [|x l IH]; intros w Hp; simpl; [by exists w|].
  destruct (update_cached_run (f x) (key x) w Hp) as (w1 & E1 & Hp1 & Hm1 & Hu1).
  rewrite <- Hb in E1. rewrite (bind_run _ _ _ _ _ E1).
  assert (Ec : Cache w1 = Cache w) by apply Hm1.
  destruct (IH w1 Hp1) as (w2 & E2 & Hm2 & Hu2).
  exists w2. split_and!; [done|by etrans|]. intros Ho [Hx Hnd]%NoDup_cons. destruct (Hu1 Ho) as [Hc1 Hn1].
  destruct Hu2 as [Hc2 Hn2]; [unfold own_pointers; by rewrite Ec|done|]. rewrite Ec in Hc2, Hn2. split.
  - intros id a m Ha Hm. rewrite (Hc2 id a _ Ha (Hc1 id a m Ha Hm)).
    destruct (Z.eqb_spec id (key x)) as [->|]; simpl; [|done].
    apply entry_for_None in Hx. by rewrite Hx.
  - intros a Ha. rewrite Hn2, Hn1 by done. done.
Qed.

(** Both conditions on pointers can be computed. *)
Definition check_pointers (w : World) : bool :=
  let l := map_to_list (miners (Cache w)) in
  forallb (fun p => (p.2 <? length (objects w))%nat && forallb (fun q => negb (p.2 =? q.2)%nat || (p.1 =? q.1)) l) l.

Lemma check_pointers_ok w : check_pointers w = true -> wf_pointers w /\ own_pointers w.
Proof.
  unfold check_pointers. rewrite forallb_forall. intros Hall. split.
  - intros id a Ha. apply elem_of_map_to_list, list_elem_of_In, Hall, andb_true_iff in Ha as [Hlt _].
    by apply lookup_lt_is_Some, Nat.ltb_lt.
  - intros id1 id2 a H1 H2. apply elem_of_map_to_list, list_elem_of_In in H1, H2.
    apply Hall, andb_true_iff in H1 as [_ H1]. rewrite forallb_forall in H1. apply H1 in H2. simpl in H2.
    rewrite Nat.eqb_refl in H2. by apply Z.eqb_eq.
Qed.

(** ** A concrete environment

    No call of the database fails, maps are iterated in a fixed order, the
    clock stands still, and the wallets answer as the given handler. *)

Definition silent_wallet : WalletHandler := {|
  GetMiningInfo _ := Err "no wallet";
  GetBlockInfo _ _ := Err "no wallet";
  SubmitNonce _ _ _ _ := Err "no wallet";
  SendPayment _ _ _ := Err "no wallet";
  SendPayments _ _ := Fail_with "no wallet";
  GetAccountInfo _ _ := Err "no wallet";
  WonBlock _ _ _ _ := Err "no wallet";
  GetGenerationTime _ _ := Err "no wallet";
  GetIncomingMsgsSince _ _ := Err "no wallet";
  GetRewardRecipients _ := Err "no wallet";
  GetTransaction _ _ := (Err "no wallet", false)
|}%string.

Definition calm (cfg : Config) (wh : WalletHandler) (time : Z) : Env := {|
  Cfg := cfg;
  walletHandler := wh;
  clock _ := time;
  db_fault _ := false;
  order _ l := l;
  order_perm _ l := Permutation_refl l;
  CalcScoop h _ := h mod 4096;
  time_String _ := "2018-09-01 00:00:00 +0000 UTC"%string;
  datetime_String _ := "2018-09-01 00:00:00"%string;
  walletDB := None
|}.

(** A world with the given database, an empty cache and no miners. *)
Definition start_world (cfg : Config) (d : DB) : World :=
  mk_World d (default (mk_cache ∅ NonceSubmission.zero Block.zero fzero 0 ∅ (Blocks.mk_blocks [] ∅ 1)
                         (Blocks.mk_blocks [] ∅ 1) [] "" (round_info_of Block.zero)) (InitCache cfg)) [] 0 [].
