(* ===== verification/Payout.v ===== *)
(** * Paying the miners ([pkg/modelx/modelx.go])

    [createTransactions] moves the pending amounts that are due into
    transactions, [sendMoney] hands transactions to the wallet,
    [validateTransactions] follows them into the chain; [SetMinPayout]
    processes the messages by which miners choose how they are paid. *)

From Stdlib Require Import Ascii String.
From S2P Require Import Prelude GoStrings GoFloat GoParse Config Miner DB Cache Wallet World.
Open Scope string_scope.
Open Scope list_scope.
Open Scope Z_scope.
Import GoInt.

Definition day : Z := 24 * 60 * 60 * 10 ^ 9.

Section Operations.
Context `{Env}.

(** ** [createTransactions] *)

Record PendingInfo := mk_pending {
  p_id : Z;
  p_pending : Z;
  p_interval : option string
}.

(** The condition of the query, at the time [t]. *)
Definition payout_due (t : Z) (r : account_row) : bool :=
  opt_test (fun v => v + MinerTxFee Cfg <=? a_pending r) (a_min_payout_value r) ||
  (opt_test (fun d => d <=? sql_now t) (a_next_payout_date r) && (MinerTxFee Cfg <=? a_pending r)) ||
  (negb (opt_test (fun _ => true) (a_min_payout_value r)) &&
   negb (opt_test (fun _ => true) (a_next_payout_date r)) &&
   (i64 (MinimumPayout Cfg + MinerTxFee Cfg) <=? a_pending r)).

(** The server refuses a sum of [BIGINT]s that is none. *)
Definition threshold_overflows (r : account_row) : bool :=
  opt_test (fun v => negb (bool_decide (is_i64 (v + MinerTxFee Cfg)))) (a_min_payout_value r).

Definition due_accounts (t : Z) (d : DB) : gmap Z account_row :=
  filter (fun p => payout_due t p.2 = true) (account d).

Definition select_pending (t : Z) (d : DB) : result sql_error (gmap Z account_row) :=
  if existsb (fun p => threshold_overflows p.2) (map_to_list (account d)) then Err Out_of_range
  else Ok (due_accounts t d).

Definition info_of (rows : gmap Z account_row) (id : Z) : option PendingInfo :=
  (fun r => mk_pending id (a_pending r) (a_payout_interval r)) <$> rows !! id.

(** The number of transactions for [n] recipients. *)
Definition numberTxs (n : Z) : Z :=
  if n mod MaxMultiRecipients =? 0 then n / MaxMultiRecipients else n / MaxMultiRecipients + 1.

(** The loop that creates the transactions, and their ids. *)
Fixpoint create_txs (n : nat) (ids : list Z) (tx : DB) : M (result sql_error (list Z * DB)) :=
  match n with
  | O => mret (Ok (ids, tx))
  | S n' =>
      (t ← now;
       tdo (id, tx') <- TxExec (insert_tx t) tx ;;
       create_txs n' (ids ++ [id]) tx')%go
  end.

(** The [switch] over the payout interval. *)
Definition advance_payout_date (info : PendingInfo) (tx : DB) : M (result sql_error DB) :=
  match p_interval info with
  | None => mret (Ok tx)
  | Some s =>
      if bool_decide (s = "weekly") then t ← now; TxExec (set_next_payout_date (Some (t + 7 * day)) (p_id info)) tx
      else if bool_decide (s = "daily") then t ← now; TxExec (set_next_payout_date (Some (t + day)) (p_id info)) tx
      else if bool_decide (s = "now") then TxExec (set_next_payout_date None (p_id info)) tx
      else mret (Ok tx)
  end.

(** The body of the loop over the accounts that are paid. *)
Definition pay_account (dbTxIDs : list Z) (iinfo : nat * PendingInfo) (tx : DB) : M (result sql_error DB) :=
  let '(i, info) := iinfo in
  (tdo tx <- TxExec (add_pending (- p_pending info) (p_id info)) tx ;;
   tdo tx <- advance_payout_date info tx ;;
   match dbTxIDs !! Z.to_nat (Z.of_nat i / MaxMultiRecipients) with
   | None => panic
   | Some txid => TxExec (insert_recipient txid (p_id info) (i64 (p_pending info - MinerTxFee Cfg))) tx
   end)%go.

Definition payout_tx (infos : list PendingInfo) (tx : DB) : M (result sql_error DB) :=
  let n := Z.of_nat (List.length infos) in
  let k := numberTxs n in
  (tdo tx <- Prepare tx ;;
   tdo tx <- Prepare tx ;;
   tdo tx <- Prepare tx ;;
   tdo (dbTxIDs, tx) <- create_txs (Z.to_nat k) [] tx ;;
   tdo tx <- tx_each (imap pair infos) (pay_account dbTxIDs) tx ;;
   TxExec (add_pending (i64 (i64 (n * MinerTxFee Cfg) - i64 (k * PoolTxFee Cfg))) (FeeAccountID Cfg)) tx)%go.

(** [cachedMiner.Pending -= pending] of every paid miner that is cached. *)
Definition deduct_cached (info : PendingInfo) : M unit :=
  c ← get Cache;
  match GetMiner (p_id info) c with
  | None => mret tt
  | Some a => update_miner a (fun m => set_pending (i64 (Pending m - p_pending info)) m)
  end.

Definition createTransactions : M unit :=
  t ← now;
  sel ← TrySelect (select_pending t);
  match sel with
  | Err _ => mret tt
  | Ok rows =>
      ids ← range_keys (elements (dom rows));
      let infos := omap (info_of rows) ids in
      if (List.length infos =? 0)%nat then mret tt else
      r ← (tdo tx <- Begin ;; tdo tx <- payout_tx infos tx ;; Commit tx)%go;
      match r with
      | Err _ => mret tt
      | Ok _ => for_each infos deduct_cached
      end
  end.

(** ** [validateTransactions] *)

Definition select_unconfirmed (t : Z) (d : DB) : gmap Z tx_row :=
  filter (fun p => bool_decide (t_block_height p.2 = None) && (t_created p.2 <? sql_now t - 86400) &&
                   opt_test (fun _ => true) (t_transaction_id p.2) = true) (transaction d).

Definition validate_tx (txID : Z) : M unit :=
  reply ← call (fun n => GetTransaction n txID);
  let '(txInfo, querySuccessful) := reply in
  if negb querySuccessful then mret tt
  else match txInfo with
       | Err _ => MustExec (clear_tx_id txID)
       | Ok info => MustExec (confirm_tx (TransactionReply.Height info) txID)
       end.

Definition validateTransactions : M unit :=
  t ← now;
  sel ← Select (select_unconfirmed t);
  match sel with
  | Err _ => mret tt
  | Ok rows =>
      ids ← range_keys (elements (dom rows));
      for_each (omap (fun id => rows !! id ≫= t_transaction_id) ids) validate_tx
  end.

(** ** [sendMoney] *)

Definition select_unsent (d : DB) : gmap Z tx_row :=
  filter (fun p => bool_decide (t_block_height p.2 = None) && bool_decide (t_transaction_id p.2 = None) = true)
    (transaction d).

Definition select_recipients (tx : Z) (d : DB) : gmap Z recipient_row :=
  filter (fun p => r_transaction p.2 = tx) (transaction_recipient d).

(** [idToAmount] *)
Definition amounts_of (rows : list recipient_row) : gmap Z Z :=
  foldl (fun m r => <[r_recipient r := r_amount r]> m) ∅ rows.

Definition log_payment (p : payment) : M unit := modify (fun w => set_sent (sent w ++ [p]) w).

(** The call of the wallet for the recipients of one transaction. *)
Definition send_recipients (rows : list recipient_row) : M (result string Z) :=
  match rows with
  | [r] =>
      res ← call (fun n => SendPayment n (r_recipient r) (r_amount r));
      log_payment (mk_payment [(r_recipient r, r_amount r)] (match res with Ok t => Some t | Err _ => None end)) ;;
      mret res
  | _ =>
      let idToAmount := amounts_of rows in
      ids ← range_keys (elements (dom idToAmount));
      let entries := omap (fun id => (fun a => (id, a)) <$> idToAmount !! id) ids in
      out ← call (fun n => SendPayments n entries);
      match out with
      | Panic => panic
      | Return t => log_payment (mk_payment entries (Some t)) ;; mret (Ok t)
      | Fail_with e => log_payment (mk_payment entries None) ;; mret (Err e)
      end
  end.

Definition send_tx (tx : Z) : M unit :=
  sel ← Select (select_recipients tx);
  match sel with
  | Err _ => mret tt
  | Ok rows =>
      keys ← range_keys (elements (dom rows));
      res ← send_recipients (omap (fun k => rows !! k) keys);
      match res with
      | Err _ => mret tt
      | Ok txID => t ← now; MustExec (set_tx_id txID t tx)
      end
  end.

Definition sendMoney : M unit :=
  sel ← Select select_unsent;
  match sel with
  | Err _ => mret tt
  | Ok rows => ids ← range_keys (elements (dom rows)); for_each ids send_tx
  end.

Definition Payout : M unit := createTransactions ;; validateTransactions ;; sendMoney.

(** ** [SetMinPayout] *)

Record payout_request := mk_request {
  q_minPayoutValue : option Z;
  q_payoutInterval : option string;
  q_nextPayoutDate : option Z;
  q_cost : Z
}.

(** What a message asks for; [None]: it is not a number. *)
Definition parse_request (msg : string) : M (option payout_request) :=
  if bool_decide (msg = "weekly") then
    t ← now; mret (Some (mk_request None (Some "weekly") (Some (t + 7 * day)) (SetWeeklyFee Cfg)))
  else if bool_decide (msg = "daily") then
    t ← now; mret (Some (mk_request None (Some "daily") (Some (t + day)) (SetDailyFee Cfg)))
  else if bool_decide (msg = "now") then
    t ← now; mret (Some (mk_request None (Some "now") (Some t) (SetNowFee Cfg)))
  else
    let parsed :=
      match ParseInt (bytes msg) with
      | Ok z => Some z
      | Err _ => match ParseFloat (bytes msg) with Ok f => Some (to_int64 f) | Err _ => None end
      end in
    match parsed with
    | None => mret None
    | Some z => mret (Some (mk_request (if z =? 0 then None else Some z) None None (SetMinPayoutFee Cfg)))
    end.

(** The query that finds a message already processed. *)
Definition same_request (accountID : Z) (q : payout_request) (d : DB) : bool :=
  match account d !! accountID with
  | None => false
  | Some r =>
      match q_payoutInterval q, q_minPayoutValue q with
      | Some s, _ => bool_decide (a_payout_interval r = Some s)
      | None, Some v => bool_decide (a_min_payout_value r = Some v)
      | None, None => false
      end
  end.

(** For a reset to the defaults nothing is queried; a failed query leaves
    [oldMsg] false. *)
Definition old_message (accountID : Z) (q : payout_request) : M bool :=
  match q_payoutInterval q, q_minPayoutValue q with
  | None, None => mret false
  | _, _ => r ← Select (same_request accountID q); mret (match r with Ok b => b | Err _ => false end)
  end.

(** [pendingBigEnoughSQL] gives a row or none. *)
Definition enough_funds (accountID cost : Z) (tx : DB) : result sql_error DB :=
  match account tx !! accountID with
  | Some r => if cost <=? a_pending r then Ok tx else Err No_rows
  | None => Err No_rows
  end.

Definition set_payout_tx (accountID : Z) (q : payout_request) (tx : DB) : M (result sql_error DB) :=
  (tdo tx <- TxExec (enough_funds accountID (q_cost q)) tx ;;
   tdo tx <- TxExec (set_payout (q_minPayoutValue q) (q_payoutInterval q) (q_nextPayoutDate q) (q_cost q)
                       accountID) tx ;;
   TxExec (add_pending (q_cost q) (FeeAccountID Cfg)) tx)%go.

Definition payout_detail (q : payout_request) (old : string) : string :=
  match q_minPayoutValue q, q_payoutInterval q, q_nextPayoutDate q with
  | Some v, _, _ => of_bytes (FormatInt v)
  | None, Some s, Some t =>
      if bool_decide (s = "weekly") then String.append "weekly|" (time_String t)
      else if bool_decide (s = "daily") then String.append "daily|" (time_String t)
      else old
  | _, _, _ => old
  end.

(** The update of the cached miner, whether or not the commit succeeded. *)
Definition charge_cached (accountID : Z) (q : payout_request) : M unit :=
  c ← get Cache;
  match GetMiner accountID c with
  | None => mret tt
  | Some a => update_miner a (fun m =>
      set_pending (i64 (Pending m - q_cost q)) (set_payoutDetail (payout_detail q (PayoutDetail m)) m))
  end.

Definition process_message (accountID : Z) (msg : string) : M unit :=
  req ← parse_request msg;
  match req with
  | None => mret tt
  | Some q =>
      oldMsg ← old_message accountID q;
      if (oldMsg : bool) then mret tt else
      r ← (tdo tx <- Begin ;; set_payout_tx accountID q tx)%go;
      match r with
      | Err _ => mret tt
      | Ok tx => Commit tx ;; charge_cached accountID q
      end
  end.

Definition SetMinPayout (msgOf : gmap Z string) : M unit :=
  ids ← range_keys (elements (dom msgOf));
  for_each ids (fun id => match msgOf !! id with Some msg => process_message id msg | None => mret tt end).

End Operations.
