(* ===== verification/PayoutMoney.v ===== *)
(** * [createTransactions]: what is paid, and to whom

    The pending amounts, the amounts of the recorded payments and the fees of
    the pool's transactions always add up; an account is paid completely or
    not at all; a transaction never has more recipients than a multi-out
    transaction may have. *)

From S2P Require Import Prelude Config Miner DB Cache Wallet World Payout.
Open Scope list_scope.
Open Scope Z_scope.
Import GoInt.

(** ** Well-formed databases *)

Record wf_db (d : DB) : Prop := {
  wf_rows : forall id r, account d !! id = Some r ->
    is_i64 (a_pending r) /\ forall v, a_min_payout_value r = Some v -> is_i64 v;
  wf_tx_fresh : forall k, is_Some (transaction d !! k) -> k < next_tx d;
  wf_recipient_fresh : forall k, is_Some (transaction_recipient d !! k) -> k < next_recipient d
}.

(** ** Lists of numbers *)

Definition sum_list {A} (f : A -> Z) (l : list A) : Z := foldr (fun a acc => f a + acc) 0 l.

Lemma sum_list_app {A} (f : A -> Z) l1 l2 : sum_list f (l1 ++ l2) = sum_list f l1 + sum_list f l2.
Proof. unfold sum_list. induction l1 as [|a l1 IH]; simpl; lia. Qed.

Lemma sum_list_minus {A} (f : A -> Z) c (l : list A) :
  sum_list (fun a => f a - c) l = sum_list f l - Z.of_nat (length l) * c.
Proof. unfold sum_list. induction l as [|a l IH]; simpl; lia. Qed.

(** ** The pending amounts *)

Definition pend (d : DB) : gmap Z Z := a_pending <$> account d.

Lemma total_pend d : total_pending d = sum_values id (pend d).
Proof.
  unfold total_pending, pend. induction (account d) as [|k r m Hn IH] using map_ind; [done|].
  rewrite fmap_insert, !sum_insert; [by rewrite IH|by rewrite lookup_fmap, Hn|done].
Qed.

Lemma pend_lookup d k r : account d !! k = Some r -> pend d !! k = Some (a_pending r).
Proof. intros E. unfold pend. by rewrite lookup_fmap, E. Qed.

Lemma add_pending_spec z id d d' :
  add_pending z id d = Ok d' ->
  pend d' = match pend d !! id with Some p => <[id := p + z]> (pend d) | None => pend d end /\
  d' = with_account (account d') d.
Proof.
  unfold add_pending, pend. rewrite lookup_fmap. destruct (account d !! id) as [r|] eqn:E; simpl.
  - case_bool_decide; [|done]. intros [= <-]. simpl. by rewrite fmap_insert.
  - intros [= <-]. by destruct d.
Qed.

Lemma set_next_payout_date_spec t id d d' :
  set_next_payout_date t id d = Ok d' -> pend d' = pend d /\ d' = with_account (account d') d.
Proof.
  intros [= <-]. split; [|done]. unfold pend. simpl. apply map_eq. intros k.
  rewrite !lookup_fmap, lookup_alter. case_decide; subst; [|done]. by destruct (account d !! k).
Qed.

Section Proofs.
Context `{Env}.

(** The configuration's fees, for a database of [n] accounts. *)
Record fees_ok (n : Z) : Prop := {
  fees_miner : 0 <= MinerTxFee Cfg /\ n * MinerTxFee Cfg < 2 ^ 62;
  fees_pool : 0 <= PoolTxFee Cfg /\ n * PoolTxFee Cfg < 2 ^ 62;
  fees_min : is_i64 (MinimumPayout Cfg) /\ is_i64 (MinimumPayout Cfg + MinerTxFee Cfg)
}.

(** ** The accounts that are due *)

Lemma due_amount t r :
  is_i64 (a_pending r) -> (forall v, a_min_payout_value r = Some v -> is_i64 v) ->
  fees_ok 0 -> payout_due t r = true -> is_i64 (a_pending r - MinerTxFee Cfg).
Proof.
  intros Hp Hv [[Hf _] _ [Hm Hmf]]. unfold payout_due. rewrite i64_small by done.
  destruct (a_min_payout_value r) as [v|]; [specialize (Hv v eq_refl)|];
    destruct (a_next_payout_date r) as [x|]; simpl;
    rewrite ?orb_true_iff, ?andb_true_iff, ?Z.leb_le; unfold is_i64 in *; intros; lia.
Qed.

(** What [createTransactions] reads of a due account. *)
Definition good_infos (d : DB) (infos : list PendingInfo) : Prop :=
  NoDup (p_id <$> infos) /\
  (forall info, info ∈ infos -> pend d !! p_id info = Some (p_pending info) /\
                               is_i64 (p_pending info - MinerTxFee Cfg)).

Lemma infos_good t d rows ids :
  wf_db d -> fees_ok 0 -> select_pending t d = Ok rows -> ids ≡ₚ elements (dom rows) ->
  good_infos d (omap (info_of rows) ids) /\
  (forall info, info ∈ omap (info_of rows) ids <->
     exists r, account d !! p_id info = Some r /\ payout_due t r = true /\
               info = mk_pending (p_id info) (a_pending r) (a_payout_interval r)) /\
  (length (omap (info_of rows) ids) <= size (account d))%nat.
Proof.
  intros Hwf Hfee Hsel Hids. unfold select_pending in Hsel.
  destruct (existsb _ _) eqn:Ho; [done|]. injection Hsel as <-.
  set (rows := due_accounts t d) in *.
  assert (Hrows : forall k r, rows !! k = Some r <-> account d !! k = Some r /\ payout_due t r = true).
  { intros k r. unfold rows, due_accounts. by rewrite map_lookup_filter_Some. }
  assert (Hin : forall info, info ∈ omap (info_of rows) ids <->
     exists r, account d !! p_id info = Some r /\ payout_due t r = true /\
               info = mk_pending (p_id info) (a_pending r) (a_payout_interval r)).
  { intros info. rewrite list_elem_of_omap. split.
    - intros (k & Hk & E). unfold info_of in E. apply fmap_Some in E as (r & Hr & ->). simpl.
      exists r. apply Hrows in Hr as [? ?]. done.
    - intros (r & Hr & Hd & ->). simpl in *. exists (p_id info). split.
      + rewrite Hids, elem_of_elements, elem_of_dom. exists r. by apply Hrows.
      + unfold info_of. assert (rows !! p_id info = Some r) as -> by by apply Hrows. done. }
  assert (Hmap : p_id <$> omap (info_of rows) ids = ids).
  { assert (Hall : Forall (fun k => is_Some (rows !! k)) ids).
    { apply Forall_forall. intros k. by rewrite Hids, elem_of_elements, elem_of_dom. }
    clear -Hall. induction Hall as [|k ids [r Hr] _ IH]; [done|].
    simpl. unfold info_of at 1. rewrite Hr. simpl. f_equal. exact IH. }
  split_and!; [split| |].
  - rewrite Hmap, Hids. apply NoDup_elements.
  - intros info (r & Hr & Hd & E)%Hin. destruct (wf_rows d Hwf _ _ Hr) as [Hp Hv].
    rewrite E. simpl. split; [by apply pend_lookup|by eapply due_amount].
  - done.
  - rewrite <- (length_fmap p_id (omap (info_of rows) ids)), Hmap, Hids, <- size_dom.
    change (length (elements (dom rows))) with (size (dom rows)).
    apply (subseteq_size (dom rows) (dom (account d))).
    intros k. rewrite !elem_of_dom. intros [r Hr]. apply Hrows in Hr as [? _]. by eexists.
Qed.

(** ** The number of transactions *)

Lemma numberTxs_bounds n : 0 < n -> 1 <= numberTxs n <= n.
Proof.
  intros Hn. unfold numberTxs, MaxMultiRecipients. pose proof (Z.div_mod n 64).
  pose proof (Z.mod_pos_bound n 64). destruct (Z.eqb_spec (n mod 64) 0); lia.
Qed.

Lemma numberTxs_enough n i : 0 <= i < n -> 0 <= i / MaxMultiRecipients < numberTxs n.
Proof.
  intros Hi. unfold numberTxs, MaxMultiRecipients. pose proof (Z.div_mod n 64).
  pose proof (Z.mod_pos_bound n 64). pose proof (Z.div_mod i 64). pose proof (Z.mod_pos_bound i 64).
  destruct (Z.eqb_spec (n mod 64) 0); lia.
Qed.
End Proofs.

(** ** The transaction *)

Definition zero_pending (m : gmap Z Z) (info : PendingInfo) : gmap Z Z := <[p_id info := 0]> m.

Lemma foldl_zero_ne l m k : k ∉ (p_id <$> l) -> foldl zero_pending m l !! k = m !! k.
Proof.
  revert m. induction l as [|a l IH]; intros m Hk; [done|].
  cbn [foldl]. rewrite IH by (simpl in Hk; set_solver). unfold zero_pending.
  apply lookup_insert_ne. simpl in Hk. set_solver.
Qed.

Section Transaction.
Context `{Env}.
Context (d0 : DB) (Hwf : wf_db d0).

(** ** The state of the transaction after each part *)

Definition row_of (ids : list Z) (i : nat) (info : PendingInfo) : option recipient_row :=
  (fun t => mk_recipient t (p_id info) (p_pending info - MinerTxFee Cfg)) <$>
    ids !! Z.to_nat (Z.of_nat i / MaxMultiRecipients).

Definition add_row (ids : list Z) (m : gmap Z recipient_row) (iinfo : nat * PendingInfo) : gmap Z recipient_row :=
  match row_of ids iinfo.1 iinfo.2 with
  | Some r => <[next_recipient d0 + Z.of_nat iinfo.1 := r]> m
  | None => m
  end.

(** [n] transactions with the ids [ids] were created; nothing else changed. *)
Record created (ids : list Z) (tx : DB) : Prop := {
  cr_account : account tx = account d0;
  cr_recipient : transaction_recipient tx = transaction_recipient d0 /\ next_recipient tx = next_recipient d0;
  cr_ids : forall id, id ∈ ids -> is_Some (transaction tx !! id);
  cr_size : Z.of_nat (size (transaction tx)) = Z.of_nat (size (transaction d0)) + Z.of_nat (length ids);
  cr_fresh : forall k, is_Some (transaction tx !! k) -> k < next_tx tx;
  cr_new : NoDup ids /\ (forall id, id ∈ ids -> next_tx d0 <= id < next_tx tx) /\ next_tx d0 <= next_tx tx;
  cr_rest : block tx = block d0 /\ nonce_submission tx = nonce_submission d0 /\ miner tx = miner d0
}.

Record paid (ids : list Z) (pending : gmap Z Z) (l1 : list PendingInfo) (tx : DB) : Prop := {
  pd_pend : pend tx = pending;
  pd_recipient : transaction_recipient tx = foldl (add_row ids) (transaction_recipient d0) (imap pair l1) /\
                 next_recipient tx = next_recipient d0 + Z.of_nat (length l1);
  pd_ids : forall id, id ∈ ids -> is_Some (transaction tx !! id);
  pd_size : Z.of_nat (size (transaction tx)) = Z.of_nat (size (transaction d0)) + Z.of_nat (length ids);
  pd_new : NoDup ids /\ (forall id, id ∈ ids -> next_tx d0 <= id);
  pd_rest : block tx = block d0 /\ nonce_submission tx = nonce_submission d0 /\ miner tx = miner d0
}.

Lemma created_start : created [] d0.
Proof.
  split; try done; [set_solver|simpl; lia|apply (wf_tx_fresh d0 Hwf)|].
  split_and!; [constructor|set_solver|lia].
Qed.

Lemma insert_tx_created ids t tx id tx' :
  created ids tx -> insert_tx t tx = Ok (id, tx') -> created (ids ++ [id]) tx'.
Proof.
  intros [Ha [Hr1 Hr2] Hi Hs Hf (Hn1 & Hn2 & Hn3) Hb]. unfold insert_tx. intros [= <- <-].
  assert (Hnone : transaction tx !! next_tx tx = None).
  { destruct (transaction tx !! next_tx tx) eqn:E; [|done]. specialize (Hf (next_tx tx)). rewrite E in Hf.
    exfalso. specialize (Hf (mk_is_Some _ _ eq_refl)). lia. }
  split; simpl; try done.
  - intros id. rewrite elem_of_app, list_elem_of_singleton. intros [Hid| ->]; [|by rewrite lookup_insert_eq].
    rewrite lookup_insert_ne; [by apply Hi|]. specialize (Hn2 id Hid). lia.
  - rewrite map_size_insert_None, length_app by done. simpl. lia.
  - intros k. destruct (decide (k = next_tx tx)) as [->|]; [lia|].
    rewrite lookup_insert_ne by done. intros Hk%Hf. lia.
  - split_and!; [|intros id; rewrite elem_of_app, list_elem_of_singleton|lia].
    + rewrite NoDup_app. split_and!; [done| |apply NoDup_singleton].
      intros id Hid ->%list_elem_of_singleton. specialize (Hn2 _ Hid). lia.
    + intros [Hid| ->]; [specialize (Hn2 id Hid)|]; lia.
Qed.

Lemma create_txs_triple n ids :
  tx_triple (created ids) (create_txs n ids)
    (fun p => created p.1 p.2 /\ length p.1 = (length ids + n)%nat).
Proof.
  revert ids. induction n as [|n IH]; intros ids; simpl.
  - apply (tx_ret (created ids) (fun tx => (ids, tx))). intros tx Hc. split; [done|simpl; lia].
  - apply tx_now. intros t.
    apply (tx_bind (created ids) _ _ (fun p => created (ids ++ [p.1]) p.2)).
    + apply tx_exec. intros tx [id tx'] Hc E. simpl. by eapply insert_tx_created.
    + intros [id tx'] w Hc. destruct (IH (ids ++ [id]) tx' w Hc) as (r & E & F & HQ).
      exists r. split_and!; [done|done|]. destruct r as [p|]; [|done].
      destruct HQ as [? Hl]. split; [done|]. rewrite Hl, length_app. simpl. lia.
Qed.

(** ** The loop over the accounts *)

Lemma advance_payout_date_triple (P : DB -> Prop) info :
  (forall t tx tx', P tx -> set_next_payout_date t (p_id info) tx = Ok tx' -> P tx') ->
  tx_triple P (advance_payout_date info) P.
Proof.
  intros HP. unfold advance_payout_date.
  assert (Hret : tx_triple P (fun tx => mret (Ok tx)) P) by by apply (tx_ret P (fun tx => tx)).
  assert (Hset : forall t, tx_triple P (TxExec (set_next_payout_date t (p_id info))) P).
  { intros t. apply tx_exec. intros tx tx' ??. by eapply HP. }
  destruct (p_interval info) as [s|]; [|done].
  case_bool_decide; [by apply tx_now; intros|].
  case_bool_decide; [by apply tx_now; intros|].
  by case_bool_decide.
Qed.

Lemma pay_account_triple ids infos l1 info l2 :
  good_infos d0 infos -> infos = l1 ++ info :: l2 ->
  Z.of_nat (length ids) = numberTxs (Z.of_nat (length infos)) ->
  tx_triple (paid ids (foldl zero_pending (pend d0) l1) l1)
    (pay_account ids (length l1, info))
    (paid ids (foldl zero_pending (pend d0) (l1 ++ [info])) (l1 ++ [info])).
Proof.
  intros [Hnd Hgood] Einf Hlen. unfold pay_account.
  destruct (Hgood info ltac:(set_solver)) as [Hp Hfee].
  set (z := foldl zero_pending (pend d0) (l1 ++ [info])).
  apply (tx_then _ (paid ids z l1)).
  { apply tx_exec. intros tx tx' HP E. apply add_pending_spec in E as [Epend Etx].
    rewrite Etx. destruct HP as [Hpend ? ? ? ? ?]. split; try done.
    change (pend (with_account (account tx') tx)) with (pend tx').
    rewrite Epend, Hpend, foldl_zero_ne, Hp, Z.add_opp_diag_r.
    - unfold z. by rewrite foldl_snoc.
    - rewrite Einf, fmap_app in Hnd. apply NoDup_app in Hnd as (_ & Hnd & _).
      intros Hin. by apply (Hnd _ Hin), list_elem_of_here. }
  apply (tx_then _ (paid ids z l1)).
  { apply advance_payout_date_triple. intros t tx tx' HP E.
    apply set_next_payout_date_spec in E as [Epend Etx]. rewrite Etx.
    destruct HP as [Hpend ? ? ? ? ?]. split; try done.
    change (pend (with_account (account tx') tx)) with (pend tx'). by rewrite Epend. }
  assert (Hi : 0 <= Z.of_nat (length l1) / MaxMultiRecipients < Z.of_nat (length ids)).
  { rewrite Hlen. apply numberTxs_enough. rewrite Einf, length_app. simpl. lia. }
  destruct (ids !! Z.to_nat (Z.of_nat (length l1) / MaxMultiRecipients)) as [t|] eqn:Et;
    [|apply lookup_ge_None in Et; lia].
  apply tx_exec. intros tx tx' [Hpend [Hr1 Hr2] Hi' Hs Hn Hb]. unfold insert_recipient.
  destruct (negb _); [done|]. intros [= <-]. split; simpl; try done.
  rewrite imap_app, foldl_app, length_app. simpl. rewrite Nat.add_0_r.
  unfold add_row at 1. simpl. unfold row_of. rewrite Et. simpl. rewrite Hr1, Hr2, i64_small by done.
  split; [done|lia].
Qed.

Lemma payout_tx_triple infos (delta := i64 (i64 (Z.of_nat (length infos) * MinerTxFee Cfg) -
      i64 (numberTxs (Z.of_nat (length infos)) * PoolTxFee Cfg))) :
  good_infos d0 infos -> infos <> [] ->
  tx_triple (fun tx => tx = d0) (payout_tx infos) (fun tx => exists ids,
    let z := foldl zero_pending (pend d0) infos in
    Z.of_nat (length ids) = numberTxs (Z.of_nat (length infos)) /\
    paid ids (match z !! FeeAccountID Cfg with Some p => <[FeeAccountID Cfg := p + delta]> z | None => z end)
      infos tx).
Proof.
  intros Hg Hne. unfold payout_tx. fold delta.
  do 3 (eapply tx_then; [apply tx_prepare|]).
  assert (Hn : 0 < Z.of_nat (length infos)) by (destruct infos; [done|simpl; lia]).
  pose proof (numberTxs_bounds _ Hn) as Hk.
  eapply (tx_bind _ _ _ (fun p => created p.1 p.2 /\ Z.of_nat (length p.1) = numberTxs (Z.of_nat (length infos)))).
  { intros tx w ->. destruct (create_txs_triple (Z.to_nat (numberTxs (Z.of_nat (length infos)))) [] d0 w
      created_start) as (r & E & F & HQ).
    exists r. split_and!; [done|done|]. destruct r as [p|]; [|done]. destruct HQ as [? ->].
    split; [done|]. simpl. lia. }
  intros [ids tx0] w [Hc Hlen]. simpl in Hlen.
  assert (Hloop : tx_triple (fun tx => created ids tx)
    (tx_each (imap pair infos) (pay_account ids)) (fun tx => paid ids (foldl zero_pending (pend d0) infos) infos tx)).
  { intros tx w' [Ha Hr Hi Hs Hf Hn' Hb].
    assert (Hst : paid ids (foldl zero_pending (pend d0) ([] : list PendingInfo)) [] tx).
    { split; simpl; try done; [unfold pend; by rewrite Ha|split; [by apply Hr|rewrite (proj2 Hr); lia]|].
      destruct Hn' as (? & Hn' & _). split; [done|]. intros id Hid. by apply Hn'. }
    destruct (tx_loop (fun l1 tx => paid ids (foldl zero_pending (pend d0) (l1.*2)) (l1.*2) tx)
                (imap pair infos) [] (pay_account ids)) with (tx := tx) (w := w') as (r & E & F & HQ).
    - intros l1 [i info] l2 E. simpl in E. rewrite fmap_app. simpl.
      assert (E2 : infos = l1.*2 ++ info :: l2.*2).
      { assert (E3 : (imap pair infos).*2 = infos).
        { rewrite fmap_imap. rewrite <- (list_fmap_id infos) at 2. apply (imap_const (fun x => x)). }
        rewrite <- E3, E, fmap_app. done. }
      assert (i = length (l1.*2)) as ->.
      { assert (Hl : imap pair infos !! length l1 = Some (i, info)) by (rewrite E; by apply list_lookup_middle).
        rewrite list_lookup_imap in Hl. apply fmap_Some in Hl as (? & _ & [= -> _]).
        by rewrite length_fmap. }
      by eapply pay_account_triple.
    - done.
    - exists r. split_and!; [done|done|]. destruct r as [tx'|]; [|done].
      simpl in HQ. assert (E3 : (imap pair infos).*2 = infos).
      { rewrite fmap_imap. rewrite <- (list_fmap_id infos) at 2. apply (imap_const (fun x => x)). }
      by rewrite E3 in HQ. }
  refine (tx_then _ _ _ _ _ Hloop _ tx0 w Hc).
  apply tx_exec. intros tx tx' [Hpend Hr Hi Hs Hn' Hb] E. exists ids. split; [done|].
  apply add_pending_spec in E as [Epend Etx]. rewrite Etx. split; try done.
  change (pend (with_account (account tx') tx)) with (pend tx'). by rewrite Epend, Hpend.
Qed.

End Transaction.
