(* ===== verification/PayoutTheorems.v ===== *)
(** * Theorems on [createTransactions]

    The results of [PayoutMoney] for the whole operation: conservation of
    money, atomicity, the size of transactions. *)

From S2P Require Import Prelude GoFloat Config Blocks Shares Miner DB Cache Wallet World Payout PayoutMoney.
Open Scope string_scope.
Open Scope list_scope.
Open Scope Z_scope.
Import GoInt.

(** ** Well-formedness can be computed *)

Definition check_db (d : DB) : bool :=
  bool_decide (map_Forall (fun _ r => is_i64 (a_pending r) /\
                       from_option (fun v => bool_decide (is_i64 v)) true (a_min_payout_value r) = true) (account d)) &&
  bool_decide (map_Forall (fun k _ => k < next_tx d) (transaction d)) &&
  bool_decide (map_Forall (fun k _ => k < next_recipient d) (transaction_recipient d)).

Lemma check_db_wf d : check_db d = true -> wf_db d.
Proof.
  unfold check_db. rewrite !andb_true_iff, !bool_decide_eq_true. intros [[H1 H2] H3]. split.
  - intros id r Hr. specialize (H1 id r Hr) as [? Hv]. split; [done|]. intros v E. rewrite E in Hv. by apply bool_decide_eq_true in Hv.
  - intros k [r Hr]. by apply (H2 k r).
  - intros k [r Hr]. by apply (H3 k r).
Qed.

(** ** Sums over the states of [PayoutMoney] *)

Lemma sum_foldl_zero l m :
  NoDup (p_id <$> l) -> (forall info, info ∈ l -> m !! p_id info = Some (p_pending info)) ->
  sum_values id (foldl zero_pending m l) = sum_values id m - sum_list p_pending l.
Proof.
  induction l as [|info l IH] using rev_ind; intros Hnd Hm; [simpl; lia|].
  rewrite foldl_app, sum_list_app. simpl. rewrite fmap_app in Hnd.
  apply NoDup_app in Hnd as (Hnd & Hout & _). unfold zero_pending at 1.
  rewrite (sum_update id _ (p_id info) (p_pending info) 0).
  - rewrite IH; [unfold id; lia|done|]. intros i Hi. apply Hm. set_solver.
  - rewrite foldl_zero_ne; [apply Hm; set_solver|].
    intros Hin. by apply (Hout _ Hin), list_elem_of_here.
Qed.

Section Env.
Context `{Env}.

Lemma add_rows_lookup d0 ids l k r :
  foldl (add_row d0 ids) (transaction_recipient d0) (imap pair l) !! k = Some r ->
  transaction_recipient d0 !! k = Some r \/
  exists i info, l !! i = Some info /\ k = next_recipient d0 + Z.of_nat i /\ row_of ids i info = Some r.
Proof.
  induction l as [|info l IH] using rev_ind; [by left|].
  rewrite imap_app, foldl_app. simpl. rewrite Nat.add_0_r. unfold add_row at 1. simpl.
  intros Hk. destruct (row_of ids (length l) info) as [r'|] eqn:Er.
  - apply lookup_insert_Some in Hk as [[<- <-]|[_ Hk]].
    + right. exists (length l), info. by rewrite list_lookup_middle.
    + destruct (IH Hk) as [|(i & info' & Hi & ? & ?)]; [by left|right].
      exists i, info'. split_and!; [|done|done]. apply lookup_app_l_Some, Hi.
  - destruct (IH Hk) as [|(i & info' & Hi & ? & ?)]; [by left|right].
    exists i, info'. split_and!; [|done|done]. apply lookup_app_l_Some, Hi.
Qed.

Lemma sum_add_rows d0 ids l :
  wf_db d0 -> (forall i, (i < length l)%nat -> is_Some (ids !! Z.to_nat (Z.of_nat i / MaxMultiRecipients))) ->
  sum_values r_amount (foldl (add_row d0 ids) (transaction_recipient d0) (imap pair l)) =
  total_paid d0 + sum_list (fun info => p_pending info - MinerTxFee Cfg) l.
Proof.
  intros Hwf. induction l as [|info l IH] using rev_ind; intros Hids; [unfold total_paid; simpl; lia|].
  rewrite imap_app, foldl_app, sum_list_app. simpl. rewrite Nat.add_0_r. unfold add_row at 1. simpl.
  destruct (Hids (length l)) as [t Ht]; [rewrite length_app; simpl; lia|].
  unfold row_of. rewrite Ht. simpl. rewrite sum_insert.
  - rewrite IH; [simpl; lia|]. intros i Hi. apply Hids. rewrite length_app. lia.
  - destruct (foldl _ _ _ !! _) as [r|] eqn:E; [exfalso|done].
    apply add_rows_lookup in E as [E|(i & info' & Hi & E & _)].
    + specialize (wf_recipient_fresh d0 Hwf _ (mk_is_Some _ _ E)). lia.
    + apply lookup_lt_Some in Hi. lia.
Qed.

(** ** The whole operation *)

(** What a paid account's cached miner loses. *)
Definition deduction (info : PendingInfo) (m : Miner) : Miner := set_pending (i64 (Pending m - p_pending info)) m.

(** [cached_changed] by the payment of the accounts that are due. *)
Definition due_deducted (t : Z) (w w' : World) : Prop :=
  cached_changed (fun id => match account (db w) !! id with
    | Some r => if payout_due t r then Some (fun m => set_pending (i64 (Pending m - a_pending r)) m) else None
    | None => None
    end) w w'.

Lemma due_entry (d : DB) t infos id :
  NoDup (p_id <$> infos) ->
  (forall info, info ∈ infos <-> exists r, account d !! p_id info = Some r /\ payout_due t r = true /\
     info = mk_pending (p_id info) (a_pending r) (a_payout_interval r)) ->
  deduction <$> entry_for p_id infos id =
  match account d !! id with
  | Some r => if payout_due t r then Some (fun m => set_pending (i64 (Pending m - a_pending r)) m) else None
  | None => None
  end.
Proof.
  intros Hnd Hin.
  assert (Hno : (forall r, account d !! id = Some r -> payout_due t r <> true) -> entry_for p_id infos id = None).
  { intros Hr. apply entry_for_None. intros (info & -> & Hi)%list_elem_of_fmap.
    apply Hin in Hi as (r & Ha & Hd & _). by eapply Hr. }
  destruct (account d !! id) as [r|] eqn:Er; [|by rewrite Hno].
  destruct (payout_due t r) eqn:Ed; [|by rewrite Hno by congruence].
  assert (Hi : mk_pending id (a_pending r) (a_payout_interval r) ∈ infos) by (apply Hin; by exists r).
  by rewrite (entry_for_Some p_id infos _ Hnd Hi : entry_for p_id infos id = _).
Qed.

(** Every run ends without a panic; database and miners are as before, or
    hold the result of paying all accounts that were due at the start. *)
Lemma createTransactions_cases w :
  wf_db (db w) -> wf_pointers w -> fees_ok 0 ->
  exists w', createTransactions w = (Some tt, w') /\ sent w' = sent w /\ Cache w' = Cache w /\
    (db w' = db w /\ objects w' = objects w \/
     (own_pointers w -> due_deducted (clock (tick w)) w w') /\
     exists infos ids (delta := i64 (i64 (Z.of_nat (length infos) * MinerTxFee Cfg) -
                       i64 (numberTxs (Z.of_nat (length infos)) * PoolTxFee Cfg)))
            (z := foldl zero_pending (pend (db w)) infos),
       good_infos (db w) infos /\ infos <> [] /\
       (forall info, info ∈ infos <-> exists r, account (db w) !! p_id info = Some r /\
          payout_due (clock (tick w)) r = true /\
          info = mk_pending (p_id info) (a_pending r) (a_payout_interval r)) /\
       (length infos <= size (account (db w)))%nat /\
       Z.of_nat (length ids) = numberTxs (Z.of_nat (length infos)) /\
       paid (db w) ids (match z !! FeeAccountID Cfg with
                        | Some p => <[FeeAccountID Cfg := p + delta]> z | None => z end) infos (db w')).
Proof.
  intros Hwf Hp Hfee. unfold createTransactions, now, TrySelect, step, get, mbind, M_bind. simpl.
  destruct (db_fault (S (tick w))); [by eexists; split_and!; [done..|left]|].
  simpl. destruct (select_pending (clock (tick w)) (db w)) as [rows|e] eqn:Esel;
    [|by eexists; split_and!; [done..|left]].
  unfold range_keys, step, mbind, M_bind. simpl.
  set (keys := order (S (S (tick w))) (elements (dom rows))).
  destruct (infos_good _ _ rows keys Hwf Hfee Esel (order_perm _ _)) as (Hg & Hin & Hle).
  set (infos := omap (info_of rows) keys) in *.
  destruct (Nat.eqb_spec (length infos) 0) as [|Hne]; [by eexists; split_and!; [done..|left]|].
  set (w1 := set_tick _ _).
  assert (Hne' : infos <> []) by (intros ->; done).
  destruct (run_transaction w1 (payout_tx infos) _ (payout_tx_triple (db w) Hwf infos Hg Hne'))
    as (r & w2 & E & Hc & Ho & Hs & Hd).
  rewrite E. destruct r as [[]|e]; [|by eexists; split_and!; [done..|left]].
  destruct (cached_loop p_id deduction deduct_cached infos w2) as (w' & -> & (Hd' & Hc' & Hs' & _) & Hch); [done| |].
  { intros id a. rewrite Hc, Ho. apply Hp. }
  exists w'. split_and!; [done|by rewrite Hs', Hs|by rewrite Hc', Hc|right].
  destruct Hd as (ids & Hlen & Hpaid). rewrite <- Hd' in Hpaid. split; [|by exists infos, ids].
  intros Hown. unfold due_deducted.
  eapply cached_changed_ext; [intros id; apply (due_entry (db w) _ infos id (proj1 Hg) Hin)|].
  destruct Hch as [Hc1 Hc2]; [unfold own_pointers; by rewrite Hc|apply Hg|].
  rewrite Hc, Ho in Hc1, Hc2. by split.
Qed.

End Env.

Section Theorems.
Context `{Env}.

(** What the pool owes, what it has recorded as paid, and the fees of its
    transactions. *)
Definition money (d : DB) : Z :=
  total_pending d + total_paid d + PoolTxFee Cfg * Z.of_nat (size (transaction d)).

Lemma fees_ok_0 n : 0 <= n -> fees_ok n -> fees_ok 0.
Proof. intros Hn [[? ?] [? ?] ?]. split; [split; lia|split; lia|done]. Qed.

Lemma foldl_zero_is_Some l (m : gmap Z Z) k : is_Some (m !! k) -> is_Some (foldl zero_pending m l !! k).
Proof.
  revert m. induction l as [|a l IH]; intros m Hk; [done|]. apply IH. unfold zero_pending.
  destruct (decide (p_id a = k)) as [->|]; [by rewrite lookup_insert_eq|by rewrite lookup_insert_ne].
Qed.


Lemma delta_exact n m :
  0 < n <= m -> fees_ok m ->
  i64 (i64 (n * MinerTxFee Cfg) - i64 (numberTxs n * PoolTxFee Cfg)) =
  n * MinerTxFee Cfg - numberTxs n * PoolTxFee Cfg.
Proof.
  intros Hn [[Hm1 Hm2] [Hp1 Hp2] _]. pose proof (numberTxs_bounds n ltac:(lia)).
  assert (n * MinerTxFee Cfg <= m * MinerTxFee Cfg) by nia.
  assert (numberTxs n * PoolTxFee Cfg <= m * PoolTxFee Cfg) by nia.
  rewrite (i64_small (n * _)), (i64_small (numberTxs n * _)), i64_small; unfold is_i64; nia.
Qed.

Lemma paid_money d0 d' infos ids delta (z := foldl zero_pending (pend d0) infos) :
  wf_db d0 -> good_infos d0 infos -> is_Some (account d0 !! FeeAccountID Cfg) ->
  Z.of_nat (length ids) = numberTxs (Z.of_nat (length infos)) ->
  delta = Z.of_nat (length infos) * MinerTxFee Cfg - numberTxs (Z.of_nat (length infos)) * PoolTxFee Cfg ->
  paid d0 ids (match z !! FeeAccountID Cfg with
               | Some p => <[FeeAccountID Cfg := p + delta]> z | None => z end) infos d' ->
  money d' = money d0.
Proof.
  intros Hwf [Hnd Hg] [rf Hf] Hids Hdelta [Hpend [Hrec _] _ Hsize _ _].
  destruct (foldl_zero_is_Some infos (pend d0) (FeeAccountID Cfg)) as [p Hp].
  { rewrite (pend_lookup _ _ _ Hf). by eexists. }
  fold z in Hp. rewrite Hp in Hpend.
  unfold money. rewrite (total_pend d'), Hpend, (sum_update id z _ p) by done. unfold total_paid at 1.
  rewrite Hrec, sum_add_rows, sum_list_minus, Hsize, (total_pend d0); [|done|].
  - unfold z. rewrite sum_foldl_zero; [|done|intros info Hi; by apply Hg].
    unfold id. rewrite Hids. lia.
  - intros i Hi. apply lookup_lt_is_Some. pose proof (numberTxs_enough (Z.of_nat (length infos)) (Z.of_nat i)).
    lia.
Qed.

(** C1: [createTransactions] never panics and never creates or destroys
    money, whatever calls of the database fail: the pending amounts, the
    recorded payments and the fees of the pool's transactions have the same
    sum before and after, where the fee account has a row (with the id 0 as
    [feeAccountId] it has none, and the fees vanish). *)
Theorem createTransactions_conserves_money (w : World) :
  wf_db (db w) -> wf_pointers w -> fees_ok (Z.of_nat (size (account (db w)))) ->
  is_Some (account (db w) !! FeeAccountID Cfg) ->
  exists w', createTransactions w = (Some tt, w') /\ money (db w') = money (db w) /\ sent w' = sent w.
Proof.
  intros Hwf Hp Hfee Hf.
  destruct (createTransactions_cases w Hwf Hp (fees_ok_0 _ (Zle_0_nat _) Hfee))
    as (w' & E & Hs & _ & [[Hd _]|(_ & infos & ids & Hg & Hne & _ & Hle & Hids & Hpaid)]).
  - exists w'. by rewrite Hd.
  - exists w'. split_and!; [done| |done]. eapply paid_money; [done..| |exact Hpaid].
    eapply delta_exact; [|exact Hfee]. destruct infos; [done|simpl in *; lia].
Qed.




End Theorems.

(** ** A run *)

Definition example_env : Env := calm test_cfg silent_wallet (1535760000 * 10 ^ 9).

(** The fee account; a miner above the pool's default; one below; one with a
    daily payout that is due. *)
Definition example_db : DB :=
  with_account {[
    6418289488649374107 := mk_account "fee" None 0 None None None;
    1 := mk_account "a" None 300000000000 None None None;
    2 := mk_account "b" None 200000000000 None None None;
    3 := mk_account "c" None 50000000 None (Some "daily") (Some 1535750000) ]} empty_DB.

Definition example_world : World := start_world test_cfg example_db.

Lemma example_ok :
  wf_db (db example_world) /\ wf_pointers example_world /\
  @fees_ok example_env (Z.of_nat (size (account (db example_world)))).
Proof.
  split_and!; [apply check_db_wf; by vm_compute|by intros id a Ha|split; by vm_compute].
Qed.

Example example_run :
  let d := db (@createTransactions example_env example_world).2 in
  (a_pending <$> account d !! 1) = Some 0 /\ (a_pending <$> account d !! 2) = Some 200000000000 /\
  (a_pending <$> account d !! 3) = Some 0 /\ (a_pending <$> account d !! 6418289488649374107) = Some 10000000 /\
  (r_amount <$> transaction_recipient d !! 1) = Some 40000000 /\ @money example_env d = 500050000000.
Proof. vm_compute. repeat split. Qed.

Lemma createTransactions_conserves_money_witness :
  exists w', @createTransactions example_env example_world = (Some tt, w') /\
             @money example_env (db w') = @money example_env example_db.
Proof.
  destruct example_ok as (H1 & H2 & H3).
  destruct (@createTransactions_conserves_money example_env example_world H1 H2 H3) as (w' & E & Em & _).
  - eexists; vm_compute; reflexivity.
  - exists w'. split; [exact E|exact Em].
Defined.


