(* ===== verification/MinPayout.v ===== *)
(** * Theorems on [SetMinPayout], [sendMoney] and the thresholds

    A message charges its account the cost of the change, and nothing else
    moves; the wallet is paid for unsent transactions, each once, which are
    marked with its id; and what unusual thresholds do. *)

From Stdlib Require Import Ascii String.
From S2P Require Import Prelude GoStrings GoFloat GoParse Config Blocks Shares Miner DB Cache Wallet World.
From S2P Require Import Payout PayoutMoney PayoutTheorems.
Open Scope string_scope.
Open Scope list_scope.
Open Scope Z_scope.
Import GoInt.

Lemma set_payout_spec v i n cost id d d' :
  set_payout v i n cost id d = Ok d' ->
  pend d' = match pend d !! id with Some p => <[id := p - cost]> (pend d) | None => pend d end /\
  d' = with_account (account d') d.
Proof.
  unfold set_payout, pend. rewrite lookup_fmap. destruct (account d !! id) as [r|] eqn:E; simpl.
  - case_bool_decide; [|done]. intros [= <-]. simpl. by rewrite fmap_insert.
  - intros [= <-]. by destruct d.
Qed.

Section Proofs.
Context `{Env}.

(** ** [SetMinPayout] *)

(** The pending amounts after a cost was moved to the fee account. *)
Definition charged (accountID cost : Z) (p p' : gmap Z Z) : Prop :=
  exists a, p !! accountID = Some a /\ cost <= a /\
  let p1 := <[accountID := a - cost]> p in
  p' = match p1 !! FeeAccountID Cfg with Some f => <[FeeAccountID Cfg := f + cost]> p1 | None => p1 end.

Lemma set_payout_tx_triple d0 accountID q :
  tx_triple (fun tx => tx = d0) (set_payout_tx accountID q)
    (fun tx => charged accountID (q_cost q) (pend d0) (pend tx) /\ tx = with_account (account tx) d0).
Proof.
  unfold set_payout_tx.
  apply (tx_then _ (fun tx => tx = d0 /\ exists a, pend d0 !! accountID = Some a /\ q_cost q <= a)).
  { apply tx_exec. intros tx tx' -> E. unfold enough_funds in E.
    destruct (account d0 !! accountID) as [r|] eqn:Er; [|done].
    destruct (q_cost q <=? a_pending r) eqn:Ec; [|done]. injection E as <-. zbool.
    split; [done|]. exists (a_pending r). by split; [apply pend_lookup|]. }
  apply (tx_then _ (fun tx => exists a, pend d0 !! accountID = Some a /\ q_cost q <= a /\
    pend tx = <[accountID := a - q_cost q]> (pend d0) /\ tx = with_account (account tx) d0)).
  { apply tx_exec. intros tx tx' (-> & a & Ha & Hc) E. apply set_payout_spec in E as [Ep Et].
    rewrite Ha in Ep. exists a. done. }
  apply tx_exec. intros tx tx' (a & Ha & Hc & Ep & Et) E. apply add_pending_spec in E as [Ep' Et'].
  split; [|by rewrite Et', Et]. exists a. split_and!; [done|done|]. simpl. by rewrite Ep', Ep.
Qed.

(** What a message asks for, up to the time at which it is read. *)
Definition asks_for (msg : string) (q : payout_request) : Prop :=
  (msg = "weekly" /\ exists t, q = mk_request None (Some "weekly") (Some (t + 7 * day)) (SetWeeklyFee Cfg)) \/
  (msg = "daily" /\ exists t, q = mk_request None (Some "daily") (Some (t + day)) (SetDailyFee Cfg)) \/
  (msg = "now" /\ exists t, q = mk_request None (Some "now") (Some t) (SetNowFee Cfg)) \/
  (msg <> "weekly" /\ msg <> "daily" /\ msg <> "now" /\
   exists z, (ParseInt (bytes msg) = Ok z \/ (forall x, ParseInt (bytes msg) <> Ok x) /\
                exists f, ParseFloat (bytes msg) = Ok f /\ z = to_int64 f) /\
     q = mk_request (if z =? 0 then None else Some z) None None (SetMinPayoutFee Cfg)).

Lemma parse_request_asks msg w q w' : parse_request msg w = (Some (Some q), w') -> asks_for msg q.
Proof.
  unfold parse_request, asks_for.
  case_bool_decide; [rewrite now_bind; intros [= <- _]; left; split; [done|by eexists]|].
  case_bool_decide; [rewrite now_bind; intros [= <- _]; right; left; split; [done|by eexists]|].
  case_bool_decide; [rewrite now_bind; intros [= <- _]; do 2 right; left; split; [done|by eexists]|].
  cbv zeta. destruct (ParseInt (bytes msg)) as [z|e].
  - intros [= <- _]. do 3 right. split_and!; [done..|]. exists z. split; [by left|done].
  - destruct (ParseFloat (bytes msg)) as [f|e']; [|done]. intros [= <- _]. do 3 right. split_and!; [done..|].
    exists (to_int64 f). split; [right; split; [done|by exists f]|done].
Qed.

(** One message takes effect: the account can pay its cost, pays it, the fee
    account receives it, and the account has the settings asked for. *)
Record message_charged (id : Z) (q : payout_request) (d d' : DB) : Prop := {
  mc_funds : exists r, account d !! id = Some r /\ q_cost q <= a_pending r;
  mc_others : d' = with_account (account d') d;
  mc_none : forall k, account d !! k = None -> account d' !! k = None;
  mc_rows : forall k r, account d !! k = Some r -> exists r', account d' !! k = Some r' /\
    a_pending r' = a_pending r - (if k =? id then q_cost q else 0) + (if k =? FeeAccountID Cfg then q_cost q else 0) /\
    a_address r' = a_address r /\ a_name r' = a_name r /\
    (a_min_payout_value r', a_payout_interval r', a_next_payout_date r') =
      (if k =? id then (q_minPayoutValue q, q_payoutInterval q, datetime <$> q_nextPayoutDate q)
       else (a_min_payout_value r, a_payout_interval r, a_next_payout_date r))
}.

Lemma add_pending_rows z id d d' :
  add_pending z id d = Ok d' ->
  d' = with_account (account d') d /\
  forall k, account d' !! k = (if k =? id then add_to_pending z else fun r => r) <$> account d !! k.
Proof.
  unfold add_pending. destruct (account d !! id) as [r|] eqn:E.
  - case_bool_decide; [|done]. intros [= <-]. split; [done|]. intros k. simpl.
    destruct (Z.eqb_spec k id) as [->|]; [by rewrite lookup_insert_eq, E|].
    rewrite lookup_insert_ne by done. by destruct (account d !! k).
  - intros [= <-]. split; [by destruct d|]. intros k. destruct (Z.eqb_spec k id) as [->|]; [by rewrite E|].
    by destruct (account d !! k).
Qed.

Lemma set_payout_rows v i n cost id d d' :
  set_payout v i n cost id d = Ok d' ->
  d' = with_account (account d') d /\
  forall k, account d' !! k =
    (fun r => if k =? id then mk_account (a_address r) (a_name r) (a_pending r - cost) v i (datetime <$> n) else r)
      <$> account d !! k.
Proof.
  unfold set_payout. destruct (account d !! id) as [r|] eqn:E.
  - case_bool_decide; [|done]. intros [= <-]. split; [done|]. intros k. simpl.
    destruct (Z.eqb_spec k id) as [->|]; [by rewrite lookup_insert_eq, E|].
    rewrite lookup_insert_ne by done. by destruct (account d !! k).
  - intros [= <-]. split; [by destruct d|]. intros k. destruct (Z.eqb_spec k id) as [->|]; [by rewrite E|].
    by destruct (account d !! k).
Qed.

Lemma set_payout_tx_charged d0 id q :
  tx_triple (fun tx => tx = d0) (set_payout_tx id q) (message_charged id q d0).
Proof.
  unfold set_payout_tx.
  apply (tx_then _ (fun tx => tx = d0 /\ exists r, account d0 !! id = Some r /\ q_cost q <= a_pending r)).
  { apply tx_exec. intros tx tx' -> E. unfold enough_funds in E.
    destruct (account d0 !! id) as [r|] eqn:Er; [|done].
    destruct (q_cost q <=? a_pending r) eqn:Ec; [|done]. injection E as <-. zbool. split; [done|by exists r]. }
  apply (tx_then _ (fun tx => (exists r, account d0 !! id = Some r /\ q_cost q <= a_pending r) /\
    set_payout (q_minPayoutValue q) (q_payoutInterval q) (q_nextPayoutDate q) (q_cost q) id d0 = Ok tx)).
  { apply tx_exec. intros tx tx' [-> Hr] E. done. }
  apply tx_exec. intros tx tx' [Hr E1] E2. apply set_payout_rows in E1 as [E1 H1].
  apply add_pending_rows in E2 as [E2 H2]. split; [done|by rewrite E2, E1|..].
  - intros k Hk. by rewrite H2, H1, Hk.
  - intros k r Hk. rewrite H2, H1, Hk. simpl. eexists. split; [done|].
    destruct (k =? id), (k =? FeeAccountID Cfg); simpl; split_and!; try done; lia.
Qed.

Lemma tx_both {A} (P : DB -> Prop) (c : DB -> M (result sql_error A)) (Q1 Q2 : A -> Prop) :
  tx_triple P c Q1 -> tx_triple P c Q2 -> tx_triple P c (fun a => Q1 a /\ Q2 a).
Proof.
  intros H1 H2 tx w HP. destruct (H1 tx w HP) as (r & E & F & HQ), (H2 tx w HP) as (r2 & E2 & _ & HQ2).
  rewrite E in E2. injection E2 as <-. exists r. split_and!; [done|done|]. by destruct r.
Qed.

(** What a message may do to the database: nothing, or charge the account. *)
Definition message_effect (id : Z) (msg : string) (w w' : World) : Prop :=
  sent w' = sent w /\
  (db w' = db w \/ exists q, asks_for msg q /\ message_charged id q (db w) (db w') /\
                            charged id (q_cost q) (pend (db w)) (pend (db w'))).

Lemma only_ticks_effect id msg w w' : only_ticks w w' -> message_effect id msg w w'.
Proof. intros (Hd & _ & _ & Hs). split; [done|by left]. Qed.

Lemma parse_request_ticks msg : preserves only_ticks (parse_request msg).
Proof.
  intros w. unfold parse_request.
  repeat case_bool_decide; [done..|]. by destruct (match ParseInt (bytes msg) with Ok z => _ | _ => _ end).
Qed.

Lemma old_message_ticks id q : preserves only_ticks (old_message id q).
Proof.
  intros w. unfold old_message, Select, step, get, mbind, M_bind.
  destruct (q_payoutInterval q), (q_minPayoutValue q); simpl; try done;
    destruct (db_fault (tick w)); done.
Qed.

Lemma charge_cached_db id q w : db (charge_cached id q w).2 = db w /\ sent (charge_cached id q w).2 = sent w.
Proof.
  unfold charge_cached, update_miner, miner_at, set_miner, get, modify, mbind, M_bind. simpl.
  destruct (GetMiner id (Cache w)) as [a|]; simpl; [|done].
  by destruct (objects w !! a); simpl.
Qed.

Lemma Commit_db tx w :
  let w' := (Commit tx w).2 in
  (Commit tx w).1 <> None /\ sent w' = sent w /\ (db w' = tx \/ db w' = db w).
Proof.
  unfold Commit, step, modify, mbind, M_bind, mret, M_ret. simpl.
  destruct (db_fault (tick w)); simpl; split_and!; try done; (by left) || (by right).
Qed.

Lemma process_message_effect id msg w : message_effect id msg w (process_message id msg w).2.
Proof.
  unfold process_message. unfold mbind at 1, M_bind at 1.
  pose proof (parse_request_ticks msg w) as H1.
  destruct (parse_request msg w) as [[[q|]|] w1] eqn:Eq; simpl in H1; [|(by apply only_ticks_effect)..].
  apply parse_request_asks in Eq.
  unfold mbind at 1, M_bind at 1. pose proof (old_message_ticks id q w1) as H2.
  destruct (old_message id q w1) as [[[]|] w2]; simpl in H2;
    [by apply only_ticks_effect; etrans| |by apply only_ticks_effect; etrans].
  assert (H12 : only_ticks w w2) by by etrans. clear H1 H2 w1.
  unfold mbind at 1, M_bind at 1.
  unfold and_then at 1, Begin, Select, mbind, M_bind, step, get, mret, M_ret. simpl.
  destruct (db_fault (tick w2)); simpl; [by apply only_ticks_effect|].
  destruct (tx_both _ _ _ _ (set_payout_tx_charged (db w2) id q) (set_payout_tx_triple (db w2) id q)
    (db w2) (set_tick (S (tick w2)) w2) eq_refl) as (r & E & F & HQ).
  destruct (set_payout_tx id q (db w2) _) as [o w3]. simpl in *. subst o.
  destruct H12 as (Hd & Hc & Ho & Hs), F as (Fd & Fc & Fo & Fs). simpl in *.
  destruct r as [tx|e]; simpl; [|split; [congruence|left; congruence]].
  destruct HQ as [Hmc [Hch _]]. pose proof (Commit_db tx w3) as (HC & HCs & HCd).
  destruct (Commit tx w3) as [[r|] w4]; simpl in *; [|done].
  destruct (charge_cached_db id q w4) as [Ed Es]. unfold message_effect. rewrite Ed, Es.
  split; [congruence|].
  destruct HCd as [->| ->]; [right|left; congruence].
  exists q. rewrite <- Hd. done.
Qed.

(** The relation the theorem states; the fee account takes the costs. *)
Definition moves_money (w w' : World) : Prop :=
  is_Some (account (db w) !! FeeAccountID Cfg) ->
  is_Some (account (db w') !! FeeAccountID Cfg) /\ total_pending (db w') = total_pending (db w) /\
  transaction_recipient (db w') = transaction_recipient (db w) /\ transaction (db w') = transaction (db w) /\
  (forall id, is_Some (account (db w) !! id) -> is_Some (account (db w') !! id)) /\ sent w' = sent w.

#[export] Instance moves_money_preorder : PreOrder moves_money.
Proof.
  split; [intros w Hf; by split_and!|]. intros w1 w2 w3 H12 H23 Hf.
  destruct (H12 Hf) as (Hf2 & ? & ? & ? & H5 & ?). destruct (H23 Hf2) as (? & ? & ? & ? & H5' & ?).
  split_and!; try done; try congruence. intros id Hid. by apply H5', H5.
Qed.

Lemma is_Some_pend d id : is_Some (pend d !! id) <-> is_Some (account d !! id).
Proof. unfold pend. by rewrite lookup_fmap, fmap_is_Some. Qed.

Lemma charged_moves id cost (p p' : gmap Z Z) :
  charged id cost p p' -> is_Some (p !! FeeAccountID Cfg) ->
  sum_values (fun x => x) p' = sum_values (fun x => x) p /\ forall k, is_Some (p !! k) -> is_Some (p' !! k).
Proof.
  intros (a & Ha & _ & ->) [f Hf]. set (p1 := <[id := a - cost]> p). simpl.
  assert (E1 : sum_values (fun x => x) p1 = sum_values (fun x => x) p - cost).
  { unfold p1. rewrite (sum_update (fun x => x) p id a) by done. lia. }
  destruct (p1 !! FeeAccountID Cfg) as [f'|] eqn:Ef.
  - rewrite (sum_update (fun x => x) p1 _ f') by done. split; [lia|]. intros k Hk.
    destruct (decide (FeeAccountID Cfg = k)) as [->|]; [by rewrite lookup_insert_eq|].
    rewrite lookup_insert_ne by done. unfold p1.
    destruct (decide (id = k)) as [->|]; [by rewrite lookup_insert_eq|by rewrite lookup_insert_ne].
  - exfalso. unfold p1 in Ef. apply lookup_insert_None in Ef as [Ef _]. congruence.
Qed.

Lemma message_effect_moves id msg w w' : message_effect id msg w w' -> moves_money w w'.
Proof.
  intros [Hs [Hd|(q & _ & Hm & Hc)]] Hf; [by rewrite Hd|]. pose proof (mc_others _ _ _ _ Hm) as Hd.
  destruct (charged_moves _ _ _ _ Hc (proj2 (is_Some_pend _ _) Hf)) as [E Hk].
  assert (Hk' : forall k, is_Some (account (db w) !! k) -> is_Some (account (db w') !! k)).
  { intros k. rewrite <- !is_Some_pend. apply Hk. }
  split_and!; [by apply Hk'| | | |done|done].
  - rewrite !total_pend. exact E.
  - by rewrite Hd.
  - by rewrite Hd.
Qed.

(** The messages of the accounts [ids] take effect, one after the other. *)
Inductive messages_charged (msgOf : gmap Z string) : list Z -> DB -> DB -> Prop :=
| no_charge d : messages_charged msgOf [] d d
| next_charge id ids msg q d d1 d2 :
    msgOf !! id = Some msg -> asks_for msg q -> message_charged id q d d1 ->
    messages_charged msgOf ids d1 d2 -> messages_charged msgOf (id :: ids) d d2.

Lemma message_loop msgOf ids w (body := fun id =>
    match msgOf !! id with Some msg => process_message id msg | None => mret tt end) :
  moves_money w (for_each ids body w).2 /\ sent (for_each ids body w).2 = sent w /\
  exists paying, paying `sublist_of` ids /\ messages_charged msgOf paying (db w) (db (for_each ids body w).2).
Proof.
  revert w. induction ids as [|id ids IH]; intros w; [split_and!; [done|done|]; exists []; split; [done|constructor]|].
  cbn [for_each]. unfold mbind, M_bind.
  assert (H1 : moves_money w (body id w).2 /\ sent (body id w).2 = sent w /\ (db (body id w).2 = db w \/ exists msg q, msgOf !! id = Some msg /\
            asks_for msg q /\ message_charged id q (db w) (db (body id w).2))).
  { unfold body. destruct (msgOf !! id) as [msg|]; [|by split_and!; [..|left]].
    pose proof (process_message_effect id msg w) as He. split; [by eapply message_effect_moves|].
    destruct He as [Hs [?|(q & ? & ? & _)]]; (split; [done|]); [by left|right; by exists msg, q]. }
  destruct (body id w) as [o w1]. simpl in H1. destruct H1 as (Hm1 & Hs1 & Hc1).
  assert (H2 : moves_money w1 (match o with Some _ => for_each ids body w1 | None => (None, w1) end).2 /\
    sent (match o with Some _ => for_each ids body w1 | None => (None, w1) end).2 = sent w1 /\
    exists paying, paying `sublist_of` ids /\
      messages_charged msgOf paying (db w1) (db (match o with Some _ => for_each ids body w1 | None => (None, w1) end).2)).
  { destruct o; [apply IH|]. split_and!; [reflexivity|done|]. exists []. split; [apply sublist_nil_l|constructor]. }
  destruct H2 as (Hm2 & Hs2 & paying & Hsub & Hc2). split_and!; [by etrans|congruence|]. destruct Hc1 as [<-|(msg & q & Hmsg & Hq & Hc)].
  - exists paying. split; [by apply sublist_cons|done].
  - exists (id :: paying). split; [by apply sublist_skip|]. by eapply next_charge.
Qed.

(** C5: processing any set of messages, in any order and with any failures of
    the database, charges some of the accounts, each at most once and for its
    own message: the account had at least the cost of its request pending, it
    pays it, the fee account receives it, and the account has the settings it
    asked for; nothing else of any row of any table changes, and no payment is
    sent.  So the sum of the pending amounts stays, if the fee account has a
    row. *)
Theorem SetMinPayout_moves_money (msgOf : gmap Z string) (w : World) :
  let w' := (SetMinPayout msgOf w).2 in
  sent w' = sent w /\
  (exists paying, NoDup paying /\ messages_charged msgOf paying (db w) (db w')) /\
  (is_Some (account (db w) !! FeeAccountID Cfg) ->
   total_pending (db w') = total_pending (db w) /\
   transaction_recipient (db w') = transaction_recipient (db w) /\ transaction (db w') = transaction (db w) /\
   forall id, is_Some (account (db w) !! id) -> is_Some (account (db w') !! id)).
Proof.
  cbv zeta. unfold SetMinPayout. rewrite range_keys_bind. set (ids := order _ _).
  destruct (message_loop msgOf ids (set_tick (S (tick w)) w)) as (Hm & Hs & paying & Hsub & Hc).
  split_and!; [exact Hs| |].
  - exists paying. split; [|exact Hc]. eapply sublist_NoDup; [|exact Hsub]. unfold ids. rewrite order_perm. apply NoDup_elements.
  - intros Hf. by destruct (Hm Hf) as (_ & ? & ? & ? & ? & ?).
Qed.
End Proofs.

Lemma SetMinPayout_moves_money_witness :
  total_pending (db (@SetMinPayout example_env {[1 := "weekly"; 2 := "abc"; 3 := "12345"]} example_world).2)
  = 500050000000.
Proof.
  refine (eq_trans (proj1 (proj2 (proj2 (@SetMinPayout_moves_money example_env {[1 := "weekly"; 2 := "abc"; 3 := "12345"]}
    example_world)) _)) _); [eexists; vm_compute; reflexivity|vm_compute; reflexivity].
Defined.

(** ** [sendMoney] *)

Definition unsent (d : DB) : gset Z := dom (select_unsent d).

(** The calls of the wallet that it accepted. *)
Definition accepted (l : list payment) : list payment := filter (fun p => is_Some (paid_result p)) l.

Lemma elem_of_unsent d k :
  k ∈ unsent d <-> exists r, transaction d !! k = Some r /\ t_block_height r = None /\ t_transaction_id r = None.
Proof.
  unfold unsent, select_unsent. rewrite elem_of_dom. unfold is_Some.
  setoid_rewrite map_lookup_filter_Some. simpl.
  setoid_rewrite andb_true_iff. setoid_rewrite bool_decide_eq_true. naive_solver.
Qed.

(** The recipient rows of a transaction. *)
Definition recipients_of (d : DB) (k : Z) : list recipient_row := (map_to_list (select_recipients k d)).*2.

(** A payment to all recipients of the transaction [k] (if no recipient has
    two rows of it), for which the wallet gave the id [t]. *)
Definition pays (d : DB) (kt : Z * Z) (p : payment) : Prop :=
  paid_result p = Some kt.2 /\
  (NoDup (r_recipient <$> recipients_of d kt.1) ->
   paid_to p ≡ₚ (fun r => (r_recipient r, r_amount r)) <$> recipients_of d kt.1).

(** [transaction_id] is set, with a new date, and nothing else changed. *)
Definition marked_as (kt : Z * Z) (d d' : DB) : Prop :=
  d' = with_tx (transaction d') (next_tx d) d /\
  (forall r, transaction d !! kt.1 = Some r ->
     exists c, transaction d' !! kt.1 = Some (mk_tx (Some kt.2) (t_block_height r) c)) /\
  forall k, k <> kt.1 -> transaction d' !! k = transaction d !! k.

Definition all_marked (kts : list (Z * Z)) (d d' : DB) : Prop :=
  d' = with_tx (transaction d') (next_tx d) d /\
  (forall k t r, (k, t) ∈ kts -> transaction d !! k = Some r ->
     exists c, transaction d' !! k = Some (mk_tx (Some t) (t_block_height r) c)) /\
  forall k, k ∉ kts.*1 -> transaction d' !! k = transaction d !! k.

Lemma set_tx_id_marks txID t id d : exists d', set_tx_id txID t id d = Ok d' /\ marked_as (id, txID) d d'.
Proof.
  eexists. split; [done|]. split_and!; [done|..]; simpl.
  - intros r Hr. rewrite lookup_alter, decide_True by done. rewrite Hr. by eexists.
  - intros k Hk. by rewrite lookup_alter_ne.
Qed.

Lemma all_marked_cons kt kts d d1 d2 :
  kt.1 ∉ kts.*1 -> marked_as kt d d1 -> all_marked kts d1 d2 -> all_marked (kt :: kts) d d2.
Proof.
  intros Hk (E1 & H1 & O1) (E2 & H2 & O2). split_and!.
  - by rewrite E2, E1.
  - intros k t r [<-|Hin]%elem_of_cons Hr; simpl in *.
    + rewrite O2 by done. by apply H1.
    + eapply H2; [done|]. rewrite O1; [done|]. intros ->. apply Hk, list_elem_of_fmap. by exists (kt.1, t).
  - intros k [Hne Hk']%not_elem_of_cons. by rewrite O2, O1.
Qed.

(** [idToAmount] holds every recipient with its amount. *)
Lemma amounts_of_entries rows ids :
  NoDup (r_recipient <$> rows) -> ids ≡ₚ elements (dom (amounts_of rows)) ->
  omap (fun id => (fun a => (id, a)) <$> amounts_of rows !! id) ids ≡ₚ
  (fun r => (r_recipient r, r_amount r)) <$> rows.
Proof.
  intros Hnd Hids.
  assert (Hm : amounts_of rows = list_to_map ((fun r => (r_recipient r, r_amount r)) <$> rows)).
  { clear Hids. unfold amounts_of. induction rows as [|r rows IH] using rev_ind; [done|].
    rewrite fmap_app in Hnd. apply NoDup_app in Hnd as (Hnd & Hout & _).
    rewrite foldl_app, fmap_app, list_to_map_app. simpl. rewrite (IH Hnd).
    rewrite insert_empty. apply insert_union_singleton_r, not_elem_of_list_to_map. rewrite <- list_fmap_compose.
    intros Hin. by apply (Hout _ Hin), list_elem_of_here. }
  assert (Hnd' : NoDup ((fun r => (r_recipient r, r_amount r)) <$> rows).*1) by (by rewrite <- list_fmap_compose).
  etrans; [|by apply (map_to_list_to_map (M := gmap Z))]. rewrite <- Hm. clear Hm Hnd Hnd'.
  generalize dependent (amounts_of rows). intros m Hids.
  apply NoDup_Permutation.
  - apply (NoDup_fmap_1 fst). assert (Hn : NoDup ids) by (rewrite Hids; apply NoDup_elements). clear Hids.
    induction ids as [|k l IH]; simpl; [constructor|]. apply NoDup_cons in Hn as [Hk Hn].
    destruct (m !! k) as [z|]; simpl; [|by apply IH]. constructor; [|by apply IH].
    intros ([k' z'] & E & Hin)%list_elem_of_fmap. simpl in E. subst k'. apply Hk.
    apply list_elem_of_omap in Hin as (k2 & Hk2 & E). destruct (m !! k2); simplify_eq/=. done.
  - apply NoDup_map_to_list.
  - intros [k z]. rewrite elem_of_map_to_list, list_elem_of_omap. split.
    + intros (k2 & _ & E). destruct (m !! k2) eqn:E2; simplify_eq/=. done.
    + intros Hk. exists k. rewrite Hk, Hids, elem_of_elements, elem_of_dom. split; [by eexists|done].
Qed.

#[local] Arguments set_tx_id : simpl never.

Section Send.
Context `{Env}.

(** One call of the wallet, for exactly these recipients. *)
Lemma send_recipients_effect rows w :
  exists o w' l, send_recipients rows w = (o, w') /\ db w' = db w /\ sent w' = sent w ++ l /\
    match o with
    | Some (Ok t) => exists p, accepted l = [p] /\ paid_result p = Some t /\
        (NoDup (r_recipient <$> rows) -> paid_to p ≡ₚ (fun r => (r_recipient r, r_amount r)) <$> rows)
    | _ => accepted l = []
    end.
Proof.
  unfold send_recipients.
  assert (Hmulti : forall w, exists o w' l,
    (let idToAmount := amounts_of rows in
      ids ← range_keys (elements (dom idToAmount));
      let entries := omap (fun id => (fun a => (id, a)) <$> idToAmount !! id) ids in
      out ← call (fun n => SendPayments n entries);
      match out with
      | Panic => panic
      | Return t => log_payment (mk_payment entries (Some t)) ;; mret (Ok t)
      | Fail_with e => log_payment (mk_payment entries None) ;; mret (Err e)
      end) w = (o, w') /\ db w' = db w /\ sent w' = sent w ++ l /\
    match o with
    | Some (Ok t) => exists p, accepted l = [p] /\ paid_result p = Some t /\
        (NoDup (r_recipient <$> rows) -> paid_to p ≡ₚ (fun r => (r_recipient r, r_amount r)) <$> rows)
    | _ => accepted l = []
    end).
  { intros w1. simpl. unfold range_keys, call, step, mbind, M_bind. simpl.
    destruct (SendPayments _ _) as [t|e|]; simpl.
    - eexists _, _, [_]. split_and!; [done..|]. eexists. split_and!; [done|done|]. intros Hnd.
      apply amounts_of_entries; [done|apply order_perm].
    - by eexists _, _, [_].
    - eexists _, _, []. by rewrite app_nil_r. }
  destruct rows as [|r [|r' rows]]; [apply Hmulti| |apply Hmulti]. clear Hmulti.
  unfold call, step, log_payment, modify, mbind, M_bind. simpl.
  destruct (SendPayment _ _ _); eexists _, _, [_]; split_and!; [done|done|done| |done..]. by eexists.
Qed.

(** One transaction: the wallet does not accept it and nothing is marked, or
    it accepts it once, and either the transaction is marked or the pool
    panics. *)
Lemma send_tx_effect tx w :
  exists o w' l, send_tx tx w = (o, w') /\ sent w' = sent w ++ l /\
    ((db w' = db w /\ accepted l = []) \/
     (exists p t, accepted l = [p] /\ pays (db w) (tx, t) p /\
        ((o <> None /\ marked_as (tx, t) (db w) (db w')) \/ (o = None /\ db w' = db w)))).
Proof.
  unfold send_tx, Select, step, get, mbind, M_bind. simpl.
  destruct (db_fault (tick w)); simpl; [eexists _, _, []; rewrite app_nil_r; split_and!; [done..|by left]|].
  unfold range_keys, step, mbind, M_bind. simpl.
  match goal with |- context [send_recipients (omap _ ?ks) ?w1] => set (keys := ks); set (w1' := w1) end.
  set (rows := select_recipients tx (db w)).
  assert (Hrows : omap (fun k => rows !! k) keys ≡ₚ recipients_of (db w) tx).
  { unfold recipients_of. fold rows. unfold keys. rewrite order_perm.
    transitivity (omap (fun k => rows !! k) (map_to_list rows).*1).
    - apply omap_Permutation, NoDup_Permutation; [apply NoDup_elements|apply NoDup_fst_map_to_list|].
      intros k. rewrite elem_of_elements, elem_of_dom, list_elem_of_fmap. split.
      + intros [r Hr]. exists (k, r). by rewrite elem_of_map_to_list.
      + intros ([k' r] & -> & Hr). apply elem_of_map_to_list in Hr. by eexists.
    - assert (Hl : forall l, (forall k r, (k, r) ∈ l -> rows !! k = Some r) -> omap (fun k => rows !! k) l.*1 = l.*2).
      { induction l as [|[k r] l IH]; intros Hl; simpl; [done|].
        rewrite (Hl k r) by apply list_elem_of_here. f_equal. apply IH. intros k' r' Hin. by apply Hl, list_elem_of_further. }
      rewrite Hl; [done|]. intros k r. by rewrite elem_of_map_to_list. }
  destruct (send_recipients_effect (omap (fun k => rows !! k) keys) w1') as (o & w2 & l & -> & Hd & Hs & Hl).
  simpl in Hd, Hs. destruct o as [[t|e]|].
  - destruct Hl as (p & Hacc & Hres & Hto).
    assert (Hpays : pays (db w) (tx, t) p).
    { split; [done|]. simpl. intros Hnd. rewrite <- Hrows. apply Hto. by rewrite Hrows. }
    unfold mbind, M_bind. cbn beta iota. rewrite ?now_run, MustExec_run. cbn [tick set_tick db].
    destruct (db_fault (S (tick w2))).
    + eexists _, _, l. split_and!; [done|done|right]. exists p, t. split_and!; [done|done|right]. by simpl.
    + rewrite Hd. destruct (set_tx_id_marks t (clock (tick w2)) tx (db w)) as (d' & -> & Hm).
      eexists _, _, l. split_and!; [done|done|right]. exists p, t. split_and!; [done|done|left]. by simpl.
  - eexists _, _, l. split_and!; [done|done|left]. by simpl.
  - eexists _, _, l. split_and!; [done|done|left]. by simpl.
Qed.

(** What a run of the loop pays and marks. *)
Record sends (ids : list Z) (w w' : World) (o : option unit) (paid marked : list (Z * Z)) (l : list payment) : Prop := {
  sd_sent : sent w' = sent w ++ l;
  sd_paid : Forall2 (pays (db w)) paid (accepted l);
  sd_tried : paid.*1 `sublist_of` ids;
  sd_marked : all_marked marked (db w) (db w');
  sd_all : paid = marked \/ (o = None /\ exists kt, paid = marked ++ [kt])
}.

Lemma all_marked_nil d : all_marked [] d d.
Proof. split_and!; [by destruct d|by intros k t r Hin%elem_of_nil|done]. Qed.

Lemma accepted_app l1 l2 : accepted (l1 ++ l2) = accepted l1 ++ accepted l2.
Proof. apply filter_app. Qed.

Lemma pays_others d d' kt p : transaction_recipient d' = transaction_recipient d -> pays d' kt p -> pays d kt p.
Proof. unfold pays, recipients_of, select_recipients. by intros ->. Qed.

Lemma send_loop ids w :
  NoDup ids -> exists o w' paid marked l, for_each ids send_tx w = (o, w') /\ sends ids w w' o paid marked l.
Proof.
  intros Hnd. revert w. induction Hnd as [|id ids Hid _ IH]; intros w; simpl.
  { eexists _, _, [], [], []. split; [done|]. split; [by rewrite app_nil_r|constructor|done|apply all_marked_nil|by left]. }
  destruct (send_tx_effect id w) as (o & w1 & l1 & E & Hs & Heff). unfold mbind, M_bind. rewrite E. destruct o as [[]|].
  - destruct (IH w1) as (o2 & w2 & paid & marked & l2 & E2 & [S1 S2 S3 S4 S5]). rewrite E2. exists o2, w2.
    destruct Heff as [[Hd Hl]|(p & t & Hl & Hp & [[_ Hm]|[? _]])]; [| |done].
    + exists paid, marked, (l1 ++ l2). split; [done|]. rewrite Hd in S2, S4. split; [by rewrite S1, Hs, <- app_assoc| | | |done].
      * rewrite accepted_app, Hl. done.
      * by apply sublist_cons.
      * done.
    + exists ((id, t) :: paid), ((id, t) :: marked), (l1 ++ l2). split; [done|].
      assert (Hsame : transaction_recipient (db w1) = transaction_recipient (db w)) by (destruct Hm as [-> _]; done).
      split; [by rewrite S1, Hs, <- app_assoc| | | |].
      * rewrite accepted_app, Hl. simpl. constructor; [done|]. eapply Forall2_impl; [exact S2|]. intros. by eapply pays_others.
      * simpl. by apply sublist_skip.
      * eapply all_marked_cons; [|exact Hm|exact S4]. simpl. intros Hin. apply Hid.
        eapply elem_of_sublist; [|exact S3]. destruct S5 as [->|(_ & kt & ->)]; [done|]. rewrite fmap_app. set_solver.
      * destruct S5 as [->|(Ho & kt & ->)]; [by left|right]. split; [done|by exists kt].
  - destruct Heff as [[Hd Hl]|(p & t & Hl & Hp & [[? _]|[_ Hd]])]; [|done|].
    + exists None, w1, [], [], l1. split; [done|].
      split; [done|rewrite Hl; constructor|apply sublist_nil_l|rewrite Hd; apply all_marked_nil|by left].
    + exists None, w1, [(id, t)], [], l1. split; [done|].
      split; [done|rewrite Hl; constructor; [exact Hp|constructor]|simpl; apply sublist_skip, sublist_nil_l|rewrite Hd; apply all_marked_nil|].
      right. split; [done|by exists (id, t)].
Qed.

(** C6: [sendMoney] pays transactions that are unsent, each at most once, and
    marks exactly what it pays: every payment the wallet accepts is for the
    recipients of one of these transactions, each with its amount, and the
    transaction is marked with the id the wallet gave for it; no other
    transaction and no other table changes.  Only if the pool panics, because
    the update of the last one fails, is one that was paid not marked. *)
Theorem sendMoney_marks_what_it_sends (w : World) :
  exists o w' (paid marked : list (Z * Z)) l, sendMoney w = (o, w') /\ sent w' = sent w ++ l /\
    NoDup paid.*1 /\ (forall k, k ∈ paid.*1 -> k ∈ unsent (db w)) /\
    Forall2 (pays (db w)) paid (accepted l) /\
    all_marked marked (db w) (db w') /\
    (paid = marked \/ (o = None /\ exists kt, paid = marked ++ [kt])).
Proof.
  unfold sendMoney, Select, step, get, mbind, M_bind. simpl. destruct (db_fault (tick w)); simpl.
  { eexists _, _, [], [], []. split; [done|]. rewrite app_nil_r.
    split_and!; [done|constructor|by intros k Hk%elem_of_nil|constructor|apply all_marked_nil|by left]. }
  unfold range_keys, step, mbind, M_bind. simpl.
  match goal with |- context [for_each ?ids send_tx ?w1] =>
    assert (Hnd : NoDup ids) by (rewrite order_perm; apply NoDup_elements);
    assert (Hin : forall k, k ∈ ids -> k ∈ unsent (db w)) by (intros k; by rewrite order_perm, elem_of_elements);
    destruct (send_loop ids w1 Hnd) as (o & w2 & paid & marked & l & -> & [S1 S2 S3 S4 S5]) end.
  exists o, w2, paid, marked, l. split_and!; [done|exact S1| | |exact S2|exact S4|exact S5].
  - by eapply sublist_NoDup.
  - intros k Hk. apply Hin. by eapply elem_of_sublist.
Qed.
End Send.

(** A wallet that accepts every payment, and three transactions: for one
    recipient, for two, and one that was sent before. *)
Definition paying_wallet : WalletHandler := {|
  GetMiningInfo _ := Err "no wallet";
  GetBlockInfo _ _ := Err "no wallet";
  SubmitNonce _ _ _ _ := Err "no wallet";
  SendPayment _ id _ := Ok (1000 + id);
  SendPayments _ entries := Return (2000 + Z.of_nat (length entries));
  GetAccountInfo _ _ := Err "no wallet";
  WonBlock _ _ _ _ := Err "no wallet";
  GetGenerationTime _ _ := Err "no wallet";
  GetIncomingMsgsSince _ _ := Err "no wallet";
  GetRewardRecipients _ := Err "no wallet";
  GetTransaction _ _ := (Err "no wallet", false)
|}.

Definition unsent_world : World :=
  start_world test_cfg
    (with_recipient {[1 := mk_recipient 1 7 100; 2 := mk_recipient 2 7 200; 3 := mk_recipient 2 8 300; 4 := mk_recipient 3 9 400]} 5
      (with_tx {[1 := mk_tx None None 0; 2 := mk_tx None None 0; 3 := mk_tx (Some 5) None 0]} 4 empty_DB)).

Lemma sendMoney_marks_what_it_sends_witness :
  exists w' l, @sendMoney (calm test_cfg paying_wallet 0) unsent_world = (Some tt, w') /\ sent w' = l /\
    l = [mk_payment [(7, 200); (8, 300)] (Some 2002); mk_payment [(7, 100)] (Some 1007)] /\
    t_transaction_id <$> transaction (db w') !! 1 = Some (Some 1007) /\
    t_transaction_id <$> transaction (db w') !! 2 = Some (Some 2002) /\
    t_transaction_id <$> transaction (db w') !! 3 = Some (Some 5).
Proof.
  destruct (@sendMoney_marks_what_it_sends (calm test_cfg paying_wallet 0) unsent_world)
    as (o & w' & paid & marked & l & E & Hs & _ & _ & _ & (_ & _ & Ho) & _).
  assert (Ew : w' = (@sendMoney (calm test_cfg paying_wallet 0) unsent_world).2) by (by rewrite E).
  assert (Eo : o = (@sendMoney (calm test_cfg paying_wallet 0) unsent_world).1) by (by rewrite E).
  exists w', l. rewrite E. split; [|split; [exact Hs|]].
  - f_equal. rewrite Eo. vm_compute. exact eq_refl.
  - assert (El : l = sent (@sendMoney (calm test_cfg paying_wallet 0) unsent_world).2) by (rewrite <- Ew; symmetry; exact Hs).
    rewrite El, Ew. vm_compute. split; [exact eq_refl|]. split; [exact eq_refl|]. split; exact eq_refl.
Defined.

(** ** Thresholds *)

Section Thresholds.
Context `{Env}.

Lemma due_nonneg t r :
  (forall v, a_min_payout_value r = Some v -> 0 <= v) -> 0 <= MinimumPayout Cfg -> fees_ok 0 ->
  payout_due t r = true -> 0 <= a_pending r - MinerTxFee Cfg.
Proof.
  intros Hv Hm [[Hf _] _ [_ Hmf]]. unfold payout_due. rewrite i64_small by done.
  destruct (a_min_payout_value r) as [v|]; [specialize (Hv v eq_refl)|];
    destruct (a_next_payout_date r); simpl;
    rewrite ?orb_true_iff, ?andb_true_iff, ?Z.leb_le; intros; lia.
Qed.

(** A threshold that makes the query fail. *)
Lemma select_pending_overflow t d id r v :
  account d !! id = Some r -> a_min_payout_value r = Some v -> ~ is_i64 (v + MinerTxFee Cfg) ->
  select_pending t d = Err Out_of_range.
Proof.
  intros Hr Hv Ho. unfold select_pending.
  assert (existsb (fun p => threshold_overflows p.2) (map_to_list (account d)) = true) as ->; [|done].
  apply existsb_exists. exists (id, r). split; [by apply list_elem_of_In, elem_of_map_to_list|].
  unfold threshold_overflows. simpl. rewrite Hv. simpl. by rewrite bool_decide_eq_false_2.
Qed.

End Thresholds.

(** With thresholds that are not negative, every payment that
    [createTransactions] records has an amount that is not negative.  But a
    miner can set a negative threshold by a message, and is then due with
    nothing pending: a payment with a negative amount is recorded. *)
Theorem payment_amounts (E : Env) :
  (forall w, wf_db (db w) -> wf_pointers w -> fees_ok 0 -> 0 <= MinimumPayout Cfg ->
     (forall id r v, account (db w) !! id = Some r -> a_min_payout_value r = Some v -> 0 <= v) ->
     forall k row, transaction_recipient (db (createTransactions w).2) !! k = Some row ->
       transaction_recipient (db w) !! k = Some row \/ 0 <= r_amount row) /\
  (exists d row,
     let w := start_world test_cfg d in
     let w1 := (@SetMinPayout example_env {[1 := "-1000000000000"]} w).2 in
     let w2 := (@createTransactions example_env w1).2 in
     let w3 := (@createTransactions example_env w2).2 in
     transaction_recipient (db w3) !! 2 = Some row /\ r_recipient row = 1 /\ r_amount row = -10000000).
Proof.
  split.
  - intros w Hwf Hp Hfee Hmin Hv k row.
    destruct (createTransactions_cases w Hwf Hp Hfee)
      as (w' & -> & _ & _ & [[Hd _]|(_ & infos & ids & _ & _ & Hin & _ & _ & [_ [Hrec _] _ _ _ _])]); simpl.
    { rewrite Hd. by left. }
    rewrite Hrec. intros [Hk|(i & info & Hi & -> & Hr)]%add_rows_lookup; [by left|right].
    unfold row_of in Hr. apply fmap_Some in Hr as (t & _ & ->). simpl.
    apply list_elem_of_lookup_2, Hin in Hi as (r & Hr & Hdue & ->). simpl.
    eapply due_nonneg; [|done..]. intros v. by eapply Hv.
  - exists (with_account {[
      6418289488649374107 := mk_account "fee" None 0 None None None;
      1 := mk_account "a" None 500000000 None None None ]} empty_DB), (mk_recipient 2 1 (-10000000)).
    by vm_compute.
Qed.

(** One account whose threshold plus the fee exceeds the integers of
    the server stops the payouts of all accounts: the query of
    [createTransactions] fails each time.  The message [2 ^ 63 - 1] sets such
    a threshold. *)
Theorem threshold_overflow_stops_payouts (E : Env) :
  (forall w id r v, account (db w) !! id = Some r -> a_min_payout_value r = Some v ->
     ~ is_i64 (v + MinerTxFee Cfg) -> db (createTransactions w).2 = db w) /\
  (exists w r v, account (db (@SetMinPayout example_env {[1 := "9223372036854775807"]} w).2) !! 1 = Some r /\
     a_min_payout_value r = Some v /\ ~ is_i64 (v + MinerTxFee test_cfg)).
Proof.
  split.
  - intros w id r v Hr Hv Ho. unfold createTransactions, now, TrySelect, step, get, mbind, M_bind. simpl.
    destruct (db_fault (S (tick w))); [done|]. simpl. by rewrite (select_pending_overflow _ _ _ _ _ Hr Hv Ho).
  - exists example_world, (mk_account "a" None 299600000000 (Some 9223372036854775807) None None), 9223372036854775807.
    split_and!; [by vm_compute|done|by vm_compute; intros [_ ?]].
Qed.

(** A message [now] is processed once only: the interval stays [now]
    after the payout (only the date is cleared), and every later message [now]
    of the account is taken for an old one, unless a query fails. *)
Theorem now_only_once (E : Env) (w : World) (id : Z) (r : account_row) :
  account (db w) !! id = Some r -> a_payout_interval r = Some "now" -> db_fault (S (tick w)) = false ->
  db (process_message id "now" w).2 = db w.
Proof.
  intros Hr Hi Hf. unfold process_message, parse_request. simpl.
  unfold old_message, Select, now, step, get, mbind, M_bind, mret, M_ret. simpl. rewrite Hf. simpl.
  unfold same_request. simpl. rewrite Hr. simpl. by rewrite bool_decide_eq_true_2.
Qed.

Lemma now_only_once_witness :
  let w1 := (@SetMinPayout example_env {[1 := "now"]} example_world).2 in
  let w2 := (@createTransactions example_env w1).2 in
  db (@process_message example_env 1 "now" w2).2 = db w2.
Proof.
  intros w1 w2.
  refine (@now_only_once example_env w2 1 (mk_account "a" None 0 None (Some "now") None) _ _ _);
    vm_compute; reflexivity.
Defined.

(** ** The cached pending amount *)

Definition faulty_env : Env := {|
  Cfg := test_cfg; walletHandler := silent_wallet; clock _ := 0; db_fault n := (n =? 7)%nat; order _ l := l;
  order_perm _ l := Permutation_refl l; CalcScoop h _ := h; time_String _ := ""; datetime_String _ := ""; walletDB := None |}.

(** The miner 1 of [example_db], cached. *)
Definition cached_world : World :=
  set_objects [new_miner 1 "a" "" 300000000000 ""]
    (set_cache (with_miners {[1 := 0%nat]} (Cache example_world)) example_world).

(** The cost of a message is deducted from the cached pending amount even
    when the commit of its transaction failed: the cache then shows less than
    the database holds. *)
Theorem failed_commit_charges_cache :
  let w' := (@SetMinPayout faulty_env {[1 := "weekly"]} cached_world).2 in
  db w' = db cached_world /\ (Pending <$> objects w' !! 0%nat) = Some 299900000000.
Proof. by vm_compute. Qed.
