(* ===== verification/Rewards.v ===== *)
(** * Rewarding won blocks ([pkg/modelx/modelx.go])

    [RewardBlocks] finds the blocks the pool may have won, asks the wallet,
    and [rewardBlock] distributes the reward of a won block: the pool's fee,
    the winner's share, and the rest by the estimated capacities of the
    miners over the last slow blocks. *)

From stdpp Require Import sorting.
From S2P Require Import Prelude GoFloat Config Blocks Shares Miner DB Cache Wallet World Payout.
Open Scope list_scope.
Open Scope Z_scope.
Import GoInt.

(** ** Queries and statements *)

Definition desc (l : list Z) : list Z := merge_sort Z.ge l.
Definition asc (l : list Z) : list Z := merge_sort Z.le l.

(** The heights of the last [n] blocks up to [height] that were slow. *)
Definition recent_slow_blocks (height tmin n : Z) (d : DB) : list Z :=
  take (Z.to_nat n)
    (desc (elements (dom (filter (fun p => (p.1 <=? height) && (tmin <=? b_generation_time p.2) = true) (block d))))).

(** The submissions on the given heights. *)
Definition submissions_on (hs : list Z) (d : DB) : gmap Z ns_row :=
  filter (fun p => ns_height p.2 ∈ hs) (nonce_submission d).

Record EEPSArgs := mk_args { WeightedSum : Z; ConfirmedDeadlines : Z }.

Definition base_target_at (d : DB) (height : Z) : Z :=
  match block d !! height with Some b => b_base_target b | None => 0 end.

(** [SUM(deadline * base_target)] and [COUNT(deadline)] per miner. *)
Definition group_by_miner (d : DB) (rows : gmap Z ns_row) : gmap Z EEPSArgs :=
  map_fold (fun _ r acc =>
    let old := default (mk_args 0 0) (acc !! ns_miner r) in
    <[ns_miner r := mk_args (WeightedSum old + ns_deadline r * base_target_at d (ns_height r))
                            (ConfirmedDeadlines old + 1)]> acc) ∅ rows.

(** The server refuses a product beyond [BIGINT UNSIGNED]. *)
Definition eeps_query (height tmin n : Z) (d : DB) : result sql_error (gmap Z EEPSArgs) :=
  let rows := submissions_on (recent_slow_blocks height tmin n d) d in
  if existsb (fun p => 2 ^ 64 <=? ns_deadline p.2 * base_target_at d (ns_height p.2)) (map_to_list rows)
  then Err Out_of_range
  else Ok (group_by_miner d rows).

(** The submission with the smallest deadline on a height; [keys] is the
    order in which equal deadlines are looked at. *)
Definition best_ns (keys : list Z) (height : Z) (d : DB) : option Z :=
  foldl (fun best k =>
    match nonce_submission d !! k with
    | None => best
    | Some r =>
        if negb (ns_height r =? height) then best
        else match best ≫= fun b => nonce_submission d !! b with
             | Some rb => if ns_deadline r <? ns_deadline rb then Some k else best
             | None => Some k
             end
    end) None keys.

Definition rewardable (maxHeight t : Z) (h : Z) (b : block_row) : bool :=
  negb (b_winner_verified b) && (h <=? maxHeight) && date_le (b_created b) t.

(** The first statement of [RewardBlocks]. *)
Definition update_best_of_rewardable (keys : list Z) (maxHeight t : Z) (d : DB) : result sql_error DB :=
  Ok (with_block (map_imap (fun h b =>
        Some (if rewardable maxHeight t h b then set_best (best_ns keys h d) b else b)) (block d)) d).

(** The second one: blocks without submissions need no reward. *)
Definition verify_empty (maxHeight t : Z) (d : DB) : result sql_error DB :=
  Ok (with_block (map_imap (fun h b =>
        Some (if rewardable maxHeight t h b && bool_decide (b_best b = None) then set_verified b else b)) (block d)) d).

Record BlockWonInfo := mk_won { w_height : Z; w_created : Z; w_nonce : Z; w_miner : Z }.

Definition won_infos (maxHeight t : Z) (d : DB) : list BlockWonInfo :=
  omap (fun h =>
    b ← block d !! h;
    k ← b_best b;
    r ← nonce_submission d !! k;
    if rewardable maxHeight t h b then Some (mk_won h (b_created b) (ns_nonce r) (ns_miner r)) else None)
  (asc (elements (dom (block d)))).

Section Operations.
Context `{Env}.

(** ** [GetEEPSsOnBlock], [GetSharesOnBlock] *)

(** The loop over the rows: capacities, and their sum. *)
Fixpoint eeps_loop (al : list float64) (writeToDb : bool) (rows : list (Z * EEPSArgs))
    (acc : gmap Z float64 * float64) : M (gmap Z float64 * float64) :=
  match rows with
  | [] => mret acc
  | (id, args) :: rows' =>
      let e := eeps al (ConfirmedDeadlines args) (of_Z (WeightedSum args)) in
      (if writeToDb then MustExec (set_capacity (to_int32 (fmul e (of_Z 1000))) id) else mret tt) ;;
      eeps_loop al writeToDb rows' (<[id := e]> acc.1, fadd acc.2 e)
  end.

Definition GetEEPSsOnBlock (height : Z) (writeToDb : bool) : M (result sql_error (gmap Z float64 * float64)) :=
  sel ← TrySelect (eeps_query height (TMin Cfg) (NAVG Cfg));
  match sel with
  | Err e => mret (Err e)
  | Ok args =>
      ids ← range_keys (elements (dom args));
      c ← get Cache;
      acc ← eeps_loop (alphas c) writeToDb (omap (fun id => (fun a => (id, a)) <$> args !! id) ids) (∅, fzero);
      mret (Ok acc)
  end.

Definition shares_of (eepsOf : gmap Z float64) (eepsSum : float64) : gmap Z float64 :=
  if feqb eepsSum fzero then ∅ else (fun e => fdiv e eepsSum) <$> eepsOf.

Definition GetSharesOnBlock (height : Z) : M (result sql_error (gmap Z float64)) :=
  r ← GetEEPSsOnBlock height true;
  mret (match r with Err e => Err e | Ok (eepsOf, eepsSum) => Ok (shares_of eepsOf eepsSum) end).

(** ** [rewardBlock] *)

Definition totalReward (info : BlockReply.t) : Z :=
  i64 (i64 (BlockReply.BlockReward info * 100000000) + BlockReply.TotalFeeNQT info).

Definition poolFee (reward : Z) : Z :=
  if FeeAccountID Cfg =? 0 then 0 else round (fmul (of_Z reward) (PoolFeeShare Cfg)).

(** The amounts by account; a share of the fee account replaces the fee. *)
Definition shareInPlanckOf (info : BlockReply.t) (shareOf : gmap Z float64) : gmap Z Z :=
  let total := totalReward info in
  let fee := poolFee total in
  let reward := i64 (total - fee) in
  let winnerReward := round (fmul (of_Z reward) (WinnerShare Cfg)) in
  let reward := i64 (reward - winnerReward) in
  let planck id share :=
    let s := round (fmul share (of_Z reward)) in
    Some (if id =? BlockReply.Generator info then i64 (s + winnerReward) else s) in
  map_imap planck shareOf ∪ (if FeeAccountID Cfg =? 0 then ∅ else {[FeeAccountID Cfg := fee]}).

Definition add_share (entry : Z * Z) (tx : DB) : M (result sql_error DB) := TxExec (add_pending entry.2 entry.1) tx.

Definition reward_tx (info : BlockReply.t) (entries : list (Z * Z)) (tx : DB) : M (result sql_error DB) :=
  (tdo tx <- Prepare tx ;;
   tdo tx <- tx_each entries add_share tx ;;
   TxExec (update_won_block (totalReward info) (BlockReply.Generator info) (BlockReply.Height info)) tx)%go.

Definition add_cached (entry : Z * Z) : M unit :=
  c ← get Cache;
  match GetMiner entry.1 c with
  | None => mret tt
  | Some a => update_miner a (fun m => set_pending (i64 (Pending m + entry.2)) m)
  end.

(** An error of the shares is logged, and the reward goes on without them. *)
Definition rewardBlock (info : BlockReply.t) : M unit :=
  r ← GetSharesOnBlock (BlockReply.Height info);
  let shares := shareInPlanckOf info (match r with Ok s => s | Err _ => ∅ end) in
  ids ← range_keys (elements (dom shares));
  let entries := omap (fun id => (fun a => (id, a)) <$> shares !! id) ids in
  r ← (tdo tx <- Begin ;; tdo tx <- reward_tx info entries tx ;; Commit tx)%go;
  match r with
  | Err _ => mret tt
  | Ok _ => for_each entries add_cached
  end.

(** ** [RewardBlocks] *)

Definition settle_block (info : BlockWonInfo) : M unit :=
  r ← call (fun n => WonBlock n (w_height info) (w_miner info) (w_nonce info));
  match r with
  | Err _ => mret tt
  | Ok (true, blockInfo) => rewardBlock blockInfo
  | Ok (false, _) => MustExec (verify_block (w_height info))
  end.

Definition RewardBlocks : M unit :=
  c ← get Cache;
  t0 ← now;
  let payoutDelay := t0 - i64 (i64 (PayoutDelay Cfg) * second) in
  let payoutHeightDelay := u64 (Block.Height (CurrentBlock c) - BlockHeightPayoutDelay Cfg) in
  d ← get db;
  keys ← range_keys (elements (dom (nonce_submission d)));
  MustExec (update_best_of_rewardable keys payoutHeightDelay payoutDelay) ;;
  MustExec (verify_empty payoutHeightDelay payoutDelay) ;;
  sel ← Select (won_infos payoutHeightDelay payoutDelay);
  match sel with
  | Err _ => mret tt
  | Ok infos =>
      match infos with
      | [] => mret tt
      | first :: _ =>
          msgs ← call (fun n => GetIncomingMsgsSince n (w_created first * second - 30 * second));
          match msgs with Err _ => mret tt | Ok msgOf => SetMinPayout msgOf end
      end ;;
      for_each infos settle_block
  end.

End Operations.
