(* ===== verification/RewardTheorems.v ===== *)
(** * Theorems on the rewards

    [rewardBlock] credits exactly the planned amounts and marks the block, or
    changes no amount and no block; and the plans in which the reward of the
    miners is lost. *)

From S2P Require Import Prelude GoFloat Config Blocks Shares Miner DB Cache Wallet World Payout PayoutMoney.
From S2P Require Import PayoutTheorems Rewards.
Open Scope list_scope.
Open Scope Z_scope.
Import GoInt.

(** [p] with the amounts [s] added to the accounts that exist. *)
Definition credit (s p : gmap Z Z) : gmap Z Z := map_imap (fun id a => Some (a + default 0 (s !! id))) p.

Lemma credit_lookup s p id : credit s p !! id = (fun a => a + default 0 (s !! id)) <$> p !! id.
Proof. unfold credit. rewrite map_lookup_imap. by destruct (p !! id). Qed.

Section Proofs.
Context `{Env}.

(** ** The shares touch nothing but capacities *)

Definition only_capacity (w w' : World) : Prop :=
  db w' = with_miner (miner (db w')) (db w) /\ Cache w' = Cache w /\ objects w' = objects w /\ sent w' = sent w.

#[export] Instance only_capacity_preorder : PreOrder only_capacity.
Proof.
  unfold only_capacity. split.
  - intros w. split_and!; try done. by destruct (db w).
  - intros w1 w2 w3 (E1 & ? & ? & ?) (E2 & ? & ? & ?). split_and!; try congruence.
    rewrite E2, E1. done.
Qed.

Lemma only_ticks_capacity w w' : only_ticks w w' -> only_capacity w w'.
Proof. intros (E & ? & ? & ?). unfold only_capacity. rewrite E. split_and!; try done. by destruct (db w). Qed.

Lemma set_capacity_preserves c id : preserves only_capacity (MustExec (set_capacity c id)).
Proof.
  intros w. rewrite MustExec_run. simpl. destruct (db_fault (tick w)); simpl.
  - by apply only_ticks_capacity.
  - split_and!; done.
Qed.

Lemma eeps_loop_preserves al b rows acc : preserves only_capacity (eeps_loop al b rows acc).
Proof.
  revert acc. induction rows as [|[id args] rows IH]; intros acc; simpl; [by apply (preserves_ret _)|].
  apply (preserves_bind _); [|intros; apply IH].
  destruct b; [apply set_capacity_preserves|by apply (preserves_ret _)].
Qed.

Lemma TrySelect_preserves {A} (q : DB -> result sql_error A) : preserves only_ticks (TrySelect q).
Proof.
  intros w. unfold TrySelect, step, get, mbind, M_bind. simpl. by destruct (db_fault (tick w)).
Qed.

Lemma GetSharesOnBlock_preserves h : preserves only_capacity (GetSharesOnBlock h).
Proof.
  apply (preserves_bind _); [|intros; by apply (preserves_ret _)].
  apply (preserves_bind _); [by eapply preserves_weaken, TrySelect_preserves; apply only_ticks_capacity|].
  intros [args|e]; [|by apply (preserves_ret _)].
  apply (preserves_bind _); [intros w; by apply only_ticks_capacity|]. intros ids.
  apply (preserves_bind _); [by apply (preserves_get _)|]. intros c.
  apply (preserves_bind _); [apply eeps_loop_preserves|]. intros acc. by apply (preserves_ret _).
Qed.

(** ** The transaction *)

Definition add_entry (p : gmap Z Z) (e : Z * Z) : gmap Z Z :=
  match p !! e.1 with Some a => <[e.1 := a + e.2]> p | None => p end.

Lemma foldl_add_entry (s p : gmap Z Z) ids :
  NoDup ids ->
  foldl add_entry p (omap (fun id => (fun a => (id, a)) <$> s !! id) ids) =
  credit (filter (fun e => e.1 ∈ ids) s) p.
Proof.
  induction ids as [|id ids IH] using rev_ind; intros Hnd.
  - apply map_eq. intros k. rewrite credit_lookup. simpl.
    replace (filter _ s !! k) with (@None Z).
    + simpl. destruct (p !! k); simpl; [f_equal; lia|done].
    + symmetry. apply map_lookup_filter_None. right. intros; set_solver.
  - apply NoDup_app in Hnd as (Hnd & Hout & _). rewrite omap_app, foldl_app, IH by done.
    assert (Hid : id ∉ ids) by (intros Hin; by apply (Hout _ Hin), list_elem_of_here).
    apply map_eq. intros k. simpl. destruct (s !! id) as [z|] eqn:Ez; simpl.
    + unfold add_entry. simpl. rewrite credit_lookup.
      destruct (decide (k = id)) as [->|Hne].
      * replace (filter _ s !! id) with (@None Z).
        2: { symmetry. apply map_lookup_filter_None. right. intros; simpl; done. }
        rewrite credit_lookup.
        replace (filter (fun e => e.1 ∈ ids ++ [id]) s !! id) with (Some z).
        2: { symmetry. apply map_lookup_filter_Some. split; [done|]. simpl. set_solver. }
        destruct (p !! id) as [a|] eqn:Ep; simpl;
          [rewrite lookup_insert_eq; f_equal; lia|by rewrite credit_lookup, Ep].
      * assert (Hf : filter (fun e => e.1 ∈ ids ++ [id]) s !! k = filter (fun e => e.1 ∈ ids) s !! k).
        { apply option_eq. intros x. rewrite !map_lookup_filter_Some. simpl. set_solver. }
        destruct (p !! id); simpl; [rewrite lookup_insert_ne by done|]; by rewrite !credit_lookup, Hf.
    + rewrite !credit_lookup.
      assert (Hf : filter (fun e => e.1 ∈ ids ++ [id]) s !! k = filter (fun e => e.1 ∈ ids) s !! k); [|by rewrite Hf].
      apply option_eq. intros x. rewrite !map_lookup_filter_Some. simpl. split; [|set_solver].
      intros [Hk Hin]. split; [done|]. rewrite elem_of_app, list_elem_of_singleton in Hin.
      destruct Hin as [| ->]; [done|congruence].
Qed.

Lemma credit_all (s p : gmap Z Z) ids :
  ids ≡ₚ elements (dom s) ->
  foldl add_entry p (omap (fun id => (fun a => (id, a)) <$> s !! id) ids) = credit s p.
Proof.
  intros Hids. rewrite foldl_add_entry by (rewrite Hids; apply NoDup_elements). f_equal.
  apply map_filter_id. intros k x Hk. simpl. rewrite Hids, elem_of_elements, elem_of_dom. by eexists.
Qed.

Lemma reward_tx_triple d0 info entries :
  tx_triple (fun tx => tx = d0) (reward_tx info entries)
    (fun tx => pend tx = foldl add_entry (pend d0) entries /\
       exists r', update_won_block (totalReward info) (BlockReply.Generator info) (BlockReply.Height info)
                    (with_account (account tx) d0) = Ok r' /\ block tx = block r').
Proof.
  unfold reward_tx. eapply tx_then; [apply tx_prepare|].
  apply (tx_then _ (fun tx => pend tx = foldl add_entry (pend d0) entries /\ tx = with_account (account tx) d0)).
  - assert (Hl := tx_loop (fun l tx => pend tx = foldl add_entry (pend d0) l /\ tx = with_account (account tx) d0)
      entries [] add_share). simpl in Hl.
    intros tx w ->. apply Hl; [|split; [done|by destruct d0]]. clear.
    intros l1 [id z] l2 _. unfold add_share. apply tx_exec. intros tx tx' [Hp Ht] E.
    apply add_pending_spec in E as [Ep Et]. split; [|by rewrite Et, Ht].
    rewrite foldl_app. simpl. rewrite Ep, Hp. unfold add_entry at 3. done.
  - apply tx_exec. intros tx tx' [Hp Ht] E. rewrite Ht in E.
    assert (Ha : account tx' = account tx).
    { unfold update_won_block in E. destruct (block _ !! _); [|by injection E as <-].
      destruct (fk _ _); [by injection E as <-|done]. }
    split; [unfold pend; by rewrite Ha|]. exists tx'. by rewrite Ha.
Qed.

(** ** The whole operation *)

Lemma entries_NoDup (s : gmap Z Z) ids :
  ids ≡ₚ elements (dom s) -> NoDup ((omap (fun id => (fun a => (id, a)) <$> s !! id) ids).*1).
Proof.
  intros Hids. assert (Hnd : NoDup ids) by (rewrite Hids; apply NoDup_elements). clear Hids.
  induction ids as [|k l IH]; simpl; [constructor|]. apply NoDup_cons in Hnd as [Hk Hnd].
  destruct (s !! k) as [z|]; simpl; [|by apply IH]. constructor; [|by apply IH].
  intros ([k' z'] & E & Hin)%list_elem_of_fmap. simpl in E. subst k'. apply Hk.
  apply list_elem_of_omap in Hin as (k2 & Hk2 & E). destruct (s !! k2); simplify_eq/=. done.
Qed.

Lemma entry_for_plan (s : gmap Z Z) ids id :
  ids ≡ₚ elements (dom s) ->
  snd <$> entry_for fst (omap (fun id => (fun a => (id, a)) <$> s !! id) ids) id = s !! id.
Proof.
  intros Hids. pose proof (entries_NoDup s ids Hids) as Hnd. destruct (s !! id) as [z|] eqn:Ez.
  - assert (Hin : (id, z) ∈ omap (fun id => (fun a => (id, a)) <$> s !! id) ids).
    { apply list_elem_of_omap. exists id. rewrite Hids, elem_of_elements, elem_of_dom, Ez. split; [by eexists|done]. }
    by rewrite (entry_for_Some fst _ _ Hnd Hin : entry_for _ _ id = _).
  - replace (entry_for _ _ id) with (@None (Z * Z)); [done|]. symmetry. apply entry_for_None.
    intros ([k z] & -> & Hin)%list_elem_of_fmap. apply list_elem_of_omap in Hin as (k2 & _ & E).
    destruct (s !! k2) eqn:E2; simplify_eq/=.
Qed.

(** The cached miners of the accounts of a plan have their amounts added. *)
Definition plan_cached (plan : gmap Z Z) (w w' : World) : Prop :=
  cached_changed (fun id => (fun z m => set_pending (i64 (Pending m + z)) m) <$> plan !! id) w w'.

(** What a run of [rewardBlock] did: nothing, or the planned credits for the
    shares it found. *)
Lemma rewardBlock_run (info : BlockReply.t) (w : World) :
  wf_pointers w ->
  exists o w', rewardBlock info w = (o, w') /\ sent w' = sent w /\ Cache w' = Cache w /\
  ((pend (db w') = pend (db w) /\ block (db w') = block (db w) /\ objects w' = objects w) \/
   exists r w1 (plan := shareInPlanckOf info (match r with Ok s => s | Err _ => ∅ end)),
     GetSharesOnBlock (BlockReply.Height info) w = (Some r, w1) /\ o = Some tt /\
     pend (db w') = credit plan (pend (db w)) /\
     (own_pointers w -> plan_cached plan w w') /\
     match block (db w) !! BlockReply.Height info with
     | None => block (db w') = block (db w)
     | Some b => block (db w') = <[BlockReply.Height info :=
         mk_block_row (b_base_target b) (b_scoop b) (b_generation_signature b) true
           (Some (totalReward info)) (Some (BlockReply.Generator info)) (b_best b) (b_created b)
           (b_generation_time b)]> (block (db w))
     end).
Proof.
  intros Hp. unfold rewardBlock. unfold mbind at 1, M_bind at 1.
  pose proof (GetSharesOnBlock_preserves (BlockReply.Height info) w) as (Hd & Hc & Ho & Hs).
  destruct (GetSharesOnBlock _ w) as [o w1] eqn:Esh. simpl in *.
  assert (Hpend : pend (db w1) = pend (db w)) by (by rewrite Hd).
  assert (Hblock : block (db w1) = block (db w)) by (by rewrite Hd).
  destruct o as [sh|]; [|do 2 eexists; split_and!; [done..|by left]].
  unfold range_keys, step. unfold mbind, M_bind. simpl.
  set (shares := shareInPlanckOf info _).
  set (w2 := set_tick _ w1). set (ids := order (tick w1) _).
  set (entries := omap _ ids).
  destruct (run_transaction w2 (reward_tx info entries) _ (reward_tx_triple (db w1) info entries))
    as (r & w3 & -> & Hc3 & Ho3 & Hs3 & Hd3).
  destruct r as [[]|e]; [|do 2 eexists; split_and!; [done|simpl in *; congruence..|left; rewrite Hd3; split_and!; simpl in *; congruence]].
  destruct (cached_loop fst (fun e m => set_pending (i64 (Pending m + e.2)) m) add_cached entries w3)
    as (w4 & -> & (Hd4 & Hc4 & Hs4 & _) & Hch); [done| |].
  { intros id a. rewrite Hc3, Ho3. simpl. rewrite Hc, Ho. apply Hp. }
  do 2 eexists. split; [done|]. rewrite Hd4. split_and!; [simpl in *; congruence..|right].
  destruct Hd3 as (Hp3 & r' & Er & Hb3). do 2 eexists. split_and!; [done|done| | |].
  - rewrite Hp3, Hpend. apply credit_all, order_perm.
  - simpl in Hc3, Ho3. intros Hown. destruct Hch as [Hch1 Hch2];
      [unfold own_pointers; by rewrite Hc3, Hc|apply entries_NoDup, order_perm|].
    rewrite Hc3, Ho3, Hc, Ho in Hch1, Hch2. split; [|done]. intros id a m Ha Hm.
    rewrite (Hch1 id a m Ha Hm). change (shareInPlanckOf info _) with shares.
    rewrite <- (entry_for_plan shares ids id (order_perm _ _)). fold entries. by destruct (entry_for fst entries id).
  - rewrite Hb3. unfold update_won_block in Er. simpl in Er. rewrite Hblock in Er.
    destruct (block (db w) !! BlockReply.Height info) as [b|] eqn:Eb.
    + case_bool_decide; [|done]. injection Er as <-. done.
    + injection Er as <-. simpl. done.
Qed.

(** C3: [rewardBlock] is all or nothing, in the database and in the cache.
    Either all amounts, blocks and miners are as before, or: the plan is made
    of the shares that [GetSharesOnBlock] found in this run - of none, if it
    gave an error; every account is credited with its planned amount; the
    cached miner of every account of the plan gains that amount, and every
    other miner is as before; the block is marked as won, with its reward and
    its winner.  (No miner is cached under two ids.) *)
Theorem rewardBlock_all_or_nothing (info : BlockReply.t) (w : World) :
  wf_pointers w -> own_pointers w ->
  exists o w', rewardBlock info w = (o, w') /\ sent w' = sent w /\ Cache w' = Cache w /\
  ((pend (db w') = pend (db w) /\ block (db w') = block (db w) /\ objects w' = objects w) \/
   exists r w1 (plan := shareInPlanckOf info (match r with Ok s => s | Err _ => ∅ end)),
     GetSharesOnBlock (BlockReply.Height info) w = (Some r, w1) /\ o = Some tt /\
     pend (db w') = credit plan (pend (db w)) /\
     (forall id a m, miners (Cache w) !! id = Some a -> objects w !! a = Some m ->
        objects w' !! a = Some (match plan !! id with
                                | Some z => set_pending (i64 (Pending m + z)) m
                                | None => m
                                end)) /\
     (forall a, (forall id, miners (Cache w) !! id <> Some a) -> objects w' !! a = objects w !! a) /\
     match block (db w) !! BlockReply.Height info with
     | None => block (db w') = block (db w)
     | Some b => block (db w') = <[BlockReply.Height info :=
         mk_block_row (b_base_target b) (b_scoop b) (b_generation_signature b) true
           (Some (totalReward info)) (Some (BlockReply.Generator info)) (b_best b) (b_created b)
           (b_generation_time b)]> (block (db w))
     end).
Proof.
  intros Hp Hown. destruct (rewardBlock_run info w Hp) as (o & w' & E & Hs & Hc & Hr).
  exists o, w'. split_and!; [done..|].
  destruct Hr as [|(r & w1 & Esh & Eo & Hpend & Hch & Hb)]; [by left|right]. destruct (Hch Hown) as [Hin Hout].
  exists r, w1. split_and!; [done..| |done|done]. intros id a m Ha Hm. rewrite (Hin id a m Ha Hm).
  by destruct (shareInPlanckOf info _ !! id).
Qed.
End Proofs.

(** ** Runs *)

(** Six slow blocks; the miner 1 has a deadline on each, the miner 2 on the
    first five. *)
Definition block_with (h : Z) (best : option Z) : block_row :=
  mk_block_row 50000 0 "" false None None best 1535750000 240.

Definition ns_list : list (Z * ns_row) :=
  ((fun i => (i, mk_ns 1 (100 + i) 1000 7)) <$> [1; 2; 3; 4; 5; 6]) ++
  ((fun i => (10 + i, mk_ns 2 (100 + i) 3000 7)) <$> [1; 2; 3; 4; 5]).

Definition reward_db (ns : list (Z * ns_row)) : DB :=
  with_ns (list_to_map ns) 100
    (with_block (list_to_map ((fun i => (100 + i, block_with (100 + i) (Some i))) <$> [1; 2; 3; 4; 5; 6]))
      (with_miner {[1 := None; 2 := None]}
        (with_account {[ 6418289488649374107 := mk_account "fee" None 0 None None None;
                         1 := mk_account "a" None 0 None None None;
                         2 := mk_account "b" None 0 None None None ]} empty_DB))).

(** The block 106, generated by the miner 1: 1000 burst and no fees. *)
Definition won_106 : BlockReply.t := BlockReply.of_fields 1 7 1000 0 106 0 0.

Definition fee_cfg : Config.Config := Config.set_poolFeeShare (decimal 2 2) test_cfg.
Definition fee_env : Env := calm fee_cfg silent_wallet (1535760000 * 10 ^ 9).

Example reward_run :
  let d := db (@rewardBlock fee_env won_106 (start_world fee_cfg (reward_db ns_list))).2 in
  (a_pending <$> account d !! 6418289488649374107, a_pending <$> account d !! 1, a_pending <$> account d !! 2) =
  (Some 2000000000, Some 87712368573, Some 10287631427).
Proof. vm_compute. reflexivity. Qed.

(** The same with the miner 1 in the cache. *)
Definition cached_reward_world : World :=
  set_cache (with_miners {[1 := 0%nat]} (Cache (start_world fee_cfg (reward_db ns_list))))
    (set_objects [mk_Miner 1 "" "a" 5 None ∅ fzero "" "" []] (start_world fee_cfg (reward_db ns_list))).

Lemma rewardBlock_all_or_nothing_witness :
  exists o w', @rewardBlock fee_env won_106 cached_reward_world = (o, w') /\ sent w' = [] /\
               Pending <$> objects w' !! 0%nat = Some 87712368578.
Proof.
  destruct (check_pointers_ok cached_reward_world ltac:(by vm_compute)) as [Hp Ho].
  destruct (@rewardBlock_all_or_nothing fee_env won_106 cached_reward_world Hp Ho)
    as (o & w' & E & Hs & _ & [(Hd & _ & _)|(r & w1 & Esh & _ & _ & Hc & _)]).
  - exfalso. apply (f_equal snd) in E. cbn [snd] in E. subst w'. apply (f_equal (fun m => m !! 1)) in Hd.
    vm_compute in Hd. discriminate Hd.
  - exists o, w'. split; [exact E|]. split; [exact Hs|]. rewrite (Hc 1 0%nat _ eq_refl eq_refl).
    apply (f_equal fst) in Esh. simpl in Esh.
    assert (Er : r = default (Err No_rows) (@GetSharesOnBlock fee_env 106 cached_reward_world).1)
      by (change (BlockReply.Height won_106) with 106 in Esh; by rewrite Esh).
    rewrite Er. by vm_compute.
Defined.

(** The pending amounts of the miners, and whether the block 106 is settled
    with its reward. *)
Definition miners_and_block (w : World) : option Z * option Z * option (bool * option Z) :=
  (a_pending <$> account (db w) !! 1, a_pending <$> account (db w) !! 2,
   (fun b => (b_winner_verified b, b_reward b)) <$> block (db w) !! 106).

Definition shares_fail_env : Env := {|
  Cfg := fee_cfg; walletHandler := silent_wallet; clock _ := 0; db_fault n := (n =? 0)%nat; order _ l := l;
  order_perm _ l := Permutation_refl l; CalcScoop h _ := h; time_String _ := ""%string; datetime_String _ := ""%string; walletDB := None |}.

(** The reward of the miners can be lost.  If the query of the shares
    fails, the error is logged, but the block is settled with its full reward
    and no miner, not even the winner, is credited; the same happens without
    any failure while no miner has the [NMin] deadlines that count. *)
Theorem reward_lost :
  miners_and_block (@rewardBlock shares_fail_env won_106 (start_world fee_cfg (reward_db ns_list))).2 =
    (Some 0, Some 0, Some (true, Some 100000000000)) /\
  miners_and_block (@rewardBlock fee_env won_106 (start_world fee_cfg (reward_db (drop 3 (take 6 ns_list))))).2 =
    (Some 0, Some 0, Some (true, Some 100000000000)).
Proof. by vm_compute. Qed.

(** The pool's fee is deducted from the reward but not credited when the
    fee account has a share of its own: the share replaces the fee. *)
Theorem fee_account_share_replaces_fee (E : Env) (info : BlockReply.t) (shareOf : gmap Z float64) (s : float64) :
  shareOf !! FeeAccountID Cfg = Some s -> FeeAccountID Cfg <> BlockReply.Generator info ->
  shareInPlanckOf info shareOf !! FeeAccountID Cfg =
    Some (round (fmul s (of_Z (i64 (i64 (totalReward info - poolFee (totalReward info)) -
      round (fmul (of_Z (i64 (totalReward info - poolFee (totalReward info)))) (WinnerShare Cfg))))))).
Proof.
  intros Hs Hg. unfold shareInPlanckOf. apply lookup_union_Some_l. rewrite map_lookup_imap, Hs. simpl.
  by destruct (Z.eqb_spec (FeeAccountID Cfg) (BlockReply.Generator info)).
Qed.

Lemma fee_account_share_replaces_fee_witness :
  @shareInPlanckOf fee_env won_106 {[6418289488649374107 := dy 1 (-1)]} !! 6418289488649374107 = Some 24500000000.
Proof.
  refine (eq_trans (fee_account_share_replaces_fee fee_env won_106 _ (dy 1 (-1)) _ _) _);
    [vm_compute; reflexivity|vm_compute; congruence|vm_compute; reflexivity].
Defined.
