(* ===== verification/Modelx.v ===== *)
(** * Blocks, miners and submissions ([pkg/modelx/modelx.go])

    The operations that keep the database and the cache in step with the
    chain: new and switched blocks, the creation of miners, the submissions
    of deadlines, the start of the pool and its housekeeping. *)

From Stdlib Require Import Ascii String.
From S2P Require Import Prelude GoStrings GoFloat RSEncoding Burstmath Config Blocks Shares Miner DB Cache.
From S2P Require Import Wallet World Rewards.
Open Scope string_scope.
Open Scope list_scope.
Open Scope Z_scope.
Import GoInt.

(** ** Statements *)

(** The statement of [switchBlock] names a column [baseTarget]; the schema
    calls it [base_target]. *)
Definition switch_statement (genSig : string) (baseTarget height : Z) (d : DB) : result sql_error DB :=
  Err Unknown_column.

(** [DELETE nonce_submission WHERE ...] lacks its [FROM]. *)
Definition delete_ns_statement (miner_id height : Z) (d : DB) : result sql_error DB := Err Syntax_error.

Definition delete_blocks_below (height : Z) (d : DB) : result sql_error DB :=
  Ok (prune (with_block (filter (fun p => ~ p.1 < height) (block d)) d)).

Definition delete_idle_miners (d : DB) : result sql_error DB :=
  Ok (with_miner (filter (fun p => existsb (fun q => ns_miner q.2 =? p.1) (map_to_list (nonce_submission d)) = true)
                    (miner d)) d).

(** The accounts without a miner. *)
Definition orphans (d : DB) : gmap Z account_row := filter (fun p => miner d !! p.1 = None) (account d).

(** [SUM] of no rows is [NULL], which the column refuses. *)
Definition transfer_pending (fee : Z) (d : DB) : result sql_error DB :=
  match account d !! fee with
  | None => Ok d
  | Some r =>
      if (size (orphans d) =? 0)%nat then Err Out_of_range
      else let s := sum_values a_pending (orphans d) in
           if bool_decide (is_i64 s)
           then Ok (with_account (<[fee := add_to_pending (s - a_pending r) r]> (account d)) d)
           else Err Out_of_range
  end.

Definition delete_old_accounts (fee : Z) (d : DB) : result sql_error DB :=
  Ok (prune (with_account (filter (fun p => ~ (p.1 <> fee /\ miner d !! p.1 = None)) (account d)) d)).

Section Operations.
Context `{Env}.

Definition getGenerationTime (height : Z) : M (result string Z) := call (fun n => GetGenerationTime n height).

Definition isConnectedToWalletDB : bool := match walletDB with Some _ => true | None => false end.

(** ** Reward recipients *)

Definition cacheRewardRecipients : M unit :=
  match walletDB with
  | None =>
      r ← call GetRewardRecipients;
      match r with Err _ => mret tt | Ok recips => with_cache (StoreRewardRecipients recips) end
  | Some query =>
      r ← call query;
      match r with
      | Err _ => mret tt
      | Ok ids => with_cache (StoreRewardRecipients (list_to_map ((fun id => (id, true)) <$> ids)))
      end
  end.

(** ** New blocks *)

Definition new_block_record (height baseTarget scoop : Z) (genSig : string) (bytes : list Z) (t : Z) : Block.t :=
  Block.mk height baseTarget scoop genSig bytes false None None None t 0.

Definition fallback_generation_time : Z := 4 * 60.

(** The treatment of one cached miner. *)
Definition close_round (removedHeight height : Z) (id : Z) (a : nat) : M unit :=
  c ← get Cache;
  m ← miner_at a;
  (if (WasSlowBlock (CurrentBlockHeight m) c).1 then try_update_miner a addDeadlineParams else mret tt) ;;
  (if removedHeight =? 0 then mret tt else try_update_miner a (removeDeadlineParams removedHeight)) ;;
  m ← miner_at a;
  if CurrentBlockHeight m <? u64 (height - InactiveAfterXBlocks Cfg)
  then with_cache (DeleteMiner id) else mret tt.

(** The generation time that is recorded, and the height the caches dropped. *)
Definition close_block (height : Z) (currentBlock : Block.t) : M (Z * Z) :=
  let current := Block.Height currentBlock in
  if current <? height then
    r ← getGenerationTime current;
    (* on an error the wallet handler also returns 0 *)
    match r with
    | Err _ => mret (0, 0)
    | Ok generationTime =>
        MustExec (set_generation_time generationTime current) ;;
        c ← get Cache;
        let '(removed, c') := AddBlock Cfg current generationTime c in
        with_cache (fun _ => c') ;;
        mret (generationTime, removed)
    end
  else
    r ← getGenerationTime height;
    let generationTime := match r with Ok t => t | Err _ => fallback_generation_time end in
    c ← get Cache;
    let '(removed, c') := AddBlock Cfg height generationTime c in
    with_cache (fun _ => c') ;;
    mret (generationTime, removed).

Definition newBlock (baseTarget : Z) (genSig : string) (height : Z) : M (result string unit) :=
  c ← get Cache;
  if (WasSlowBlock height c).2 then mret (Ok tt) else
  let currentBlock := CurrentBlock c in
  let current := Block.Height currentBlock in
  if negb (current =? 0) && (height <? u64 (current - u64 (NAVG Cfg))) then mret (Err "bock too old") else
  match DecodeGeneratorSignature (bytes genSig) with
  | Err e => mret (Err e)
  | Ok genSigBytes =>
      closed ← close_block height currentBlock;
      let '(generationTime, removedHeight) := closed in
      created ← (if current <? height then now else mret 0);
      let scoop := CalcScoop height genSigBytes in
      t ← now;
      MustExec (insert_block height
        (mk_block_row baseTarget scoop genSig false None None None (datetime t) generationTime)) ;;
      MinerRange (close_round removedHeight height) ;;
      (if current <? height then
         if height =? 0 then mret tt else
         cacheRewardRecipients ;;
         with_cache (StoreCurrentBlock Cfg (new_block_record height baseTarget scoop genSig genSigBytes created))
       else mret tt) ;;
      mret (Ok tt)
  end.

(** ** Forks *)

Definition drop_submissions (height : Z) (id : Z) (a : nat) : M unit :=
  m ← miner_at a;
  r ← Exec (delete_ns_statement (ID m) height);
  match r with
  | Err _ => mret tt
  | Ok _ => try_update_miner a (removeDeadlineParams height)
  end.

Definition switchBlock (baseTarget : Z) (genSig : string) (height : Z) : M (result string unit) :=
  match DecodeGeneratorSignature (bytes genSig) with
  | Err e => mret (Err e)
  | Ok genSigBytes =>
      r ← Exec (switch_statement genSig baseTarget height);
      match r with
      | Err _ => mret (Err "database error")
      | Ok _ =>
          t ← now;
          let b := new_block_record height baseTarget (CalcScoop height genSigBytes) genSig genSigBytes t in
          with_cache (StoreRoundInfo b) ;;
          MinerRange (drop_submissions height) ;;
          with_cache (StoreMiningInfo Cfg b) ;;
          mret (Ok tt)
      end
  end.

(** What [MaybeSwitchOrNewBlock] does with [newBlockMu] held; the current
    block was read before. *)
Definition SwitchOrNewBlock (oldBlock : Block.t) (baseTarget : Z) (genSig : string) (height : Z) : M unit :=
  if (Block.Height oldBlock =? height) && negb (bool_decide (Block.GenerationSignature oldBlock = genSig))
  then switchBlock baseTarget genSig height ;; mret tt
  else if negb (Block.Height oldBlock =? height)
  then newBlock baseTarget genSig height ;; mret tt
  else mret tt.

Definition MaybeSwitchOrNewBlock (baseTarget : Z) (genSig : string) (height : Z) : M unit :=
  c ← get Cache;
  SwitchOrNewBlock (CurrentBlock c) baseTarget genSig height.

(** ** Miners *)

Definition miner_of_account (id : Z) (r : account_row) : Miner :=
  new_miner id (a_address r) (default "" (a_name r)) (a_pending r) "".

(** [nil] when there is no account or the query fails. *)
Definition getMinerFromDB (accountID : Z) : M (option Miner) :=
  r ← Select (fun d => miner_of_account accountID <$> account d !! accountID);
  mret (match r with Ok o => o | Err _ => None end).

Definition createMiner (accountID : Z) : M (result string Miner) :=
  if accountID =? FeeAccountID Cfg then mret (Err "not allowed to mine with fee account") else
  address ← of_option (RS.Encode accountID);
  info ← call (fun n => GetAccountInfo n accountID);
  let name := match info with Ok i => AccountReply.Name i | Err _ => "" end in
  r ← (tdo tx <- Begin ;;
       tdo tx <- TxExec (insert_account accountID address (Some name)) tx ;;
       tdo tx <- TxExec (insert_miner accountID) tx ;;
       Commit tx)%go;
  mret (match r with
        | Err _ => Err "database error"
        | Ok _ => Ok (new_miner accountID address name 0 "")
        end).

(** The object the cache holds at the end; [None] is the nil pointer. *)
Definition FirstOrCreateMiner (accountID : Z) : M (option nat) :=
  c ← get Cache;
  match GetMiner accountID c with
  | Some a => mret (Some a)
  | None =>
      found ← getMinerFromDB accountID;
      made ← match found with
             | Some m => mret (Some m)
             | None => r ← createMiner accountID; mret (match r with Ok m => Some m | Err _ => None end)
             end;
      match made with
      | None => mret None
      | Some m =>
          a ← new_object m;
          c ← get Cache;
          let '(a', c') := LoadOrStoreMiner (ID m) a c in
          with_cache (fun _ => c') ;;
          mret (Some a')
      end
  end.

(** ** Submissions *)

Definition UpdateOrCreateNonceSubmission (a : nat) (height deadline nonce baseTarget : Z) (genSig : string) :
    M (result sql_error unit) :=
  m ← miner_at a;
  if CurrentBlockHeight m =? height then
    if CurrentDeadline m <=? deadline then mret (Ok tt) else
    r ← Exec (update_ns deadline nonce (ID m) height);
    match r with
    | Err e => mret (Err e)
    | Ok _ => try_update_miner a (update_current_deadline deadline) ;; mret (Ok tt)
    end
  else
    c ← get Cache;
    let '(blockExists, slow) := WasSlowBlock height c in
    if blockExists && negb slow then mret (Ok tt) else
    match DeadlinesParams m !! height with
    | Some p =>
        dp ← of_option (deref m p);
        if Deadline dp <=? deadline then mret (Ok tt) else
        r ← Exec (update_ns deadline nonce (ID m) height);
        match r with
        | Err e => mret (Err e)
        | Ok _ => try_update_miner a (update_confirmed height deadline baseTarget) ;; mret (Ok tt)
        end
    | None =>
        (if blockExists then mret tt else MaybeSwitchOrNewBlock baseTarget genSig height) ;;
        r ← Exec (insert_ns (ID m) height deadline nonce);
        match r with
        | Err e => mret (Err e)
        | Ok _ => update_miner a (insert_deadline height deadline baseTarget) ;; mret (Ok tt)
        end
    end.

Definition UpdateBestSubmission (minerID height : Z) : M unit := MustExec (update_best minerID height).

Definition best_submission_of (height : Z) (d : DB) : option NonceSubmission.t :=
  b ← block d !! height;
  k ← b_best b;
  r ← nonce_submission d !! k;
  _ ← miner d !! ns_miner r;
  acc ← account d !! ns_miner r;
  Some (NonceSubmission.mk (ns_nonce r) (ns_deadline r) (ns_miner r) height (default "" (a_name acc))
          (a_address acc) (b_created b * second) "").

Definition GetBestNonceSubmissionOnBlock (height : Z) : M (result sql_error NonceSubmission.t) :=
  r ← Select (best_submission_of height);
  mret (match r with Err e => Err e | Ok None => Err No_rows | Ok (Some ns) => Ok ns end).

(** ** The start of the pool *)

Definition createFeeAccount : M unit :=
  address ← of_option (RS.Encode (FeeAccountID Cfg));
  MustExec (insert_account (FeeAccountID Cfg) address None).

Definition block_of_row (h : Z) (b : block_row) (bytes : list Z) : Block.t :=
  Block.mk h (b_base_target b) (b_scoop b) (b_generation_signature b) bytes (b_winner_verified b)
    (b_winner_id b) (b_reward b) (b_best b) (b_created b * second) (b_generation_time b).

Definition last_block (d : DB) : option (Z * block_row) :=
  h ← head (desc (elements (dom (block d)))); b ← block d !! h; Some (h, b).

(** A signature in the database that does not decode ends the program. *)
Definition loadCurrentBlock : M bool :=
  r ← Select last_block;
  match r with
  | Ok (Some (h, b)) =>
      match DecodeGeneratorSignature (bytes (b_generation_signature b)) with
      | Err _ => panic
      | Ok sig => with_cache (StoreCurrentBlock Cfg (block_of_row h b sig)) ;; mret true
      end
  | _ => mret false
  end.

Record submissionData := mk_sd { sd_miner : Miner; sd_deadline : Z; sd_height : Z; sd_baseTarget : Z }.

(** [COALESCE(min_payout_value, CONCAT(payout_interval, "|", next_payout_date), "")] *)
Definition payout_detail_of (r : account_row) : string :=
  match a_min_payout_value r, a_payout_interval r, a_next_payout_date r with
  | Some v, _, _ => of_bytes (FormatInt v)
  | None, Some s, Some t => String.append s (String.append "|" (datetime_String t))
  | _, _, _ => ""
  end.

(** The rows of the query, by height. *)
Definition submission_data (hs : list Z) (keys : list Z) (d : DB) : list submissionData :=
  h ← asc hs;
  omap (fun k =>
    r ← nonce_submission d !! k;
    if negb (ns_height r =? h) then None else
    b ← block d !! h;
    acc ← account d !! ns_miner r;
    Some (mk_sd (new_miner (ns_miner r) (a_address acc) (default "" (a_name acc)) (a_pending acc)
                   (payout_detail_of acc)) (ns_deadline r) h (b_base_target b))) keys.

(** The parameters of a row become those of a confirmed deadline, unless the
    block is the current one, and of the current deadline, if none is later. *)
Definition file_submission (currentHeight : Z) (sd : submissionData) (m : Miner) : Miner :=
  let '(p, m) := alloc (mk_dp (sd_deadline sd) (sd_baseTarget sd) (sd_height sd)) m in
  let m := if sd_height sd =? currentHeight then m
           else set_confirmed (<[sd_height sd := p]> (DeadlinesParams m))
                  (fadd (WeightedDeadlineSum m) (weightDeadline (sd_deadline sd) (sd_baseTarget sd))) m in
  if CurrentBlockHeight m <? sd_height sd then set_current (Some p) m else m.

Definition cache_submission (currentHeight : Z) (sd : submissionData) : M unit :=
  c ← get Cache;
  a ← match GetMiner (ID (sd_miner sd)) c with
      | Some a => mret a
      | None =>
          a ← new_object (sd_miner sd);
          with_cache (fun c => (LoadOrStoreMiner (ID (sd_miner sd)) a c).2) ;;
          mret a
      end;
  update_miner a (file_submission currentHeight sd).

(** The heights of the slow blocks, and of the recent fast ones: where the
    unsigned difference of the query is none, the server reports an error, which
    [cacheMiners] ignores. *)
Definition slow_heights (d : DB) : list Z :=
  take (Z.to_nat (NAVG Cfg + 1))
    (desc (elements (dom (filter (fun p => TMin Cfg <= b_generation_time p.2) (block d))))).

Definition fast_heights (d : DB) : list Z :=
  match last_block d with
  | None => []
  | Some (top, _) =>
      if top <? NAVG Cfg then []
      else elements (dom (filter (fun p => b_generation_time p.2 < TMin Cfg /\ top - NAVG Cfg < p.1) (block d)))
  end.

Definition cacheMiners : M unit :=
  r ← Select slow_heights;
  match r with
  | Err _ => panic
  | Ok [] => mret tt
  | Ok (currentHeight :: closed) =>
      fast ← Select fast_heights;
      for_each closed (fun h => with_cache (fun c => (AddBlock Cfg h (i32 (TMin Cfg + 1)) c).2)) ;;
      for_each (match fast with Ok hs => hs | Err _ => [] end)
        (fun h => with_cache (fun c => (AddBlock Cfg h 0 c).2)) ;;
      d ← get db;
      keys ← range_keys (elements (dom (nonce_submission d)));
      sds ← Select (submission_data (currentHeight :: closed) keys);
      match sds with
      | Err _ => panic
      | Ok rows => for_each rows (cache_submission currentHeight)
      end
  end.

(** [NewModelX] on a connected database. *)
Definition NewModelX : M unit :=
  (if FeeAccountID Cfg =? 0 then mret tt else createFeeAccount) ;;
  loaded ← loadCurrentBlock;
  if (loaded : bool) then cacheMiners ;; cacheRewardRecipients
  else
    r ← call GetMiningInfo;
    match r with
    | Err _ => panic
    | Ok info =>
        e ← newBlock (MiningInfo.BaseTarget info) (MiningInfo.GenerationSignature info) (MiningInfo.Height info);
        match e with Err _ => panic | Ok _ => mret tt end
    end.

(** ** Housekeeping *)

Definition CleanDB : M unit :=
  c ← get Cache;
  MustExec (delete_blocks_below (u64 (Block.Height (CurrentBlock c) - 5000))) ;;
  MustExec delete_idle_miners ;;
  r ← (tdo tx <- Begin ;;
       tdo tx <- TxExec (transfer_pending (FeeAccountID Cfg)) tx ;;
       tdo tx <- TxExec (delete_old_accounts (FeeAccountID Cfg)) tx ;;
       Commit tx)%go;
  mret tt.

Definition reread_name (id : Z) (a : nat) : M unit :=
  r ← call (fun n => GetAccountInfo n id);
  match r with
  | Err _ => mret tt
  | Ok info =>
      m ← miner_at a;
      if bool_decide (Name m = AccountReply.Name info) then mret tt else
      update_miner a (set_name (AccountReply.Name info)) ;;
      Exec (set_account_name (AccountReply.Name info) (ID m)) ;;
      mret tt
  end.

Definition RereadMinerNames : M unit := MinerRange reread_name.

(** ** Statistics *)

Record WonBlockInfo := mk_wonBlock {
  WinnerName : string; WinnerAddress : string; WinnerID : Z;
  wb_Deadline : Z; wb_BaseTarget : Z; wb_Height : Z; wb_Reward : float64
}.

Definition won_blocks (d : DB) : list WonBlockInfo :=
  take 100 (omap (fun h =>
    b ← block d !! h;
    id ← b_winner_id b;
    acc ← account d !! id;
    k ← b_best b;
    r ← nonce_submission d !! k;
    Some (mk_wonBlock (default "" (a_name acc)) (a_address acc) id (ns_deadline r) (b_base_target b) h
            (decimal (default 0 (b_reward b)) 8)))
    (desc (elements (dom (block d))))).

Definition GetRecentlyWonBlocks : M (list WonBlockInfo) :=
  r ← Select won_blocks; mret (match r with Ok l => l | Err _ => [] end).

(** [18325193796 / AVG(base_target)]; the average of no rows is [NULL], which
    does not scan into a number. *)
Definition net_diff (n : Z) (d : DB) : option float64 :=
  let hs := take (Z.to_nat n) (desc (elements (dom (block d)))) in
  let s := foldr (fun h acc => base_target_at d h + acc) 0 hs in
  if (List.length hs =? 0)%nat || (s =? 0) then None
  else Some (SpecFloat.SFdiv 53 1024 (exactly (GenesisBaseTarget * Z.of_nat (List.length hs))) (exactly s)).

Definition GetAVGNetDiff (n : Z) : M float64 :=
  r ← Select (net_diff n);
  mret (match r with Ok (Some f) => f | _ => of_Z 250000 end).

End Operations.
