(* ===== verification/ModelxInvariant.v ===== *)
(** * The invariant of the shared state

    [wf_world]: the pointers of the cache lead to the miners of their ids, miners are well
    formed, the caches of block heights are.  Every operation of the pool
    that changes the state keeps it, whatever the database and the wallets
    answer, also when it panics. *)

From Stdlib Require Import Ascii String.
From S2P Require Import Prelude GoStrings GoFloat RSEncoding Burstmath Config Blocks Shares Miner DB Cache.
From S2P Require Import Wallet World Payout Rewards Modelx.
Open Scope list_scope.
Open Scope Z_scope.

Record wf_world (w : World) : Prop := {
  ww_pointers : wf_pointers w;
  ww_miners : Forall Miner.wf (objects w);
  ww_blocks : wf_blocks (Cache w);
  ww_ids : forall id a m, miners (Cache w) !! id = Some a -> objects w !! a = Some m -> ID m = id
}.

(** No two entries share a miner. *)
Lemma miners_separate w id1 id2 a :
  wf_world w -> miners (Cache w) !! id1 = Some a -> miners (Cache w) !! id2 = Some a -> id1 = id2.
Proof.
  intros [Hp _ _ Hi] H1 H2. destruct (Hp id1 a H1) as [m Hm]. by rewrite <- (Hi id1 a m), <- (Hi id2 a m).
Qed.

(** ** Operations that keep the invariant *)

Definition keeps {A} (c : M A) : Prop := forall w, wf_world w -> wf_world (c w).2.

Create HintDb keeps.

Lemma keeps_ret {A} (a : A) : keeps (mret a).
Proof. by intros w. Qed.
Lemma keeps_panic {A} : keeps (@panic A).
Proof. by intros w. Qed.
Lemma keeps_get {A} (f : World -> A) : keeps (get f).
Proof. by intros w. Qed.
Lemma keeps_of_option {A} (o : option A) : keeps (of_option o).
Proof. destruct o; [apply keeps_ret|apply keeps_panic]. Qed.

Lemma keeps_bind {A B} (c : M A) (k : A -> M B) : keeps c -> (forall a, keeps (k a)) -> keeps (c ≫= k).
Proof.
  intros Hc Hk w Hw. unfold mbind, M_bind. specialize (Hc w Hw).
  destruct (c w) as [[a|] w']; simpl in *; [by apply Hk|done].
Qed.

Lemma keeps_for_each {A} (l : list A) body : (forall a, keeps (body a)) -> keeps (for_each l body).
Proof.
  intros Hb. induction l as [|a l IH]; simpl; [apply keeps_ret|]. by apply keeps_bind; [apply Hb|].
Qed.

(** What does not touch the cache or the miners. *)
Definition outside (w w' : World) : Prop := Cache w' = Cache w /\ objects w' = objects w.

Lemma keeps_outside {A} (c : M A) : (forall w, outside w (c w).2) -> keeps c.
Proof.
  intros Hc w [H1 H2 H3 H4]. destruct (Hc w) as [E1 E2].
  split; [unfold wf_pointers; by rewrite E1, E2|by rewrite E2|by rewrite E1|by rewrite E1, E2].
Qed.

Section Primitives.
Context `{Env}.

Lemma keeps_step : keeps step.
Proof. by apply keeps_outside. Qed.
Lemma keeps_now : keeps now.
Proof. by apply keeps_outside. Qed.
Lemma keeps_range_keys l : keeps (range_keys l).
Proof. by apply keeps_outside. Qed.
Lemma keeps_call {A} (f : nat -> A) : keeps (call f).
Proof. by apply keeps_outside. Qed.

Lemma keeps_Select {A} (q : DB -> A) : keeps (Select q).
Proof. apply keeps_outside. intros w. unfold Select, step, get, mbind, M_bind. simpl. by destruct (db_fault _). Qed.
Lemma keeps_Begin : keeps Begin.
Proof. apply keeps_Select. Qed.
Lemma keeps_TrySelect {A} (q : DB -> result sql_error A) : keeps (TrySelect q).
Proof. apply keeps_outside. intros w. unfold TrySelect, step, get, mbind, M_bind. simpl. by destruct (db_fault _). Qed.
Lemma keeps_TxExec {A} (f : DB -> result sql_error A) tx : keeps (TxExec f tx).
Proof. apply keeps_outside. intros w. unfold TxExec, step, mbind, M_bind. simpl. by destruct (db_fault _). Qed.
Lemma keeps_Prepare tx : keeps (Prepare tx).
Proof. apply keeps_outside. intros w. unfold Prepare, step, mbind, M_bind. simpl. by destruct (db_fault _). Qed.
Lemma keeps_Commit tx : keeps (Commit tx).
Proof. apply keeps_outside. intros w. unfold Commit, step, modify, mbind, M_bind. simpl. by destruct (db_fault _). Qed.
Lemma keeps_log_payment p : keeps (log_payment p).
Proof. by apply keeps_outside. Qed.

Lemma keeps_MustExec f : keeps (MustExec f).
Proof.
  apply keeps_outside. intros w. rewrite MustExec_run. simpl.
  destruct (db_fault _); [done|]. by destruct (f (db w)).
Qed.

Lemma keeps_Exec f : keeps (Exec f).
Proof.
  apply keeps_outside. intros w. unfold Exec, step, get, modify, mbind, M_bind, mret, M_ret. simpl.
  destruct (db_fault _); [done|]. change (db (set_tick _ w)) with (db w). by destruct (f (db w)).
Qed.

Lemma keeps_and_then {E A B} (c : M (result E A)) (k : A -> M (result E B)) :
  keeps c -> (forall a, keeps (k a)) -> keeps (and_then c k).
Proof. intros Hc Hk. apply keeps_bind; [done|]. intros [a|e]; [apply Hk|apply keeps_ret]. Qed.

Lemma keeps_tx_each {A} (l : list A) body tx : (forall a tx, keeps (body a tx)) -> keeps (tx_each l body tx).
Proof.
  intros Hb. revert tx. induction l as [|a l IH]; intros tx; simpl; [apply keeps_ret|].
  by apply keeps_and_then; [apply Hb|].
Qed.

(** Updates of the cache that keep its pointers and its heights. *)
Lemma keeps_with_cache f :
  (forall c, miners (f c) = miners c) -> (forall c, wf_blocks c -> wf_blocks (f c)) -> keeps (with_cache f).
Proof.
  intros Hm Hb w [H1 H2 H3 H4]. split; simpl; [|done|by apply Hb|by rewrite Hm].
  intros id a. simpl. rewrite Hm. apply H1.
Qed.

Lemma keeps_new_object m : Miner.wf m -> keeps (new_object m).
Proof.
  intros Hm w [H1 H2 H3 H4]. split; simpl; [|by rewrite Forall_app, Forall_singleton|done|].
  - intros id a Ha. simpl. destruct (H1 id a Ha) as [x Hx]. exists x. by apply lookup_app_l_Some.
  - intros id a m' Ha. destruct (H1 id a Ha) as [x Hx]. rewrite (lookup_app_l_Some _ _ _ _ Hx).
    intros [= <-]. by eapply H4.
Qed.

Lemma keeps_try_update_miner a f :
  (forall m m', f m = Some m' -> Miner.wf m -> Miner.wf m') -> (forall m m', f m = Some m' -> ID m' = ID m) ->
  keeps (try_update_miner a f).
Proof.
  intros Hf Hi w [H1 H2 H3 H4]. unfold try_update_miner, miner_at, set_miner, get, modify, mbind, M_bind. simpl.
  destruct (objects w !! a) as [m|] eqn:Ea; simpl; [|done].
  destruct (f m) as [m'|] eqn:Ef; simpl; [|done]. split; simpl; [|apply Forall_insert; [done|]|done|].
  - apply wf_pointers_update; [done|by eexists].
  - eapply Hf; [done|]. by eapply Forall_lookup_1.
  - intros id b x Hb [(<- & <- & _)|[_ Hx]]%list_lookup_insert_Some; [|by eapply H4].
    rewrite (Hi _ _ Ef). by eapply H4.
Qed.

Lemma keeps_update_miner a f :
  (forall m, Miner.wf m -> Miner.wf (f m)) -> (forall m, ID (f m) = ID m) -> keeps (update_miner a f).
Proof.
  intros Hf Hi. apply (keeps_try_update_miner a (fun m => Some (f m))); intros m m' [= <-]; [apply Hf|apply Hi].
Qed.

Lemma keeps_miner_at a : keeps (miner_at a).
Proof. apply keeps_bind; [apply keeps_get|]. intros l. apply keeps_of_option. Qed.

Lemma keeps_MinerRange f : (forall id a, keeps (f id a)) -> keeps (MinerRange f).
Proof.
  intros Hf. apply keeps_bind; [apply keeps_get|]. intros c. apply keeps_bind; [apply keeps_range_keys|].
  intros keys. apply keeps_for_each. intros id. apply keeps_bind; [apply keeps_get|]. intros c'.
  destruct (miners c' !! id); [apply Hf|apply keeps_ret].
Qed.

End Primitives.

#[export] Hint Resolve keeps_ret keeps_panic keeps_get keeps_of_option keeps_step keeps_now keeps_range_keys keeps_call
  keeps_Begin keeps_Select keeps_TrySelect keeps_TxExec keeps_Prepare keeps_Commit keeps_MustExec keeps_Exec keeps_miner_at
  keeps_log_payment : keeps.

(** Decomposes an operation along its control structure. *)
Ltac keep :=
  repeat match goal with
  | |- forall _, _ => intro
  | |- keeps (_ ≫= _) => apply keeps_bind
  | |- keeps (and_then _ _) => apply keeps_and_then
  | |- keeps (for_each _ _) => apply keeps_for_each
  | |- keeps (tx_each _ _ _) => apply keeps_tx_each
  | |- keeps (MinerRange _) => apply keeps_MinerRange
  | |- keeps (match ?x with _ => _ end) => destruct x
  | |- keeps _ => solve [auto with keeps]
  end.

Section Operations.
Context `{Env}.

(** *** Payouts and rewards *)

Lemma keeps_charge f : (forall m, CurrentDeadlineParams (f m) = CurrentDeadlineParams m /\
    DeadlinesParams (f m) = DeadlinesParams m /\ objs (f m) = objs m /\ ID (f m) = ID m) ->
  forall a, keeps (update_miner a f).
Proof.
  intros Hf a. apply keeps_update_miner; intros m; destruct (Hf m) as (?&?&?&?); [|done].
  intros Hm. by apply (wf_same m).
Qed.

Lemma keeps_create_txs n ids tx : keeps (create_txs n ids tx).
Proof. revert ids tx. induction n as [|n IH]; intros ids tx; simpl; keep. Qed.

Lemma keeps_createTransactions : keeps createTransactions.
Proof.
  unfold createTransactions. keep.
  - unfold payout_tx. keep; [apply keeps_create_txs|]. unfold pay_account, advance_payout_date. keep.
  - unfold deduct_cached. keep. by apply keeps_charge.
Qed.

Lemma keeps_sendMoney : keeps sendMoney.
Proof. unfold sendMoney, send_tx, send_recipients. cbv zeta. keep. Qed.

Lemma keeps_validateTransactions : keeps validateTransactions.
Proof. unfold validateTransactions, validate_tx. keep. Qed.

Lemma keeps_parse_request msg : keeps (parse_request msg).
Proof. unfold parse_request. cbv zeta. keep. Qed.

Lemma keeps_SetMinPayout msgOf : keeps (SetMinPayout msgOf).
Proof.
  unfold SetMinPayout, process_message. keep; [apply keeps_parse_request| | |].
  - unfold old_message. keep.
  - unfold set_payout_tx. keep.
  - unfold charge_cached. keep. by apply keeps_charge.
Qed.

Lemma keeps_eeps_loop al b rows acc : keeps (eeps_loop al b rows acc).
Proof. revert acc. induction rows as [|[id args] rows IH]; intros acc; simpl; keep. Qed.

Lemma keeps_rewardBlock info : keeps (rewardBlock info).
Proof.
  unfold rewardBlock, GetSharesOnBlock, GetEEPSsOnBlock. cbv zeta. keep.
  - apply keeps_eeps_loop.
  - unfold reward_tx, add_share. keep.
  - unfold add_cached. keep. by apply keeps_charge.
Qed.

Lemma keeps_RewardBlocks : keeps RewardBlocks.
Proof.
  unfold RewardBlocks, settle_block. cbv zeta. keep; [apply keeps_SetMinPayout|apply keeps_rewardBlock].
Qed.

(** *** Blocks *)

Lemma keeps_AddBlock h t : keeps (with_cache (fun c => (AddBlock Cfg h t c).2)).
Proof.
  apply keeps_with_cache; [|intros; by apply AddBlock_wf].
  intros c'. unfold AddBlock, AddSlowBlock. destruct (t <? TMin Cfg); by destruct (add _ h).
Qed.

(** Reading the cache, changing it and writing it back. *)
Lemma keeps_close_block h b : keeps (close_block h b).
Proof.
  assert (Hadd : forall k t (r : Z -> Z * Z), keeps (
    c ← get Cache; let '(removed, c') := AddBlock Cfg k t c in with_cache (fun _ => c') ;; mret (r removed))).
  { intros k t r w Hw. apply (keeps_AddBlock k t) in Hw.
    unfold with_cache, modify, get, mbind, M_bind in *. simpl in *.
    by destruct (AddBlock Cfg k t (Cache w)). }
  unfold close_block, getGenerationTime. cbv zeta. destruct (_ <? _).
  - apply keeps_bind; [auto with keeps|]. intros [t|e]; [|auto with keeps].
    apply keeps_bind; [auto with keeps|]. intros _. apply (Hadd _ _ (fun removed => (t, removed))).
  - apply keeps_bind; [auto with keeps|]. intros r. apply (Hadd _ _ (fun removed => (_, removed))).
Qed.

Lemma keeps_DeleteMiner id : keeps (with_cache (DeleteMiner id)).
Proof.
  intros w [H1 H2 H3 H4]. split; simpl; [|done|by destruct H3|].
  - intros id' a. simpl. intros [_ Ha]%lookup_delete_Some. by eapply H1.
  - intros id' a m [_ Ha]%lookup_delete_Some. by apply H4.
Qed.

Lemma keeps_close_round r h id a : keeps (close_round r h id a).
Proof.
  unfold close_round. keep.
  - apply keeps_try_update_miner; [apply wf_addDeadlineParams|apply ID_addDeadlineParams].
  - apply keeps_try_update_miner; [apply wf_removeDeadlineParams|apply ID_removeDeadlineParams].
  - apply keeps_DeleteMiner.
Qed.

(** Updates that leave the miners and the caches of heights alone. *)
Lemma keeps_with_cache_same f :
  (forall c, miners (f c) = miners c /\ slowBlocks (f c) = slowBlocks c /\ fastBlocks (f c) = fastBlocks c) ->
  keeps (with_cache f).
Proof.
  intros Hf. apply keeps_with_cache; intros c; destruct (Hf c) as (E1 & E2 & E3); [done|].
  intros [H1 H2]. split; [by rewrite E2|by rewrite E3].
Qed.

Lemma keeps_cacheRewardRecipients : keeps cacheRewardRecipients.
Proof. unfold cacheRewardRecipients. keep; by apply keeps_with_cache_same. Qed.

Lemma keeps_newBlock bt sig h : keeps (newBlock bt sig h).
Proof.
  unfold newBlock. cbv zeta. keep.
  - apply keeps_close_block.
  - apply keeps_close_round.
  - apply keeps_cacheRewardRecipients.
  - by apply keeps_with_cache_same.
Qed.

Lemma keeps_switchBlock bt sig h : keeps (switchBlock bt sig h).
Proof.
  unfold switchBlock. cbv zeta. keep; try by apply keeps_with_cache_same.
  unfold drop_submissions. keep. apply keeps_try_update_miner; [apply wf_removeDeadlineParams|apply ID_removeDeadlineParams].
Qed.

Lemma keeps_MaybeSwitchOrNewBlock bt sig h : keeps (MaybeSwitchOrNewBlock bt sig h).
Proof. unfold MaybeSwitchOrNewBlock, SwitchOrNewBlock. cbv zeta. keep; [apply keeps_switchBlock|apply keeps_newBlock]. Qed.

(** *** Miners and submissions *)

Lemma keeps_insert_miner (m : Miner) :
  Miner.wf m ->
  keeps (a ← new_object m; c ← get Cache;
         let '(a', c') := LoadOrStoreMiner (ID m) a c in with_cache (fun _ => c') ;; mret (Some a')).
Proof.
  intros Hm w Hw. apply (keeps_new_object m Hm) in Hw.
  unfold new_object, with_cache, modify, get, mbind, M_bind in *. simpl in *. destruct Hw as [H1 H2 H3 H4].
  unfold LoadOrStoreMiner. destruct (miners (Cache w) !! ID m) as [a'|] eqn:Ea; simpl; [by split|].
  simpl in *. split; simpl; [|done|by destruct H3|].
  - intros id a. simpl. intros [[<- <-]|[_ Ha]]%lookup_insert_Some; [|by eapply H1].
    rewrite list_lookup_middle by done. by eexists.
  - intros id a x [[<- <-]|[_ Ha]]%lookup_insert_Some; [|by apply H4].
    rewrite list_lookup_middle by done. by intros [= <-].
Qed.

(** What an operation returns. *)
Definition yields {A} (Q : A -> Prop) (c : M A) : Prop := forall w a w', c w = (Some a, w') -> Q a.

Lemma yields_ret {A} (Q : A -> Prop) a : Q a -> yields Q (mret a).
Proof. by intros HQ w b w' [= <- _]. Qed.

Lemma yields_bind {A B} (Q : B -> Prop) (c : M A) k : (forall a, yields Q (k a)) -> yields Q (c ≫= k).
Proof.
  intros Hk w b w'. unfold mbind, M_bind. destruct (c w) as [[a|] w1]; [apply Hk|done].
Qed.

Lemma keeps_bind_yields {A B} (Q : A -> Prop) (c : M A) (k : A -> M B) :
  keeps c -> yields Q c -> (forall a, Q a -> keeps (k a)) -> keeps (c ≫= k).
Proof.
  intros Hc HQ Hk w Hw. unfold mbind, M_bind. specialize (Hc w Hw). specialize (HQ w).
  destruct (c w) as [[a|] w']; simpl in *; [|done]. eapply Hk; [by eapply HQ|done].
Qed.

Definition all_wf (o : option Miner) : Prop := forall m, o = Some m -> Miner.wf m.

Lemma getMinerFromDB_wf id : yields all_wf (getMinerFromDB id).
Proof.
  unfold getMinerFromDB, Select, step, get, mret, M_ret, mbind, M_bind, yields. simpl.
  intros w o w'. destruct (db_fault _); intros [= <- _] m; [done|].
  destruct (account _ !! id); simpl; [intros [= <-]; apply Miner.wf_new_miner|done].
Qed.

Definition ok_wf (r : result string Miner) : Prop := forall m, r = Ok m -> Miner.wf m.

Lemma createMiner_wf id : yields ok_wf (createMiner id).
Proof.
  unfold createMiner. destruct (id =? _); [by apply yields_ret|].
  apply yields_bind. intros address. apply yields_bind. intros info. cbv zeta. apply yields_bind. intros [[]|e].
  - apply yields_ret. intros m [= <-]. apply Miner.wf_new_miner.
  - by apply yields_ret.
Qed.

Lemma keeps_createMiner id : keeps (createMiner id).
Proof. unfold createMiner. cbv zeta. keep. Qed.

Lemma keeps_getMinerFromDB id : keeps (getMinerFromDB id).
Proof. unfold getMinerFromDB. keep. Qed.

Lemma keeps_FirstOrCreateMiner id : keeps (FirstOrCreateMiner id).
Proof.
  unfold FirstOrCreateMiner. apply keeps_bind; [apply keeps_get|]. intros c.
  destruct (GetMiner id c); [apply keeps_ret|].
  apply (keeps_bind_yields all_wf); [apply keeps_getMinerFromDB|apply getMinerFromDB_wf|]. intros found Hf.
  apply (keeps_bind_yields all_wf).
  - destruct found; [apply keeps_ret|]. apply keeps_bind; [apply keeps_createMiner|]. intros r. apply keeps_ret.
  - destruct found; [by apply yields_ret|].
    intros w o w'. unfold mbind, M_bind. destruct (createMiner id w) as [[r|] w1] eqn:E; [|done].
    intros [= <- _]. apply createMiner_wf in E. destruct r; [|done]. intros m [= <-]. by apply E.
  - intros [m|] Hm; [|apply keeps_ret]. apply (keeps_insert_miner m), Hm, eq_refl.
Qed.

Lemma keeps_UpdateOrCreateNonceSubmission a h d n bt sig : keeps (UpdateOrCreateNonceSubmission a h d n bt sig).
Proof.
  unfold UpdateOrCreateNonceSubmission. keep.
  - apply keeps_try_update_miner; [apply wf_update_current_deadline|apply ID_update_current_deadline].
  - apply keeps_try_update_miner; [apply wf_update_confirmed|apply ID_update_confirmed].
  - apply keeps_MaybeSwitchOrNewBlock.
  - apply keeps_update_miner; [apply wf_insert_deadline|apply ID_insert_deadline].
Qed.

(** *** The start of the pool and its housekeeping *)

Lemma wf_file_submission h sd m : Miner.wf m -> Miner.wf (file_submission h sd m).
Proof.
  intros Hm. unfold file_submission.
  pose proof (alloc_lookup (mk_dp (sd_deadline sd) (sd_baseTarget sd) (sd_height sd)) m) as Hl.
  pose proof (wf_alloc (mk_dp (sd_deadline sd) (sd_baseTarget sd) (sd_height sd)) m Hm) as Ha.
  destruct (alloc _ m) as [p m']. simpl in Hl, Ha.
  set (m2 := if sd_height sd =? h then m' else _).
  assert (H2 : Miner.wf m2 /\ objs m2 !! p = objs m' !! p).
  { unfold m2. destruct (_ =? _); [done|]. split; [by eapply wf_set_confirmed|done]. }
  destruct H2 as [H2 E2]. cbv zeta. destruct (_ <? _); [|done].
  apply wf_set_current; [|done]. rewrite E2, Hl. by eexists.
Qed.

Lemma ID_file_submission h sd m : ID (file_submission h sd m) = ID m.
Proof. unfold file_submission. simpl. by destruct (_ =? _), (_ <? _). Qed.

Lemma keeps_cache_submission h sd : Miner.wf (sd_miner sd) -> keeps (cache_submission h sd).
Proof.
  intros Hsd. unfold cache_submission. apply keeps_bind; [apply keeps_get|]. intros c. apply keeps_bind.
  - destruct (GetMiner _ c); [apply keeps_ret|].
    intros w Hw. apply (keeps_insert_miner (sd_miner sd) Hsd) in Hw.
    unfold new_object, with_cache, modify, get, mbind, M_bind in *. simpl in *.
    by destruct (LoadOrStoreMiner _ _ _).
  - intros a. apply keeps_update_miner; [apply wf_file_submission|apply ID_file_submission].
Qed.

Lemma submission_data_wf hs keys d : Forall (fun sd => Miner.wf (sd_miner sd)) (submission_data hs keys d).
Proof.
  rewrite Forall_forall. intros sd. unfold submission_data.
  rewrite list_elem_of_bind. intros (h & Hsd & _). apply list_elem_of_omap in Hsd as (k & _ & Hk).
  destruct (nonce_submission d !! k) as [r|]; [|done]. simpl in Hk. destruct (negb _); [done|].
  destruct (block d !! h); [|done]. simpl in Hk. destruct (account d !! _); [|done]. simpl in Hk.
  injection Hk as <-. apply Miner.wf_new_miner.
Qed.

Lemma keeps_for_each_in {A} (l : list A) body : (forall a, a ∈ l -> keeps (body a)) -> keeps (for_each l body).
Proof.
  induction l as [|a l IH]; intros Hb; simpl; [apply keeps_ret|].
  apply keeps_bind; [apply Hb; left|]. intros _. apply IH. intros b Hin. apply Hb. by right.
Qed.

Definition rows_wf (r : result sql_error (list submissionData)) : Prop :=
  forall rows, r = Ok rows -> Forall (fun sd => Miner.wf (sd_miner sd)) rows.

Lemma keeps_cacheMiners : keeps cacheMiners.
Proof.
  unfold cacheMiners. apply keeps_bind; [apply keeps_Select|]. intros [[|h closed]|e]; [apply keeps_ret| |apply keeps_panic].
  apply keeps_bind; [apply keeps_Select|]. intros fast.
  apply keeps_bind; [apply keeps_for_each; intros k; apply keeps_AddBlock|]. intros _.
  apply keeps_bind; [apply keeps_for_each; intros k; apply keeps_AddBlock|]. intros _.
  apply keeps_bind; [apply keeps_get|]. intros d. apply keeps_bind; [apply keeps_range_keys|]. intros keys.
  apply (keeps_bind_yields rows_wf); [apply keeps_Select| |].
  - unfold Select, step, get, mret, M_ret, mbind, M_bind, yields. simpl. intros w r w'.
    destruct (db_fault _); intros [= <- _] rows; [done|]. intros [= <-]. apply submission_data_wf.
  - intros [rows|e] Hr; [|apply keeps_panic]. apply keeps_for_each_in. intros sd Hsd.
    apply keeps_cache_submission. specialize (Hr rows eq_refl). rewrite Forall_forall in Hr. by apply Hr.
Qed.

Lemma keeps_createFeeAccount : keeps createFeeAccount.
Proof. unfold createFeeAccount. keep. Qed.

Lemma keeps_loadCurrentBlock : keeps loadCurrentBlock.
Proof. unfold loadCurrentBlock. keep. by apply keeps_with_cache_same. Qed.

Lemma keeps_NewModelX : keeps NewModelX.
Proof.
  unfold NewModelX. keep.
  - apply keeps_createFeeAccount.
  - apply keeps_loadCurrentBlock.
  - apply keeps_cacheMiners.
  - apply keeps_cacheRewardRecipients.
  - apply keeps_newBlock.
Qed.

Lemma keeps_CleanDB : keeps CleanDB.
Proof. unfold CleanDB. keep. Qed.

Lemma keeps_RereadMinerNames : keeps RereadMinerNames.
Proof. unfold RereadMinerNames, reread_name. keep. by apply keeps_charge. Qed.

Lemma wf_start d c n s : InitCache Cfg = Some c -> wf_world (mk_World d c [] n s).
Proof.
  unfold InitCache. destruct (computeAlphas _ _) as [al|]; [|done].
  destruct (newBlocks (NAVG Cfg)) as [b|] eqn:Eb; [|done]. apply newBlocks_wf in Eb as (Hb & _ & _).
  intros [= <-]. split; simpl; [|done|done|]; intros id a; [|intros m]; intros Ha; by destruct (lookup_empty_Some (M := gmap Z) id a Ha).
Qed.

End Operations.
