(* ===== verification/Submissions.v ===== *)
(** * Submissions of deadlines ([UpdateOrCreateNonceSubmission])

    The deadlines a cached miner knows and the rows of [nonce_submission]
    stay in step, whatever fails; the lowest deadline wins; and the guard
    that should keep submissions for fast blocks out reads the results of
    [WasSlowBlock] in the wrong order. *)

From Stdlib Require Import Ascii String.
From S2P Require Import Prelude GoStrings GoFloat RSEncoding Burstmath Config Blocks Shares Miner DB Cache.
From S2P Require Import Wallet World PayoutTheorems Rewards Modelx.
Open Scope list_scope.
Open Scope Z_scope.
Import GoInt.

(** ** The cached miner and its rows *)

(** The objects a miner points at. *)
Definition points (m : Miner) (p : nat) : Prop :=
  CurrentDeadlineParams m = Some p \/ exists h, DeadlinesParams m !! h = Some p.

(** A miner points at one object per height at most, and every row of the
    database for this miner and height has the deadline of the object. *)
Record in_step (rows : gmap Z ns_row) (m : Miner) : Prop := {
  is_wf : Miner.wf m;
  is_alias : forall p dp q, CurrentDeadlineParams m = Some p -> objs m !! p = Some dp ->
    DeadlinesParams m !! Miner.Height dp = Some q -> q = p;
  is_rows : forall p dp k r, points m p -> objs m !! p = Some dp -> rows !! k = Some r ->
    ns_miner r = ID m -> ns_height r = Miner.Height dp -> ns_deadline r = Miner.Deadline dp
}.

(** ** What happens to miners when blocks change

    The objects stay, and a height is confirmed only with the object it was
    confirmed with before or with the current one. *)

Record evolves (m m' : Miner) : Prop := {
  ev_id : ID m' = ID m;
  ev_objs : objs m' = objs m;
  ev_current : CurrentDeadlineParams m' = CurrentDeadlineParams m;
  ev_confirmed : forall h p, DeadlinesParams m' !! h = Some p ->
    DeadlinesParams m !! h = Some p \/
    (CurrentDeadlineParams m = Some p /\ exists dp, objs m !! p = Some dp /\ Miner.Height dp = h)
}.

#[export] Instance evolves_preorder : PreOrder evolves.
Proof.
  split.
  - intros m. split; auto.
  - intros m1 m2 m3 [A1 A2 A3 A4] [B1 B2 B3 B4]. split; [congruence..|].
    intros h p [Hp|(Hc & dp & Hd & Hh)]%B4; [by apply A4|right].
    rewrite A3 in Hc. rewrite A2 in Hd. split; [done|by exists dp].
Qed.

Lemma evolves_remove h m m' : removeDeadlineParams h m = Some m' -> evolves m m'.
Proof.
  unfold removeDeadlineParams. destruct (DeadlinesParams m !! h) as [p|]; [|by intros [= <-]].
  destruct (deref m p); [|done]. intros [= <-]. split; simpl; [done..|].
  intros h' q [_ Hq]%lookup_delete_Some. by left.
Qed.

Lemma evolves_add m m' : addDeadlineParams m = Some m' -> evolves m m'.
Proof.
  unfold addDeadlineParams, deref. destruct (CurrentDeadlineParams m) as [p|] eqn:Ec; [|by intros [= <-]].
  destruct (objs m !! p) as [dp|] eqn:Ed; [|done].
  destruct (DeadlinesParams m !! _); [by intros [= <-]|]. intros [= <-]. split; simpl; [done..|].
  intros h q [[<- <-]|[_ Hq]]%lookup_insert_Some; [right|by left]. split; [done|by exists dp].
Qed.

Lemma evolves_points m m' p : evolves m m' -> points m' p -> points m p.
Proof.
  intros [_ _ E3 E4] [Hc|[h Hh]]; [left; congruence|].
  destruct (E4 h p Hh) as [?|[? _]]; [right; by exists h|by left].
Qed.

Lemma evolves_wf m m' : evolves m m' -> Miner.wf m -> Miner.wf m'.
Proof.
  intros [_ E2 E3 E4] [H1 H2]. split; [|by rewrite E2, E3].
  intros h p Hp. rewrite E2. destruct (E4 h p Hp) as [?|(_ & dp & ? & ?)]; [by apply H1|by exists dp].
Qed.

Lemma in_step_evolves rows m m' : evolves m m' -> in_step rows m -> in_step rows m'.
Proof.
  intros He [H1 H2 H3]. split; [by eapply evolves_wf|..]; pose proof He as [E1 E2 E3 E4].
  - intros p dp q. rewrite E2, E3. intros Hc Hd Hq.
    destruct (E4 _ _ Hq) as [?|[? _]]; [by eapply H2|congruence].
  - intros p dp k r Hp. rewrite E1, E2. apply H3. by eapply evolves_points.
Qed.

(** The world around: the submissions stay, and every miner evolves. *)
Definition follows (w w' : World) : Prop :=
  nonce_submission (db w') = nonce_submission (db w) /\
  forall a m, objects w !! a = Some m -> exists m', objects w' !! a = Some m' /\ evolves m m'.

#[export] Instance follows_preorder : PreOrder follows.
Proof.
  split.
  - intros w. split; [done|]. intros a m Ha. by exists m.
  - intros w1 w2 w3 [A1 A2] [B1 B2]. split; [congruence|]. intros a m Ha.
    destruct (A2 a m Ha) as (m2 & Ha2 & E2). destruct (B2 a m2 Ha2) as (m3 & Ha3 & E3).
    exists m3. split; [done|by etrans].
Qed.

Lemma follows_same w w' :
  nonce_submission (db w') = nonce_submission (db w) -> objects w' = objects w -> follows w w'.
Proof. intros E1 E2. split; [done|]. intros a m Ha. exists m. by rewrite E2. Qed.

Section Follows.
Context `{Env}.

Lemma follows_step {A} (k : nat -> M A) : (forall n, preserves follows (k n)) -> preserves follows (step ≫= k).
Proof. intros Hk. apply preserves_bind; [apply _| |done]. intros w. by apply follows_same. Qed.

Lemma follows_with_cache f : preserves follows (with_cache f).
Proof. intros w. by apply follows_same. Qed.

Lemma follows_call {A} (f : nat -> A) : preserves follows (call f).
Proof. intros w. by apply follows_same. Qed.

Lemma follows_range_keys l : preserves follows (range_keys l).
Proof. intros w. by apply follows_same. Qed.

Lemma follows_now : preserves follows now.
Proof. intros w. by apply follows_same. Qed.

Lemma follows_Exec f :
  (forall d d', f d = Ok d' -> nonce_submission d' = nonce_submission d) -> preserves follows (Exec f).
Proof.
  intros Hf. apply follows_step. intros n. destruct (db_fault n); [apply preserves_ret, _|].
  intros w. unfold get, modify, mret, M_ret, mbind, M_bind. simpl.
  destruct (f (db w)) as [d'|e] eqn:E; [|by apply follows_same]. simpl. apply follows_same; simpl; [by apply Hf|done].
Qed.

Lemma follows_MustExec f :
  (forall d d', f d = Ok d' -> nonce_submission d' = nonce_submission d) -> preserves follows (MustExec f).
Proof.
  intros Hf. apply preserves_bind; [apply _|by apply follows_Exec|].
  intros [[]|e]; [apply preserves_ret|apply preserves_panic]; apply _.
Qed.

Lemma follows_try_update_miner a f :
  (forall m m', f m = Some m' -> evolves m m') -> preserves follows (try_update_miner a f).
Proof.
  intros Hf w. unfold try_update_miner, miner_at, set_miner, get, modify, mbind, M_bind. simpl.
  destruct (objects w !! a) as [m|] eqn:Ea; simpl; [|reflexivity].
  destruct (f m) as [m'|] eqn:Ef; simpl; [|reflexivity]. split; [done|]. simpl.
  intros b x Hb. destruct (decide (a = b)) as [<-|Hne].
  - exists m'. rewrite list_lookup_insert_eq by (by eapply lookup_lt_Some). split; [done|].
    assert (x = m) as -> by congruence. by apply Hf.
  - exists x. by rewrite list_lookup_insert_ne.
Qed.

Lemma follows_miner_at a : preserves follows (miner_at a).
Proof. apply preserves_bind; [apply _|apply preserves_get; apply _|]. intros l. apply preserves_of_option, _. Qed.

Lemma follows_MinerRange f : (forall id a, preserves follows (f id a)) -> preserves follows (MinerRange f).
Proof.
  intros Hf. apply preserves_bind; [apply _|apply preserves_get, _|]. intros c.
  apply preserves_bind; [apply _|apply follows_range_keys|]. intros keys.
  apply preserves_for_each; [apply _|]. intros id. apply preserves_bind; [apply _|apply preserves_get, _|].
  intros c'. destruct (miners c' !! id); [apply Hf|apply preserves_ret, _].
Qed.

Ltac follow :=
  repeat match goal with
  | |- forall _, _ => intro
  | |- preserves _ (mret _) => apply preserves_ret, _
  | |- preserves _ panic => apply preserves_panic, _
  | |- preserves _ (get _) => apply preserves_get, _
  | |- preserves _ (of_option _) => apply preserves_of_option, _
  | |- preserves _ (with_cache _) => apply follows_with_cache
  | |- preserves _ (call _) => apply follows_call
  | |- preserves _ now => apply follows_now
  | |- preserves _ (miner_at _) => apply follows_miner_at
  | |- preserves _ (_ ≫= _) => apply preserves_bind; [apply _| |]
  | |- preserves _ (MinerRange _) => apply follows_MinerRange
  | |- preserves _ (match ?x with _ => _ end) => destruct x
  end.

Lemma follows_newBlock bt sig h : preserves follows (newBlock bt sig h).
Proof.
  unfold newBlock. cbv zeta. follow.
  - unfold close_block, getGenerationTime. cbv zeta. follow. apply follows_MustExec. by intros d d' [= <-].
  - apply follows_MustExec. intros d d'. unfold insert_block. case_bool_decide; [done|]. by intros [= <-].
  - unfold close_round. follow; apply follows_try_update_miner;
      [apply evolves_add|apply evolves_remove].
  - unfold cacheRewardRecipients. follow.
Qed.

Lemma follows_MaybeSwitchOrNewBlock bt sig h : preserves follows (MaybeSwitchOrNewBlock bt sig h).
Proof.
  unfold MaybeSwitchOrNewBlock, SwitchOrNewBlock. cbv zeta. follow; [|apply follows_newBlock].
  unfold switchBlock. cbv zeta. follow; [by apply follows_Exec|].
  unfold drop_submissions. follow; [by apply follows_Exec|].
  apply follows_try_update_miner, evolves_remove.
Qed.

End Follows.

(** ** Submissions keep miner and rows in step *)

Lemma points_unique rows m p q dp dq :
  in_step rows m -> points m p -> points m q -> objs m !! p = Some dp -> objs m !! q = Some dq ->
  Miner.Height dp = Miner.Height dq -> p = q.
Proof.
  intros [[W1 W2] Ha _] Hp Hq Ep Eq Eh.
  assert (Hconf : forall x dx h, DeadlinesParams m !! h = Some x -> objs m !! x = Some dx -> Miner.Height dx = h).
  { intros x dx h Hx Ex. destruct (W1 h x Hx) as (d & E & ?). congruence. }
  destruct Hp as [Hp|[h1 Hp]], Hq as [Hq|[h2 Hq]]; [congruence|..].
  - symmetry. eapply Ha; [done|exact Ep|]. rewrite Eh. by rewrite (Hconf _ _ _ Hq Eq).
  - eapply Ha; [done|exact Eq|]. rewrite <- Eh. by rewrite (Hconf _ _ _ Hp Ep).
  - apply (Hconf _ _ _ Hp) in Ep. apply (Hconf _ _ _ Hq) in Eq. congruence.
Qed.

Definition rewrite_rows (id h d n : Z) (rows : gmap Z ns_row) : gmap Z ns_row :=
  (fun r => if (ns_miner r =? id) && (ns_height r =? h) then mk_ns id h d n else r) <$> rows.

(** A new deadline, in the object and in the rows of its height. *)
Lemma in_step_write rows m p dp d bt n sum :
  in_step rows m -> points m p -> objs m !! p = Some dp ->
  in_step (rewrite_rows (ID m) (Miner.Height dp) d n rows)
    (set_objs (<[p := mk_dp d bt (Miner.Height dp)]> (objs m)) (set_confirmed (DeadlinesParams m) sum m)).
Proof.
  intros Hin Hp Ep. pose proof Hin as [Hwf Ha Hr].
  assert (Hheight : forall q dq', <[p := mk_dp d bt (Miner.Height dp)]> (objs m) !! q = Some dq' ->
            exists dq, objs m !! q = Some dq /\ Miner.Height dq = Miner.Height dq').
  { intros q dq' [(<- & <- & _)|[? ?]]%list_lookup_insert_Some; [by exists dp|by exists dq']. }
  split; simpl.
  - apply (wf_same (set_objs (<[p := mk_dp d bt (Miner.Height dp)]> (objs m)) m)); try done.
    by eapply wf_replace.
  - intros q dq x Hq Eq Hx. destruct (Hheight _ _ Eq) as (dq0 & E0 & Eh). eapply Ha; [done|exact E0|]. by rewrite Eh.
  - intros q dq k r Hq Eq Hk Hid Hh. unfold rewrite_rows in Hk. apply lookup_fmap_Some in Hk as (r0 & <- & Hk).
    destruct (Hheight _ _ Eq) as (dq0 & E0 & Eh0).
    destruct (Z.eqb_spec (ns_miner r0) (ID m)), (Z.eqb_spec (ns_height r0) (Miner.Height dp)); simpl in *;
      apply list_lookup_insert_Some in Eq as [(<- & <- & _)|[Hne Eq]]; simpl in *; try congruence;
      try (by eapply Hr).
    exfalso. apply Hne. by eapply (points_unique rows m p q dp dq).
Qed.

Lemma current_height m p dp : CurrentDeadlineParams m = Some p -> objs m !! p = Some dp ->
  CurrentBlockHeight m = Miner.Height dp.
Proof. intros E1 E2. unfold CurrentBlockHeight, deref. rewrite E1. simpl. by rewrite E2. Qed.

(** A new object, with a new row. *)
Lemma in_step_insert rows m h d bt n k :
  in_step rows m -> DeadlinesParams m !! h = None -> CurrentBlockHeight m <> h ->
  (forall j r, rows !! j = Some r -> ns_miner r = ID m -> ns_height r <> h) ->
  in_step (<[k := mk_ns (ID m) h d n]> rows) (insert_deadline h d bt m).
Proof.
  intros [Hwf Ha Hr] Hn Hc Hrows.
  assert (Hold : forall p dp, points m p -> objs m !! p = Some dp -> Miner.Height dp <> h).
  { intros p dp [Hp|[h' Hp]] Ep E; [by rewrite (current_height m p dp) in Hc|].
    destruct (wf_confirmed m Hwf h' p Hp) as (x & ? & ?). congruence. }
  assert (Hvalid : forall p, points m p -> (p < List.length (objs m))%nat).
  { intros p [Hp|[h' Hp]]; [destruct (wf_current m Hwf p Hp)|destruct (wf_confirmed m Hwf h' p Hp) as (? & ? & _)];
      by eapply lookup_lt_Some. }
  assert (Hobj : forall p dp, points m p -> (objs m ++ [mk_dp d bt h]) !! p = Some dp -> objs m !! p = Some dp).
  { intros p dp Hp. by rewrite lookup_app_l by (by apply Hvalid). }
  assert (Hp' : forall p, points (insert_deadline h d bt m) p -> points m p \/ p = List.length (objs m)).
  { unfold insert_deadline, points. simpl. intros p. destruct (_ <? _); simpl.
    - intros [[= <-]|?]; [by right|left; by right].
    - intros [?|[h' [[<- <-]|[_ ?]]%lookup_insert_Some]]; [left; by left|by right|left; right; by exists h']. }
  assert (Eobjs : objs (insert_deadline h d bt m) = objs m ++ [mk_dp d bt h]).
  { unfold insert_deadline. simpl. by destruct (_ <? _). }
  assert (Eid : ID (insert_deadline h d bt m) = ID m) by (unfold insert_deadline; simpl; by destruct (_ <? _)).
  split; [by apply wf_insert_deadline|..].
  - intros p dp q. rewrite Eobjs. unfold insert_deadline. simpl.
    destruct (Z.ltb_spec (CurrentBlockHeight m) h); simpl.
    + intros [= <-] Ep. rewrite list_lookup_middle in Ep by done. injection Ep as <-. simpl. by rewrite Hn.
    + intros Hp Ep. apply Hobj in Ep; [|by left]. rewrite lookup_insert_ne; [by apply Ha|].
      intros Eh. symmetry in Eh. revert Eh. apply (Hold p); [by left|done].
  - intros p dp j r Hp Ep Hj Hid Hh. rewrite Eobjs in Ep. rewrite Eid in Hid.
    destruct (Hp' p Hp) as [Hold'| ->].
    + apply Hobj in Ep; [|done].
      apply lookup_insert_Some in Hj as [[_ <-]|[_ Hj]]; simpl in *; [|by eapply Hr].
      exfalso. by apply (Hold p dp).
    + rewrite list_lookup_middle in Ep by done. injection Ep as <-. simpl in *.
      apply lookup_insert_Some in Hj as [[_ <-]|[_ Hj]]; [done|]. exfalso. by apply (Hrows j r).
Qed.

Section Submissions.
Context `{Env}.

(** A statement fails and changes nothing, or gives the new database. *)
Lemma Exec_cases f w :
  exists w', objects w' = objects w /\ Cache w' = Cache w /\ sent w' = sent w /\
    ((exists e, Exec f w = (Some (Err e), w') /\ db w' = db w) \/
     (Exec f w = (Some (Ok tt), w') /\ f (db w) = Ok (db w'))).
Proof.
  unfold Exec, step, get, modify, mret, M_ret, mbind, M_bind. simpl.
  destruct (db_fault (tick w)); [eexists; split_and!; [..|left; by eexists]; done|].
  change (db (set_tick _ w)) with (db w). destruct (f (db w)) as [d|e]; eexists; split_and!;
    [| | |right; split; reflexivity| | | |left; exists e; split; reflexivity]; done.
Qed.

Definition stays_in_step (a : nat) (w : World) : Prop :=
  exists m, objects w !! a = Some m /\ in_step (nonce_submission (db w)) m.

Lemma miner_at_run a w m : objects w !! a = Some m -> miner_at a w = (Some m, w).
Proof. intros E. unfold miner_at, get, mbind, M_bind. simpl. by rewrite E. Qed.

Lemma try_update_miner_run a f w m m' :
  objects w !! a = Some m -> f m = Some m' ->
  try_update_miner a f w = (Some tt, set_objects (<[a := m']> (objects w)) w).
Proof.
  intros E Ef. unfold try_update_miner, miner_at, set_miner, get, modify, mbind, M_bind. simpl.
  rewrite E. simpl. by rewrite Ef.
Qed.

Lemma stays_updated a m' w : is_Some (objects w !! a) -> in_step (nonce_submission (db w)) m' ->
  stays_in_step a (set_objects (<[a := m']> (objects w)) w).
Proof. intros [m Hm] Hin. exists m'. split; [|done]. simpl. apply list_lookup_insert_eq. by eapply lookup_lt_Some. Qed.

(** The tail of a submission that improves a known deadline. *)
Lemma stays_write a w m d n h (f : Miner -> option Miner) m' :
  objects w !! a = Some m -> in_step (nonce_submission (db w)) m ->
  f m = Some m' -> in_step (rewrite_rows (ID m) h d n (nonce_submission (db w))) m' ->
  stays_in_step a
    ((r ← Exec (update_ns d n (ID m) h);
      match r with Err e => mret (Err e) | Ok _ => try_update_miner a f ;; mret (Ok (E := sql_error) tt) end) w).2.
Proof.
  intros Ha Hin Ef Hin'. destruct (Exec_cases (update_ns d n (ID m) h) w) as (w' & Eo & Ec & _ & [(e & E & Ed)|[E Ed]]);
    rewrite (bind_run _ _ _ _ _ E).
  - exists m. simpl. by rewrite Eo, Ed.
  - rewrite <- Eo in Ha. rewrite (bind_run _ _ _ _ _ (try_update_miner_run a f w' m m' Ha Ef)).
    apply stays_updated; [by exists m|]. injection Ed as <-. done.
Qed.

(** The tail of a submission for a new height. *)
Lemma stays_insert a w m id h d n bt :
  objects w !! a = Some m -> ID m = id -> in_step (nonce_submission (db w)) m ->
  DeadlinesParams m !! h = None -> CurrentBlockHeight m <> h ->
  stays_in_step a
    ((r ← Exec (insert_ns id h d n);
      match r with Err e => mret (Err e)
      | Ok _ => update_miner a (insert_deadline h d bt) ;; mret (Ok (E := sql_error) tt) end) w).2.
Proof.
  intros Ha Eid Hin Hn Hc. destruct (Exec_cases (insert_ns id h d n) w) as (w' & Eo & Ec & _ & [(e & E & Ed)|[E Ed]]);
    rewrite (bind_run _ _ _ _ _ E).
  - exists m. simpl. by rewrite Eo, Ed.
  - rewrite <- Eo in Ha. rewrite (bind_run _ _ _ _ _ (update_miner_run a _ w' m Ha)).
    apply stays_updated; [by exists m|]. unfold insert_ns in Ed.
    case_bool_decide as Hf; [done|]. destruct (negb _); [done|]. injection Ed as <-. simpl. rewrite <- Eid.
    apply in_step_insert; [done..|]. intros j r Hj Hr. eapply find_ns_None; [|exact Hj|exact Hr].
    rewrite Eid. destruct (find_ns h id (db w)); [|done]. exfalso. apply Hf. by eexists.
Qed.

(** C13: whatever the environment does, and also when the call fails or
    panics halfway, a submission keeps the deadlines of its miner in step with
    the rows of the database: if every row for the miner's known heights had
    the deadline the miner object has, so it does afterwards. *)
Theorem submission_stays_in_step (a : nat) (m : Miner) (h d n bt : Z) (sig : string) (w : World) :
  h <> 0 -> objects w !! a = Some m -> in_step (nonce_submission (db w)) m ->
  stays_in_step a (UpdateOrCreateNonceSubmission a h d n bt sig w).2.
Proof.
  intros H0 Ha Hin. unfold UpdateOrCreateNonceSubmission. rewrite (bind_run _ _ _ _ _ (miner_at_run a w m Ha)).
  destruct (Z.eqb_spec (CurrentBlockHeight m) h) as [Eh|Hh].
  - destruct (CurrentDeadline m <=? d); [by exists m|].
    destruct (CurrentDeadlineParams m) as [p|] eqn:Ep.
    + destruct (wf_current m (is_wf _ _ Hin) p Ep) as [dp Edp].
      rewrite (current_height m p dp) in Eh by done. eapply stays_write; [done|done| |].
      * unfold update_current_deadline, deref. by rewrite Ep, Edp.
      * rewrite <- Eh. apply (in_step_write _ m p dp d (BaseTarget dp) n (WeightedDeadlineSum m)); [done|by left|done].
    + exfalso. apply H0. rewrite <- Eh. unfold CurrentBlockHeight. by rewrite Ep.
  - unfold get at 1. unfold mbind at 1, M_bind at 1.
    destruct (WasSlowBlock h (Cache w)) as [ex slow] eqn:Ew.
    destruct (ex && negb slow); [by exists m|].
    destruct (DeadlinesParams m !! h) as [p|] eqn:Ep.
    + destruct (wf_confirmed m (is_wf _ _ Hin) h p Ep) as (dp & Edp & Eh).
      unfold deref. rewrite Edp. simpl. unfold mbind at 1, M_bind at 1. simpl.
      destruct (Deadline dp <=? d); [by exists m|]. eapply stays_write; [done|done| |].
      * unfold update_confirmed, deref. by rewrite Ep, Edp.
      * rewrite <- Eh. apply (in_step_write _ m p dp d bt n); [done|right; by exists h|done].
    + set (c := if ex then _ else _).
      assert (Hc : preserves follows c) by (unfold c; destruct ex; [apply preserves_ret, _|apply follows_MaybeSwitchOrNewBlock]).
      specialize (Hc w). unfold mbind at 1, M_bind at 1. destruct (c w) as [o w1]. simpl in Hc.
      destruct Hc as [Er Hm]. destruct (Hm a m Ha) as (m1 & Ha1 & Hev).
      assert (Hin1 : in_step (nonce_submission (db w1)) m1) by (rewrite Er; by eapply in_step_evolves).
      destruct o as [[]|]; [|by exists m1].
      assert (Eh1 : CurrentBlockHeight m1 = CurrentBlockHeight m).
      { unfold CurrentBlockHeight, deref. by rewrite (ev_current _ _ Hev), (ev_objs _ _ Hev). }
      eapply stays_insert; [done|apply Hev|done| |by rewrite Eh1].
      destruct (DeadlinesParams m1 !! h) as [q|] eqn:Eq; [|done]. exfalso.
      destruct (ev_confirmed _ _ Hev h q Eq) as [?|(Hcur & dp & Edp & Hhe)]; [congruence|].
      apply Hh. by rewrite (current_height m q dp).
Qed.

(** *** The lowest deadline *)


Lemma guard_never_fires (h : Z) (c : cache) : (WasSlowBlock h c).1 && negb (WasSlowBlock h c).2 = false.
Proof. unfold WasSlowBlock. by repeat destruct (exists_height _ _). Qed.









(** *** Submissions for fast blocks *)

(** [WasSlowBlock] gives whether the block was slow and whether it is
    known, and [UpdateOrCreateNonceSubmission] reads the two the other way
    round: its guard never fires, and a submission of a miner for an older
    block that is known to be fast becomes a confirmed deadline. *)
Theorem fast_block_submission_counts (a : nat) (m : Miner) (h d n bt : Z) (sig : string) (w : World) :
  (forall k c, let '(blockExists, slow) := WasSlowBlock k c in blockExists && negb slow = false) /\
  (objects w !! a = Some m -> WasSlowBlock h (Cache w) = (false, true) ->
   h < CurrentBlockHeight m -> DeadlinesParams m !! h = None -> Block.Height (CurrentBlock (Cache w)) <> h ->
   db_fault (tick w) = false -> (exists d', insert_ns (ID m) h d n (db w) = Ok d') ->
   exists w' m', UpdateOrCreateNonceSubmission a h d n bt sig w = (Some (Ok tt), w') /\
     objects w' !! a = Some m' /\ NConf m' = NConf m + 1 /\
     WeightedDeadlineSum m' = fadd (WeightedDeadlineSum m) (weightDeadline d bt)).
Proof.
  split.
  { intros k c. pose proof (guard_never_fires k c). by destruct (WasSlowBlock k c). }
  intros Ha Ew Hh Hn Hb Hf [d' Hd']. unfold UpdateOrCreateNonceSubmission.
  rewrite (bind_run _ _ _ _ _ (miner_at_run a w m Ha)). destruct (Z.eqb_spec (CurrentBlockHeight m) h); [lia|].
  unfold get at 1. unfold mbind at 1, M_bind at 1. rewrite Ew, Hn. simpl.
  assert (Hnb : MaybeSwitchOrNewBlock bt sig h w = (Some tt, w)).
  { unfold MaybeSwitchOrNewBlock, SwitchOrNewBlock, get, mbind, M_bind. apply Z.eqb_neq in Hb. rewrite Hb. simpl.
    unfold newBlock, get, mbind, M_bind. by rewrite Ew. }
  rewrite (bind_run _ _ _ _ _ Hnb).
  assert (HE : Exec (insert_ns (ID m) h d n) w = (Some (Ok tt), set_db d' (set_tick (S (tick w)) w))).
  { unfold Exec, step, get, modify, mret, M_ret, mbind, M_bind. rewrite Hf.
    change (db (set_tick _ w)) with (db w). by rewrite Hd'. }
  rewrite (bind_run _ _ _ _ _ HE). set (w1 := set_db d' _).
  rewrite (bind_run _ _ _ _ _ (update_miner_run a _ w1 m Ha)).
  do 2 eexists. split; [done|]. simpl. split; [apply list_lookup_insert_eq; by eapply lookup_lt_Some|].
  unfold insert_deadline, NConf. simpl. destruct (Z.ltb_spec (CurrentBlockHeight m) h); [lia|]. simpl.
  rewrite map_size_insert_None by done. split; [lia|done].
Qed.

End Submissions.

(** ** A concrete run *)

(** Miner 7 has a deadline for block 1000; block 999 was fast. *)
Definition submission_db : DB :=
  with_ns {[1 := mk_ns 7 1000 50 1]} 2
    (with_block {[999 := mk_block_row 70000 0 "" false None None None 0 10;
                  1000 := mk_block_row 70000 0 "" false None None None 0 0]}
      (with_miner {[7 := None]} (with_account {[7 := mk_account "g" None 0 None None None]} empty_DB))).

Definition submission_miner : Miner :=
  set_objs [mk_dp 50 70000 1000] (set_current (Some 0%nat) (new_miner 7 "g" "" 0 "")).

Definition submission_world : World :=
  set_objects [submission_miner]
    (set_cache ((AddBlock test_cfg 999 10 (with_miners {[7 := 0%nat]} (Cache (start_world test_cfg empty_DB)))).2)
      (start_world test_cfg submission_db)).

Lemma submission_miner_in_step : in_step (nonce_submission submission_db) submission_miner.
Proof.
  assert (Hnone : forall h p, DeadlinesParams submission_miner !! h <> Some p) by (intros h p; apply lookup_empty_Some).
  split; [split|..].
  - intros h p Hp. by apply Hnone in Hp.
  - intros p [= <-]. by eexists.
  - intros p dp q _ _ Hq. by apply Hnone in Hq.
  - intros p dp k r [[= <-]|[h Hh]]; [|by apply Hnone in Hh]. intros [= <-].
    change (nonce_submission submission_db) with ({[1 := mk_ns 7 1000 50 1]} : gmap Z ns_row).
    by intros [<- <-]%lookup_singleton_Some.
Qed.

Lemma submission_stays_in_step_witness :
  stays_in_step 0 (@UpdateOrCreateNonceSubmission example_env 0%nat 1000 40 9 70000 "" submission_world).2.
Proof.
  exact (@submission_stays_in_step example_env 0%nat submission_miner 1000 40 9 70000 "" submission_world
           ltac:(lia) eq_refl submission_miner_in_step).
Defined.


Lemma fast_block_submission_counts_witness :
  exists w' m', @UpdateOrCreateNonceSubmission example_env 0%nat 999 40 9 70000 "" submission_world = (Some (Ok tt), w') /\
    objects w' !! 0%nat = Some m' /\ NConf m' = 1.
Proof.
  destruct (proj2 (@fast_block_submission_counts example_env 0%nat submission_miner 999 40 9 70000 "" submission_world))
    as (w' & m' & H1 & H2 & H3 & _); [vm_compute; reflexivity..|vm_compute; discriminate|vm_compute; reflexivity| |].
  - eexists. vm_compute. reflexivity.
  - exists w', m'. split; [exact H1|split; [exact H2|exact H3]].
Defined.
