(* ===== verification/Schema.v ===== *)
(** * The integrity of the database

    What the constraints of the schema promise, as an invariant of the rows:
    every foreign key has its row, a miner has one submission per block, no
    address belongs to two accounts, ids of auto-increment columns are fresh,
    signed amounts are in the range of their columns and strings not longer
    than theirs.  (The ranges of the unsigned columns are not part of it: they
    hold the [uint64] values the program gives them.)  Cascades restore it, every statement of the pool keeps it, and so
    does every operation, wherever it fails. *)

From Stdlib Require Import Ascii String.
From S2P Require Import Prelude GoStrings GoFloat GoParse RSEncoding Burstmath Config Blocks Shares Miner DB Cache.
From S2P Require Import Wallet World Payout PayoutMoney Rewards Modelx.
Open Scope list_scope.
Open Scope Z_scope.
Import GoInt.

(** ** Foreign keys *)

Record closed (d : DB) : Prop := {
  c_miner : forall id x, miner d !! id = Some x -> fk (account d) (Some id) = true;
  c_ns : forall k r, nonce_submission d !! k = Some r ->
    fk (account d) (Some (ns_miner r)) && fk (block d) (Some (ns_height r)) = true;
  c_block : forall h b, block d !! h = Some b ->
    fk (account d) (b_winner_id b) && fk (nonce_submission d) (b_best b) = true;
  c_tx : forall k t, transaction d !! k = Some t -> fk (block d) (t_block_height t) = true;
  c_recipient : forall k r, transaction_recipient d !! k = Some r ->
    fk (account d) (Some (r_recipient r)) && fk (transaction d) (Some (r_transaction r)) = true
}.

Lemma filter_size {A} (P : Z * A -> Prop) `{!forall x, Decision (P x)} (m : gmap Z A) :
  (size (filter P m) <= size m)%nat /\ (size (filter P m) = size m -> filter P m = m).
Proof.
  assert (Hsub : filter P m ⊆ m) by apply map_filter_subseteq.
  split; [by apply map_subseteq_size|]. intros E. apply map_subseteq_size_eq; [done|lia].
Qed.

Lemma filter_all {A} (P : Z * A -> Prop) `{!forall x, Decision (P x)} (m : gmap Z A) :
  filter P m = m <-> forall k x, m !! k = Some x -> P (k, x).
Proof.
  split; [|apply map_filter_id]. intros E k x. rewrite <- E at 1. by intros [_ ?]%map_lookup_filter_Some.
Qed.

Lemma closed_step d : closed d -> prune_step d = d.
Proof.
  intros [H1 H2 H3 H4 H5]. unfold prune_step.
  rewrite !map_filter_id; [by destruct d|exact H5|exact H4|exact H3|exact H2|exact H1].
Qed.

Lemma iter_closed n d : closed d -> Nat.iter n prune_step d = d.
Proof. intros Hc. induction n as [|n IH]; [done|]. simpl. rewrite IH. by apply closed_step. Qed.

(** Once a step removes no block and no submission, two steps are enough. *)
Lemma settled d :
  block (prune_step d) = block d -> nonce_submission (prune_step d) = nonce_submission d ->
  closed (prune_step (prune_step d)).
Proof.
  intros Eb En.
  pose proof (proj1 (filter_all (fun p : Z * block_row =>
    fk (account d) (b_winner_id p.2) && fk (nonce_submission d) (b_best p.2) = true) (block d)) Eb) as Hb. simpl in Hb.
  pose proof (proj1 (filter_all (fun p : Z * ns_row =>
    fk (account d) (Some (ns_miner p.2)) && fk (block d) (Some (ns_height p.2)) = true) (nonce_submission d)) En) as Hn. simpl in Hn.
  assert (Et : forall k t, transaction (prune_step d) !! k = Some t -> fk (block d) (t_block_height t) = true).
  { intros k t. simpl. by intros [_ ?]%map_lookup_filter_Some. }
  assert (Ea : account (prune_step d) = account d) by done.
  generalize dependent (prune_step d). intros d1 Eb En Et Ea.
  assert (Eb2 : block (prune_step d1) = block d).
  { unfold prune_step. simpl. rewrite map_filter_id; [done|]. intros h b. simpl. rewrite Eb, En, Ea. apply Hb. }
  assert (En2 : nonce_submission (prune_step d1) = nonce_submission d).
  { unfold prune_step. simpl. rewrite map_filter_id; [done|]. intros h b. simpl. rewrite Eb, En, Ea. apply Hn. }
  assert (Et2 : transaction (prune_step d1) = transaction d1).
  { unfold prune_step. simpl. apply map_filter_id. intros k t Ht. simpl. rewrite Eb. by eapply Et. }
  split; rewrite ?Eb2, ?En2, ?Et2.
  - intros id x. simpl. by intros [_ ?]%map_lookup_filter_Some.
  - simpl. by rewrite Ea.
  - simpl. by rewrite Ea.
  - exact Et.
  - intros k r. simpl. by intros [_ ?]%map_lookup_filter_Some.
Qed.

Definition blocks_and_ns (d : DB) : nat := (size (block d) + size (nonce_submission d))%nat.

Lemma prune_closes n d : (blocks_and_ns d <= n)%nat -> closed (Nat.iter (n + 2) prune_step d).
Proof.
  revert d. induction n as [n IH] using lt_wf_ind. intros d Hn.
  pose proof (filter_size _ (block d) : (size (block (prune_step d)) <= size (block d))%nat /\
    (size (block (prune_step d)) = size (block d) -> block (prune_step d) = block d)) as [Lb Eb].
  pose proof (filter_size _ (nonce_submission d) : (size (nonce_submission (prune_step d)) <= size (nonce_submission d))%nat /\
    (size (nonce_submission (prune_step d)) = size (nonce_submission d) ->
     nonce_submission (prune_step d) = nonce_submission d)) as [Ln En].
  assert (Hs : (blocks_and_ns (prune_step d) <= blocks_and_ns d)%nat) by (unfold blocks_and_ns; lia).
  destruct (decide (blocks_and_ns (prune_step d) = blocks_and_ns d)) as [E|E].
  - assert (Hc : closed (Nat.iter 2 prune_step d)).
    { apply settled; [apply Eb|apply En]; unfold blocks_and_ns in E; lia. }
    rewrite Nat.iter_add. rewrite iter_closed; [done|]. exact Hc.
  - destruct n as [|n]; [lia|]. assert (Hc : closed (Nat.iter (n + 2) prune_step (prune_step d))) by (apply IH; [lia|]; lia).
    by rewrite <- Nat.iter_succ_r in Hc.
Qed.

Lemma prune_closed d : closed (prune d).
Proof.
  unfold prune. fold (blocks_and_ns d).
  replace (blocks_and_ns d + 3)%nat with (S (blocks_and_ns d) + 2)%nat by lia. apply prune_closes. lia.
Qed.

(** ** The invariant *)

(** The strings of a row are as long as their columns allow. *)
Record texts_ok (r : account_row) : Prop := {
  tx_address : (char_count (a_address r) <= address_length)%nat;
  tx_name : forall s, a_name r = Some s -> (char_count s <= name_length)%nat;
  tx_interval : forall s, a_payout_interval r = Some s -> (char_count s <= interval_length)%nat
}.

Record block_row_ok (b : block_row) : Prop := {
  bk_signature : (char_count (b_generation_signature b) <= signature_length)%nat;
  bk_reward : forall z, b_reward b = Some z -> is_i64 z
}.

(** [address_UNIQUE] *)
Definition unique_addresses (m : gmap Z account_row) : Prop :=
  forall id1 id2 r1 r2, m !! id1 = Some r1 -> m !! id2 = Some r2 -> a_address r1 = a_address r2 -> id1 = id2.

(** What cascades do not restore. *)
Record rows_ok (d : DB) : Prop := {
  ro_db : wf_db d;
  ro_ns_fresh : forall k, is_Some (nonce_submission d !! k) -> k < next_ns d;
  ro_unique : forall k1 k2 r1 r2, nonce_submission d !! k1 = Some r1 -> nonce_submission d !! k2 = Some r2 ->
    ns_miner r1 = ns_miner r2 -> ns_height r1 = ns_height r2 -> k1 = k2;
  ro_texts : forall id r, account d !! id = Some r -> texts_ok r;
  ro_address : unique_addresses (account d);
  ro_block : forall h b, block d !! h = Some b -> block_row_ok b;
  ro_capacity : forall id c, miner d !! id = Some (Some c) -> is_i64 c;
  ro_amount : forall k r, transaction_recipient d !! k = Some r -> is_i64 (r_amount r)
}.

Record integral (d : DB) : Prop := { in_rows : rows_ok d; in_closed : closed d }.

#[local] Arguments fk : simpl never.

Lemma fk_Some {A} (m : gmap Z A) k : fk m (Some k) = true <-> is_Some (m !! k).
Proof. unfold fk. apply bool_decide_eq_true. Qed.

Lemma fk_mono {A} (m m' : gmap Z A) o : (forall k, is_Some (m !! k) -> is_Some (m' !! k)) -> fk m o = true -> fk m' o = true.
Proof. destruct o as [k|]; [|done]. rewrite !fk_Some. auto. Qed.

Lemma fk_both {A B} (m m' : gmap Z A) (n n' : gmap Z B) o p :
  (forall k, is_Some (m !! k) -> is_Some (m' !! k)) -> (forall k, is_Some (n !! k) -> is_Some (n' !! k)) ->
  fk m o && fk n p = true -> fk m' o && fk n' p = true.
Proof. rewrite !andb_true_iff. intros H1 H2 [? ?]. split; eapply fk_mono; eauto. Qed.

Definition covers {A} (m m' : gmap Z A) : Prop := forall k, is_Some (m !! k) -> is_Some (m' !! k).

Lemma covers_refl {A} (m : gmap Z A) : covers m m.
Proof. by intros k. Qed.

Lemma covers_insert {A} (m : gmap Z A) k x : covers m (<[k := x]> m).
Proof. intros j. rewrite lookup_insert. case_decide; [by eexists|done]. Qed.

Lemma covers_alter {A} (m : gmap Z A) k f : covers m (alter f k m).
Proof. intros j. rewrite lookup_alter. case_decide; [|done]. subst. by rewrite fmap_is_Some. Qed.

Lemma covers_fmap {A} (m : gmap Z A) f : covers m (f <$> m).
Proof. intros j. by rewrite lookup_fmap, fmap_is_Some. Qed.

#[local] Hint Resolve covers_refl covers_insert covers_alter covers_fmap : core.

(** *** Tables *)

Definition row_ok (r : account_row) : Prop :=
  (is_i64 (a_pending r) /\ forall v, a_min_payout_value r = Some v -> is_i64 v) /\ texts_ok r.

Lemma rows_account x d :
  (forall id r, x !! id = Some r -> row_ok r) -> unique_addresses x -> rows_ok d -> rows_ok (with_account x d).
Proof.
  intros Hx Hu [[R1 R2 R3] R4 R5 R6 R7 R8 R9 R10]. split; try done.
  - split; try done. intros id r Hr. by apply (Hx id).
  - intros id r Hr. by apply (Hx id).
Qed.

Lemma integral_account x d :
  covers (account d) x -> (forall id r, x !! id = Some r -> row_ok r) -> unique_addresses x -> integral d ->
  integral (with_account x d).
Proof.
  intros Hc Hx Hu [HR [C1 C2 C3 C4 C5]]. split; [by apply rows_account|]. split; simpl.
  - intros id v H. by eapply fk_mono, C1.
  - intros k r H. eapply fk_both; [done| |by eapply C2]. by auto.
  - intros h b H. eapply fk_both; [done| |by eapply C3]. by auto.
  - done.
  - intros k r H. eapply fk_both; [done| |by eapply C5]. by auto.
Qed.

(** An update of one account that keeps its address. *)
Lemma unique_insert (m : gmap Z account_row) id r r' :
  unique_addresses m -> m !! id = Some r -> a_address r' = a_address r -> unique_addresses (<[id := r']> m).
Proof.
  intros Hu Hr Ea i j x y [[<- <-]|[Hi Hx]]%lookup_insert_Some [[<- <-]|[Hj Hy]]%lookup_insert_Some E; [done| | |by eapply Hu].
  - eapply (Hu id j r y Hr Hy). congruence.
  - eapply (Hu i id x r Hx Hr). congruence.
Qed.

Lemma integral_update id r r' d :
  account d !! id = Some r -> a_address r' = a_address r -> row_ok r' -> integral d ->
  integral (with_account (<[id := r']> (account d)) d).
Proof.
  intros Hr Ha Hok Hd. pose proof Hd as [[[R1 R2 R3] R4 R5 R6 R7 R8 R9 R10] _].
  apply integral_account; [by auto| |by eapply unique_insert|done].
  intros i x [[<- <-]|[_ Hx]]%lookup_insert_Some; [done|]. split; [by apply (R1 i)|by apply (R6 i)].
Qed.

Lemma integral_block x d :
  covers (block d) x ->
  (forall h b, x !! h = Some b -> fk (account d) (b_winner_id b) && fk (nonce_submission d) (b_best b) = true) ->
  (forall h b, x !! h = Some b -> block_row_ok b) ->
  integral d -> integral (with_block x d).
Proof.
  intros Hc Hx Hb [[[R1 R2 R3] R4 R5 R6 R7 R8 R9 R10] [C1 C2 C3 C4 C5]]. split; [by split|]. split; simpl.
  - done.
  - intros k r H. eapply fk_both; [|done|by eapply C2]. by auto.
  - done.
  - intros k t H. by eapply fk_mono, C4.
  - done.
Qed.

Lemma integral_tx x n d :
  covers (transaction d) x -> (forall k, is_Some (x !! k) -> k < n) ->
  (forall k t, x !! k = Some t -> fk (block d) (t_block_height t) = true) ->
  integral d -> integral (with_tx x n d).
Proof.
  intros Hc Hn Hx [[[R1 R2 R3] R4 R5 R6 R7 R8 R9 R10] [C1 C2 C3 C4 C5]]. split; [split; try done; by split|]. split; simpl; try done.
  intros k r H. eapply fk_both; [|done|by eapply C5]. by auto.
Qed.

(** A step of a cascade takes rows away. *)
Lemma rows_prune_step d : rows_ok d -> rows_ok (prune_step d).
Proof.
  intros [[R1 R2 R3] R4 R5 R6 R7 R8 R9 R10]. split; [split; simpl|simpl..].
  - done.
  - intros k [x [Hx _]%map_lookup_filter_Some]. apply R2. by eexists.
  - intros k [x [Hx _]%map_lookup_filter_Some]. apply R3. by eexists.
  - intros k [x [Hx _]%map_lookup_filter_Some]. apply R4. by eexists.
  - intros k1 k2 r1 r2 [H1 _]%map_lookup_filter_Some [H2 _]%map_lookup_filter_Some. by apply R5.
  - done.
  - done.
  - intros h b [Hb _]%map_lookup_filter_Some. by eapply R8.
  - intros id c [Hc _]%map_lookup_filter_Some. by eapply R9.
  - intros k r [Hr _]%map_lookup_filter_Some. by eapply R10.
Qed.

Lemma integral_prune d : rows_ok d -> integral (prune d).
Proof.
  intros Hr. split; [|apply prune_closed]. unfold prune. apply Nat.iter_invariant; [apply rows_prune_step|done].
Qed.

(** *** Statements *)

Definition keeps_schema (f : DB -> result sql_error DB) : Prop := forall d d', integral d -> f d = Ok d' -> integral d'.

Lemma row_of d id r : integral d -> account d !! id = Some r -> row_ok r.
Proof. intros [[[R1 _ _] _ _ R6 _ _ _ _] _] Hr. split; [by apply (R1 id)|by apply (R6 id)]. Qed.

Lemma schema_insert_account id a n : keeps_schema (insert_account id a n).
Proof.
  intros d d' Hd [= <-]. destruct (_ || _) eqn:E; [done|]. apply orb_false_iff in E as [_ E].
  assert (Hnew : forall j x, account d !! j = Some x -> a_address x <> take_chars address_length a).
  { intros j x Hx Ea. rewrite <- not_true_iff_false in E. apply E, existsb_exists. exists (j, x).
    split; [by apply list_elem_of_In, elem_of_map_to_list|by apply bool_decide_eq_true]. }
  apply integral_account; [by auto| | |done].
  - intros i r [[<- <-]|[_ Hr]]%lookup_insert_Some; [|by eapply row_of].
    split; [split; simpl; [unfold is_i64; lia|done]|]. split; simpl; [apply take_chars_count| |done].
    intros s. destruct n; [|done]. intros [= <-]. apply take_chars_count.
  - intros i j x y [[<- <-]|[Hi Hx]]%lookup_insert_Some [[<- <-]|[Hj Hy]]%lookup_insert_Some Eq; [done| | |].
    + by destruct (Hnew j y Hy).
    + by destruct (Hnew i x Hx).
    + destruct Hd as [HR _]. by eapply (ro_address _ HR).
Qed.

Lemma schema_add_pending z id : keeps_schema (add_pending z id).
Proof.
  intros d d' Hd. unfold add_pending. destruct (account d !! id) as [r|] eqn:Hr; [|by intros [= <-]].
  case_bool_decide as Hz; [|done]. intros [= <-]. pose proof (row_of d id r Hd Hr) as [[_ Hm] [T1 T2 T3]].
  eapply integral_update; [done|done| |done]. split; [done|by split].
Qed.

Lemma schema_alter_account f id d :
  (forall r, row_ok r -> row_ok (f r) /\ a_address (f r) = a_address r) -> integral d ->
  integral (with_account (alter f id (account d)) d).
Proof.
  intros Hf Hd. destruct (account d !! id) as [r|] eqn:Hr.
  - destruct (Hf r (row_of d id r Hd Hr)) as [Hok Ha].
    replace (alter f id (account d)) with (<[id := f r]> (account d)); [by eapply integral_update|].
    apply map_eq. intros j. rewrite lookup_insert, lookup_alter. case_decide; subst; [by rewrite Hr|done].
  - replace (alter f id (account d)) with (account d); [by destruct d|]. apply map_eq. intros j.
    rewrite lookup_alter. case_decide; subst; [by rewrite Hr|done].
Qed.

Lemma schema_set_next_payout_date t id : keeps_schema (set_next_payout_date t id).
Proof. intros d d' Hd [= <-]. apply schema_alter_account; [|done]. intros r [? [? ? ?]]. by split. Qed.

Lemma schema_set_account_name n id : keeps_schema (set_account_name n id).
Proof.
  intros d d' Hd. unfold set_account_name. destruct (account d !! id) as [r|] eqn:Hr.
  - rewrite bool_decide_eq_true_2 by (by eexists). destruct (Nat.ltb_spec name_length (char_count n)) as [|Hle]; [done|].
    intros [= <-]. apply schema_alter_account; [|done]. intros x [Hx [T1 T2 T3]]. split; [|done]. split; [done|].
    split; simpl; [done| |done]. by intros s [= <-].
  - intros E. replace d' with d; [done|]. rewrite bool_decide_eq_false_2 in E by (by intros []). injection E as <-.
    replace (alter _ _ _) with (account d); [by destruct d|]. apply map_eq. intros j.
    rewrite lookup_alter. case_decide; subst; [by rewrite Hr|done].
Qed.

Lemma schema_set_payout m i n c id :
  (forall v, m = Some v -> is_i64 v) -> (forall s, i = Some s -> (char_count s <= interval_length)%nat) ->
  keeps_schema (set_payout m i n c id).
Proof.
  intros Hm Hi d d' Hd. unfold set_payout. destruct (account d !! id) as [r|] eqn:Hr; [|by intros [= <-]].
  case_bool_decide as Hz; [|done]. intros [= <-]. pose proof (row_of d id r Hd Hr) as [_ [T1 T2 T3]].
  eapply integral_update; [done|done| |done]. split; [done|by split].
Qed.

Lemma schema_insert_miner id : keeps_schema (insert_miner id).
Proof.
  intros d d' Hd [= <-]. destruct (bool_decide _ || _) eqn:E; [done|]. apply orb_false_iff in E as [_ E%negb_false_iff].
  destruct Hd as [[[R1 R2 R3] R4 R5 R6 R7 R8 R9 R10] [C1 C2 C3 C4 C5]]. split; [split; simpl; try done; try by split|split; simpl; try done].
  - intros i c [[<- ?]|[_ Hx]]%lookup_insert_Some; [done|by eapply R9].
  - intros i x [[<- _]|[_ Hx]]%lookup_insert_Some; [done|by eapply C1].
Qed.

Lemma schema_set_capacity c id : is_i64 c -> keeps_schema (set_capacity c id).
Proof.
  intros Hr d d' Hd [= <-]. destruct Hd as [[[R1 R2 R3] R4 R5 R6 R7 R8 R9 R10] [C1 C2 C3 C4 C5]].
  split; [split; simpl; try done; try by split|split; simpl; try done].
  - intros i x [(-> & y & Hy & [= ->])|[_ Hx]]%lookup_alter_Some; [done|by eapply R9].
  - intros i x [(-> & y & Hy & ->)|[_ Hx]]%lookup_alter_Some; by eapply C1.
Qed.

Lemma block_ok d h b : integral d -> block d !! h = Some b ->
  fk (account d) (b_winner_id b) && fk (nonce_submission d) (b_best b) = true.
Proof. intros [_ [_ _ C3 _ _]]. apply C3. Qed.

Lemma block_row_of d h b : integral d -> block d !! h = Some b -> block_row_ok b.
Proof. intros [HR _]. apply (ro_block _ HR). Qed.

Lemma schema_insert_block h r :
  b_winner_id r = None -> b_best r = None -> block_row_ok r -> keeps_schema (insert_block h r).
Proof.
  intros Hw Hb Hok d d' Hd. unfold insert_block. case_bool_decide; [done|]. intros [= <-].
  apply integral_block; [by auto| | |done].
  - intros i x [[<- <-]|[_ Hx]]%lookup_insert_Some; [by rewrite Hw, Hb|by eapply block_ok].
  - intros i x [[<- <-]|[_ Hx]]%lookup_insert_Some; [done|by eapply block_row_of].
Qed.

Lemma schema_alter_block (f : DB -> block_row -> block_row) h :
  (forall d b, block_row_ok b -> block_row_ok (f d b)) ->
  (forall d b, integral d -> fk (account d) (b_winner_id b) && fk (nonce_submission d) (b_best b) = true ->
     fk (account d) (b_winner_id (f d b)) && fk (nonce_submission d) (b_best (f d b)) = true) ->
  keeps_schema (fun d => Ok (with_block (alter (f d) h (block d)) d)).
Proof.
  intros Hok Hf d d' Hd [= <-]. apply integral_block; [by auto| | |done].
  - intros i x [(-> & y & Hy & ->)|[_ Hx]]%lookup_alter_Some; [apply Hf; [done|]|]; by eapply block_ok.
  - intros i x [(-> & y & Hy & ->)|[_ Hx]]%lookup_alter_Some; [apply Hok|]; by eapply block_row_of.
Qed.

Lemma schema_set_generation_time t h : keeps_schema (set_generation_time t h).
Proof. apply (schema_alter_block (fun _ _ => _)); [|done]. intros _ b [? ?]. by split. Qed.
Lemma set_verified_ok b : block_row_ok b -> block_row_ok (set_verified b).
Proof. intros [? ?]. by split. Qed.
Lemma set_best_ok k b : block_row_ok b -> block_row_ok (set_best k b).
Proof. intros [? ?]. by split. Qed.
Lemma schema_verify_block h : keeps_schema (verify_block h).
Proof. apply (schema_alter_block (fun _ => set_verified)); [intros _; apply set_verified_ok|done]. Qed.

Lemma find_ns_Some h m d k : find_ns h m d = Some k -> is_Some (nonce_submission d !! k).
Proof.
  unfold find_ns. intros (x & E & ->)%fmap_Some. destruct x as [i [k' r]]. apply list_find_Some in E as (E & _).
  apply list_elem_of_lookup_2, elem_of_map_to_list in E. by eexists.
Qed.

Lemma schema_update_best m h : keeps_schema (update_best m h).
Proof.
  apply (schema_alter_block (fun d => set_best (find_ns h m d))); [intros d; apply set_best_ok|]. intros d b _ [H1 _]%andb_true_iff.
  apply andb_true_iff. split; [done|]. simpl. destruct (find_ns h m d) eqn:E; [|done]. apply fk_Some. by eapply find_ns_Some.
Qed.

Lemma schema_update_won_block re w h : is_i64 re -> keeps_schema (update_won_block re w h).
Proof.
  intros Hre d d' Hd. unfold update_won_block. destruct (block d !! h) as [r|] eqn:Hr; [|by intros [= <-]].
  destruct (fk (account d) (Some w)) eqn:Hw; [|done]. intros [= <-]. apply integral_block; [by auto| | |done].
  - intros i x [[<- <-]|[_ Hx]]%lookup_insert_Some; [|by eapply block_ok].
    apply andb_true_iff. split; [exact Hw|]. pose proof (block_ok d h r Hd Hr) as [_ ?]%andb_true_iff. done.
  - intros i x [[<- <-]|[_ Hx]]%lookup_insert_Some; [|by eapply block_row_of].
    destruct (block_row_of d h r Hd Hr). split; simpl; [done|]. by intros z [= <-].
Qed.

Lemma schema_insert_ns m h dl n : keeps_schema (insert_ns m h dl n).
Proof.
  intros d d' Hd. unfold insert_ns. case_bool_decide as Hnew; [done|].
  destruct (fk (account d) (Some m) && fk (block d) (Some h)) eqn:Hfk; [|done]. intros [= <-].
  destruct Hd as [[[R1 R2 R3] R4 R5 R6 R7 R8 R9 R10] [C1 C2 C3 C4 C5]].
  assert (Hf : find_ns h m d = None) by (destruct (find_ns h m d); [by destruct Hnew; eexists|done]).
  pose proof (fun k r Hk Hh Hm => find_ns_None h m d k r Hf Hk Hm Hh) as Hno.
  assert (Hfresh : forall k r, nonce_submission d !! k = Some r -> k <> next_ns d).
  { intros k r Hk ->. assert (next_ns d < next_ns d) by (apply R4; by eexists). lia. }
  split; [split; simpl; try done; try by split|split; simpl].
  - intros k [x [[<- _]|[_ Hx]]%lookup_insert_Some]; [lia|]. assert (k < next_ns d) by (apply R4; by eexists). lia.
  - intros k1 k2 r1 r2 [[<- <-]|[_ H1]]%lookup_insert_Some [[<- <-]|[_ H2]]%lookup_insert_Some; simpl; [done| | |by apply R5].
    + intros E1 E2. exfalso. by eapply Hno.
    + intros E1 E2. exfalso. by eapply Hno.
  - done.
  - intros k r [[<- <-]|[_ Hx]]%lookup_insert_Some; [done|by eapply C2].
  - intros i b Hb. eapply fk_both; [done| |by eapply C3]. apply covers_insert.
  - done.
  - done.
Qed.

Lemma schema_update_ns dl n m h : keeps_schema (update_ns dl n m h).
Proof.
  intros d d' [[[R1 R2 R3] R4 R5 R6 R7 R8 R9 R10] [C1 C2 C3 C4 C5]] [= <-].
  set (f := fun r => if (ns_miner r =? m) && (ns_height r =? h) then mk_ns m h dl n else r).
  assert (Hf : forall r, ns_miner (f r) = ns_miner r /\ ns_height (f r) = ns_height r).
  { intros r. unfold f. destruct (Z.eqb_spec (ns_miner r) m), (Z.eqb_spec (ns_height r) h); simpl; done. }
  split; [split|split]; simpl; fold f; try done; try by split.
  - intros k. rewrite lookup_fmap, fmap_is_Some. apply R4.
  - intros k1 k2 r1 r2. rewrite !lookup_fmap. intros (x1 & H1 & ->)%fmap_Some (x2 & H2 & ->)%fmap_Some.
    destruct (Hf x1) as [-> ->], (Hf x2) as [-> ->]. by apply R5.
  - intros k r. rewrite lookup_fmap. intros (x & Hx & ->)%fmap_Some. destruct (Hf x) as [-> ->]. by eapply C2.
  - intros i b Hb. eapply fk_both; [done| |by eapply C3]. apply covers_fmap.
Qed.

Lemma schema_insert_tx t d k d' : integral d -> insert_tx t d = Ok (k, d') -> integral d'.
Proof.
  intros Hd [= <- <-]. apply integral_tx; [by auto|..|done].
  - intros k [x [[<- _]|[_ Hx]]%lookup_insert_Some]; [lia|].
    assert (k < next_tx d) by (apply Hd; by eexists). lia.
  - intros k r [[<- <-]|[_ Hx]]%lookup_insert_Some; [done|]. destruct Hd as [_ [_ _ _ C4 _]]. by eapply C4.
Qed.

Lemma schema_insert_recipient t r a : is_i64 a -> keeps_schema (insert_recipient t r a).
Proof.
  intros Ha d d' [[[R1 R2 R3] R4 R5 R6 R7 R8 R9 R10] [C1 C2 C3 C4 C5]]. unfold insert_recipient.
  destruct (fk (transaction d) (Some t) && fk (account d) (Some r)) eqn:Hfk; [|done]. intros [= <-].
  split; [split; [split|..]|split]; simpl; try done.
  - intros k [x [[<- _]|[_ Hx]]%lookup_insert_Some]; [lia|]. assert (k < next_recipient d) by (apply R3; by eexists). lia.
  - intros k x [[<- <-]|[_ Hx]]%lookup_insert_Some; [done|by eapply R10].
  - intros k x [[<- <-]|[_ Hx]]%lookup_insert_Some; [|by eapply C5]. simpl. by rewrite andb_comm.
Qed.

(** Updates of transactions that do not change the block. *)
Lemma schema_map_tx (f : tx_row -> tx_row) x d :
  (forall r, t_block_height (f r) = t_block_height r) ->
  (forall k r, x !! k = Some r -> exists r0, transaction d !! k = Some r0 /\ (r = r0 \/ r = f r0)) ->
  covers (transaction d) x -> integral d -> integral (with_tx x (next_tx d) d).
Proof.
  intros Hf Hx Hc Hd. apply integral_tx; [done|..|done].
  - intros k [r Hr]. destruct (Hx k r Hr) as (r0 & H0 & _). apply Hd. by eexists.
  - intros k r Hr. destruct (Hx k r Hr) as (r0 & H0 & [->| ->]); rewrite ?Hf;
      destruct Hd as [_ [_ _ _ C4 _]]; by eapply C4.
Qed.

Lemma schema_set_tx_id t n i : keeps_schema (set_tx_id t n i).
Proof.
  intros d d' Hd [= <-]. apply (schema_map_tx (fun r => mk_tx (Some t) (t_block_height r) (sql_now n))); [done| |by auto|done].
  intros k r [(-> & y & Hy & ->)|[_ Hx]]%lookup_alter_Some; [exists y; by auto|exists r; by auto].
Qed.

Lemma schema_clear_tx_id t : keeps_schema (clear_tx_id t).
Proof.
  intros d d' Hd [= <-]. apply (schema_map_tx (fun r => mk_tx None (t_block_height r) (t_created r))); [done| |by auto|done].
  intros k r. rewrite lookup_fmap. intros (y & Hy & ->)%fmap_Some. exists y. split; [done|]. case_bool_decide; by auto.
Qed.

Lemma rows_filter_tx P `{!forall x : Z * tx_row, Decision (P x)} d : rows_ok d -> rows_ok (with_tx (filter P (transaction d)) (next_tx d) d).
Proof.
  intros [[R1 R2 R3] R4 R5 R6 R7 R8 R9 R10]. split; [split|..]; simpl; try done.
  intros k [x [Hx _]%map_lookup_filter_Some]. apply R2. by eexists.
Qed.

Lemma schema_confirm_tx h t : keeps_schema (confirm_tx h t).
Proof.
  intros d d' Hd. unfold confirm_tx. case_bool_decide as Hb; intros [= <-].
  - apply integral_tx; [by auto|..|done].
    + intros k. rewrite lookup_fmap, fmap_is_Some. apply Hd.
    + intros k r. rewrite lookup_fmap. intros (y & Hy & ->)%fmap_Some. case_bool_decide.
      * simpl. by apply fk_Some.
      * destruct Hd as [_ [_ _ _ C4 _]]. by eapply C4.
  - apply integral_prune, rows_filter_tx, Hd.
Qed.

Lemma best_ns_Some keys h d k : best_ns keys h d = Some k -> is_Some (nonce_submission d !! k).
Proof.
  unfold best_ns. assert (H0 : forall k, None = Some k -> is_Some (nonce_submission d !! k)) by done. revert H0.
  generalize (@None Z) as best. induction keys as [|x keys IH]; intros best Hb; simpl; [apply Hb|].
  apply IH. intros k'. destruct (nonce_submission d !! x) as [r|] eqn:Ex; [|apply Hb].
  destruct (negb _); [apply Hb|]. destruct (best ≫= _); [destruct (_ <? _); [|apply Hb]|]; intros [= <-]; by eexists.
Qed.

Lemma schema_imap_block (f : Z -> block_row -> block_row) d :
  (forall h b, block_row_ok b -> block_row_ok (f h b)) ->
  (forall h b, fk (account d) (b_winner_id b) && fk (nonce_submission d) (b_best b) = true ->
     fk (account d) (b_winner_id (f h b)) && fk (nonce_submission d) (b_best (f h b)) = true) ->
  integral d -> integral (with_block (map_imap (fun h b => Some (f h b)) (block d)) d).
Proof.
  intros Hok Hf Hd. apply integral_block; [| | |done].
  - intros h [b Hb]. rewrite map_lookup_imap, Hb. by eexists.
  - intros h b. rewrite map_lookup_imap. intros (x & Hx & [= <-])%bind_Some. apply Hf. by eapply block_ok.
  - intros h b. rewrite map_lookup_imap. intros (x & Hx & [= <-])%bind_Some. apply Hok. by eapply block_row_of.
Qed.

Lemma schema_update_best_of_rewardable keys m t : keeps_schema (update_best_of_rewardable keys m t).
Proof.
  intros d d' Hd [= <-]. apply (schema_imap_block (fun h b => if rewardable m t h b then set_best (best_ns keys h d) b else b)); [| |done].
  { intros h b Hb. destruct (rewardable m t h b); [by apply set_best_ok|done]. }
  intros h b. destruct (rewardable m t h b); [|done]. intros [H1 _]%andb_true_iff. apply andb_true_iff. split; [done|]. simpl.
  destruct (best_ns keys h d) eqn:E; [|done]. apply fk_Some. by eapply best_ns_Some.
Qed.

Lemma schema_verify_empty m t : keeps_schema (verify_empty m t).
Proof.
  intros d d' Hd [= <-].
  apply (schema_imap_block (fun h b => if rewardable m t h b && bool_decide (b_best b = None) then set_verified b else b)); [| |done].
  { intros h b Hb. destruct (_ && _); [by apply set_verified_ok|done]. }
  intros h b. by destruct (rewardable m t h b && _).
Qed.

Lemma schema_delete_blocks_below h : keeps_schema (delete_blocks_below h).
Proof. intros d d' Hd [= <-]. apply integral_prune. destruct Hd as [[[R1 R2 R3] R4 R5 R6 R7 R8 R9 R10] _].
  split; try done. intros i b [Hb _]%map_lookup_filter_Some. by eapply R8.
Qed.

Lemma schema_delete_idle_miners : keeps_schema delete_idle_miners.
Proof.
  intros d d' [[[R1 R2 R3] R4 R5 R6 R7 R8 R9 R10] [C1 C2 C3 C4 C5]] [= <-]. split; [split; simpl; try done; try by split|split; simpl; try done].
  - intros id x [Hx _]%map_lookup_filter_Some. by eapply R9.
  - intros id x [Hx _]%map_lookup_filter_Some. by eapply C1.
Qed.

Lemma schema_transfer_pending fee : keeps_schema (transfer_pending fee).
Proof.
  intros d d' Hd. unfold transfer_pending. destruct (account d !! fee) as [r|] eqn:Hr; [|by intros [= <-]].
  destruct (_ =? _)%nat; [done|]. case_bool_decide as Hs; [|done]. intros [= <-].
  pose proof (row_of d fee r Hd Hr) as [[_ Hm] [T1 T2 T3]]. eapply integral_update; [done|done| |done].
  split; [split; simpl|by split]; [by replace (a_pending r + _) with (sum_values a_pending (orphans d)) by lia|done].
Qed.

Lemma schema_delete_old_accounts fee : keeps_schema (delete_old_accounts fee).
Proof.
  intros d d' Hd [= <-]. apply integral_prune, rows_account; [| |apply Hd].
  - intros i x [Hx _]%map_lookup_filter_Some. by eapply row_of.
  - intros i j x y [Hx _]%map_lookup_filter_Some [Hy _]%map_lookup_filter_Some. destruct Hd as [HR _].
    by eapply (ro_address _ HR).
Qed.

(** ** The empty database, and those that statements make of it *)

Lemma no_row {A} k (P : A -> Prop) x : (∅ : gmap Z A) !! k = Some x -> P x.
Proof. by rewrite lookup_empty. Qed.

Lemma no_rows {A} k : ~ is_Some ((∅ : gmap Z A) !! k).
Proof. rewrite lookup_empty. by intros []. Qed.

Lemma integral_empty : integral empty_DB.
Proof.
  assert (Hno : forall A k, is_Some ((∅ : gmap Z A) !! k) -> k < 1) by (intros A k Hk; by destruct (no_rows k Hk)).
  split; split; [split; [|apply Hno|apply Hno]|apply Hno|..];
    first [intros k r Hr; destruct (no_row k (fun _ => False) r Hr)
          |intros k1 k2 r1 r2 Hr; destruct (no_row k1 (fun _ => False) r1 Hr)
          |intros k c Hc; destruct (no_row k (fun _ => False) (Some c) Hc)].
Qed.

(** A list of statements, each of which must succeed. *)
Fixpoint run_statements (l : list (DB -> result sql_error DB)) (d : DB) : option DB :=
  match l with
  | [] => Some d
  | f :: l' => match f d with Ok d' => run_statements l' d' | Err _ => None end
  end.

Lemma integral_run l d d' : Forall keeps_schema l -> integral d -> run_statements l d = Some d' -> integral d'.
Proof.
  intros Hl. revert d. induction Hl as [|f l Hf Hl IH]; intros d Hd; simpl; [by intros [= <-]|].
  destruct (f d) as [d1|] eqn:E; [|done]. apply IH. by eapply Hf.
Qed.
