(* ===== verification/SchemaRuns.v ===== *)
(** * The operations keep the integrity of the database

    Every operation of the pool, run on a database with the integrity of
    [Schema], leaves one, whether it succeeds, fails or panics. *)

From Stdlib Require Import Ascii String.
From S2P Require Import Prelude GoStrings GoFloat GoParse RSEncoding Burstmath Config Blocks Shares Miner DB Cache.
From S2P Require Import Wallet World Payout Rewards Modelx Schema.
Open Scope list_scope.
Open Scope Z_scope.
Import GoInt.

(** ** Numbers that are read *)

Lemma parse_digits_range n s z : 0 <= n -> parse_digits n s = Ok z -> 0 <= z.
Proof.
  revert n. induction s as [|c s IH]; intros n Hn; simpl; [by intros [= <-]|].
  destruct ((48 <=? c) && (c <=? 57)) eqn:E; [|done]. zbool. destruct (_ <=? n); [done|]. destruct (_ <? _); [done|].
  apply IH. lia.
Qed.

Lemma ParseInt_range s z : ParseInt s = Ok z -> is_i64 z.
Proof.
  unfold ParseInt. destruct (sign_of s) as [neg s']. destruct (ParseUint s') as [un|e] eqn:E; [|done].
  assert (0 <= un) by (destruct s'; [done|by eapply (parse_digits_range 0)]).
  destruct neg; cbn [negb andb]; [destruct (Z.ltb_spec (2 ^ 63) un)|destruct (Z.leb_spec (2 ^ 63) un)]; try done;
    intros [= <-]; unfold is_i64; lia.
Qed.

Lemma to_int64_range f : is_i64 (to_int64 f).
Proof. unfold to_int64. destruct (trunc f) as [z|]; [case_bool_decide; [done|]|]; unfold is_i64; lia. Qed.

(** ** Worlds *)

Definition schema (w w' : World) : Prop := integral (db w) -> integral (db w').

#[export] Instance schema_preorder : PreOrder schema.
Proof. unfold schema. split; [by intros w|]. intros w1 w2 w3. auto. Qed.

Create HintDb schema.

Section Primitives.
Context `{Env}.

Lemma schema_same {A} (c : M A) : (forall w, db (c w).2 = db w) -> preserves schema c.
Proof. intros Hc w. unfold schema. by rewrite Hc. Qed.

Lemma schema_ret {A} (a : A) : preserves schema (mret a). Proof. by apply schema_same. Qed.
Lemma schema_panic {A} : preserves schema (@panic A). Proof. by apply schema_same. Qed.
Lemma schema_get {A} (f : World -> A) : preserves schema (get f). Proof. by apply schema_same. Qed.
Lemma schema_of_option {A} (o : option A) : preserves schema (of_option o). Proof. apply schema_same. by destruct o. Qed.
Lemma schema_now : preserves schema now. Proof. by apply schema_same. Qed.
Lemma schema_call {A} (f : nat -> A) : preserves schema (call f). Proof. by apply schema_same. Qed.
Lemma schema_range_keys l : preserves schema (range_keys l). Proof. by apply schema_same. Qed.
Lemma schema_with_cache f : preserves schema (with_cache f). Proof. by apply schema_same. Qed.
Lemma schema_log p : preserves schema (log_payment p). Proof. by apply schema_same. Qed.
Lemma schema_new_object m : preserves schema (new_object m). Proof. by apply schema_same. Qed.
Lemma schema_Select {A} (q : DB -> A) : preserves schema (Select q).
Proof. apply schema_same. intros w. unfold Select, step, get, mret, M_ret, mbind, M_bind. simpl. by destruct (db_fault _). Qed.
Lemma schema_TrySelect {A} (q : DB -> result sql_error A) : preserves schema (TrySelect q).
Proof. apply schema_same. intros w. unfold TrySelect, step, get, mret, M_ret, mbind, M_bind. simpl. by destruct (db_fault _). Qed.
Lemma schema_miner_at a : preserves schema (miner_at a).
Proof. apply schema_same. intros w. unfold miner_at, get, mbind, M_bind. simpl. by destruct (_ !! a). Qed.
Lemma schema_try_update_miner a f : preserves schema (try_update_miner a f).
Proof.
  apply schema_same. intros w. unfold try_update_miner, miner_at, set_miner, get, modify, mbind, M_bind. simpl.
  destruct (_ !! a) as [m|]; [|done]. simpl. by destruct (f m).
Qed.
Lemma schema_update_miner a f : preserves schema (update_miner a f).
Proof. apply (schema_try_update_miner a (fun m => Some (f m))). Qed.

Lemma schema_Exec f : keeps_schema f -> preserves schema (Exec f).
Proof.
  intros Hf w Hw. unfold Exec, step, get, modify, mret, M_ret, mbind, M_bind. simpl. destruct (db_fault _); [done|].
  simpl. destruct (f (db w)) as [d|e] eqn:E; [|done]. simpl. by eapply Hf.
Qed.
Lemma schema_MustExec f : keeps_schema f -> preserves schema (MustExec f).
Proof.
  intros Hf w Hw. rewrite MustExec_run. simpl. destruct (db_fault _); [done|].
  destruct (f (db w)) as [d|e] eqn:E; [|done]. simpl. by eapply Hf.
Qed.

Lemma schema_MinerRange f : (forall id a, preserves schema (f id a)) -> preserves schema (MinerRange f).
Proof.
  intros Hf. apply preserves_bind; [apply _|apply schema_get|]. intros c.
  apply preserves_bind; [apply _|apply schema_range_keys|]. intros keys.
  apply preserves_for_each; [apply _|]. intros id. apply preserves_bind; [apply _|apply schema_get|].
  intros c'. destruct (miners c' !! id); [apply Hf|apply schema_ret].
Qed.

(** ** Transactions *)

(** [c] leaves the database alone, and if it succeeds, its result has [Q]. *)
Definition gives {E A} (Q : A -> Prop) (c : M (result E A)) : Prop :=
  forall w, db (c w).2 = db w /\ forall a w', c w = (Some (Ok a), w') -> Q a.

Lemma gives_ret {E A} (Q : A -> Prop) (a : A) : Q a -> gives (E := E) Q (mret (Ok a)).
Proof. intros Ha w. split; [done|]. by intros a' w' [= <- _]. Qed.

Lemma gives_panic {E A} (Q : A -> Prop) : gives (E := E) Q (@panic (result E A)).
Proof. by intros w. Qed.

Lemma gives_TxExec {A} (Q : A -> Prop) (f : DB -> result sql_error A) tx :
  (forall a, f tx = Ok a -> Q a) -> gives Q (TxExec f tx).
Proof.
  intros Hf w. unfold TxExec, step, mret, M_ret, mbind, M_bind. simpl. destruct (db_fault _); simpl; (split; [done|]).
  - done.
  - intros a w' [= E _]. by apply Hf.
Qed.

Lemma gives_Prepare tx (Q : DB -> Prop) : Q tx -> gives Q (Prepare tx).
Proof.
  intros Hq w. unfold Prepare, step, mret, M_ret, mbind, M_bind. simpl. destruct (db_fault _); simpl; (split; [done|]); [done|].
  by intros a w' [= <- _].
Qed.

Lemma gives_and_then {E A B} (Q : A -> Prop) (R : B -> Prop) (c : M (result E A)) k :
  gives Q c -> (forall a, Q a -> gives R (k a)) -> gives R (and_then c k).
Proof.
  intros Hc Hk w. destruct (Hc w) as [Hd Hq]. unfold and_then, mbind, M_bind.
  destruct (c w) as [[[a|e]|] w1] eqn:Ec; simpl in *; [|by split|by split].
  destruct (Hk a (Hq a w1 eq_refl) w1) as [Hd' Hr]. split; [congruence|done].
Qed.

Lemma gives_now {E A} (Q : A -> Prop) (k : Z -> M (result E A)) : (forall t, gives Q (k t)) -> gives Q (t ← now; k t).
Proof. intros Hk w. rewrite now_bind. apply (Hk (clock (tick w)) (set_tick (S (tick w)) w)). Qed.

Lemma gives_tx_each {A} (Q : DB -> Prop) (l : list A) body tx :
  (forall a tx, Q tx -> gives Q (body a tx)) -> Q tx -> gives Q (tx_each l body tx).
Proof.
  intros Hb. revert tx. induction l as [|a l IH]; intros tx Hq; simpl; [by apply gives_ret|].
  eapply gives_and_then; [by apply Hb|]. apply IH.
Qed.

(** The copy of the database that [Begin] gives, and the one [Commit] installs. *)
Lemma schema_transaction {A} (body : DB -> M (result sql_error DB)) (k : result sql_error unit -> M A) :
  (forall tx, integral tx -> gives integral (body tx)) -> (forall r, preserves schema (k r)) ->
  preserves schema (r ← and_then Begin (fun tx => and_then (body tx) (fun tx => Commit tx)); k r).
Proof.
  intros Hb Hk. apply preserves_bind; [apply _| |done]. intros w Hw.
  unfold and_then at 1, Begin, Select, step, get, mret, M_ret, mbind, M_bind. simpl. destruct (db_fault (tick w)); [done|]. simpl.
  destruct (Hb (db w) Hw (set_tick (S (tick w)) w)) as [Hd Hq]. unfold and_then, mbind, M_bind. simpl in *.
  destruct (body (db w) (set_tick (S (tick w)) w)) as [[[tx|e]|] w1]; simpl in *; [|congruence..].
  unfold Commit, step, modify, mret, M_ret, mbind, M_bind. simpl. destruct (db_fault (tick w1)); simpl; [congruence|].
  by eapply Hq.
Qed.

(** A transaction that is committed by hand, ignoring the error. *)
Lemma schema_commit {A} (body : DB -> M (result sql_error DB)) (k : M A) (f : sql_error -> M A) :
  (forall tx, integral tx -> gives integral (body tx)) -> preserves schema k -> (forall e, preserves schema (f e)) ->
  preserves schema (r ← and_then Begin body; match r with Ok tx => Commit tx ;; k | Err e => f e end).
Proof.
  intros Hb Hk Hf w Hw. unfold mbind at 1, M_bind at 1.
  unfold and_then at 1, Begin, Select, step, get, mret, M_ret, mbind, M_bind. simpl.
  destruct (db_fault (tick w)); simpl; [by apply Hf|].
  destruct (Hb (db w) Hw (set_tick (S (tick w)) w)) as [Hd Hq]. simpl in *.
  destruct (body (db w) (set_tick (S (tick w)) w)) as [[[tx|e]|] w1]; simpl in *; [|apply Hf; congruence|congruence].
  unfold Commit, step, modify, mret, M_ret, mbind, M_bind. simpl. destruct (db_fault (tick w1)); simpl; apply Hk; simpl;
    [congruence|by eapply Hq].
Qed.
End Primitives.

#[export] Hint Resolve schema_ret schema_panic schema_get schema_of_option schema_now schema_call schema_range_keys
  schema_with_cache schema_log schema_new_object schema_Select schema_TrySelect schema_miner_at schema_try_update_miner
  schema_update_miner : schema.

(** Decomposes an operation along its control structure. *)
Ltac hold :=
  repeat match goal with
  | |- forall _, _ => intro
  | |- preserves _ (_ ≫= _) => apply preserves_bind; [apply _| |]
  | |- preserves _ (for_each _ _) => apply preserves_for_each; [apply _|]
  | |- preserves _ (MinerRange _) => apply schema_MinerRange
  | |- preserves _ (match ?x with _ => _ end) => destruct x
  | |- preserves _ (Exec _) => apply schema_Exec
  | |- preserves _ (MustExec _) => apply schema_MustExec
  | |- preserves _ _ => solve [auto with schema]
  end.

(** ** Operations *)

Section Operations.
Context `{Env}.

Definition tx_keeps {A} (c : A -> DB -> M (result sql_error DB)) : Prop :=
  forall a tx, integral tx -> gives integral (c a tx).

Lemma gives_stmt f tx : keeps_schema f -> integral tx -> gives integral (TxExec f tx).
Proof. intros Hf Ht. apply gives_TxExec. intros d. by apply Hf. Qed.

Lemma gives_create_txs n ids tx : integral tx -> gives (fun r => integral r.2) (create_txs n ids tx).
Proof.
  revert ids tx. induction n as [|n IH]; intros ids tx Ht; simpl; [by apply gives_ret|].
  apply gives_now. intros t.
  apply (gives_and_then (fun r : Z * DB => integral r.2)).
  - apply gives_TxExec. intros [k d] Hd. by eapply schema_insert_tx.
  - intros [k d] Hd. by apply IH.
Qed.

Lemma gives_advance info tx : integral tx -> gives integral (advance_payout_date info tx).
Proof.
  intros Ht. unfold advance_payout_date. destruct (p_interval info) as [s|]; [|by apply gives_ret].
  destruct (bool_decide _); [apply gives_now; intros t; apply gives_stmt; [apply schema_set_next_payout_date|done]|].
  destruct (bool_decide _); [apply gives_now; intros t; apply gives_stmt; [apply schema_set_next_payout_date|done]|].
  destruct (bool_decide _); [apply gives_stmt; [apply schema_set_next_payout_date|done]|by apply gives_ret].
Qed.

Lemma gives_pay_account ids : tx_keeps (pay_account ids).
Proof.
  intros [i info] tx Ht. unfold pay_account. eapply gives_and_then; [by apply gives_stmt; [apply schema_add_pending|]|].
  intros tx1 H1. eapply gives_and_then; [by apply gives_advance|]. intros tx2 H2.
  destruct (ids !! _); [|apply gives_panic]. by apply gives_stmt; [apply schema_insert_recipient, i64_range|].
Qed.

Lemma gives_payout_tx infos tx : integral tx -> gives integral (payout_tx infos tx).
Proof.
  intros Ht. unfold payout_tx. cbv zeta.
  eapply gives_and_then; [by apply gives_Prepare|]. intros txa Ha.
  eapply gives_and_then; [by apply gives_Prepare|]. intros txb Hb.
  eapply gives_and_then; [by apply gives_Prepare|]. intros txc Hc.
  eapply gives_and_then; [by apply gives_create_txs|]. intros [ids tx1] H1.
  eapply gives_and_then; [apply gives_tx_each; [apply gives_pay_account|exact H1]|].
  intros tx2 H2. by apply gives_stmt; [apply schema_add_pending|].
Qed.

Lemma schema_createTransactions : preserves schema createTransactions.
Proof.
  unfold createTransactions. apply preserves_bind; [apply _|auto with schema|]. intros t.
  apply preserves_bind; [apply _|auto with schema|]. intros [rows|e]; [|auto with schema].
  apply preserves_bind; [apply _|auto with schema|]. intros ids. cbv zeta. destruct (_ =? _)%nat; [auto with schema|].
  apply schema_transaction; [apply gives_payout_tx|]. intros [u|e]; [|auto with schema]. unfold deduct_cached. hold.
Qed.

Lemma schema_Payout : preserves schema Payout.
Proof.
  unfold Payout, validateTransactions, validate_tx, sendMoney, send_tx, send_recipients. cbv zeta.
  hold; [apply schema_createTransactions|apply schema_confirm_tx|apply schema_clear_tx_id|apply schema_set_tx_id].
Qed.

(** The values a request for a payout sets fit their columns. *)
Definition request_ok (o : option payout_request) : Prop :=
  forall q, o = Some q -> (forall v, q_minPayoutValue q = Some v -> is_i64 v) /\
    (forall s, q_payoutInterval q = Some s -> (char_count s <= interval_length)%nat).

Lemma parse_request_ok msg w o w' : parse_request msg w = (Some o, w') -> request_ok o.
Proof.
  unfold parse_request.
  repeat (destruct (bool_decide _);
    [rewrite now_bind; intros [= <- _] q [= <-]; split; [done|]; intros s [= <-]; by apply Nat.leb_le|]).
  cbv zeta. destruct (ParseInt (bytes msg)) as [z|e] eqn:E.
  - apply ParseInt_range in E. intros [= <- _] q [= <-]. split; [|done]. intros v. simpl.
    destruct (z =? 0); [done|]. by intros [= <-].
  - destruct (ParseFloat (bytes msg)) as [f|e']; intros [= <- _] q; [|done]. intros [= <-]. split; [|done].
    intros v. simpl. destruct (_ =? 0); [done|]. intros [= <-]. apply to_int64_range.
Qed.

Lemma schema_enough_funds id c : keeps_schema (enough_funds id c).
Proof. intros d d' Hd. unfold enough_funds. destruct (account d !! id); [|done]. destruct (_ <=? _); [|done]. by intros [= <-]. Qed.

Lemma gives_set_payout_tx id q tx :
  (forall v, q_minPayoutValue q = Some v -> is_i64 v) ->
  (forall s, q_payoutInterval q = Some s -> (char_count s <= interval_length)%nat) ->
  integral tx -> gives integral (set_payout_tx id q tx).
Proof.
  intros Hq Hi Ht. unfold set_payout_tx. eapply gives_and_then; [by apply gives_stmt; [apply schema_enough_funds|]|].
  intros tx1 H1. eapply gives_and_then; [by apply gives_stmt; [apply schema_set_payout|]|].
  intros tx2 H2. by apply gives_stmt; [apply schema_add_pending|].
Qed.

Lemma schema_process_message id msg : preserves schema (process_message id msg).
Proof.
  intros w Hw. unfold process_message, mbind at 1, M_bind at 1.
  assert (Hp : preserves schema (parse_request msg)) by (unfold parse_request; cbv zeta; hold). specialize (Hp w Hw).
  destruct (parse_request msg w) as [[o|] w1] eqn:E; simpl in *; [|done]. apply parse_request_ok in E.
  destruct o as [q|]; [|done]. assert (Hk : preserves schema (oldMsg ← old_message id q;
      if (oldMsg : bool) then mret tt else
      r ← and_then Begin (set_payout_tx id q);
      match r with Err _ => mret tt | Ok tx => Commit tx ;; charge_cached id q end)).
  { apply preserves_bind; [apply _|unfold old_message; hold|]. intros []; [auto with schema|].
    apply (schema_commit (set_payout_tx id q) (charge_cached id q) (fun _ => mret tt)).
    - intros tx Ht. destruct (E q eq_refl). by apply gives_set_payout_tx.
    - unfold charge_cached. hold.
    - intros e. auto with schema. }
  by apply Hk.
Qed.

Lemma schema_SetMinPayout msgOf : preserves schema (SetMinPayout msgOf).
Proof. unfold SetMinPayout. hold. apply schema_process_message. Qed.

Lemma i32_i64 x : is_i64 (to_int32 x).
Proof.
  unfold to_int32, i32, sint, is_i64. change (32 - 1) with 31.
  pose proof (Z.mod_pos_bound (to_int64 x + 2 ^ 31) (2 ^ 32) ltac:(lia)). lia.
Qed.

Lemma schema_eeps_loop al b rows acc : preserves schema (eeps_loop al b rows acc).
Proof. revert acc. induction rows as [|[id args] rows IH]; intros acc; simpl; hold; first [apply schema_set_capacity, i32_i64|apply IH]. Qed.

Lemma gives_reward_tx info entries tx : integral tx -> gives integral (reward_tx info entries tx).
Proof.
  intros Ht. unfold reward_tx. eapply gives_and_then; [by apply gives_Prepare|]. intros tx1 H1.
  eapply gives_and_then; [apply gives_tx_each; [|exact H1]; intros a tx2 H2; by apply gives_stmt; [apply schema_add_pending|]|].
  intros tx3 H3. by apply gives_stmt; [apply schema_update_won_block, i64_range|].
Qed.

Lemma schema_rewardBlock info : preserves schema (rewardBlock info).
Proof.
  unfold rewardBlock, GetSharesOnBlock, GetEEPSsOnBlock. apply preserves_bind; [apply _|hold; apply schema_eeps_loop|].
  intros r. cbv zeta. apply preserves_bind; [apply _|auto with schema|]. intros ids.
  apply schema_transaction; [apply gives_reward_tx|]. unfold add_cached. hold.
Qed.

Lemma schema_RewardBlocks : preserves schema RewardBlocks.
Proof.
  unfold RewardBlocks, settle_block. cbv zeta. hold;
    [apply schema_update_best_of_rewardable|apply schema_verify_empty|apply schema_SetMinPayout|apply schema_rewardBlock
    |apply schema_verify_block].
Qed.

(** A generator signature that was decoded fits its column. *)
Lemma decoded_signature sig sigBytes : DecodeGeneratorSignature (bytes sig) = Ok sigBytes -> (char_count sig <= signature_length)%nat.
Proof.
  unfold DecodeGeneratorSignature. destruct (Nat.eqb_spec (List.length (bytes sig)) 64) as [E|]; [|done]. intros _.
  unfold bytes in E. rewrite length_fmap in E. etrans; [apply char_count_length|]. unfold signature_length.
  rewrite <- E. clear. induction sig as [|c sig IH]; simpl; [done|lia].
Qed.

Lemma schema_newBlock bt sig h : preserves schema (newBlock bt sig h).
Proof.
  unfold newBlock, close_block, getGenerationTime, close_round, cacheRewardRecipients. cbv zeta.
  apply preserves_bind; [apply _|auto with schema|]. intros c. destruct (_.2); [auto with schema|].
  destruct (_ && _); [auto with schema|].
  destruct (DecodeGeneratorSignature (bytes sig)) as [sigBytes|e] eqn:E; [|auto with schema].
  apply decoded_signature in E. hold; try apply schema_set_generation_time; by apply schema_insert_block.
Qed.

Lemma schema_refused f e : (forall d, f d = Err e) -> keeps_schema f.
Proof. intros Hf d d' _. by rewrite Hf. Qed.

Lemma schema_MaybeSwitchOrNewBlock bt sig h : preserves schema (MaybeSwitchOrNewBlock bt sig h).
Proof.
  unfold MaybeSwitchOrNewBlock, SwitchOrNewBlock, switchBlock, drop_submissions. cbv zeta.
  hold; [by eapply schema_refused|by eapply schema_refused|apply schema_newBlock].
Qed.

Lemma schema_createMiner id : preserves schema (createMiner id).
Proof.
  unfold createMiner. destruct (_ =? _); [auto with schema|]. apply preserves_bind; [apply _|auto with schema|]. intros ad.
  apply preserves_bind; [apply _|auto with schema|]. intros info. cbv zeta.
  set (n := match info with Ok i => _ | Err _ => _ end).
  assert (Hassoc : forall A (k : result sql_error unit -> M A) w,
    (r ← and_then Begin (fun tx => and_then (TxExec (insert_account id ad (Some n)) tx)
           (fun tx => and_then (TxExec (insert_miner id) tx) (fun tx => Commit tx))); k r) w =
    (r ← and_then Begin (fun tx => and_then (and_then (TxExec (insert_account id ad (Some n)) tx) (TxExec (insert_miner id)))
           (fun tx => Commit tx)); k r) w).
  { intros A k w. unfold mbind, M_bind. unfold and_then at 1 4, mbind, M_bind.
    destruct (Begin w) as [[[tx|e]|] w1]; [|done..]. by rewrite and_then_assoc. }
  intros w. rewrite Hassoc. revert w.
  apply (schema_transaction (fun tx => and_then (TxExec (insert_account id ad (Some n)) tx) (TxExec (insert_miner id)))).
  - intros tx Ht. eapply gives_and_then; [by apply gives_stmt; [apply schema_insert_account|]|].
    intros tx1 H1. by apply gives_stmt; [apply schema_insert_miner|].
  - intros r. auto with schema.
Qed.

Lemma schema_FirstOrCreateMiner id : preserves schema (FirstOrCreateMiner id).
Proof. unfold FirstOrCreateMiner, getMinerFromDB. hold. apply schema_createMiner. Qed.

Lemma schema_UpdateOrCreateNonceSubmission a h d n bt sig : preserves schema (UpdateOrCreateNonceSubmission a h d n bt sig).
Proof.
  unfold UpdateOrCreateNonceSubmission. hold;
    first [apply schema_update_ns|apply schema_MaybeSwitchOrNewBlock|apply schema_insert_ns].
Qed.

Lemma schema_UpdateBestSubmission m h : preserves schema (UpdateBestSubmission m h).
Proof. apply schema_MustExec, schema_update_best. Qed.

Lemma schema_CleanDB : preserves schema CleanDB.
Proof.
  unfold CleanDB. apply preserves_bind; [apply _|auto with schema|]. intros c.
  apply preserves_bind; [apply _|apply schema_MustExec, schema_delete_blocks_below|]. intros _.
  apply preserves_bind; [apply _|apply schema_MustExec, schema_delete_idle_miners|]. intros _.
  assert (Hassoc : forall A (k : result sql_error unit -> M A) w,
    (r ← and_then Begin (fun tx => and_then (TxExec (transfer_pending (FeeAccountID Cfg)) tx)
           (fun tx => and_then (TxExec (delete_old_accounts (FeeAccountID Cfg)) tx) (fun tx => Commit tx))); k r) w =
    (r ← and_then Begin (fun tx => and_then (and_then (TxExec (transfer_pending (FeeAccountID Cfg)) tx)
           (TxExec (delete_old_accounts (FeeAccountID Cfg)))) (fun tx => Commit tx)); k r) w).
  { intros A k w. unfold mbind, M_bind. unfold and_then at 1 4, mbind, M_bind.
    destruct (Begin w) as [[[tx|e]|] w1]; [|done..]. by rewrite and_then_assoc. }
  intros w. rewrite Hassoc. revert w.
  apply (schema_transaction (fun tx => and_then (TxExec (transfer_pending (FeeAccountID Cfg)) tx)
           (TxExec (delete_old_accounts (FeeAccountID Cfg))))).
  - intros tx Ht. eapply gives_and_then; [by apply gives_stmt; [apply schema_transfer_pending|]|].
    intros tx1 H1. by apply gives_stmt; [apply schema_delete_old_accounts|].
  - intros r. auto with schema.
Qed.

Lemma schema_RereadMinerNames : preserves schema RereadMinerNames.
Proof. unfold RereadMinerNames, reread_name. hold. apply schema_set_account_name. Qed.

Lemma schema_NewModelX : preserves schema NewModelX.
Proof.
  unfold NewModelX, createFeeAccount, loadCurrentBlock, cacheMiners, cache_submission, cacheRewardRecipients.
  hold; first [apply schema_insert_account|apply schema_newBlock].
Qed.
End Operations.
