(* ===== verification/RewardBounds.v ===== *)
(** * The reward adds up

    The shares of the miners are [float64] quotients, and each amount is
    rounded on its own: the amounts of a won block add up to its reward all
    the same, up to half a planck for every miner
    ([GetSharesOnBlock_adds_up]), on the error bounds of [FloatError]. *)

From S2P Require Import Prelude GoFloat Config Blocks Shares FloatError Miner DB Cache Wallet World Payout PayoutMoney.
From S2P Require Import PayoutTheorems Rewards RewardTheorems Schema.
Open Scope list_scope.
Open Scope Z_scope.
Import GoInt.

(** ** Sums over maps *)

Lemma sum_le {A} (f g : A -> Z) (m : gmap Z A) :
  (forall k a, m !! k = Some a -> f a <= g a) -> sum_values f m <= sum_values g m.
Proof.
  induction m as [|k a m Hk IH] using map_ind; intros Hle; [done|]. rewrite !sum_insert by done.
  specialize (Hle k a (lookup_insert_eq _ _ _)) as Ha.
  assert (sum_values f m <= sum_values g m); [|lia]. apply IH. intros k' a' Hk'. apply (Hle k').
  rewrite lookup_insert_ne; [done|congruence].
Qed.

Lemma sum_affine {A} (f : A -> Z) c q (m : gmap Z A) :
  sum_values (fun a => c * f a + q) m = c * sum_values f m + q * Z.of_nat (size m).
Proof.
  induction m as [|k a m Hk IH] using map_ind; [simpl; rewrite map_size_empty; unfold sum_values; rewrite !map_fold_empty; lia|].
  rewrite !sum_insert, map_size_insert_None by done. lia.
Qed.

Lemma sum_ext {A} (f g : A -> Z) (m : gmap Z A) :
  (forall a, f a = g a) -> sum_values f m = sum_values g m.
Proof. intros E. apply Z.le_antisymm; apply sum_le; intros; by rewrite E. Qed.

Lemma sum_fmap_reward {A B} (f : B -> Z) (g : A -> B) (m : gmap Z A) :
  sum_values f (g <$> m) = sum_values (f ∘ g) m.
Proof.
  induction m as [|k a m Hk IH] using map_ind; [done|].
  rewrite fmap_insert, !sum_insert; [by rewrite IH|done|by rewrite lookup_fmap, Hk].
Qed.

Lemma sum_nonneg {A} (f : A -> Z) (m : gmap Z A) : (forall a, 0 <= f a) -> 0 <= sum_values f m.
Proof. intros Hf. transitivity (sum_values (fun _ : A => 0 * 0 + 0) m); [rewrite sum_affine; lia|]. by apply sum_le. Qed.

(** Errors add up. *)
Lemma sum_error {A} (f g h : A -> Z) c q (m : gmap Z A) :
  0 <= c -> (forall k a, m !! k = Some a -> c * Z.abs (f a - g a) <= h a + q) ->
  c * Z.abs (sum_values f m - sum_values g m) <= sum_values h m + Z.of_nat (size m) * q.
Proof.
  intros Hc. induction m as [|k a m Hk IH] using map_ind; intros Hm; [by rewrite Z.mul_0_r|].
  rewrite !sum_insert, map_size_insert_None by done.
  specialize (Hm k a (lookup_insert_eq _ _ _)) as Ha.
  assert (Hm' : forall k' a', m !! k' = Some a' -> c * Z.abs (f a' - g a') <= h a' + q).
  { intros k' a' Hk'. apply (Hm k'). rewrite lookup_insert_ne; [done|congruence]. }
  specialize (IH Hm').
  assert (c * Z.abs (f a + sum_values f m - (g a + sum_values g m)) <= c * (Z.abs (f a - g a) + Z.abs (sum_values f m - sum_values g m))).
  { apply Z.mul_le_mono_nonneg_l; lia. }
  lia.
Qed.

Lemma sum_lookup_le {A} (f : A -> Z) (m : gmap Z A) k a :
  (forall k a, m !! k = Some a -> 0 <= f a) -> m !! k = Some a -> f a <= sum_values f m.
Proof.
  intros Hf Hk. rewrite (sum_delete f m k a Hk).
  assert (Hd : sum_values (fun _ : A => 0 * 0 + 0) (delete k m) <= sum_values f (delete k m)).
  { apply sum_le. intros k' a' [_ Hk']%lookup_delete_Some. rewrite Z.add_0_r. by eapply Hf. }
  rewrite sum_affine in Hd. lia.
Qed.

(** ** One share *)

Lemma not_zero s : fin s -> feqb s fzero = false -> 0 < units s.
Proof. destruct s as [[]|[]| |[] m e]; try done. intros [He _]%fin_exponent _. cbn [units]. apply Z.mul_pos_pos; [lia|]. apply Z.pow_pos_nonneg; lia. Qed.

Lemma share_errors e s R :
  fin e -> fin s -> 0 < units s -> 7 * units e <= 8 * units s -> 0 <= R <= 2 ^ 48 ->
  let f := fdiv e s in
  let q := fmul f (of_Z R) in
  prec * Z.abs (units f * units s - units e * one) <= units e * one + prec * units s /\
  prec * Z.abs (units q - units f * R) <= units f * R + prec /\
  0 <= round q /\ 2 * prec * Z.abs (round q * one - units q) <= 2 * units q + (prec * one + one).
Proof.
  intros He Hs Hs0 Hes HR f q. pose proof one_pos as H1. pose proof big_one. pose proof (units_nonneg e).
  destruct (fdiv_error e s He Hs Hs0) as [Hf Ef].
  { rewrite pow_units by lia. replace (2 ^ 1023 * one * units s) with (2 ^ 1023 * units s * one) by ring.
    apply Z.mul_lt_mono_pos_r; [done|]. lia. }
  fold f in Hf, Ef. pose proof (units_nonneg f) as Hf0.
  assert (Hf4 : units f <= 4 * one).
  { apply (Z.mul_le_mono_pos_r _ _ _ Hs0). assert (units e * one <= 2 * units s * one) by (apply Z.mul_le_mono_nonneg_r; lia).
    assert (units s <= units s * one) by nia. unfold prec in *. lia. }
  destruct (of_Z_exact R ltac:(lia)) as [HfR HuR].
  assert (HfRo : units f * R <= 4 * 2 ^ 48 * one).
  { transitivity (4 * one * 2 ^ 48); [|lia]. apply Z.mul_le_mono_nonneg; lia. }
  destruct (fmul_error f (of_Z R) Hf HfR) as [Hq Eq].
  { rewrite HuR. replace (2 ^ (2148 + 1023)) with (2 ^ 1023 * one * one) by (unfold one; by rewrite <- !Z.pow_add_r).
    rewrite Z.mul_assoc. apply Z.mul_lt_mono_pos_r; [done|]. lia. }
  fold q in Hq, Eq. rewrite HuR, Z.mul_assoc, <- Z.mul_sub_distr_r, Z.abs_mul, (Z.abs_eq one) in Eq by lia.
  assert (Eq' : prec * Z.abs (units q - units f * R) <= units f * R + prec).
  { apply (Z.mul_le_mono_pos_r _ _ _ H1). lia. }
  assert (0 <= units f * R) by (apply Z.mul_nonneg_nonneg; lia).
  destruct (round_fin q Hq) as [Hr0 Hr]; [unfold prec in Eq'; lia|].
  split_and!; [exact Ef|exact Eq'|done|lia].
Qed.

(** ** All shares *)

(** The numbers in [m] divided by their sum [s], multiplied by [R] and
    rounded. *)
Lemma rounded_shares (m : gmap Z float64) s R :
  sum_of (Z.of_nat (size m)) s (sum_values units m) -> (forall id e, m !! id = Some e -> fin e) ->
  feqb s fzero = false -> 0 <= R <= 2 ^ 48 -> Z.of_nat (size m) <= 2 ^ 48 -> Z.of_nat (size m) * R <= 2 ^ 48 ->
  (forall id e, m !! id = Some e -> 0 <= round (fmul (fdiv e s) (of_Z R))) /\
  2 * Z.abs (sum_values (fun e => round (fmul (fdiv e s) (of_Z R))) m - R) <= Z.of_nat (size m).
Proof.
  set (n := Z.of_nat (size m)). intros (Hs & HE & Hsum) Hm Hz HR Hn HnR.
  pose proof (not_zero s Hs Hz) as Hs0. pose proof one_pos. pose proof big_one.
  assert (H7 : 7 * sum_values units m <= 8 * units s).
  { assert (2 * n * sum_values units m <= 2 * 2 ^ 48 * sum_values units m) by (apply Z.mul_le_mono_nonneg_r; lia).
    unfold prec in *. lia. }
  assert (Hall : forall id e, m !! id = Some e -> fin e /\ 7 * units e <= 8 * units s).
  { intros id e He. split; [by eapply Hm|]. pose proof (sum_lookup_le units m id e (fun _ a _ => units_nonneg a) He). lia. }
  assert (Herr := fun id e He => share_errors e s R (proj1 (Hall id e He)) Hs Hs0 (proj2 (Hall id e He)) HR).
  split; [intros id e He; by destruct (Herr id e He) as (_ & _ & ? & _)|].
  set (F e := units (fdiv e s)). set (Q e := units (fmul (fdiv e s) (of_Z R))). set (P e := round (fmul (fdiv e s) (of_Z R))).
  pose proof (sum_error (fun e => units s * F e + 0) (fun e => one * units e + 0) (fun e => one * units e + 0) prec (prec * units s) m
    ltac:(done) ltac:(intros id e He; destruct (Herr id e He) as [? _]; unfold F; lia)) as EB.
  pose proof (sum_error Q (fun e => R * F e + 0) (fun e => R * F e + 0) prec prec m
    ltac:(done) ltac:(intros id e He; destruct (Herr id e He) as (_ & ? & _); unfold F, Q; lia)) as EA.
  pose proof (sum_error (fun e => one * P e + 0) Q (fun e => 2 * Q e + 0) (2 * prec) (prec * one + one) m
    ltac:(done) ltac:(intros id e He; destruct (Herr id e He) as (_ & _ & _ & ?); unfold P, Q; lia)) as EP.
  rewrite (sum_affine F (units s) 0), (sum_affine units one 0) in EB. rewrite (sum_affine F R 0) in EA.
  rewrite (sum_affine P one 0), (sum_affine Q 2 0) in EP. fold n in EB, EA, EP.
  destruct (shares_add_up n R one (units s) (sum_values units m) (sum_values F m) (sum_values Q m) (sum_values P m))
    as [Hgoal _]; try done; try lia.
  - apply sum_nonneg. intros e. apply units_nonneg.
  - apply sum_nonneg. intros e. apply units_nonneg.
Qed.

(** ** Capacities *)

(** A table of factors between 0 and 1. *)
Definition good_alphas (al : list float64) : Prop := Forall (fun a => fin a /\ units a <= one) al.

#[export] Instance good_alphas_dec al : Decision (good_alphas al).
Proof. apply _. Defined.

Lemma alpha_good al n : good_alphas al -> fin (alpha al n) /\ units (alpha al n) <= one.
Proof.
  intros Ha. pose proof one_pos. unfold alpha. destruct (n =? 0); [split; [done|simpl; lia]|].
  destruct (_ <? n); [split; [done|by vm_compute]|]. destruct (al !! _) as [a|] eqn:E; [|split; [done|simpl; lia]].
  by apply (Forall_lookup_1 _ _ _ _ Ha E).
Qed.

(** The capacity from [n] deadlines of the total weight [w]. *)
Lemma eeps_fin al n w :
  good_alphas al -> 1 <= n <= 2 ^ 40 -> 0 <= w <= 2 ^ 200 ->
  fin (eeps al n (of_Z w)) /\ units (eeps al n (of_Z w)) <= 2 ^ 150 * one.
Proof.
  intros Ha Hn Hw. pose proof one_pos. unfold eeps.
  destruct (feqb (of_Z w) fzero) eqn:Ez; [split; [done|simpl; lia]|].
  destruct (alpha_good al n Ha) as [Hfa Hua].
  destruct (of_Z_exact 240 ltac:(lia)) as [Hf240 Hu240]. destruct (of_Z_exact (n - 1) ltac:(lia)) as [Hfn Hun].
  destruct (of_Z_exact GenesisBaseTarget ltac:(unfold GenesisBaseTarget; lia)) as [HfG HuG]. unfold GenesisBaseTarget in *.
  destruct (fmul_le (alpha al n) (of_Z 240) 1 240) as [Hf1 Hu1]; try assumption; try lia.
  destruct (fmul_le (fmul (alpha al n) (of_Z 240)) (of_Z (n - 1)) 481 (n - 1)) as [Hf2 Hu2]; try assumption; try lia.
  destruct (of_Z_error w ltac:(lia)) as [Hfw Huw].
  assert (Hw1 : 1 <= w) by (destruct (Z.eq_dec w 0) as [->|]; [discriminate Ez|lia]).
  assert (Hwo : w * one <= 2 ^ 200 * one) by (apply Z.mul_le_mono_nonneg_r; lia).
  assert (Hwo1 : 1 * one <= w * one) by (apply Z.mul_le_mono_nonneg_r; lia).
  set (d := fdiv (of_Z w) (of_Z 18325193796)).
  assert (Hd : fin d /\ one <= 4 * (2 * 18325193796) * units d).
  { split.
    - apply (fdiv_le (of_Z w) (of_Z 18325193796) (2 ^ 201) 1); try assumption; try lia; unfold prec in *; lia.
    - apply (fdiv_ge (of_Z w) (of_Z 18325193796) 2 18325193796); try assumption; try lia; unfold prec in *; lia. }
  destruct Hd as [Hfd Hud].
  destruct (fdiv_le (fmul (fmul (alpha al n) (of_Z 240)) (of_Z (n - 1))) d (2 * (481 * (n - 1)) + 1) (4 * (2 * 18325193796))) as [Hf3 Hu3];
    try assumption; try lia.
  split; [done|]. etransitivity; [exact Hu3|]. apply Z.mul_le_mono_nonneg_r; lia.
Qed.

(** ** The query *)

(** Submissions whose deadlines are not negative, on blocks whose base
    targets are not, and fewer than [2 ^ 40] of them. *)
Record plausible (d : DB) : Prop := {
  pl_deadlines : forall k r, nonce_submission d !! k = Some r -> 0 <= ns_deadline r;
  pl_targets : forall h b, block d !! h = Some b -> 0 <= b_base_target b;
  pl_size : Z.of_nat (size (nonce_submission d)) <= 2 ^ 40
}.

Lemma base_target_nonneg d h : plausible d -> 0 <= base_target_at d h.
Proof.
  intros Hp. unfold base_target_at. destruct (block d !! h) as [b|] eqn:E; [by eapply pl_targets|done].
Qed.

Definition args_ok (n : Z) (a : EEPSArgs) : Prop :=
  1 <= ConfirmedDeadlines a <= n /\ 0 <= WeightedSum a <= n * 2 ^ 64.

Lemma group_by_miner_ok d rows :
  (forall k r, rows !! k = Some r -> 0 <= ns_deadline r * base_target_at d (ns_height r) < 2 ^ 64) ->
  (forall id a, group_by_miner d rows !! id = Some a ->
     args_ok (Z.of_nat (size rows)) a /\ exists k r, rows !! k = Some r /\ ns_miner r = id) /\
  (size (group_by_miner d rows) <= size rows)%nat.
Proof.
  unfold group_by_miner. apply (map_fold_weak_ind (fun acc rows =>
    (forall k r, rows !! k = Some r -> 0 <= ns_deadline r * base_target_at d (ns_height r) < 2 ^ 64) ->
    (forall id a, acc !! id = Some a -> args_ok (Z.of_nat (size rows)) a /\ exists k r, rows !! k = Some r /\ ns_miner r = id) /\
    (size acc <= size rows)%nat)); [by intros|].
  clear rows. intros k r rows acc Hk IH Hr. pose proof (Hr k r (lookup_insert_eq _ _ _)) as Hkr.
  destruct IH as [IH Hs]. { intros k' r' Hk'. apply (Hr k'). rewrite lookup_insert_ne; [done|congruence]. }
  rewrite map_size_insert_None by done. split.
  - intros id a. destruct (decide (id = ns_miner r)) as [->|Hne].
    + rewrite lookup_insert_eq. intros [= <-]. split; [|exists k, r; by rewrite lookup_insert_eq].
      unfold args_ok. simpl. destruct (acc !! ns_miner r) as [a|] eqn:Ea; simpl; [|nia].
      destruct (IH _ _ Ea) as [[? ?] _]. nia.
    + rewrite lookup_insert_ne by congruence. intros Ha. destruct (IH _ _ Ha) as [[? ?] (k' & r' & Hk' & E)].
      split; [unfold args_ok; nia|]. exists k', r'. split; [|done]. rewrite lookup_insert_ne; [done|congruence].
  - rewrite map_size_insert. destruct (acc !! ns_miner r); simpl; lia.
Qed.

Lemma eeps_query_ok h tmin n d args :
  plausible d -> eeps_query h tmin n d = Ok args ->
  (forall id a, args !! id = Some a -> args_ok (2 ^ 40) a /\ exists k r, nonce_submission d !! k = Some r /\ ns_miner r = id) /\
  Z.of_nat (size args) <= 2 ^ 40.
Proof.
  intros Hp. unfold eeps_query. set (rows := submissions_on _ d).
  destruct (existsb _ _) eqn:Ex; [done|]. intros [= <-].
  assert (Hsub : rows ⊆ nonce_submission d) by apply map_filter_subseteq.
  assert (Hsz : (size rows <= size (nonce_submission d))%nat) by (by apply map_subseteq_size).
  pose proof (pl_size d Hp). destruct (group_by_miner_ok d rows) as [Hg Hgs].
  - intros k r Hk. pose proof (pl_deadlines d Hp k r (lookup_weaken _ _ _ _ Hk Hsub)).
    pose proof (base_target_nonneg d (ns_height r) Hp). split; [by apply Z.mul_nonneg_nonneg|].
    apply Z.nle_gt. intros Hbig. rewrite <- not_true_iff_false, existsb_exists in Ex. apply Ex.
    exists (k, r). split; [apply list_elem_of_In; by apply elem_of_map_to_list|by apply Z.leb_le].
  - split; [|lia]. intros id a Ha. destruct (Hg id a Ha) as [[? ?] (k & r & Hk & E)].
    split; [unfold args_ok; nia|]. exists k, r. split; [by eapply lookup_weaken|done].
Qed.

(** ** The loop *)

Section Loop.
Context `{Env}.

Lemma bind_Some_run {A B} (m : M A) (k : A -> M B) w b w' :
  (m ≫= k) w = (Some b, w') -> exists a w1, m w = (Some a, w1) /\ k a w1 = (Some b, w').
Proof. unfold mbind, M_bind. destruct (m w) as [[a|] w1]; [|done]. intros E. by exists a, w1. Qed.

Definition capacity_of (al : list float64) (args : EEPSArgs) : float64 :=
  eeps al (ConfirmedDeadlines args) (of_Z (WeightedSum args)).

Definition add_capacity (al : list float64) (acc : gmap Z float64 * float64) (row : Z * EEPSArgs) : gmap Z float64 * float64 :=
  (<[row.1 := capacity_of al row.2]> acc.1, fadd acc.2 (capacity_of al row.2)).

Lemma eeps_loop_result al b rows acc r w w' :
  eeps_loop al b rows acc w = (Some r, w') -> r = foldl (add_capacity al) acc rows.
Proof.
  revert acc w. induction rows as [|[id args] rows IH]; intros acc w; simpl; [by intros [= <- _]|].
  intros (u & w1 & _ & Hl)%bind_Some_run. by apply IH in Hl.
Qed.

(** Capacities and their sum, for the rows that were read. *)
Record capacities (rows : list (Z * EEPSArgs)) (acc : gmap Z float64 * float64) : Prop := {
  cp_dom : forall id, is_Some (acc.1 !! id) <-> id ∈ rows.*1;
  cp_size : size acc.1 = length rows;
  cp_fin : forall id e, acc.1 !! id = Some e -> fin e;
  cp_bound : sum_values units acc.1 <= Z.of_nat (length rows) * 2 ^ 150 * one;
  cp_sum : sum_of (Z.of_nat (length rows)) acc.2 (sum_values units acc.1)
}.

Lemma capacities_all al rows :
  good_alphas al -> NoDup rows.*1 -> Z.of_nat (length rows) <= 2 ^ 40 -> Forall (fun row => args_ok (2 ^ 40) row.2) rows ->
  capacities rows (foldl (add_capacity al) (∅, fzero) rows).
Proof.
  intros Ha. induction rows as [|[id args] rows IH] using rev_ind; intros Hnd Hl Hok.
  { split; simpl; try done. intros id. rewrite elem_of_nil, lookup_empty. split; [by intros []|done]. }
  rewrite fmap_app in Hnd. apply NoDup_app in Hnd as (Hnd & Hout & _). rewrite length_app in Hl. simpl in Hl.
  apply Forall_app in Hok as [Hok [[Hc Hw] _]%Forall_cons]. simpl in Hc, Hw.
  destruct (IH Hnd ltac:(lia) Hok) as [Hd Hs Hf Hb Hsum]. rewrite foldl_app. cbn [foldl]. unfold add_capacity at 1. cbn [fst snd].
  set (acc := foldl (add_capacity al) (∅, fzero) rows) in *.
  destruct (eeps_fin al (ConfirmedDeadlines args) (WeightedSum args) Ha ltac:(lia) ltac:(lia)) as [He Hu].
  fold (capacity_of al args) in He, Hu. generalize dependent (capacity_of al args). intros e He Hu.
  assert (Hnone : acc.1 !! id = None).
  { destruct (acc.1 !! id) eqn:E; [|done]. exfalso. apply (Hout id); [apply Hd; by eexists|by apply list_elem_of_singleton]. }
  pose proof one_pos. pose proof (units_nonneg e).
  split; rewrite ?length_app; simpl.
  - intros k. rewrite fmap_app, elem_of_app, <- Hd. simpl. rewrite list_elem_of_singleton.
    destruct (decide (k = id)) as [->|Hne]; [rewrite lookup_insert_eq; naive_solver|].
    rewrite lookup_insert_ne by congruence. naive_solver.
  - rewrite map_size_insert_None by done. lia.
  - intros k x. destruct (decide (k = id)) as [->|Hne]; [rewrite lookup_insert_eq; by intros [= <-]|].
    rewrite lookup_insert_ne by congruence. apply Hf.
  - rewrite sum_insert by done. lia.
  - rewrite sum_insert by done. rewrite (Z.add_comm (units e)). replace (Z.of_nat (length rows + 1)) with (Z.of_nat (length rows) + 1) by lia.
    apply sum_of_add; [done|done|lia|].
    assert (Z.of_nat (length rows) * 2 ^ 150 * one <= 2 ^ 40 * 2 ^ 150 * one) by (apply Z.mul_le_mono_nonneg_r; lia). lia.
Qed.

Lemma GetSharesOnBlock_result h w w' shareOf :
  plausible (db w) -> good_alphas (alphas (Cache w)) -> GetSharesOnBlock h w = (Some (Ok shareOf), w') ->
  exists eepsOf s, shareOf = shares_of eepsOf s /\ sum_of (Z.of_nat (size eepsOf)) s (sum_values units eepsOf) /\
    (forall id e, eepsOf !! id = Some e -> fin e) /\ Z.of_nat (size eepsOf) <= 2 ^ 40 /\
    forall id, is_Some (eepsOf !! id) -> exists k r, nonce_submission (db w) !! k = Some r /\ ns_miner r = id.
Proof.
  intros Hp Ha (r & w1 & Hr & Hret)%bind_Some_run.
  destruct r as [[eepsOf s]|]; [|done]. injection Hret as <- <-. exists eepsOf, s. split; [done|].
  apply bind_Some_run in Hr as (sel & w2 & Hsel & Hr).
  unfold TrySelect, step, get, mbind, M_bind, mret, M_ret in Hsel. simpl in Hsel.
  destruct (db_fault (tick w)); injection Hsel as <- <-; [done|].
  destruct (eeps_query h (TMin Cfg) (NAVG Cfg) (db w)) as [args|] eqn:Eq; [|done].
  destruct (eeps_query_ok _ _ _ _ _ Hp Eq) as [Hargs Hsz].
  apply bind_Some_run in Hr as (ids & w3 & Hids & Hr). unfold range_keys, step in Hids. injection Hids as Hids <-.
  apply bind_Some_run in Hr as (c & w4 & Hc & Hr). injection Hc as <- <-. simpl in Hr.
  apply bind_Some_run in Hr as (acc & w5 & Hacc & Hr). injection Hr as -> _.
  apply eeps_loop_result in Hacc.
  assert (Hperm : ids ≡ₚ elements (dom args)) by (subst ids; apply order_perm).
  set (rows := omap _ ids) in *.
  assert (Hfst : rows.*1 = ids).
  { unfold rows. assert (Hin : Forall (fun id => is_Some (args !! id)) ids).
    { apply Forall_forall. intros id. rewrite Hperm, elem_of_elements, elem_of_dom. done. }
    clear -Hin. induction Hin as [|id ids [a Ea] _ IH]; [done|].
      cbn [omap list_omap]. rewrite Ea. cbn [fmap option_fmap option_map]. rewrite fmap_cons. by f_equal. }
  assert (Hlen : length rows = size args).
  { rewrite <- (length_fmap fst), Hfst, Hperm. by rewrite <- size_dom. }
  destruct (capacities_all (alphas (Cache w)) rows Ha) as [Hd Hs Hf _ Hsum].
  - rewrite Hfst, Hperm. apply NoDup_elements.
  - lia.
  - apply Forall_forall. intros [id a] (id' & Hid & E)%list_elem_of_omap. destruct (args !! id') as [a'|] eqn:Ea; [|done].
    injection E as <- <-. by apply (Hargs id').
  - rewrite <- Hacc in *. simpl in *. rewrite Hs. split_and!; [done|done|lia|].
    intros id Hid%Hd. rewrite Hfst, Hperm, elem_of_elements, elem_of_dom in Hid. destruct Hid as [a Hid].
    by apply (Hargs id a).
Qed.

(** ** The plan *)

(** A part of the amount that is between none and all of it. *)
Definition fraction (x : float64) : Prop := fin x /\ units x <= one.

#[export] Instance fraction_dec x : Decision (fraction x).
Proof. apply _. Defined.

Lemma fraction_of T x : 0 <= T <= 2 ^ 48 -> fraction x -> 0 <= round (fmul (of_Z T) x) <= T.
Proof.
  intros HT [Hx Hu]. pose proof one_pos as H1. pose proof big_one. pose proof (units_nonneg x).
  destruct (of_Z_exact T ltac:(lia)) as [HfT HuT].
  assert (HTu : T * units x <= T * one) by (apply Z.mul_le_mono_nonneg_l; lia).
  assert (HTo : T * one <= 2 ^ 48 * one) by (apply Z.mul_le_mono_nonneg_r; lia).
  assert (0 <= T * units x) by (apply Z.mul_nonneg_nonneg; lia).
  destruct (fmul_error (of_Z T) x HfT Hx) as [Hq Eq].
  { rewrite HuT. replace (2 ^ (2148 + 1023)) with (2 ^ 1023 * one * one) by (unfold one; by rewrite <- !Z.pow_add_r).
    replace (T * one * units x) with (T * units x * one) by ring. apply Z.mul_lt_mono_pos_r; [done|]. lia. }
  rewrite HuT in Eq. set (q := fmul (of_Z T) x) in *.
  replace (units q * one - T * one * units x) with ((units q - T * units x) * one) in Eq by ring.
  rewrite Z.abs_mul, (Z.abs_eq one) in Eq by lia.
  assert (Eq' : prec * Z.abs (units q - T * units x) <= T * units x + prec) by (apply (Z.mul_le_mono_pos_r _ _ _ H1); lia).
  destruct (round_fin q Hq) as [Hr0 Hr]; [unfold prec in Eq'; lia|]. split; [done|].
  assert (Hlt : round q * one < (T + 1) * one) by (unfold prec in *; lia). apply Z.mul_lt_mono_pos_r in Hlt; lia.
Qed.

(** The sum of the amounts, of which the one of [g] is raised by [c]. *)
Lemma sum_with_bonus (m : gmap Z float64) (f : float64 -> Z) g c a :
  m !! g = Some a -> is_i64 (f a + c) ->
  sum_values id (map_imap (fun id e => Some (if id =? g then i64 (f e + c) else f e)) m) = sum_values f m + c.
Proof.
  intros Hg Hr. replace (map_imap _ m) with (<[g := f a + c]> (f <$> m)).
  - rewrite (sum_update _ _ _ (f a)) by (by rewrite lookup_fmap, Hg). rewrite sum_fmap_reward. unfold compose, id at 2 3. 
    replace (sum_values (fun x => id (f x)) m) with (sum_values f m) by done. unfold id. lia.
  - apply map_eq. intros k. rewrite map_lookup_imap. destruct (Z.eqb_spec k g) as [->|Hne].
    + rewrite lookup_insert_eq, Hg. simpl. by rewrite i64_small.
    + rewrite lookup_insert_ne, lookup_fmap by congruence. by destruct (m !! k).
Qed.

(** The shares are of the miners that take part, the winner among them, the
    fee account not. *)
Record takes_part (info : BlockReply.t) (shareOf : gmap Z float64) : Prop := {
  tp_winner : is_Some (shareOf !! BlockReply.Generator info);
  tp_fee : shareOf !! FeeAccountID Cfg = None
}.

(** The reward is not too large for its shares to be exact. *)
Record payable (info : BlockReply.t) (n : Z) : Prop := {
  py_reward : 0 <= totalReward info <= 2 ^ 48;
  py_shares : n * totalReward info <= 2 ^ 48;
  py_fee : fraction (PoolFeeShare Cfg);
  py_winner : fraction (WinnerShare Cfg)
}.

Lemma plan_adds_up info eepsOf s :
  let shareOf := shares_of eepsOf s in
  sum_of (Z.of_nat (size eepsOf)) s (sum_values units eepsOf) -> (forall id e, eepsOf !! id = Some e -> fin e) ->
  Z.of_nat (size eepsOf) <= 2 ^ 40 -> takes_part info shareOf -> payable info (Z.of_nat (size eepsOf)) ->
  2 * Z.abs (sum_values id (shareInPlanckOf info shareOf) - totalReward info) <= Z.of_nat (size eepsOf).
Proof.
  intros shareOf Hsum Hfin Hsz [[sh Hw] Hfee] [HT HnT Hpf Hwf]. set (T := totalReward info) in *.
  assert (Hz : feqb s fzero = false).
  { destruct (feqb s fzero) eqn:E; [|done]. unfold shareOf, shares_of in Hw. by rewrite E, lookup_empty in Hw. }
  assert (Esh : shareOf = (fun e => fdiv e s) <$> eepsOf) by (unfold shareOf, shares_of; by rewrite Hz).
  assert (Hfee0 : 0 <= poolFee T <= T).
  { unfold poolFee. destruct (_ =? 0); [lia|]. by apply fraction_of. }
  assert (Hi : i64 (T - poolFee T) = T - poolFee T) by (apply i64_small; unfold is_i64; lia).
  set (R1 := T - poolFee T) in *. pose proof (fraction_of R1 (WinnerShare Cfg) ltac:(unfold R1; lia) Hwf) as Hwin.
  set (W := round (fmul (of_Z R1) (WinnerShare Cfg))) in *.
  assert (Hi2 : i64 (R1 - W) = R1 - W) by (apply i64_small; unfold is_i64, R1; lia). set (R := R1 - W) in *.
  assert (HR : 0 <= R <= T) by (unfold R, R1 in *; lia).
  assert (HnR : Z.of_nat (size eepsOf) * R <= 2 ^ 48).
  { etransitivity; [|exact HnT]. apply Z.mul_le_mono_nonneg_l; lia. }
  pose proof (rounded_shares eepsOf s R Hsum Hfin Hz ltac:(lia) ltac:(lia) HnR) as [Hpos Hround].
  set (P x := round (fmul x (of_Z R))). change (sum_values _ eepsOf) with (sum_values (P ∘ (fun e => fdiv e s)) eepsOf) in Hround.
  rewrite <- sum_fmap_reward, <- Esh in Hround.
  assert (HP : 0 <= P sh <= sum_values P shareOf).
  { assert (Hall : forall id x, shareOf !! id = Some x -> 0 <= P x).
    { intros id x Hx. rewrite Esh, lookup_fmap in Hx. destruct (eepsOf !! id) as [e|] eqn:Ee; [|done].
      injection Hx as <-. by apply (Hpos id). }
    split; [by eapply Hall|]. by eapply sum_lookup_le. }
  assert (Eplan : sum_values id (shareInPlanckOf info shareOf) = sum_values P shareOf + W + poolFee T).
  { unfold shareInPlanckOf. cbv zeta. fold T. fold R1. rewrite Hi. fold W. fold R. rewrite Hi2.
    pose proof (sum_with_bonus shareOf P (BlockReply.Generator info) W sh Hw ltac:(unfold is_i64; lia)) as Es.
    unfold P in Es at 1 2. unfold poolFee at 2. destruct (Z.eqb_spec (FeeAccountID Cfg) 0).
    - rewrite map_union_empty, Z.add_0_r. exact Es.
    - rewrite <- insert_union_singleton_r by (by rewrite map_lookup_imap, Hfee).
      rewrite sum_insert, Es by (by rewrite map_lookup_imap, Hfee). unfold poolFee.
      destruct (Z.eqb_spec (FeeAccountID Cfg) 0); [done|]. unfold id. lia. }
  rewrite Eplan. unfold R, R1 in *. lia.
Qed.

(** ** The whole reward *)

Lemma sum_credit (s p : gmap Z Z) :
  (forall k, is_Some (s !! k) -> is_Some (p !! k)) -> sum_values id (credit s p) = sum_values id p + sum_values id s.
Proof.
  induction s as [|k z s Hk IH] using map_ind; intros Hdom.
  - replace (credit ∅ p) with p; [unfold sum_values at 3; rewrite map_fold_empty; lia|].
    apply map_eq. intros k. rewrite credit_lookup, lookup_empty. destruct (p !! k); simpl; [f_equal; lia|done].
  - destruct (Hdom k) as [a Ha]; [rewrite lookup_insert_eq; by eexists|].
    assert (Hck : credit s p !! k = Some a) by (rewrite credit_lookup, Ha, Hk; simpl; f_equal; lia).
    replace (credit (<[k := z]> s) p) with (<[k := a + z]> (credit s p)).
    + assert (Hdom' : forall k', is_Some (s !! k') -> is_Some (p !! k')).
      { intros k' Hk'. apply Hdom. rewrite lookup_insert_ne; [done|]. intros <-. rewrite Hk in Hk'. by destruct Hk'. }
      rewrite (sum_update _ _ _ a _ Hck), sum_insert, (IH Hdom') by done. unfold id. lia.
    + apply map_eq. intros k'. destruct (decide (k' = k)) as [->|].
      * by rewrite lookup_insert_eq, credit_lookup, lookup_insert_eq, Ha.
      * rewrite lookup_insert_ne, !credit_lookup, lookup_insert_ne by congruence. done.
Qed.

Lemma size_shares_of eepsOf s g : is_Some (shares_of eepsOf s !! g) -> size (shares_of eepsOf s) = size eepsOf.
Proof.
  unfold shares_of. destruct (feqb s fzero); [rewrite lookup_empty; by intros []|]. intros _. apply map_size_fmap.
Qed.

(** C4: a run of [rewardBlock] credits nothing, or, over all accounts, the
    reward of the block - its fees included - up to half a planck for every
    miner that has a share, although the shares are [float64] quotients and
    every amount is rounded on its own.  This is where [GetSharesOnBlock] finds
    the shares, the winner has one and the fee account, which has a row, has
    none - without these the reward can be lost or paid in part, see
    [reward_lost] and [fee_account_share_replaces_fee] - and where the shares
    of pool and winner are fractions and reward and fees below 2^48. *)
Theorem rewards_add_up (info : BlockReply.t) (w w1 : World) (shareOf : gmap Z float64) :
  wf_pointers w -> closed (db w) -> plausible (db w) -> good_alphas (alphas (Cache w)) ->
  is_Some (account (db w) !! FeeAccountID Cfg) ->
  GetSharesOnBlock (BlockReply.Height info) w = (Some (Ok shareOf), w1) ->
  takes_part info shareOf -> payable info (Z.of_nat (size shareOf)) ->
  exists o w', rewardBlock info w = (o, w') /\
  (total_pending (db w') = total_pending (db w) \/
   2 * Z.abs (total_pending (db w') - total_pending (db w) - totalReward info) <= Z.of_nat (size shareOf)).
Proof.
  intros Hp Hc Hpl Ha Hfee Hsh Htp Hpay. destruct (rewardBlock_run info w Hp) as (o & w' & E & _ & _ & Hr).
  exists o, w'. split; [done|]. rewrite !total_pend. destruct Hr as [[-> _]|(r & w1' & Hsh' & _ & Hpend & _)]; [by left|right].
  rewrite Hsh in Hsh'. injection Hsh' as <- <-.
  destruct (GetSharesOnBlock_result _ _ _ _ Hpl Ha Hsh) as (eepsOf & s & Es & Hsum & Hfin & Hsz & Hns).
  rewrite Es in Htp, Hpay, Hpend |- *. rewrite (size_shares_of _ _ _ (tp_winner _ _ Htp)) in *.
  pose proof (plan_adds_up info eepsOf s Hsum Hfin Hsz Htp Hpay) as Hplan. cbv zeta in Hplan.
  rewrite Hpend, sum_credit; [lia|]. intros k [a Hk]. unfold pend. rewrite lookup_fmap, fmap_is_Some.
  unfold shareInPlanckOf in Hk. apply lookup_union_Some_raw in Hk as [Hk|[_ Hk]].
  - rewrite map_lookup_imap in Hk. destruct (shares_of eepsOf s !! k) as [x|] eqn:Ek; [|done].
    assert (He : is_Some (eepsOf !! k)).
    { unfold shares_of in Ek. destruct (feqb s fzero); [done|]. rewrite lookup_fmap in Ek. destruct (eepsOf !! k); [by eexists|done]. }
    destruct (Hns k He) as (kn & rn & Hn & <-). pose proof (c_ns _ Hc _ _ Hn) as Hf.
    apply andb_true_iff in Hf as [Hf _]. by apply fk_Some in Hf.
  - destruct (FeeAccountID Cfg =? 0); [done|]. apply lookup_singleton_Some in Hk as [<- _]. done.
Qed.

End Loop.

(** ** A run *)

Lemma good_alphas_of_a_pool : good_alphas (default [] (computeAlphas 360 5)).
Proof. apply (bool_decide_unpack _). vm_compute. exact I. Qed.

#[local] Ltac check_rows := refine (bool_decide_unpack (map_Forall _ _) _); vm_compute; exact I.

Definition reward_world : World := start_world fee_cfg (reward_db ns_list).

Lemma reward_world_closed : closed (db reward_world).
Proof. split; check_rows. Qed.

Lemma reward_world_plausible : plausible (db reward_world).
Proof. split; [check_rows|check_rows|vm_compute; congruence]. Qed.

Lemma rewards_add_up_witness :
  let w' := (@rewardBlock fee_env won_106 reward_world).2 in
  total_pending (db w') = total_pending (db reward_world) \/
  2 * Z.abs (total_pending (db w') - total_pending (db reward_world) - 100000000000) <= 2.
Proof.
  destruct (@GetSharesOnBlock fee_env 106 reward_world) as [[[shareOf|]|] w1] eqn:Esh; [|by vm_compute in Esh..].
  assert (Hs : shareOf = match (@GetSharesOnBlock fee_env 106 reward_world).1 with Some (Ok s) => s | _ => ∅ end) by (by rewrite Esh).
  assert (Hn : Z.of_nat (size shareOf) = 2) by (rewrite Hs; by vm_compute). 
  destruct (@rewards_add_up fee_env won_106 reward_world w1 shareOf) as (o & w' & E & Hw).
  - intros id a Ha. by vm_compute in Ha.
  - exact reward_world_closed.
  - exact reward_world_plausible.
  - apply (bool_decide_unpack _). vm_compute. exact I.
  - by vm_compute; eexists.
  - exact Esh.
  - rewrite Hs. split; [vm_compute; by eexists|by vm_compute].
  - assert (Ht : totalReward won_106 = 100000000000) by (by vm_compute). rewrite Hn. split.
    + rewrite Ht. lia.
    + rewrite Ht. lia.
    + apply (bool_decide_unpack (fraction _)). vm_compute. exact I.
    + apply (bool_decide_unpack (fraction _)). vm_compute. exact I.
  - rewrite E. rewrite Hn in Hw.
    replace (totalReward won_106) with 100000000000 in Hw by (by vm_compute). exact Hw.
Defined.
