(* ===== verification/Rounds.v ===== *)
(** * The change of rounds ([newBlock] of [pkg/modelx/modelx.go])

    What a new block makes of the database, the cache and the miners, and
    what becomes of two calls that saw the same old block. *)

From Stdlib Require Import Ascii String.
From S2P Require Import Prelude GoStrings GoFloat RSEncoding Burstmath Config Blocks Shares Miner DB Cache.
From S2P Require Import Wallet World PayoutTheorems Rewards Modelx ModelxInvariant.
Open Scope list_scope.
Open Scope Z_scope.
Import GoInt.

(** ** An iteration over the miners *)

Section Visit.
Context `{Env} (f : Z -> nat -> M unit) (g : Miner -> Miner) (gone : Miner -> bool) (c0 : cache).

(** The cache is the given one but for its miners. *)
Definition like (c : cache) : Prop := c = with_miners (miners c) c0.

Lemma like_miners x c : like c -> like (with_miners x c).
Proof. unfold like, with_miners. destruct c. simpl. intros E. injection E as. congruence. Qed.

Context (g_wf : forall m, Miner.wf m -> Miner.wf (g m)) (g_id : forall m, ID (g m) = ID m).
Context (body : forall id a w m,
  miners (Cache w) !! id = Some a -> objects w !! a = Some m -> Miner.wf m -> like (Cache w) ->
  f id a w = (Some tt, mk_World (db w) (if gone m then DeleteMiner id (Cache w) else Cache w)
                         (<[a := g m]> (objects w)) (tick w) (sent w))).

(** What became of the miners with the given ids. *)
Record visited (keys : list Z) (w w' : World) : Prop := {
  v_db : db w' = db w;
  v_tick : tick w' = tick w;
  v_sent : sent w' = sent w;
  v_like : like (Cache w');
  v_gone : forall id a m, id ∈ keys -> miners (Cache w) !! id = Some a -> objects w !! a = Some m ->
    miners (Cache w') !! id = (if gone m then None else Some a) /\ objects w' !! a = Some (g m);
  v_other : forall id, id ∉ keys \/ miners (Cache w) !! id = None -> miners (Cache w') !! id = miners (Cache w) !! id;
  v_object : forall a, (forall id, id ∈ keys -> miners (Cache w) !! id <> Some a) -> objects w' !! a = objects w !! a
}.

Lemma visit_one id a m w :
  wf_world w -> like (Cache w) -> miners (Cache w) !! id = Some a -> objects w !! a = Some m ->
  exists w1, f id a w = (Some tt, w1) /\ wf_world w1 /\ visited [id] w w1.
Proof using body g_wf g_id.
  intros Hw Hl Ha Hm. assert (Hwf : Miner.wf m) by (eapply Forall_lookup_1; [apply Hw|done]).
  eexists. split; [by apply body|]. assert (Hlt : (a < length (objects w))%nat) by (by eapply lookup_lt_Some).
  assert (Hsub : forall c', c' = (if gone m then DeleteMiner id (Cache w) else Cache w) ->
    (forall i x, miners c' !! i = Some x -> miners (Cache w) !! i = Some x) /\ wf_blocks c' /\ like c' /\
    (forall i, i <> id -> miners c' !! i = miners (Cache w) !! i) /\
    miners c' !! id = if gone m then None else Some a).
  { intros c' ->. destruct (gone m); simpl; split_and!; try done.
    - by intros i x [_ ?]%lookup_delete_Some.
    - by destruct (ww_blocks w Hw).
    - by apply like_miners.
    - intros i Hi. by rewrite lookup_delete_ne.
    - apply lookup_delete_eq.
    - apply Hw. }
  generalize dependent (if gone m then DeleteMiner id (Cache w) else Cache w). intros c' Hc.
  destruct (Hc c' eq_refl) as (Hm1 & Hb1 & Hl1 & Hne & Hid). clear Hc. split; [split; simpl|split; simpl; try done].
  - intros i x Hx. simpl in *. destruct (ww_pointers w Hw i x (Hm1 i x Hx)) as [y Hy].
    destruct (decide (a = x)) as [->|?]; [rewrite list_lookup_insert_eq by done|rewrite list_lookup_insert_ne by done];
      by eexists.
  - apply Forall_insert; [apply Hw|by apply g_wf].
  - done.
  - intros i x y Hx%Hm1 [(<- & <- & _)|[_ Hy]]%list_lookup_insert_Some; [rewrite g_id|]; by eapply (ww_ids w Hw).
  - intros i x y ->%list_elem_of_singleton Hx Hy. assert (x = a) as -> by congruence. assert (y = m) as -> by congruence.
    split; [done|by apply list_lookup_insert_eq].
  - intros i [Hi|Hi]; [apply Hne; set_solver|]. destruct (decide (i = id)) as [->|?]; [congruence|by apply Hne].
  - intros x Hx. apply list_lookup_insert_ne. intros ->. apply (Hx id); [set_solver|done].
Qed.

Lemma visited_trans id keys w w1 w2 :
  wf_world w -> id ∉ keys -> visited [id] w w1 -> visited keys w1 w2 -> visited (id :: keys) w w2.
Proof using body g_wf g_id.
  intros Hw Hid V1 V2. split.
  - rewrite (v_db _ _ _ V2). apply V1.
  - rewrite (v_tick _ _ _ V2). apply V1.
  - rewrite (v_sent _ _ _ V2). apply V1.
  - apply V2.
  - intros i a m [->|Hi]%elem_of_cons Ha Hm.
    + destruct (v_gone _ _ _ V1 id a m) as [E1 E2]; [set_solver|done|done|].
      rewrite (v_other _ _ _ V2) by (by left). split; [done|].
      rewrite (v_object _ _ _ V2); [done|]. intros i Hi Ei.
      rewrite (v_other _ _ _ V1) in Ei by (left; set_solver).
      rewrite (miners_separate w i id a Hw Ei Ha) in Hi. done.
    + assert (i <> id) by congruence.
      assert (Ei : miners (Cache w1) !! i = Some a) by (rewrite (v_other _ _ _ V1); [done|left; set_solver]).
      apply (v_gone _ _ _ V2); [done|done|]. rewrite (v_object _ _ _ V1); [done|].
      intros j ->%list_elem_of_singleton Ej. by rewrite (miners_separate w i id a Hw Ha Ej) in *.
  - intros i Hi. rewrite (v_other _ _ _ V2).
    + apply (v_other _ _ _ V1). destruct Hi; [left; set_solver|by right].
    + destruct Hi as [Hi|Hi]; [left; set_solver|right]. rewrite (v_other _ _ _ V1); [done|by right].
  - intros a Ha. rewrite (v_object _ _ _ V2).
    + apply (v_object _ _ _ V1). intros i Hi. apply Ha. set_solver.
    + intros i Hi. destruct (decide (i = id)) as [->|?]; [done|].
      rewrite (v_other _ _ _ V1) by (left; set_solver). apply Ha. set_solver.
Qed.

Lemma visit_keys keys w :
  NoDup keys -> wf_world w -> like (Cache w) ->
  exists w', for_each keys (fun id =>
      c' ← get Cache; match miners c' !! id with Some a => f id a | None => mret tt end) w = (Some tt, w') /\
    wf_world w' /\ visited keys w w'.
Proof using body g_wf g_id.
  intros Hnd. revert w. induction Hnd as [|id keys Hid _ IH]; intros w Hw Hl; simpl.
  { eexists. split; [done|]. split; [done|]. split; try done. intros id a m ?%not_elem_of_nil. done. }
  destruct (miners (Cache w) !! id) as [a|] eqn:Ea.
  - destruct (ww_pointers w Hw id a Ea) as [m Hm].
    destruct (visit_one id a m w Hw Hl Ea Hm) as (w1 & E1 & Hw1 & V1).
    destruct (IH w1 Hw1 (v_like _ _ _ V1)) as (w2 & E2 & Hw2 & V2).
    exists w2. split; [|split; [done|by eapply visited_trans]].
    erewrite bind_run; [exact E2|]. rewrite get_bind, Ea. exact E1.
  - destruct (IH w Hw Hl) as (w2 & E2 & Hw2 & V2). exists w2.
    split; [erewrite bind_run; [exact E2|]; by rewrite get_bind, Ea|]. split; [done|].
    apply (visited_trans id keys w w w2); [done|done| |done].
    split; try done. intros i a m ->%list_elem_of_singleton. congruence.
Qed.

(** All miners are visited, in whatever order. *)
Lemma MinerRange_visits w :
  wf_world w -> like (Cache w) ->
  exists w', MinerRange f w = (Some tt, w') /\ wf_world w' /\ like (Cache w') /\
    db w' = db w /\ tick w' = S (tick w) /\ sent w' = sent w /\
    (forall id a m, miners (Cache w) !! id = Some a -> objects w !! a = Some m ->
       miners (Cache w') !! id = (if gone m then None else Some a) /\ objects w' !! a = Some (g m)) /\
    (forall id, miners (Cache w) !! id = None -> miners (Cache w') !! id = None).
Proof using body g_wf g_id.
  intros Hw Hl. unfold MinerRange. rewrite get_bind. rewrite range_keys_bind.
  set (keys := order (tick w) (elements (dom (miners (Cache w))))).
  assert (Hp : keys ≡ₚ elements (dom (miners (Cache w)))) by apply order_perm.
  assert (Hw1 : wf_world (set_tick (S (tick w)) w)) by (by destruct Hw).
  destruct (visit_keys keys (set_tick (S (tick w)) w)) as (w' & E & Hw' & V); [rewrite Hp; apply NoDup_elements|done|done|].
  exists w'. split_and!; [exact E|done|apply V|apply (v_db _ _ _ V)|apply (v_tick _ _ _ V)|apply (v_sent _ _ _ V)| |].
  - intros id a m Ha Hm. apply (v_gone _ _ _ V); [|done|done].
    rewrite Hp, elem_of_elements, elem_of_dom. by eexists.
  - intros id Hi. rewrite (v_other _ _ _ V) by (by right). exact Hi.
Qed.
End Visit.

(** ** One miner *)

(** The miner after the round: its deadline is confirmed if its block was
    slow, and the height that the caches dropped is forgotten. *)
Definition closed_miner (c : cache) (removedHeight : Z) (m : Miner) : Miner :=
  let m := if (WasSlowBlock (CurrentBlockHeight m) c).1 then default m (addDeadlineParams m) else m in
  if removedHeight =? 0 then m else default m (removeDeadlineParams removedHeight m).

Lemma wf_total m :
  Miner.wf m -> is_Some (addDeadlineParams m) /\ forall h, is_Some (removeDeadlineParams h m).
Proof.
  intros Hwf. split.
  - unfold addDeadlineParams, deref. destruct (CurrentDeadlineParams m) as [p|] eqn:E; [|by eexists].
    destruct (wf_current m Hwf p E) as [dp ->]. case_match; by eexists.
  - intros h. unfold removeDeadlineParams, deref. destruct (DeadlinesParams m !! h) as [p|] eqn:E; [|by eexists].
    destruct (wf_confirmed m Hwf h p E) as (dp & -> & _). by eexists.
Qed.

Lemma CurrentBlockHeight_same m m' :
  CurrentDeadlineParams m' = CurrentDeadlineParams m -> objs m' = objs m -> CurrentBlockHeight m' = CurrentBlockHeight m.
Proof. intros E1 E2. unfold CurrentBlockHeight, deref. by rewrite E1, E2. Qed.

Lemma add_current m m' : addDeadlineParams m = Some m' -> CurrentBlockHeight m' = CurrentBlockHeight m.
Proof.
  unfold addDeadlineParams. intros E. destruct (CurrentDeadlineParams m) as [a|] eqn:Ea; [|by injection E as <-].
  destruct (deref m a); [|done]. destruct (DeadlinesParams m !! _); injection E as <-; [done|by apply CurrentBlockHeight_same].
Qed.

Lemma remove_current h m m' : removeDeadlineParams h m = Some m' -> CurrentBlockHeight m' = CurrentBlockHeight m.
Proof.
  unfold removeDeadlineParams. intros E. destruct (DeadlinesParams m !! h) as [a|]; [|by injection E as <-].
  destruct (deref m a); [|done]. injection E as <-. by apply CurrentBlockHeight_same.
Qed.

Definition same_miner (m m' : Miner) : Prop := ID m' = ID m /\ (Miner.wf m -> Miner.wf m') /\ CurrentBlockHeight m' = CurrentBlockHeight m.

Lemma add_same m : same_miner m (default m (addDeadlineParams m)).
Proof.
  destruct (addDeadlineParams m) as [m'|] eqn:E; [|done]. simpl.
  split_and!; [by apply ID_addDeadlineParams|by apply wf_addDeadlineParams|by apply add_current].
Qed.

Lemma remove_same h m : same_miner m (default m (removeDeadlineParams h m)).
Proof.
  destruct (removeDeadlineParams h m) as [m'|] eqn:E; [|done]. simpl.
  split_and!; [by eapply ID_removeDeadlineParams|by eapply wf_removeDeadlineParams|by eapply remove_current].
Qed.

Lemma closed_same c r m : same_miner m (closed_miner c r m).
Proof.
  unfold closed_miner. set (m1 := if (WasSlowBlock _ c).1 then _ else _).
  assert (H1 : same_miner m m1) by (unfold m1; destruct (_.1); [apply add_same|done]).
  cbv zeta. destruct (r =? 0); [done|]. destruct H1 as (? & ? & ?), (remove_same r m1) as (? & ? & ?).
  split_and!; [congruence|auto|congruence].
Qed.

Lemma try_update_miner_bind {B} a f (k : unit -> M B) w m m' :
  objects w !! a = Some m -> f m = Some m' ->
  (try_update_miner a f ≫= k) w = k tt (set_objects (<[a := m']> (objects w)) w).
Proof.
  intros Hm Hf. erewrite bind_run; [reflexivity|].
  unfold try_update_miner, miner_at, get, mbind, M_bind. simpl. rewrite Hm. simpl. by rewrite Hf.
Qed.

Lemma miner_at_bind {B} a (k : Miner -> M B) w m : objects w !! a = Some m -> (miner_at a ≫= k) w = k m w.
Proof. intros Hm. unfold miner_at, get, mbind, M_bind. simpl. by rewrite Hm. Qed.

Section Close.
Context `{Env}.

Definition inactive (height : Z) (m : Miner) : bool := CurrentBlockHeight m <? u64 (height - InactiveAfterXBlocks Cfg).

Lemma close_round_run removed height c0 id a w m :
  miners (Cache w) !! id = Some a -> objects w !! a = Some m -> Miner.wf m -> like c0 (Cache w) ->
  close_round removed height id a w =
    (Some tt, mk_World (db w) (if inactive height m then DeleteMiner id (Cache w) else Cache w)
                (<[a := closed_miner c0 removed m]> (objects w)) (tick w) (sent w)).
Proof.
  intros Ha Hm Hwf Hl. unfold close_round. rewrite get_bind, (miner_at_bind a _ w m Hm).
  assert (Hslow : WasSlowBlock (CurrentBlockHeight m) (Cache w) = WasSlowBlock (CurrentBlockHeight m) c0) by (by rewrite Hl).
  rewrite Hslow. unfold closed_miner. assert (Hlt : (a < length (objects w))%nat) by (by eapply lookup_lt_Some).
  set (m1 := if (WasSlowBlock _ c0).1 then default m (addDeadlineParams m) else m). cbv zeta.
  assert (H1 : same_miner m m1) by (unfold m1; destruct (_.1); [apply add_same|done]).
  destruct H1 as (_ & Hwf1 & Hb1). specialize (Hwf1 Hwf).
  assert (E1 : (if (WasSlowBlock (CurrentBlockHeight m) c0).1 then try_update_miner a addDeadlineParams else mret tt) w =
               (Some tt, set_objects (<[a := m1]> (objects w)) w)).
  { unfold m1. destruct (_.1).
    - destruct (wf_total m Hwf) as [[m' Em] _]. rewrite Em.
      pose proof (try_update_miner_bind a addDeadlineParams mret w m m' Hm Em) as E.
      unfold mbind, M_bind in E. by destruct (try_update_miner a addDeadlineParams w) as [[[]|] ?].
    - rewrite list_insert_id by done. by destruct w. }
  rewrite (bind_run _ _ _ _ _ E1). set (w1 := set_objects _ w).
  assert (Hm1 : objects w1 !! a = Some m1) by (by apply list_lookup_insert_eq).
  set (m2 := if removed =? 0 then m1 else _).
  assert (E2 : (if removed =? 0 then mret tt else try_update_miner a (removeDeadlineParams removed)) w1 =
               (Some tt, set_objects (<[a := m2]> (objects w)) w)).
  { unfold m2. destruct (removed =? 0); [done|].
    destruct (wf_total m1 Hwf1) as [_ Hr]. destruct (Hr removed) as [m' Em]. rewrite Em.
    pose proof (try_update_miner_bind a (removeDeadlineParams removed) mret w1 m1 m' Hm1 Em) as E.
    unfold mbind, M_bind in E. destruct (try_update_miner a (removeDeadlineParams removed) w1) as [[[]|] ?]; [|done].
    simplify_eq/=. unfold w1. simpl. by rewrite list_insert_insert_eq. }
  rewrite (bind_run _ _ _ _ _ E2). set (w2 := set_objects _ w).
  assert (Hm2 : objects w2 !! a = Some m2) by (by apply list_lookup_insert_eq).
  rewrite (miner_at_bind a _ w2 m2 Hm2).
  assert (Hb2 : CurrentBlockHeight m2 = CurrentBlockHeight m).
  { unfold m2. destruct (removed =? 0); [done|]. destruct (remove_same removed m1) as (_ & _ & ->). done. }
  rewrite Hb2. unfold inactive. by destruct (_ <? _).
Qed.
(** ** A new round *)

(** The block that the round before is recorded as, with the answer of the
    wallet about its generation time. *)
Definition record_old (reply : result string Z) (old : Z) (d : DB) : result sql_error DB :=
  match reply with Ok t => set_generation_time t old d | Err _ => Ok d end.

Definition cache_old (reply : result string Z) (old : Z) (c : cache) : Z * cache :=
  match reply with Ok t => AddBlock Cfg old t c | Err _ => (0, c) end.

Definition reply_time (reply : result string Z) : Z := match reply with Ok t => t | Err _ => 0 end.

Lemma close_block_run {B} (k : Z * Z -> M B) height b w :
  (forall n, db_fault n = false) -> Block.Height b < height ->
  let reply := GetGenerationTime (tick w) (Block.Height b) in
  exists n d1, record_old reply (Block.Height b) (db w) = Ok d1 /\
    (close_block height b ≫= k) w =
      k (reply_time reply, (cache_old reply (Block.Height b) (Cache w)).1)
        (mk_World d1 (cache_old reply (Block.Height b) (Cache w)).2 (objects w) n (sent w)).
Proof.
  intros Hf Hlt reply. unfold close_block. rewrite (proj2 (Z.ltb_lt _ _)) by done.
  unfold getGenerationTime, reply. cbv zeta.
  destruct (GetGenerationTime (tick w) (Block.Height b)) as [t|e] eqn:Er.
  - eexists _, _. split; [done|]. erewrite bind_run; [reflexivity|]. rewrite call_bind, Er.
    erewrite MustExec_bind; [|apply Hf|reflexivity]. rewrite get_bind. simpl.
    by destruct (AddBlock Cfg (Block.Height b) t (Cache w)).
  - eexists _, _. split; [done|]. erewrite bind_run; [reflexivity|]. by rewrite call_bind, Er.
Qed.

Lemma cacheRewardRecipients_bind {B} (k : unit -> M B) w :
  exists r n, (cacheRewardRecipients ≫= k) w =
    k tt (mk_World (db w) (StoreRewardRecipients r (Cache w)) (objects w) n (sent w)).
Proof.
  assert (Hsame : StoreRewardRecipients (rewardRecipient (Cache w)) (Cache w) = Cache w) by (by destruct (Cache w)).
  unfold cacheRewardRecipients. destruct walletDB as [q|];
    [destruct (q (tick w)) as [ids|e] eqn:E|destruct (GetRewardRecipients (tick w)) as [ids|e] eqn:E].
  2,4: exists (rewardRecipient (Cache w)), (S (tick w)); rewrite Hsame.
  all: try eexists _, _; (erewrite bind_run; [|rewrite call_bind, E; reflexivity]); reflexivity.
Qed.

(** The next block is one the pool takes. *)
Record next_block (sig : string) (bytes : list Z) (height : Z) (w : World) : Prop := {
  nb_height : 0 <= Block.Height (CurrentBlock (Cache w)) < height;
  nb_known : (WasSlowBlock height (Cache w)).2 = false;
  nb_age : Block.Height (CurrentBlock (Cache w)) = 0 \/ u64 (Block.Height (CurrentBlock (Cache w)) - u64 (NAVG Cfg)) <= height;
  nb_sig : DecodeGeneratorSignature (GoStrings.bytes sig) = Ok bytes;
  nb_row : block (db w) !! height = None
}.

Lemma newBlock_run bt sig sigBytes height w :
  (forall n, db_fault n = false) -> wf_world w -> next_block sig sigBytes height w ->
  let old := Block.Height (CurrentBlock (Cache w)) in
  let reply := GetGenerationTime (tick w) old in
  let '(removed, c1) := cache_old reply old (Cache w) in
  exists w' d1 r t created,
    newBlock bt sig height w = (Some (Ok tt), w') /\
    record_old reply old (db w) = Ok d1 /\
    insert_block height (mk_block_row bt (CalcScoop height sigBytes) sig false None None None (datetime t) (reply_time reply))
      d1 = Ok (db w') /\
    Cache w' = StoreCurrentBlock Cfg (new_block_record height bt (CalcScoop height sigBytes) sig sigBytes created)
                 (StoreRewardRecipients r (with_miners (miners (Cache w')) c1)) /\
    sent w' = sent w /\
    (forall id a m, miners (Cache w) !! id = Some a -> objects w !! a = Some m ->
       miners (Cache w') !! id = (if inactive height m then None else Some a) /\
       objects w' !! a = Some (closed_miner c1 removed m)) /\
    (forall id, miners (Cache w) !! id = None -> miners (Cache w') !! id = None).
Proof.
  intros Hf Hw [[H0 Hlt] Hk Hage Hsig Hrow] old reply.
  destruct (cache_old reply old (Cache w)) as [removed c1] eqn:Ec.
  unfold newBlock. rewrite get_bind, Hk. fold old. cbv zeta. fold old.
  replace (negb (old =? 0) && (height <? u64 (old - u64 (NAVG Cfg)))) with false.
  2:{ symmetry. fold old in Hage. destruct (Z.eqb_spec old 0); [done|]. simpl. apply Z.ltb_ge. lia. }
  rewrite Hsig. rewrite (proj2 (Z.ltb_lt old height)) by done. fold old in Hlt.
  destruct (close_block_run (fun closed => let '(generationTime, removedHeight) := closed in
      created ← now;
      t ← now;
      MustExec (insert_block height
        (mk_block_row bt (CalcScoop height sigBytes) sig false None None None (datetime t) generationTime)) ;;
      MinerRange (close_round removedHeight height) ;;
      (if height =? 0 then mret tt else
         cacheRewardRecipients ;;
         with_cache (StoreCurrentBlock Cfg (new_block_record height bt (CalcScoop height sigBytes) sig sigBytes created))) ;;
      mret (Ok (E := string) tt)) height (CurrentBlock (Cache w)) w Hf Hlt) as (n & d1 & Ed & ->).
  fold old reply in Ed |- *. rewrite Ec. cbn [fst snd]. rewrite !now_bind. cbn [tick set_tick].
  assert (Hins : exists d2, insert_block height (mk_block_row bt (CalcScoop height sigBytes) sig false None None None
      (datetime (clock (S n))) (reply_time reply)) d1 = Ok d2).
  { unfold insert_block. rewrite bool_decide_eq_false_2; [by eexists|]. intros [x Hx].
    unfold record_old, set_generation_time in Ed. destruct reply as [t|e]; injection Ed as <-; [|congruence].
    simpl in Hx. by rewrite lookup_alter_ne, Hrow in Hx by lia. }
  destruct Hins as [d2 Hins]. erewrite MustExec_bind; [|apply Hf|exact Hins].
  cbn [set_db set_tick db Cache objects tick sent].
  set (w1 := mk_World d2 c1 (objects w) (S (S (S n))) (sent w)).
  assert (Hc1 : miners c1 = miners (Cache w) /\ wf_blocks c1).
  { unfold cache_old in Ec. destruct reply as [t|e]; [|injection Ec as <- <-; split; [done|apply Hw]].
    replace c1 with (AddBlock Cfg old t (Cache w)).2 by (by rewrite Ec). split; [|apply AddBlock_wf, Hw].
    by destruct (AddBlock_others Cfg old t (Cache w)) as (s & fst & ->). }
  assert (Hw1 : wf_world w1).
  { destruct Hw as [P1 P2 P3 P4]. split; simpl; [|done|apply Hc1|by rewrite (proj1 Hc1)].
    intros id a. simpl. rewrite (proj1 Hc1). apply P1. }
  destruct (MinerRange_visits (close_round removed height) (closed_miner c1 removed) (inactive height) c1) with (w := w1)
    as (w2 & E2 & _ & Hl2 & Hd2 & Ht2 & Hs2 & Hv & Hn); [..|done|by destruct c1|].
  { intros m Hm. by apply (closed_same c1 removed m). }
  { intros m. apply (closed_same c1 removed m). }
  { intros id a w0 m. apply close_round_run. }
  rewrite (bind_run _ _ _ _ _ E2). destruct (Z.eqb_spec height 0); [lia|].
  destruct (cacheRewardRecipients_bind (fun _ => with_cache (StoreCurrentBlock Cfg
    (new_block_record height bt (CalcScoop height sigBytes) sig sigBytes (clock n)))) w2) as (r & n' & E3).
  erewrite bind_run; [|exact E3]. eexists _, d1, r, (clock (S n)), (clock n). split; [reflexivity|].
  cbn [db Cache sent objects set_cache]. split_and!; [done|by rewrite Hd2| |by rewrite Hs2| |].
  - unfold like in Hl2. change (miners _) with (miners (Cache w2)). rewrite <- Hl2. reflexivity.
  - intros id a m Ha Hm. apply Hv; [|done]. simpl. by rewrite (proj1 Hc1).
  - intros id Hi. apply Hn. simpl. by rewrite (proj1 Hc1).
Qed.
(** C16: a block above the current one, which the pool does not know yet, ends
    the round: the old block is recorded with the generation time the wallet
    gives (without one it keeps what it has) and filed as slow or fast; the
    new row is stored; the block becomes the current one, also in the mining
    information of the miners; every cached miner has its deadline
    of the ended round confirmed if its block was slow, and loses the height
    the caches dropped; miners that were idle too long leave the
    cache, the others stay, and none comes in.  The best submission is that
    of the round before. *)
Theorem new_block_ends_the_round bt sig sigBytes height w :
  (forall n, db_fault n = false) -> wf_world w -> next_block sig sigBytes height w ->
  let old := Block.Height (CurrentBlock (Cache w)) in
  let reply := GetGenerationTime (tick w) old in
  let c1 := (cache_old reply old (Cache w)).2 in
  let removed := (cache_old reply old (Cache w)).1 in
  exists w' d1 t created,
    MaybeSwitchOrNewBlock bt sig height w = (Some tt, w') /\
    record_old reply old (db w) = Ok d1 /\
    insert_block height (mk_block_row bt (CalcScoop height sigBytes) sig false None None None (datetime t) (reply_time reply))
      d1 = Ok (db w') /\
    CurrentBlock (Cache w') = new_block_record height bt (CalcScoop height sigBytes) sig sigBytes created /\
    GetMiningInfoJSON (Cache w') = mining_info_json Cfg (CurrentBlock (Cache w')) /\
    BestNonceSubmission (Cache w') = BestNonceSubmission (Cache w) /\
    (forall x, WasSlowBlock x (Cache w') = WasSlowBlock x c1) /\
    (forall id a m, miners (Cache w) !! id = Some a -> objects w !! a = Some m ->
       miners (Cache w') !! id = (if inactive height m then None else Some a) /\
       objects w' !! a = Some (closed_miner c1 removed m)) /\
    (forall id, miners (Cache w) !! id = None -> miners (Cache w') !! id = None).
Proof.
  intros Hf Hw Hnext old reply c1 removed. pose proof (newBlock_run bt sig sigBytes height w Hf Hw Hnext) as Hrun.
  cbv zeta in Hrun. fold old reply in Hrun. subst c1 removed.
  destruct (cache_old reply old (Cache w)) as [removed c1] eqn:Ec.
  destruct Hrun as (w' & d1 & r & t & created & E & Ed & Ei & Hc & _ & Hm & Hn).
  exists w', d1, t, created. split.
  { unfold MaybeSwitchOrNewBlock, SwitchOrNewBlock. rewrite get_bind. fold old.
    pose proof (nb_height _ _ _ _ Hnext) as [_ Hlt]. fold old in Hlt.
    rewrite (proj2 (Z.eqb_neq old height)) by lia. simpl. by rewrite (bind_run _ _ _ _ _ E). }
  split_and!; [done|done|by rewrite Hc|by rewrite Hc| |by rewrite Hc|done|done].
  rewrite Hc. simpl. unfold cache_old in Ec. destruct reply; [|by injection Ec as <- <-].
  destruct (AddBlock_others Cfg old a (Cache w)) as (s & f & E'). rewrite Ec in E'. simpl in E'. by subst c1.
Qed.

(** A block the pool has a row for, at the current height, is fatal. *)
Lemma newBlock_again bt sig sigBytes height w :
  Block.Height (CurrentBlock (Cache w)) = height -> 0 < NAVG Cfg <= height -> height < 2 ^ 64 ->
  (WasSlowBlock height (Cache w)).2 = false ->
  DecodeGeneratorSignature (GoStrings.bytes sig) = Ok sigBytes -> is_Some (block (db w) !! height) ->
  (newBlock bt sig height w).1 = None.
Proof.
  intros Eh HN Hh Hk Hsig Hrow. unfold newBlock. rewrite get_bind, Hk, Hsig. cbv zeta. rewrite Eh.
  replace (height <? u64 (height - u64 (NAVG Cfg))) with false.
  2:{ symmetry. apply Z.ltb_ge. rewrite (u64_small (NAVG Cfg)), u64_small by (unfold is_u64; lia). lia. }
  rewrite andb_false_r, Z.ltb_irrefl. unfold close_block. rewrite Eh, Z.ltb_irrefl. cbv zeta.
  unfold getGenerationTime.
  destruct (AddBlock Cfg height (match GetGenerationTime (tick w) height with Ok t => t | Err _ => fallback_generation_time end)
    (Cache w)) as [removed c'] eqn:Ea.
  erewrite bind_run; [|rewrite call_bind, get_bind; cbv zeta; cbn [Cache set_tick]; rewrite Ea; reflexivity].
  cbv beta iota. rewrite ret_bind, now_bind. erewrite MustExec_refused; [done|].
  simpl. unfold insert_block. by rewrite bool_decide_eq_true_2.
Qed.

(** Two calls of [MaybeSwitchOrNewBlock] that read the old block before
    either took the lock - the job that asks the wallet for the mining
    information and the submission of a node, or the submissions of two nodes
    - do not both get by: the second one inserts the row of the block again and
    panics, in a goroutine where nothing recovers.  A call that reads the
    block only after the first is done finds the new one and changes nothing. *)
Theorem lost_race_panics bt bt' sig sig' sigBytes sigBytes' height w :
  (forall n, db_fault n = false) -> wf_world w -> next_block sig sigBytes height w ->
  DecodeGeneratorSignature (GoStrings.bytes sig') = Ok sigBytes' ->
  0 < NAVG Cfg <= Block.Height (CurrentBlock (Cache w)) -> height < 2 ^ 64 ->
  let oldBlock := CurrentBlock (Cache w) in
  exists w', SwitchOrNewBlock oldBlock bt sig height w = (Some tt, w') /\
    (SwitchOrNewBlock oldBlock bt' sig' height w').1 = None /\
    MaybeSwitchOrNewBlock bt' sig height w' = (Some tt, w').
Proof.
  intros Hf Hw Hnext Hsig' HN Hh oldBlock. pose proof (newBlock_run bt sig sigBytes height w Hf Hw Hnext) as Hrun.
  cbv zeta in Hrun. destruct (cache_old _ _ (Cache w)) as [removed c1] eqn:Ec.
  destruct Hrun as (w' & d1 & r & t & created & E & Ed & Ei & Hc & _). exists w'.
  destruct Hnext as [[H0 Hlt] Hk _ Hsig _]. unfold SwitchOrNewBlock. fold oldBlock in Hlt, HN, H0.
  rewrite (proj2 (Z.eqb_neq (Block.Height oldBlock) height)) by lia. simpl.
  split; [by rewrite (bind_run _ _ _ _ _ E)|].
  assert (Hcur : CurrentBlock (Cache w') = new_block_record height bt (CalcScoop height sigBytes) sig sigBytes created)
    by (by rewrite Hc).
  split.
  - assert (Hp : (newBlock bt' sig' height w').1 = None).
    { apply (newBlock_again bt' sig' sigBytes'); [by rewrite Hcur|lia|lia| |done|].
      - replace (WasSlowBlock height (Cache w')) with (WasSlowBlock height c1) by (by rewrite Hc).
        unfold cache_old in Ec. destruct (GetGenerationTime _ _) as [t'|e]; [|by injection Ec as <- <-].
        replace c1 with (AddBlock Cfg (Block.Height oldBlock) t' (Cache w)).2 by (by unfold oldBlock; rewrite Ec).
        apply AddBlock_only; [done|lia].
      - unfold insert_block in Ei. destruct (bool_decide _); [done|]. injection Ei as <-. simpl.
        rewrite lookup_insert_eq. by eexists. }
    unfold mbind, M_bind. by destruct (newBlock bt' sig' height w') as [[|] w2].
  - unfold MaybeSwitchOrNewBlock, SwitchOrNewBlock. rewrite get_bind, Hcur. simpl.
    rewrite Z.eqb_refl, bool_decide_eq_true_2 by done. done.
Qed.

(** While the current height is positive and below [nAvg] the pool takes
    no block at all: the subtraction in the test of the age wraps around, so
    that every block counts as too old, and nothing changes. *)
Theorem young_chain_takes_no_block bt sig height w :
  0 < Block.Height (CurrentBlock (Cache w)) < NAVG Cfg -> NAVG Cfg < 2 ^ 63 -> 0 <= height < 2 ^ 63 ->
  (WasSlowBlock height (Cache w)).2 = false ->
  newBlock bt sig height w = (Some (Err "bock too old"%string), w).
Proof.
  intros Hcur HN Hh Hk. unfold newBlock. rewrite get_bind, Hk. cbv zeta.
  rewrite (proj2 (Z.eqb_neq _ 0)) by lia. simpl.
  rewrite (u64_small (NAVG Cfg)) by (unfold is_u64; lia). rewrite (proj2 (Z.ltb_lt _ _)); [done|].
  unfold u64. rewrite <- (Z.mod_unique _ _ (-1) (2 ^ 64 + Block.Height (CurrentBlock (Cache w)) - NAVG Cfg)) by lia. lia.
Qed.
End Close.

(** ** A run

    A wallet that knows generation times, and a pool at block 500000 with one
    miner, who submitted a deadline. *)

Definition timed_env : Env := calm test_cfg {|
  GetMiningInfo _ := Err "no wallet";
  GetBlockInfo _ _ := Err "no wallet";
  SubmitNonce _ _ _ _ := Err "no wallet";
  SendPayment _ _ _ := Err "no wallet";
  SendPayments _ _ := Fail_with "no wallet";
  GetAccountInfo _ _ := Err "no wallet";
  WonBlock _ _ _ _ := Err "no wallet";
  GetGenerationTime _ _ := Ok 240;
  GetIncomingMsgsSince _ _ := Err "no wallet";
  GetRewardRecipients _ := Ok {[1 := true]};
  GetTransaction _ _ := (Err "no wallet", false)
|}%string (1535760000 * 10 ^ 9).

Definition signature_a : string := "00000000000000000000000000000000000000000000000000000000000000aa".
Definition signature_b : string := "00000000000000000000000000000000000000000000000000000000000000bb".
Definition bytes_b : list Z := replicate 31 0 ++ [187].

Definition old_block : Block.t := Block.mk 500000 70000 0 signature_a [] false None None None 0 0.

Definition quiet_world : World :=
  set_db (with_block {[500000 := mk_block_row 70000 0 signature_a false None None None 0 0]} example_db)
    (set_cache (StoreCurrentBlock test_cfg old_block (Cache example_world)) example_world).

Definition round_world : World :=
  (@UpdateOrCreateNonceSubmission timed_env 0%nat 500000 77 5 70000 signature_a
    (@FirstOrCreateMiner timed_env 1 quiet_world).2).2.

Lemma round_world_wf : wf_world round_world.
Proof.
  apply (@keeps_UpdateOrCreateNonceSubmission timed_env), (@keeps_FirstOrCreateMiner timed_env).
  destruct (InitCache test_cfg) as [c|] eqn:E; [|by vm_compute in E].
  unfold quiet_world, example_world, start_world. rewrite E. cbn [default].
  destruct (@wf_start timed_env example_db c 0%nat [] E) as [H1 H2 H3 H4]. split; [exact H1|exact H2| |exact H4].
  by destruct H3.
Qed.

Lemma round_world_next : @next_block timed_env signature_b bytes_b 500001 round_world.
Proof. split; [vm_compute; split; discriminate || reflexivity|vm_compute; reflexivity|right; vm_compute; discriminate|vm_compute; reflexivity|vm_compute; reflexivity]. Qed.

Lemma new_block_ends_the_round_witness :
  exists w' m, @MaybeSwitchOrNewBlock timed_env 60000 signature_b 500001 round_world = (Some tt, w') /\
    objects w' !! 0%nat = Some m /\ is_Some (DeadlinesParams m !! 500000).
Proof.
  destruct (@new_block_ends_the_round timed_env 60000 signature_b bytes_b 500001 round_world (fun _ => eq_refl)
    round_world_wf round_world_next) as (w' & d1 & t & created & E & _ & _ & _ & _ & _ & _ & Hm & _).
  destruct (objects round_world !! 0%nat) as [m|] eqn:Em; [|vm_compute in Em; discriminate Em].
  destruct (Hm 1 0%nat m eq_refl Em) as [_ Ho]. eexists w', _. split; [exact E|split; [exact Ho|]].
  vm_compute in Em. injection Em as <-. vm_compute. eexists. reflexivity.
Defined.

Lemma lost_race_panics_witness :
  exists w', @SwitchOrNewBlock timed_env (CurrentBlock (Cache round_world)) 60000 signature_b 500001 round_world = (Some tt, w') /\
    (@SwitchOrNewBlock timed_env (CurrentBlock (Cache round_world)) 60000 signature_b 500001 w').1 = None.
Proof.
  destruct (@lost_race_panics timed_env 60000 60000 signature_b signature_b bytes_b bytes_b 500001 round_world
    (fun _ => eq_refl) round_world_wf round_world_next eq_refl) as (w' & E1 & E2 & _);
    [vm_compute; split; discriminate || reflexivity|vm_compute; reflexivity|].
  exists w'. split; [exact E1|exact E2].
Defined.

Lemma young_chain_takes_no_block_witness :
  let w := set_cache (StoreCurrentBlock test_cfg (Block.mk 7 70000 0 signature_a [] false None None None 0 0) (Cache example_world)) example_world in
  @newBlock timed_env 60000 signature_b 8 w = (Some (Err "bock too old"%string), w).
Proof.
  intros w. apply (@young_chain_takes_no_block timed_env).
  - vm_compute. split; reflexivity.
  - vm_compute. reflexivity.
  - split; [discriminate|reflexivity].
  - vm_compute. reflexivity.
Defined.
