(* ===== verification/ModelxTheorems.v ===== *)
(** * Theorems on blocks, miners and housekeeping ([pkg/modelx/modelx.go])

    The invariant of every reachable state; forks, which the pool never
    manages to switch to; miners created on demand; the cleaning of the
    database, which moves money but loses none, and goes too far on a young
    chain. *)

From Stdlib Require Import Ascii String.
From S2P Require Import Prelude GoStrings GoFloat RSEncoding Burstmath Config Blocks Shares Miner DB Cache.
From S2P Require Import Wallet World Payout PayoutTheorems Rewards Modelx ModelxInvariant.
Open Scope list_scope.
Open Scope Z_scope.
Import GoInt.

(** ** Reachable states *)

(** The operations that change the state, with what their callers pass. *)
Inductive operation :=
| OpPayout
| OpRewardBlocks
| OpSetMinPayout (msgOf : gmap Z string)
| OpBlock (baseTarget : Z) (genSig : string) (height : Z)
| OpMiner (accountID : Z)
| OpSubmission (miner : nat) (height deadline nonce baseTarget : Z) (genSig : string)
| OpBestSubmission (minerID height : Z)
| OpCleanDB
| OpRereadMinerNames.

Section Reachable.
Context `{Env}.

Definition perform (op : operation) (w : World) : World :=
  match op with
  | OpPayout => (Payout w).2
  | OpRewardBlocks => (RewardBlocks w).2
  | OpSetMinPayout msgOf => (SetMinPayout msgOf w).2
  | OpBlock bt sig h => (MaybeSwitchOrNewBlock bt sig h w).2
  | OpMiner id => (FirstOrCreateMiner id w).2
  | OpSubmission a h d n bt sig => (UpdateOrCreateNonceSubmission a h d n bt sig w).2
  | OpBestSubmission id h => (UpdateBestSubmission id h w).2
  | OpCleanDB => (CleanDB w).2
  | OpRereadMinerNames => (RereadMinerNames w).2
  end.

(** From an initialised cache and any database, the start of the pool, then
    any sequence of operations, each also when it panics. *)
Inductive reachable : World -> Prop :=
| reach_start d c n s : InitCache Cfg = Some c -> reachable (NewModelX (mk_World d c [] n s)).2
| reach_perform w op : reachable w -> reachable (perform op w).

Lemma keeps_UpdateBestSubmission id h : keeps (UpdateBestSubmission id h).
Proof. apply keeps_MustExec. Qed.

Lemma keeps_Payout : keeps Payout.
Proof. unfold Payout. keep; [apply keeps_createTransactions|apply keeps_validateTransactions|apply keeps_sendMoney]. Qed.

Lemma reachable_keeps w : reachable w -> wf_world w.
Proof.
  induction 1 as [d c n s Hc|w op _ IH]; [by apply keeps_NewModelX, wf_start|].
  destruct op; simpl; [apply keeps_Payout|apply keeps_RewardBlocks|apply keeps_SetMinPayout|apply keeps_MaybeSwitchOrNewBlock
    |apply keeps_FirstOrCreateMiner|apply keeps_UpdateOrCreateNonceSubmission|apply keeps_UpdateBestSubmission
    |apply keeps_CleanDB|apply keeps_RereadMinerNames]; done.
Qed.

(** C17: in every reachable state, whatever database and wallets answered and
    even after panics, each entry of the cache leads to the miner of its own
    id, shared with no other entry, whose pointers
    lead to deadline parameters - removing a height, confirming the current
    deadline and reading them never dereference nil - and the two caches of
    heights are sorted, bounded and agree with their index. *)
Theorem reachable_states_are_sound (w : World) :
  reachable w ->
  wf_blocks (Cache w) /\
  forall id a, miners (Cache w) !! id = Some a ->
    exists m, objects w !! a = Some m /\ Miner.wf m /\ ID m = id /\
      (forall id', miners (Cache w) !! id' = Some a -> id' = id) /\
      (forall h, is_Some (removeDeadlineParams h m)) /\ is_Some (addDeadlineParams m) /\
      (forall h p, DeadlinesParams m !! h = Some p -> exists dp, deref m p = Some dp /\ Miner.Height dp = h).
Proof.
  intros Hr. pose proof (reachable_keeps w Hr) as Hw. destruct Hw as [Hp Hm Hb Hi]. split; [done|]. intros id a Ha.
  destruct (Hp id a Ha) as [m Em]. exists m. assert (Hwf : Miner.wf m) by (by eapply Forall_lookup_1).
  split_and!; [done|done|by eapply Hi|intros id' Ha'; by eapply miners_separate| | |by apply Hwf].
  - intros h. unfold removeDeadlineParams. destruct (DeadlinesParams m !! h) as [p|] eqn:E; [|by eexists].
    destruct (wf_confirmed m Hwf h p E) as (dp & Ed & _). unfold deref. rewrite Ed. by eexists.
  - unfold addDeadlineParams. destruct (CurrentDeadlineParams m) as [p|] eqn:E; [|by eexists].
    destruct (wf_current m Hwf p E) as [dp Ed]. unfold deref. rewrite Ed. destruct_match; by eexists.
Qed.

(** ** Forks *)

(** The pool never switches to a fork: the statement of [switchBlock]
    names a column the schema does not have, so the call fails before it
    touches the cache or the miners.  For a block of the current height with
    another generation signature nothing changes, and the cache goes on
    giving the old signature to the miners. *)
Theorem fork_is_never_switched (bt h : Z) (sig : string) (w : World) :
  Block.Height (CurrentBlock (Cache w)) = h ->
  (forall bytes, DecodeGeneratorSignature (GoStrings.bytes sig) = Ok bytes ->
     (switchBlock bt sig h w).1 = Some (Err "database error"%string)) /\
  db (MaybeSwitchOrNewBlock bt sig h w).2 = db w /\
  Cache (MaybeSwitchOrNewBlock bt sig h w).2 = Cache w /\
  objects (MaybeSwitchOrNewBlock bt sig h w).2 = objects w.
Proof.
  intros Eh.
  assert (Hsw : only_ticks w (switchBlock bt sig h w).2 /\ (forall bytes, DecodeGeneratorSignature (GoStrings.bytes sig) = Ok bytes ->
     (switchBlock bt sig h w).1 = Some (Err "database error"%string)) /\ exists r, (switchBlock bt sig h w).1 = Some r).
  { unfold switchBlock. destruct (DecodeGeneratorSignature _) as [b|e]; [|by split_and!; [..|eexists]].
    unfold Exec, step, get, mret, M_ret, mbind, M_bind. simpl.
    destruct (db_fault _); (split_and!; [done|done|by eexists]). }
  destruct Hsw as ((E1 & E2 & E3 & _) & Hs & r & Er). split; [done|].
  unfold MaybeSwitchOrNewBlock, SwitchOrNewBlock, get, mbind, M_bind. rewrite Eh, Z.eqb_refl. simpl.
  case_bool_decide; [done|]. simpl. destruct (switchBlock bt sig h w) as [o w']. simpl in *. by subst o.
Qed.

(** ** Miners on demand *)

(** [FirstOrCreateMiner] gives the cached miner if there is one.
    Otherwise it makes one from the row of the account - also for the fee
    account, whose row the pool creates at its start, though [createMiner]
    refuses to mine with it - and, without a row, refuses the fee account
    only.  The database is not touched in these cases. *)
Theorem FirstOrCreateMiner_known (id : Z) (w : World) :
  (forall a, GetMiner id (Cache w) = Some a -> FirstOrCreateMiner id w = (Some (Some a), w)) /\
  (GetMiner id (Cache w) = None -> db_fault (tick w) = false ->
   (forall r, account (db w) !! id = Some r ->
      exists w' a, FirstOrCreateMiner id w = (Some (Some a), w') /\ db w' = db w /\
        objects w' !! a = Some (miner_of_account id r) /\ GetMiner id (Cache w') = Some a /\
        (forall id', id' <> id -> GetMiner id' (Cache w') = GetMiner id' (Cache w))) /\
   (account (db w) !! id = None -> id = FeeAccountID Cfg ->
      exists w', FirstOrCreateMiner id w = (Some None, w') /\ only_ticks w w')).
Proof.
  split.
  - intros a Ea. unfold FirstOrCreateMiner, get, mbind, M_bind. by rewrite Ea.
  - intros En Hf. unfold FirstOrCreateMiner, get, mbind, M_bind. rewrite En.
    unfold getMinerFromDB, Select, step, get, mret, M_ret, mbind, M_bind. rewrite Hf. simpl. split.
    + intros r Er. rewrite Er. simpl. unfold LoadOrStoreMiner, GetMiner in *. simpl. rewrite En. simpl.
      do 2 eexists. split; [done|]. simpl. split_and!; [done|by rewrite list_lookup_middle|apply lookup_insert_eq|].
      intros id' Hne. by rewrite lookup_insert_ne.
    + intros Er ->. rewrite Er. simpl. unfold createMiner, mret, M_ret. rewrite Z.eqb_refl. by eexists.
Qed.

(** ** Cleaning the database *)

Lemma account_prune d : account (prune d) = account d.
Proof. unfold prune. induction (_ + _)%nat as [|n IH]; [done|]. by rewrite Nat.iter_succ. Qed.

Lemma prune_without_blocks d : block d = ∅ -> block (prune d) = ∅ /\ nonce_submission (prune d) = ∅.
Proof.
  intros Hb.
  assert (Hn : forall n, block (Nat.iter n prune_step d) = ∅).
  { induction n as [|n IH]; [done|]. rewrite Nat.iter_succ. simpl. rewrite IH. apply map_filter_empty. }
  split; [apply Hn|]. unfold prune. rewrite <- plus_n_Sm, Nat.iter_succ.
  specialize (Hn (size (block d) + size (nonce_submission d) + 2)%nat). set (e := Nat.iter _ _ d) in *.
  apply map_eq. intros k. rewrite lookup_empty. apply map_lookup_filter_None. right. intros r _.
  unfold fk. rewrite Hn. cbn [snd]. rewrite lookup_empty, (bool_decide_eq_false_2 (is_Some None)) by (by intros []).
  by rewrite andb_false_r.
Qed.

(** A sum over a map, in two parts. *)
Lemma sum_filter {A} (f : A -> Z) (P : Z * A -> Prop) `{!forall x, Decision (P x)} (m : gmap Z A) :
  sum_values f (filter P m) + sum_values f (filter (fun x => ~ P x) m) = sum_values f m.
Proof.
  induction m as [|k a m Hk IH] using map_ind; [done|].
  rewrite (sum_insert f m) by done. destruct (decide (P (k, a))) as [HP|HP].
  - rewrite map_filter_insert_True, map_filter_insert_False by (done || by intros []).
    rewrite (delete_id m) by done. rewrite sum_insert by (apply map_lookup_filter_None; by left). lia.
  - rewrite (map_filter_insert_False P), map_filter_insert_True by done.
    rewrite (delete_id m) by done. rewrite sum_insert by (apply map_lookup_filter_None; by left). lia.
Qed.

(** The fee account takes the pending amounts of all accounts without a
    miner, its own included, and they are deleted. *)
Definition fee_is_no_miner (d : DB) : Prop :=
  is_Some (account d !! FeeAccountID Cfg) /\ miner d !! FeeAccountID Cfg = None.

Definition transferred (d d' : DB) : Prop :=
  miner d' = miner d /\
  exists r', account d' = <[FeeAccountID Cfg := r']> (account d) /\ a_pending r' = sum_values a_pending (orphans d).

Lemma transfer_pending_transfers d d' :
  fee_is_no_miner d -> transfer_pending (FeeAccountID Cfg) d = Ok d' -> transferred d d'.
Proof.
  intros [[r Hr] Hm]. unfold transfer_pending. rewrite Hr. destruct (_ =? 0)%nat; [done|].
  case_bool_decide; [|done]. intros [= <-]. split; [done|]. eexists. split; [done|]. simpl. lia.
Qed.

Lemma delete_old_accounts_keeps d d' d'' :
  fee_is_no_miner d -> transferred d d' -> delete_old_accounts (FeeAccountID Cfg) d' = Ok d'' ->
  total_pending d'' = total_pending d /\ account d'' = filter (fun p => ~ (p.1 <> FeeAccountID Cfg /\ miner d !! p.1 = None)) (account d').
Proof.
  intros [[r Hr] Hm] (Em & r' & Ea & Ep) [= <-]. rewrite account_prune. simpl. rewrite Em. split; [|done].
  unfold total_pending. rewrite account_prune. simpl. rewrite Ea.
  set (fee := FeeAccountID Cfg) in *.
  rewrite map_filter_insert_True by (simpl; tauto).
  set (kept := filter (fun p => ~ (miner d !! p.1 = None)) (account d)).
  assert (Hkept : delete fee (filter (fun p : Z * account_row => ~ (p.1 <> fee /\ miner d !! p.1 = None)) (account d)) = kept).
  { unfold kept. apply map_eq. intros k. apply option_eq. intros x.
    rewrite lookup_delete_Some, !map_lookup_filter_Some. simpl.
    split; [|intros (H1 & H2)]; [intros (H1 & H2 & H3); split; [done|intros Hx; apply H3; by split]|].
    split_and!; [congruence|done|tauto]. }
  rewrite <- insert_delete_eq, Hkept, sum_insert, Ep.
  - apply sum_filter.
  - unfold kept. apply map_lookup_filter_None. right. intros x Hx. simpl. tauto.
Qed.

(** The statements before the transaction. *)
Lemma delete_blocks_below_account h d d' : delete_blocks_below h d = Ok d' -> account d' = account d.
Proof. intros [= <-]. by rewrite account_prune. Qed.

Lemma miner_prune d k : miner d !! k = None -> miner (prune d) !! k = None.
Proof.
  intros Hk. unfold prune. induction (_ + _)%nat as [|n IH]; [done|]. rewrite Nat.iter_succ. simpl.
  apply map_lookup_filter_None. by left.
Qed.

Lemma MustExec_cases f w :
  exists w', (MustExec f w = (None, w') /\ db w' = db w) \/ (MustExec f w = (Some tt, w') /\ f (db w) = Ok (db w')).
Proof.
  rewrite MustExec_run. simpl. destruct (db_fault _); [eexists; left; split; [done|reflexivity]|].
  destruct (f (db w)) as [d|e]; eexists; [right|left]; (split; [done|reflexivity]).
Qed.

(** The transaction of [CleanDB]. *)
Definition clean_tx (tx : DB) : M (result sql_error DB) :=
  and_then (TxExec (transfer_pending (FeeAccountID Cfg)) tx)
    (fun tx => TxExec (delete_old_accounts (FeeAccountID Cfg)) tx).

Lemma clean_tx_run (w : World) :
  fee_is_no_miner (db w) ->
  exists r w', (and_then Begin (fun tx => and_then (clean_tx tx) (fun tx => Commit tx))) w = (Some r, w') /\
    total_pending (db w') = total_pending (db w).
Proof.
  intros Hfee.
  assert (Htx : tx_triple (fun tx => tx = db w) clean_tx (fun tx => total_pending tx = total_pending (db w))).
  { unfold clean_tx. apply (tx_then _ (transferred (db w))).
    - apply tx_exec. intros tx d' -> E. by apply transfer_pending_transfers.
    - apply tx_exec. intros tx d' Ht E. by eapply delete_old_accounts_keeps. }
  destruct (run_transaction w clean_tx _ Htx) as (r & w' & E & _ & _ & _ & HQ). exists r, w'. split; [done|].
  destruct r; [done|by rewrite HQ].
Qed.

Lemma CleanDB_unfold w :
  CleanDB w = (MustExec (delete_blocks_below (u64 (Block.Height (CurrentBlock (Cache w)) - 5000))) ;;
               MustExec delete_idle_miners ;;
               r ← and_then Begin (fun tx => and_then (clean_tx tx) (fun tx => Commit tx)); mret tt) w.
Proof.
  unfold CleanDB, get, mbind, M_bind. destruct (MustExec _ w) as [[[]|] w1]; [|done].
  destruct (MustExec _ w1) as [[[]|] w2]; [|done].
  unfold and_then at 1 4, mbind, M_bind. destruct (Begin w2) as [[[tx|e]|] w3]; [|done..].
  unfold clean_tx. by rewrite and_then_assoc.
Qed.

(** C18: cleaning the database never creates or destroys pending money, at
    whichever statement it fails or panics, as long as the fee account has its
    row and does not mine: the amounts of deleted accounts go to the fee
    account in the same transaction. *)
Theorem CleanDB_conserves_pending (w : World) :
  fee_is_no_miner (db w) -> total_pending (db (CleanDB w).2) = total_pending (db w).
Proof.
  intros [Hfee Hm]. rewrite CleanDB_unfold. set (h := u64 _).
  destruct (MustExec_cases (delete_blocks_below h) w) as (w1 & [[E1 D1]|[E1 D1]]);
    [unfold mbind, M_bind; rewrite E1; simpl; by rewrite D1|rewrite (bind_run _ _ _ _ _ E1)].
  assert (A1 : account (db w1) = account (db w)) by (by eapply delete_blocks_below_account).
  assert (M1 : miner (db w1) !! FeeAccountID Cfg = None) by (injection D1 as <-; by apply miner_prune).
  destruct (MustExec_cases delete_idle_miners w1) as (w2 & [[E2 D2]|[E2 D2]]);
    [unfold mbind, M_bind; rewrite E2; simpl; unfold total_pending; by rewrite D2, A1|rewrite (bind_run _ _ _ _ _ E2)].
  injection D2 as D2.
  assert (A2 : account (db w2) = account (db w)) by (by rewrite <- D2).
  assert (H2 : fee_is_no_miner (db w2)).
  { split; [by rewrite A2|]. rewrite <- D2. simpl. apply map_lookup_filter_None. by left. }
  destruct (clean_tx_run w2 H2) as (r & w3 & E3 & T3). rewrite (bind_run _ _ _ _ _ E3). simpl.
  rewrite T3. unfold total_pending. by rewrite A2.
Qed.

Lemma clean_tx_no_fault w t t' :
  (forall n, db_fault n = false) -> transfer_pending (FeeAccountID Cfg) (db w) = Ok t ->
  delete_old_accounts (FeeAccountID Cfg) t = Ok t' ->
  exists w', (and_then Begin (fun tx => and_then (clean_tx tx) (fun tx => Commit tx))) w = (Some (Ok tt), w') /\ db w' = t'.
Proof.
  intros Hf Ht Hd. unfold and_then, Begin, Select, clean_tx, TxExec, Commit, step, get, modify, mret, M_ret, mbind, M_bind.
  repeat (rewrite Hf; simpl). change (db (set_tick _ w)) with (db w). unfold and_then, mbind, M_bind. rewrite Ht. simpl.
  rewrite Hf, Hd, !Hf. eexists. split; [reflexivity|done].
Qed.

Lemma MustExec_no_fault f w d :
  (forall n, db_fault n = false) -> f (db w) = Ok d ->
  exists w', MustExec f w = (Some tt, w') /\ db w' = d.
Proof. intros Hf E. rewrite MustExec_run. simpl. rewrite Hf, E. by eexists. Qed.

Lemma filter_none {A} (P : Z * A -> Prop) `{!forall x, Decision (P x)} (m : gmap Z A) :
  (forall k a, m !! k = Some a -> ~ P (k, a)) -> filter P m = ∅.
Proof.
  intros Hn. apply map_eq. intros k. rewrite lookup_empty. apply map_lookup_filter_None.
  destruct (m !! k) eqn:E; [right|by left]. intros x [= <-]. by apply Hn.
Qed.

(** The database after the first two statements: no block is kept. *)
Definition wiped (d : DB) : Prop := block d = ∅ /\ nonce_submission d = ∅ /\ miner d = ∅.

Lemma wiped_prune d : wiped d -> wiped (prune d).
Proof.
  intros (H1 & H2 & H3). destruct (prune_without_blocks d H1) as [E1 E2]. split_and!; [done..|].
  apply map_eq. intros k. rewrite lookup_empty. apply miner_prune. by rewrite H3.
Qed.

(** Below height 5000 the bound of [CleanDB] wraps around: every block is
    deleted, and with the blocks all submissions, all miners and all accounts
    but the one for fees, which receives the pending amounts of everybody. *)
Theorem CleanDB_wipes_young_chain (w : World) :
  (forall n, db_fault n = false) ->
  0 <= Block.Height (CurrentBlock (Cache w)) < 5000 ->
  (forall h b, block (db w) !! h = Some b -> 0 <= h < 2 ^ 63) ->
  is_Some (account (db w) !! FeeAccountID Cfg) -> is_i64 (total_pending (db w)) ->
  exists w' r, CleanDB w = (Some tt, w') /\ wiped (db w') /\
    account (db w') = {[FeeAccountID Cfg := r]} /\ a_pending r = total_pending (db w).
Proof.
  intros Hf Hh Hb [r Hr] Hi. rewrite CleanDB_unfold.
  assert (Hu : u64 (Block.Height (CurrentBlock (Cache w)) - 5000) = Block.Height (CurrentBlock (Cache w)) - 5000 + 2 ^ 64).
  { unfold u64. symmetry. apply (Z.mod_unique _ _ (-1)); lia. }
  rewrite Hu. set (k := _ + 2 ^ 64). assert (Hk : 2 ^ 63 <= k) by (unfold k; lia).
  destruct (MustExec_no_fault (delete_blocks_below k) w _ Hf eq_refl) as (w1 & E1 & D1).
  rewrite (filter_none _ (block (db w))) in D1 by (intros h b Hhb; simpl; specialize (Hb h b Hhb); lia).
  rewrite (bind_run _ _ _ _ _ E1).
  assert (Hw1 : block (db w1) = ∅ /\ nonce_submission (db w1) = ∅) by (rewrite D1; by apply prune_without_blocks).
  destruct Hw1 as [B1 N1].
  assert (A1 : account (db w1) = account (db w)) by (by rewrite D1, account_prune).
  destruct (MustExec_no_fault delete_idle_miners w1 _ Hf eq_refl) as (w2 & E2 & D2).
  rewrite N1, map_to_list_empty in D2. rewrite (filter_none _ (miner (db w1))) in D2 by (intros; by simpl).
  rewrite (bind_run _ _ _ _ _ E2).
  assert (W2 : wiped (db w2)) by (by rewrite D2).
  assert (A2 : account (db w2) = account (db w)) by (by rewrite D2).
  assert (Horphans : orphans (db w2) = account (db w)).
  { unfold orphans. rewrite A2. destruct W2 as (_ & _ & ->). apply map_filter_id. intros i x _. apply lookup_empty. }
  set (r' := add_to_pending (total_pending (db w) - a_pending r) r).
  assert (Ht : transfer_pending (FeeAccountID Cfg) (db w2) =
               Ok (with_account (<[FeeAccountID Cfg := r']> (account (db w2))) (db w2))).
  { unfold transfer_pending. rewrite A2, Hr, Horphans.
    destruct (size (account (db w)) =? 0)%nat eqn:Es.
    { apply Nat.eqb_eq, map_size_empty_inv in Es. by rewrite Es in Hr. }
    by rewrite bool_decide_eq_true_2. }
  destruct (clean_tx_no_fault w2 _ _ Hf Ht eq_refl) as (w3 & E3 & D3).
  rewrite (bind_run _ _ _ _ _ E3). exists w3, r'.
  split_and!; [done|..]; [| |simpl; lia].
  - rewrite D3. by apply wiped_prune.
  - rewrite D3, account_prune. simpl. destruct W2 as (_ & _ & ->). rewrite A2.
      apply map_eq. intros i. apply option_eq. intros x.
      rewrite map_lookup_filter_Some, lookup_singleton_Some, lookup_insert_Some. simpl.
      rewrite lookup_empty. split; [intros [[?|[H1 H2]] H3]; [done|]; exfalso; apply H3; split; congruence|].
      intros [<- <-]. split; [by left|by intros []].
Qed.

End Reachable.

(** ** Concrete runs *)

Lemma reachable_states_are_sound_witness :
  reachable (H := example_env) (@perform example_env OpPayout (@NewModelX example_env example_world).2) /\
  wf_blocks (Cache (@perform example_env OpPayout (@NewModelX example_env example_world).2)).
Proof.
  assert (Hr : reachable (H := example_env) (@perform example_env OpPayout (@NewModelX example_env example_world).2)).
  { apply (@reach_perform example_env). destruct (InitCache test_cfg) as [c|] eqn:E; [|by vm_compute in E].
    replace example_world with (mk_World example_db c [] 0 []); [by apply (@reach_start example_env)|].
    unfold example_world, start_world. by rewrite E. }
  split; [exact Hr|]. exact (proj1 (@reachable_states_are_sound example_env _ Hr)).
Defined.

Lemma fork_is_never_switched_witness :
  Cache (@MaybeSwitchOrNewBlock example_env 70000 "00" 0 example_world).2 = Cache example_world.
Proof.
  destruct (@fork_is_never_switched example_env 70000 0 "00" example_world) as (_ & _ & E & _).
  - vm_compute. reflexivity.
  - exact E.
Defined.

Lemma FirstOrCreateMiner_known_witness :
  exists w' a, @FirstOrCreateMiner example_env 6418289488649374107 example_world = (Some (Some a), w').
Proof.
  destruct (proj2 (@FirstOrCreateMiner_known example_env 6418289488649374107 example_world)) as [H _];
    [vm_compute; reflexivity..|].
  edestruct H as (w' & a & E & _); [vm_compute; reflexivity|]. exists w', a. exact E.
Defined.

Lemma CleanDB_conserves_pending_witness :
  total_pending (db (@CleanDB example_env example_world).2) = 500050000000.
Proof.
  rewrite (@CleanDB_conserves_pending example_env example_world); [vm_compute; reflexivity|].
  split; [vm_compute; eexists; reflexivity|vm_compute; reflexivity].
Defined.

Lemma CleanDB_wipes_young_chain_witness :
  exists w' r, @CleanDB example_env example_world = (Some tt, w') /\ account (db w') = {[6418289488649374107 := r]} /\
               a_pending r = 500050000000.
Proof.
  destruct (@CleanDB_wipes_young_chain example_env example_world) as (w' & r & H1 & _ & H2 & H3).
  - intros n. reflexivity.
  - vm_compute. split; [discriminate|reflexivity].
  - intros h b Hb. exfalso. by apply (lookup_empty_Some (M := gmap Z) h b).
  - vm_compute. eexists. reflexivity.
  - vm_compute. split; [discriminate|reflexivity].
  - exists w', r. split; [exact H1|split; [exact H2|rewrite H3; vm_compute; reflexivity]].
Defined.
