(* ===== verification/WalletNodes.v ===== *)
(** * The wallet handler ([pkg/wallethandler/wallethandler.go])

    The implementation of the interface [WalletHandler] of [World]: every
    operation asks wallet nodes, all at once or one after the other until one
    answers.  A node is a record of its answers; a stamp numbers the requests
    the pool makes.  The order in which nodes answer, or are tried, is any
    permutation. *)

From Stdlib Require Import Ascii String.
From S2P Require Import Prelude GoStrings GoFloat Config Miner DB Cache Wallet WalletRequests World Payout PayoutTheorems.
From S2P Require Import Burstmath.
Open Scope string_scope.
Open Scope list_scope.
Open Scope Z_scope.
Import GoInt.

(** ** Requests *)

Definition block_request (height : Z) : GetBlockRequest.t := GetBlockRequest.mk 0 height 0 false.
Definition broadcast_request (txBs : string) : BroadcastTransactionRequest.t := BroadcastTransactionRequest.mk txBs "".
Definition transaction_request (txID : Z) : GetTransactionRequest.t := GetTransactionRequest.mk txID "".
(** Messages, since the given time. *)
Definition messages_request (poolPublicID timestamp : Z) : GetAccountTransactionsRequest.t :=
  GetAccountTransactionsRequest.mk poolPublicID timestamp 1 0 0 0 0.

(** [strings.HasSuffix] *)
Definition HasSuffix (s suffix : string) : bool :=
  let n := List.length (bytes suffix) in
  let k := List.length (bytes s) in
  (n <=? k)%nat && bool_decide (drop (k - n) (bytes s) = bytes suffix).

Section Handler.
Context (Cfg : Config) (secretPhrase : string) (wallets : list Wallet).
Context (schedule : stamp -> list Wallet -> list Wallet) (schedule_perm : forall t l, schedule t l ≡ₚ l).

(** ** Requests to several nodes *)

(** The replies with the urls of their nodes, in the order they arrive. *)
Definition reqAll {A} (t : stamp) (reqF : Wallet -> result string A) : result string (list (A * string)) :=
  match omap (fun w => match reqF w with Ok a => Some (a, url w) | Err _ => None end) (schedule t wallets) with
  | [] => Err "no wallet sucessfull"
  | results => Ok results
  end.

(** The first reply that is no error. *)
Fixpoint first_reply {A} (reqF : Wallet -> result string A) (ws : list Wallet) : result string A :=
  match ws with
  | [] => Err "no wallet successfull"
  | w :: ws' => match reqF w with Ok obj => Ok obj | Err _ => first_reply reqF ws' end
  end.

Definition reqRandom {A} (t : stamp) (reqF : Wallet -> result string A) : result string A :=
  first_reply reqF (schedule t wallets).

(** The requests [reqRandom] makes: up to the first reply. *)
Fixpoint asked {A} (reqF : Wallet -> result string A) (ws : list Wallet) : list Wallet :=
  match ws with
  | [] => []
  | w :: ws' => w :: match reqF w with Ok _ => [] | Err _ => asked reqF ws' end
  end.

(** ** Operations *)

Definition higher (miningInfo : MiningInfo.t) (res : MiningInfo.t * string) : MiningInfo.t :=
  if MiningInfo.Height miningInfo <? MiningInfo.Height res.1 then res.1 else miningInfo.

Definition GetMiningInfo (n : nat) : result string MiningInfo.t :=
  match reqAll (n, 0%nat) (fun w => w_GetMiningInfo w (n, 0%nat)) with
  | Err e => Err (String.append "getting mining info: " e)
  | Ok results => Ok (foldl higher MiningInfo.zero results)
  end.

Definition GetBlockInfo (t : stamp) (height : Z) : result string BlockReply.t :=
  match reqRandom t (fun w => w_GetBlock w t (block_request height)) with
  | Err e => Err (String.append "get block info: " e)
  | Ok r => Ok r
  end.

Definition SubmitNonce (n : nat) (nonce accountID deadline : Z) : result string unit :=
  let t := (n, 0%nat) in
  match reqRandom t (fun w =>
    match w_SubmitNonce w t (SubmitNonceRequest.mk accountID nonce secretPhrase) with
    | Err e => Err e
    | Ok res =>
        if SubmitNonceReply.Deadline res =? deadline then Ok res
        else Err (String.append "pool deadline " (String.append (of_bytes (FormatUint deadline))
               (String.append " doesn't match wallet deadline " (of_bytes (FormatUint (SubmitNonceReply.Deadline res))))))
    end) with
  | Err e => Err e
  | Ok _ => Ok tt
  end.

Definition broadcastTransaction (t : stamp) (txBs : string) : result string Z :=
  match reqAll t (fun w => w_BroadcastTransaction w t (broadcast_request txBs)) with
  | Err e => Err e
  | Ok [] => Err ""
  | Ok (r :: _) => Ok (BroadcastReply.TxID r.1)
  end.

(** The result, and what was broadcast: the reply of the broadcast is ignored. *)
Definition broadcast_first (n : nat) (replies : result string (list (SendMoneyReply.t * string))) :
    result string Z * option (string * result string Z) :=
  match replies with
  | Err e => (Err e, None)
  | Ok [] => (Err "", None)
  | Ok ((reply, _) :: _) =>
      let txBs := SendMoneyReply.TransactionBytes reply in
      (Ok (SendMoneyReply.TxID reply), Some (txBs, broadcastTransaction (n, 1%nat) txBs))
  end.

Definition money_request (recipient amount : Z) : SendMoneyRequest.t :=
  SendMoneyRequest.mk recipient amount (PoolTxFee Cfg) 1440 "" false secretPhrase.

Definition SendPayment (n : nat) (recipient amount : Z) : result string Z * option (string * result string Z) :=
  let t := (n, 0%nat) in
  broadcast_first n (reqAll t (fun w => w_SendMoney w t (money_request recipient amount))).

Definition SendPayments (n : nat) (idToAmount : list (Z * Z)) :
    outcome string Z * option (string * result string Z) :=
  match EncodeRecipients idToAmount with
  | Panic => (Panic, None)
  | Fail_with e => (Fail_with e, None)
  | Return recipients =>
      let t := (n, 0%nat) in
      let '(r, b) := broadcast_first n (reqAll t (fun w =>
        w_SendMoneyMulti w t (SendMoneyMultiRequest.mk recipients (PoolTxFee Cfg) 1440 "" false secretPhrase))) in
      (match r with Ok id => Return id | Err e => Fail_with e end, b)
  end.

Definition GetAccountInfo (n : nat) (accountID : Z) : result string AccountReply.t :=
  reqRandom (n, 0%nat) (fun w => w_GetAccount w (n, 0%nat) (GetAccountRequest.mk accountID)).

Definition WonBlock (n : nat) (height minerID nonce : Z) : result string (bool * BlockReply.t) :=
  match GetBlockInfo (n, 0%nat) height with
  | Err e => Err e
  | Ok blockInfo =>
      Ok ((BlockReply.Generator blockInfo =? minerID) && (BlockReply.Nonce blockInfo =? nonce), blockInfo)
  end.

Definition GetGenerationTime (n : nat) (height : Z) : result string Z :=
  (try b1 <- GetBlockInfo (n, 0%nat) (u64 (height - 1)) ;;
   try b2 <- GetBlockInfo (n, 1%nat) height ;;
   Ok (i32 (BlockReply.Timestamp b2 - BlockReply.Timestamp b1)))%go.

Definition note_message (msgOf : gmap Z string) (txInfo : AccountTransaction.t) : gmap Z string :=
  if AccountTransaction.Sender txInfo =? PoolPublicID Cfg then msgOf
  else <[AccountTransaction.Sender txInfo := AccountTransaction.Message txInfo]> msgOf.

Definition GetIncomingMsgsSince (n : nat) (date : Z) : result string (gmap Z string) :=
  let t := (n, 0%nat) in
  match reqRandom t (fun w => w_GetAccountTransactions w t
          (messages_request (PoolPublicID Cfg) (DateToTimeStamp (date / second)))) with
  | Err e => Err e
  | Ok txs => Ok (foldl note_message ∅ txs)
  end.

Definition GetRewardRecipients (n : nat) : result string (gmap Z bool) :=
  let t := (n, 0%nat) in
  match reqRandom t (fun w => w_GetAccountsWithRewardRecipient w t (GetAccountsWithRewardRecipientRequest.mk (PoolPublicID Cfg))) with
  | Err e => Err e
  | Ok rs => Ok (foldl (fun m r => <[r := true]> m) ∅ rs)
  end.

(** Whether a node knows what became of the transaction. *)
Definition decisive (r : result string TransactionReply.t) : bool :=
  match r with Ok _ => true | Err e => HasSuffix e "Unknown transaction" end.

Definition GetTransaction (n : nat) (txID : Z) : result string TransactionReply.t * bool :=
  let t := (n, 0%nat) in
  let reqF w := w_GetTransaction w t (transaction_request txID) in
  (reqRandom t reqF, existsb (fun w => decisive (reqF w)) (asked reqF (schedule t wallets))).

(** The loop of [CalcOptimalTxFee]; the tests let it run at most ten times. *)
Fixpoint count_transactions (fuel : nat) (n k : nat) (h stop txCount : Z) : result string Z :=
  match fuel with
  | O => Ok txCount
  | S f =>
      if h <? stop then
        match GetBlockInfo (n, k) h with
        | Err e => Err e
        | Ok b => count_transactions f n (S k) (u64 (h + 1)) stop (i64 (txCount + BlockReply.NumberOfTransactions b))
        end
      else Ok txCount
  end.

Definition CalcOptimalTxFee (n : nat) (height : Z) : result string Z :=
  match count_transactions 11 n 0 (u64 (height - 11)) (u64 (height - 1)) 0 with
  | Err e => Err e
  | Ok txCount => Ok (i64 (735000 * (Z.quot txCount 10 + 1)))
  end.

End Handler.

(** The handler as the pool uses it. *)
Definition NewWalletHandler (cfg : Config) (secretPhrase : string) (wallets : list Wallet)
    (schedule : stamp -> list Wallet -> list Wallet) : World.WalletHandler := {|
  World.GetMiningInfo := GetMiningInfo wallets schedule;
  World.GetBlockInfo n h := GetBlockInfo wallets schedule (n, 0%nat) h;
  World.SubmitNonce := SubmitNonce secretPhrase wallets schedule;
  World.SendPayment n r a := (SendPayment cfg secretPhrase wallets schedule n r a).1;
  World.SendPayments n m := (SendPayments cfg secretPhrase wallets schedule n m).1;
  World.GetAccountInfo := GetAccountInfo wallets schedule;
  World.WonBlock := WonBlock wallets schedule;
  World.GetGenerationTime := GetGenerationTime wallets schedule;
  World.GetIncomingMsgsSince := GetIncomingMsgsSince cfg wallets schedule;
  World.GetRewardRecipients := GetRewardRecipients cfg wallets schedule;
  World.GetTransaction := GetTransaction wallets schedule
|}.

(** ** Theorems *)

Section Theorems.
Context (Cfg : Config) (secretPhrase : string) (wallets : list Wallet).
Context (schedule : stamp -> list Wallet -> list Wallet) (schedule_perm : forall t l, schedule t l ≡ₚ l).

Lemma scheduled t w : w ∈ schedule t wallets <-> w ∈ wallets.
Proof using schedule_perm. by rewrite schedule_perm. Qed.

(** The replies are those of the nodes that answered. *)
Lemma reqAll_spec {A} t (reqF : Wallet -> result string A) :
  match reqAll wallets schedule t reqF with
  | Ok results => results <> [] /\
      forall a u, (a, u) ∈ results <-> exists w, w ∈ wallets /\ reqF w = Ok a /\ url w = u
  | Err _ => forall w, w ∈ wallets -> exists e, reqF w = Err e
  end.
Proof using schedule_perm.
  unfold reqAll. set (f := fun w => _).
  assert (Hin : forall a u, (a, u) ∈ omap f (schedule t wallets) <-> exists w, w ∈ wallets /\ reqF w = Ok a /\ url w = u).
  { intros a u. rewrite list_elem_of_omap. setoid_rewrite scheduled. unfold f. split; intros (w & Hw & E); exists w.
    - destruct (reqF w); [|done]. by injection E as -> ->.
    - destruct E as [-> <-]. done. }
  destruct (omap f (schedule t wallets)) as [|r rs]; [|done].
  intros w Hw. destruct (reqF w) as [a|e] eqn:E; [|by eexists]. exfalso.
  apply (not_elem_of_nil (a, url w)), Hin. by exists w.
Qed.

Lemma first_reply_spec {A} (reqF : Wallet -> result string A) ws :
  match first_reply reqF ws with
  | Ok a => exists w, w ∈ ws /\ reqF w = Ok a
  | Err e => e = "no wallet successfull" /\ forall w, w ∈ ws -> exists e, reqF w = Err e
  end.
Proof.
  induction ws as [|w ws IH]; simpl; [split; [done|by intros w ?%not_elem_of_nil]|].
  destruct (reqF w) as [a|e] eqn:E; [exists w; split; [left|done]|].
  destruct (first_reply reqF ws) as [a|e'].
  - destruct IH as (x & ? & ?). exists x. split; [by right|done].
  - destruct IH as [-> IH]. split; [done|]. intros x [->|Hx]%elem_of_cons; [by exists e|by apply IH].
Qed.

Lemma reqRandom_spec {A} t (reqF : Wallet -> result string A) :
  match reqRandom wallets schedule t reqF with
  | Ok a => exists w, w ∈ wallets /\ reqF w = Ok a
  | Err e => e = "no wallet successfull" /\ forall w, w ∈ wallets -> exists e, reqF w = Err e
  end.
Proof using schedule_perm.
  unfold reqRandom. pose proof (first_reply_spec reqF (schedule t wallets)) as Hs.
  destruct (first_reply _ _) as [a|e]; [destruct Hs as (w & ?%scheduled & ?); by exists w|].
  destruct Hs as [-> Hs]. split; [done|]. intros w Hw. by apply Hs, scheduled.
Qed.

Lemma foldl_higher rs acc :
  MiningInfo.Height acc <= MiningInfo.Height (foldl higher acc rs) /\
  (forall r, r ∈ rs -> MiningInfo.Height r.1 <= MiningInfo.Height (foldl higher acc rs)) /\
  (foldl higher acc rs = acc \/ exists r, r ∈ rs /\ foldl higher acc rs = r.1).
Proof.
  revert acc. induction rs as [|r rs IH]; intros acc; simpl.
  { split_and!; [lia|by intros r ?%not_elem_of_nil|by left]. }
  destruct (IH (higher acc r)) as (H1 & H2 & H3).
  assert (Hh : MiningInfo.Height acc <= MiningInfo.Height (higher acc r) /\
               MiningInfo.Height r.1 <= MiningInfo.Height (higher acc r)).
  { unfold higher. destruct (Z.ltb_spec (MiningInfo.Height acc) (MiningInfo.Height r.1)); lia. }
  split_and!; [lia| |].
  - intros x [->|Hx]%elem_of_cons; [lia|by apply H2].
  - destruct H3 as [E|(x & Hx & E)]; [|right; exists x; split; [by right|done]].
    rewrite E. unfold higher. destruct (_ <? _); [right; exists r; split; [left|done]|by left].
Qed.

(** [GetMiningInfo] fails exactly when no node answers; otherwise it
    gives the reply of a node, and none that answered is at a greater height,
    in whatever order the replies arrive. *)
Theorem GetMiningInfo_highest (n : nat) :
  match GetMiningInfo wallets schedule n with
  | Ok info =>
      (exists w i, w ∈ wallets /\ w_GetMiningInfo w (n, 0%nat) = Ok i) /\
      (info = MiningInfo.zero \/ exists w, w ∈ wallets /\ w_GetMiningInfo w (n, 0%nat) = Ok info) /\
      forall w i, w ∈ wallets -> w_GetMiningInfo w (n, 0%nat) = Ok i -> MiningInfo.Height i <= MiningInfo.Height info
  | Err _ => forall w, w ∈ wallets -> exists e, w_GetMiningInfo w (n, 0%nat) = Err e
  end.
Proof using schedule_perm.
  unfold GetMiningInfo. pose proof (reqAll_spec (n, 0%nat) (fun w => w_GetMiningInfo w (n, 0%nat))) as Hs.
  destruct (reqAll _ _ _ _) as [results|e]; [|done]. destruct Hs as [Hne Hin].
  destruct (foldl_higher results MiningInfo.zero) as (_ & H2 & H3). split_and!.
  - destruct results as [|[i u] rs]; [done|]. destruct (proj1 (Hin i u)) as (w & ? & ? & _); [left|]. by exists w, i.
  - destruct H3 as [E|([i u] & Hr & E)]; [by left|right]. apply Hin in Hr as (w & ? & ? & _). exists w. by rewrite E.
  - intros w i Hw Ei. apply (H2 (i, url w)), Hin. by exists w.
Qed.

(** A nonce counts as submitted exactly when a node took it and computed
    the deadline of the pool for it. *)
Theorem SubmitNonce_spec (n : nat) (nonce accountID deadline : Z) :
  SubmitNonce secretPhrase wallets schedule n nonce accountID deadline = Ok tt <->
  exists w r, w ∈ wallets /\ w_SubmitNonce w (n, 0%nat) (SubmitNonceRequest.mk accountID nonce secretPhrase) = Ok r /\
              SubmitNonceReply.Deadline r = deadline.
Proof using schedule_perm.
  unfold SubmitNonce. set (reqF := fun w => match w_SubmitNonce w _ _ with Err e => Err e | Ok _ => _ end).
  pose proof (reqRandom_spec (n, 0%nat) reqF) as Hs.
  assert (Hok : forall w r, reqF w = Ok r <-> w_SubmitNonce w (n, 0%nat) (SubmitNonceRequest.mk accountID nonce secretPhrase) = Ok r /\
                                       SubmitNonceReply.Deadline r = deadline).
  { intros w r. unfold reqF. destruct (w_SubmitNonce _ _ _) as [r'|e]; [|by split; [|intros []]].
    destruct (Z.eqb_spec (SubmitNonceReply.Deadline r') deadline); split.
    - by intros [= <-].
    - by intros [[= <-] _].
    - done.
    - by intros [[= <-] ?]. }
  destruct (reqRandom _ _ _ _) as [r|e].
  - destruct Hs as (w & Hw & Er). apply Hok in Er. split; [|done]. intros _. by exists w, r.
  - destruct Hs as [_ Hs]. split; [done|]. intros (w & r & Hw & E). apply Hok in E.
    destruct (Hs w Hw) as [e' E']. by rewrite E in E'.
Qed.

(** A payment that succeeds has the id of a transaction a node signed for
    exactly this recipient and amount without broadcasting it, and these bytes
    and no others are then broadcast; a payment that fails is not broadcast. *)
Theorem SendPayment_broadcasts_what_it_returns (n : nat) (recipient amount : Z) :
  match SendPayment Cfg secretPhrase wallets schedule n recipient amount with
  | (Ok txID, Some (txBs, _)) =>
      exists w reply, w ∈ wallets /\
        w_SendMoney w (n, 0%nat) (SendMoneyRequest.mk recipient amount (PoolTxFee Cfg) 1440 "" false secretPhrase) = Ok reply /\
        SendMoneyReply.TxID reply = txID /\ SendMoneyReply.TransactionBytes reply = txBs
  | (Ok _, None) => False
  | (Err _, b) => b = None /\ forall w, w ∈ wallets -> exists e, w_SendMoney w (n, 0%nat) (money_request Cfg secretPhrase recipient amount) = Err e
  end.
Proof using schedule_perm.
  unfold SendPayment, broadcast_first.
  pose proof (reqAll_spec (n, 0%nat) (fun w => w_SendMoney w (n, 0%nat) (money_request Cfg secretPhrase recipient amount))) as Hs.
  destruct (reqAll _ _ _ _) as [[|[reply u] rs]|e]; [by destruct Hs| |done].
  destruct Hs as [_ Hin]. destruct (proj1 (Hin reply u)) as (w & Hw & E & _); [left|]. by exists w, reply.
Qed.

(** [WonBlock] reports a win exactly when a node gives the block with the
    miner as its generator and with the nonce that was submitted for it. *)
Theorem WonBlock_spec (n : nat) (height minerID nonce : Z) :
  match WonBlock wallets schedule n height minerID nonce with
  | Ok (won, blockInfo) =>
      (exists w, w ∈ wallets /\ w_GetBlock w (n, 0%nat) (block_request height) = Ok blockInfo) /\
      (won = true <-> BlockReply.Generator blockInfo = minerID /\ BlockReply.Nonce blockInfo = nonce)
  | Err _ => forall w, w ∈ wallets -> exists e, w_GetBlock w (n, 0%nat) (block_request height) = Err e
  end.
Proof using schedule_perm.
  unfold WonBlock, GetBlockInfo. pose proof (reqRandom_spec (n, 0%nat) (fun w => w_GetBlock w (n, 0%nat) (block_request height))) as Hs.
  destruct (reqRandom _ _ _ _) as [b|e]; [|by destruct Hs]. split; [done|].
  rewrite andb_true_iff, !Z.eqb_eq. done.
Qed.

Lemma note_messages id txs m :
  foldl (note_message Cfg) m txs !! id =
  if id =? PoolPublicID Cfg then m !! id
  else match last (filter (fun tx => AccountTransaction.Sender tx = id) txs) with
       | Some tx => Some (AccountTransaction.Message tx)
       | None => m !! id
       end.
Proof.
  revert m. induction txs as [|tx txs IH]; intros m; simpl; [by destruct (_ =? _)|]. rewrite IH. unfold note_message.
  rewrite filter_cons. destruct (Z.eqb_spec id (PoolPublicID Cfg)) as [->|Hid].
  - destruct (Z.eqb_spec (AccountTransaction.Sender tx) (PoolPublicID Cfg)); [done|]. by rewrite lookup_insert_ne.
  - destruct (decide (AccountTransaction.Sender tx = id)) as [<-|Hs].
    + apply Z.eqb_neq in Hid. rewrite Hid, last_cons, lookup_insert_eq. by destruct (last _).
    + destruct (last _); [done|]. destruct (_ =? _); [done|]. by rewrite lookup_insert_ne.
Qed.

(** Of the transactions a node lists, the pool takes per sender the
    message of the last one, and never one of its own account. *)
Theorem GetIncomingMsgsSince_spec (n : nat) (date : Z) (msgOf : gmap Z string) :
  GetIncomingMsgsSince Cfg wallets schedule n date = Ok msgOf ->
  exists w txs, w ∈ wallets /\
    w_GetAccountTransactions w (n, 0%nat) (messages_request (PoolPublicID Cfg) (DateToTimeStamp (date / second))) = Ok txs /\
    msgOf !! PoolPublicID Cfg = None /\
    forall id, id <> PoolPublicID Cfg ->
      msgOf !! id = AccountTransaction.Message <$> last (filter (fun tx => AccountTransaction.Sender tx = id) txs).
Proof using schedule_perm.
  unfold GetIncomingMsgsSince. set (req := messages_request _ _).
  pose proof (reqRandom_spec (n, 0%nat) (fun w => w_GetAccountTransactions w (n, 0%nat) req)) as Hs.
  destruct (reqRandom _ _ _ _) as [txs|e]; [|done]. intros [= <-]. destruct Hs as (w & Hw & E).
  exists w, txs. split_and!; [done..| |].
  - by rewrite note_messages, Z.eqb_refl.
  - intros id Hid. apply Z.eqb_neq in Hid. rewrite note_messages, Hid. by destruct (last _).
Qed.

Lemma asked_all {A} (reqF : Wallet -> result string A) ws :
  (forall w, w ∈ ws -> exists e, reqF w = Err e) -> asked reqF ws = ws.
Proof.
  induction ws as [|w ws IH]; intros Hall; simpl; [done|]. destruct (Hall w) as [e E]; [left|]. rewrite E. f_equal.
  apply IH. intros x Hx. apply Hall. by right.
Qed.

Lemma asked_reply {A} (reqF : Wallet -> result string A) ws a :
  first_reply reqF ws = Ok a -> exists w, w ∈ asked reqF ws /\ reqF w = Ok a.
Proof.
  induction ws as [|w ws IH]; simpl; [done|]. destruct (reqF w) as [b|e] eqn:E.
  - intros [= <-]. exists w. split; [left|done].
  - intros H. destruct (IH H) as (x & Hx & Ex). exists x. split; [by right|done].
Qed.

(** What [GetTransaction] reports.  A reply is one of a node.  When no
    node replies, the query still counts as successful - the transaction as
    missing - exactly when some node does not know it, even if all others
    could not be reached. *)
Theorem GetTransaction_spec (n : nat) (txID : Z) :
  let reply w := w_GetTransaction w (n, 0%nat) (transaction_request txID) in
  match GetTransaction wallets schedule n txID with
  | (Ok r, querySuccessful) => querySuccessful = true /\ exists w, w ∈ wallets /\ reply w = Ok r
  | (Err _, querySuccessful) =>
      (forall w, w ∈ wallets -> exists e, reply w = Err e) /\
      (querySuccessful = true <->
       exists w e, w ∈ wallets /\ reply w = Err e /\ HasSuffix e "Unknown transaction" = true)
  end.
Proof using schedule_perm.
  cbv zeta. unfold GetTransaction. set (reqF := fun w => w_GetTransaction w (n, 0%nat) (transaction_request txID)).
  pose proof (reqRandom_spec (n, 0%nat) reqF) as Hs. unfold reqRandom in *.
  destruct (first_reply reqF _) as [r|e] eqn:E.
  - split; [|done]. destruct (asked_reply _ _ _ E) as (w & Hw & Er). apply existsb_exists. exists w.
    split; [by apply list_elem_of_In|]. unfold decisive. unfold reqF in Er. by rewrite Er.
  - destruct Hs as [_ Hall]. split; [done|]. rewrite asked_all by (intros w Hw%scheduled; by apply Hall).
    rewrite existsb_exists. setoid_rewrite <- list_elem_of_In. setoid_rewrite scheduled. unfold decisive. split.
    + intros (w & Hw & Hd). destruct (Hall w Hw) as [e' E']. unfold reqF in E'. rewrite E' in Hd. by exists w, e'.
    + intros (w & e' & Hw & E' & Hd). exists w. by rewrite E'.
Qed.

(** *** The fee of the network *)

Definition total_transactions (b : nat -> BlockReply.t) (k m : nat) : Z :=
  foldr (fun i acc => BlockReply.NumberOfTransactions (b i) + acc) 0 (seq k m).

Lemma count_transactions_sum n (b : nat -> BlockReply.t) (m k fuel : nat) h acc :
  (m < fuel)%nat -> 0 <= h -> h + Z.of_nat m < 2 ^ 64 ->
  0 <= acc -> (m <= 10)%nat -> acc <= 2 ^ 31 * (10 - Z.of_nat m) ->
  (forall i, (k <= i < k + m)%nat -> 0 <= BlockReply.NumberOfTransactions (b i) < 2 ^ 31 /\
     GetBlockInfo wallets schedule (n, i) (h + Z.of_nat (i - k)) = Ok (b i)) ->
  count_transactions wallets schedule fuel n k h (h + Z.of_nat m) acc = Ok (acc + total_transactions b k m).
Proof.
  revert k fuel h acc. induction m as [|m IH]; intros k fuel h acc Hf Hh Hs Ha Hm Hacc Hb.
  - destruct fuel as [|f]; [lia|]. cbn [count_transactions]. destruct (Z.ltb_spec h (h + Z.of_nat 0)); [lia|]. f_equal. unfold total_transactions. simpl. lia.
  - destruct fuel as [|f]; [lia|]. cbn [count_transactions]. destruct (Z.ltb_spec h (h + Z.of_nat (S m))); [|lia].
    destruct (Hb k ltac:(lia)) as [Hn Hg]. rewrite Nat.sub_diag, Z.add_0_r in Hg. rewrite Hg.
    rewrite u64_small by (unfold is_u64; lia). rewrite i64_small by (unfold is_i64; lia).
    replace (h + Z.of_nat (S m)) with ((h + 1) + Z.of_nat m) by lia. rewrite IH; try lia.
    + f_equal. unfold total_transactions. simpl. lia.
    + intros i Hi. destruct (Hb i ltac:(lia)) as [H1 H2]. split; [done|]. rewrite <- H2. f_equal. lia.
Qed.

(** The optimal fee grows with the number of transactions in the ten
    blocks before the given one; up to height 10 the first height wraps
    around, no block is read and the fee is the lowest. *)
Theorem CalcOptimalTxFee_spec (n : nat) (height : Z) (b : nat -> BlockReply.t) :
  (11 <= height < 2 ^ 64 ->
   (forall i, (i < 10)%nat -> 0 <= BlockReply.NumberOfTransactions (b i) < 2 ^ 31 /\
      GetBlockInfo wallets schedule (n, i) (height - 11 + Z.of_nat i) = Ok (b i)) ->
   CalcOptimalTxFee wallets schedule n height = Ok (735000 * (total_transactions b 0 10 / 10 + 1))) /\
  (1 <= height <= 10 -> CalcOptimalTxFee wallets schedule n height = Ok 735000).
Proof.
  split.
  - intros Hh Hb. unfold CalcOptimalTxFee. rewrite !u64_small by (unfold is_u64; lia).
    replace (height - 1) with (height - 11 + Z.of_nat 10) by lia.
    rewrite (count_transactions_sum n b 10 0 11); try lia.
    + assert (H0 : 0 <= total_transactions b 0 10 <= 10 * 2 ^ 31).
      { unfold total_transactions. cbn [seq foldr].
        pose proof (proj1 (Hb 0%nat ltac:(lia))). pose proof (proj1 (Hb 1%nat ltac:(lia))).
        pose proof (proj1 (Hb 2%nat ltac:(lia))). pose proof (proj1 (Hb 3%nat ltac:(lia))).
        pose proof (proj1 (Hb 4%nat ltac:(lia))). pose proof (proj1 (Hb 5%nat ltac:(lia))).
        pose proof (proj1 (Hb 6%nat ltac:(lia))). pose proof (proj1 (Hb 7%nat ltac:(lia))).
        pose proof (proj1 (Hb 8%nat ltac:(lia))). pose proof (proj1 (Hb 9%nat ltac:(lia))). lia. }
      rewrite Z.add_0_l, Z.quot_div_nonneg by lia. rewrite i64_small; [done|].
      pose proof (Z.div_le_upper_bound (total_transactions b 0 10) 10 (2 ^ 31) ltac:(lia) ltac:(lia)).
      pose proof (Z.div_pos (total_transactions b 0 10) 10 ltac:(lia) ltac:(lia)). unfold is_i64. lia.
    + intros i Hi. rewrite Nat.sub_0_r. apply Hb. lia.
  - intros Hh. unfold CalcOptimalTxFee.
    assert (u64 (height - 11) = height - 11 + 2 ^ 64) as ->.
    { unfold u64. symmetry. apply (Z.mod_unique _ _ (-1)); lia. }
    rewrite u64_small by (unfold is_u64; lia). cbn [count_transactions].
    destruct (Z.ltb_spec (height - 11 + 2 ^ 64) (height - 1)); [lia|]. done.
Qed.

End Theorems.

(** ** Concrete nodes *)

Definition in_turn (t : stamp) (ws : list Wallet) : list Wallet := ws.

(** A node that cannot be reached. *)
Definition down (u : string) : Wallet := {|
  url := u;
  w_GetMiningInfo _ := Err "timeout";
  w_GetBlock _ _ := Err "timeout";
  w_SubmitNonce _ _ := Err "timeout";
  w_SendMoney _ _ := Err "timeout";
  w_SendMoneyMulti _ _ := Err "timeout";
  w_BroadcastTransaction _ _ := Err "timeout";
  w_GetAccount _ _ := Err "timeout";
  w_GetAccountTransactions _ _ := Err "timeout";
  w_GetAccountsWithRewardRecipient _ _ := Err "timeout";
  w_GetTransaction _ _ := Err "timeout"
|}.

(** A node that signs payments and lists messages, but lags behind the chain:
    it knows no transaction. *)
Definition lagging : Wallet := {|
  url := "http://localhost";
  w_GetMiningInfo _ := Ok (MiningInfo.mk "00" 70000 77000);
  w_GetBlock t r := let h := GetBlockRequest.Height r in Ok (BlockReply.of_fields 7 9 1000 0 h 5 (240 * h));
  w_SubmitNonce _ _ := Ok (SubmitNonceReply.mk 50 "success");
  w_SendMoney t _ := Ok (SendMoneyReply.mk (100 + Z.of_nat t.1) "bytes");
  w_SendMoneyMulti t _ := Ok (SendMoneyReply.mk (100 + Z.of_nat t.1) "bytes");
  w_BroadcastTransaction _ _ := Ok (BroadcastReply.mk "" 1);
  w_GetAccount _ _ := Err "Unknown account";
  w_GetAccountTransactions _ _ :=
    Ok [AccountTransaction.mk 7 "weekly"; AccountTransaction.mk 8 "daily"; AccountTransaction.mk 7 "now"];
  w_GetAccountsWithRewardRecipient _ _ := Ok [7; 8];
  w_GetTransaction _ _ := Err "request to http://localhost: Unknown transaction"
|}.

(** The pool with these two nodes; a day passes at every step. *)
Definition lagging_env : Env := {|
  Cfg := test_cfg;
  World.walletHandler := NewWalletHandler test_cfg "secret" [lagging; down "http://other"] in_turn;
  clock n := (17775 + Z.of_nat n) * day;
  db_fault _ := false;
  order _ l := l;
  order_perm _ l := Permutation_refl l;
  CalcScoop h _ := h mod 4096;
  time_String _ := ""; datetime_String _ := "";
  walletDB := None
|}.

(** One payment of 5 to account 1 that was not sent yet. *)
Definition unsent_world : World :=
  start_world test_cfg (with_recipient {[1 := mk_recipient 1 1 5]} 2
    (with_tx {[1 := mk_tx None None 0]} 2 example_db)).

(** A node that does not know a transaction, while the others cannot be
    reached, makes the pool pay a second time: the transaction counts as
    missing, its id is cleared, and the recipient is paid again. *)
Theorem lagging_node_pays_twice :
  exists w', (@sendMoney lagging_env ;; @validateTransactions lagging_env ;; @sendMoney lagging_env) unsent_world
             = (Some tt, w') /\
    exists tx1 tx2, tx1 <> tx2 /\
      sent w' = [mk_payment [(1, 5)] (Some tx1); mk_payment [(1, 5)] (Some tx2)].
Proof.
  eexists. split; [vm_compute; reflexivity|]. do 2 eexists. split; [|reflexivity]. vm_compute. congruence.
Qed.

Lemma in_turn_perm t l : in_turn t l ≡ₚ l.
Proof. done. Qed.

Lemma GetIncomingMsgsSince_spec_witness :
  exists msgOf, GetIncomingMsgsSince test_cfg [lagging] in_turn 0 0 = Ok msgOf /\ msgOf !! PoolPublicID test_cfg = None.
Proof.
  destruct (GetIncomingMsgsSince test_cfg [lagging] in_turn 0 0) as [msgOf|e] eqn:E; [|vm_compute in E; discriminate E].
  exists msgOf. split; [reflexivity|].
  destruct (GetIncomingMsgsSince_spec test_cfg [lagging] in_turn in_turn_perm 0 0 msgOf E) as (w & txs & _ & _ & H & _).
  exact H.
Defined.

Lemma CalcOptimalTxFee_spec_witness :
  CalcOptimalTxFee [lagging] in_turn 0 77406 = Ok (735000 * 6) /\ CalcOptimalTxFee [lagging] in_turn 0 5 = Ok 735000.
Proof.
  pose (b := fun i : nat => BlockReply.of_fields 7 9 1000 0 (77395 + Z.of_nat i) 5 (240 * (77395 + Z.of_nat i))).
  split.
  - refine (proj1 (CalcOptimalTxFee_spec [lagging] in_turn 0 77406 b) _ _); [lia|].
    intros i Hi. split; [|reflexivity]. change (0 <= 5 < 2 ^ 31). lia.
  - refine (proj2 (CalcOptimalTxFee_spec [lagging] in_turn 0 5 b) _). lia.
Defined.

Lemma GetMiningInfo_highest_witness :
  GetMiningInfo [down "a"; lagging] in_turn 0 = Ok (MiningInfo.mk "00" 70000 77000) /\
  MiningInfo.Height (MiningInfo.mk "00" 70000 77000) <= 77000.
Proof.
  split; [reflexivity|].
  exact (proj2 (proj2 (GetMiningInfo_highest [down "a"; lagging] in_turn in_turn_perm 0)) lagging _
           ltac:(right; left) eq_refl).
Defined.

Lemma SubmitNonce_spec_witness : SubmitNonce "secret" [down "a"; lagging] in_turn 0 9 7 50 = Ok tt.
Proof.
  apply (SubmitNonce_spec "secret" [down "a"; lagging] in_turn in_turn_perm 0 9 7 50).
  exists lagging, (SubmitNonceReply.mk 50 "success"). split; [right; left|split; reflexivity].
Defined.

Lemma SendPayment_broadcasts_what_it_returns_witness :
  exists w reply, w ∈ [down "a"; lagging] /\ w_SendMoney w (3%nat, 0%nat) (SendMoneyRequest.mk 1 5 (PoolTxFee test_cfg) 1440 "" false "secret") = Ok reply /\
    SendMoneyReply.TxID reply = 103.
Proof.
  destruct (SendPayment_broadcasts_what_it_returns test_cfg "secret" [down "a"; lagging] in_turn in_turn_perm 3 1 5)
    as (w & reply & H1 & H2 & H3 & _).
  exists w, reply. split; [exact H1|split; [exact H2|exact H3]].
Defined.

Lemma WonBlock_spec_witness :
  exists w, w ∈ [down "a"; lagging] /\ w_GetBlock w (0%nat, 0%nat) (block_request 10) = Ok (BlockReply.of_fields 7 9 1000 0 10 5 2400).
Proof.
  exact (proj1 (WonBlock_spec [down "a"; lagging] in_turn in_turn_perm 0 10 7 9)).
Defined.

Lemma GetTransaction_spec_witness : GetTransaction [lagging; down "b"] in_turn 0 55 = (Err "no wallet successfull", true) /\
  exists w e, w ∈ [lagging; down "b"] /\ w_GetTransaction w (0%nat, 0%nat) (transaction_request 55) = Err e /\ HasSuffix e "Unknown transaction" = true.
Proof.
  split; [vm_compute; reflexivity|].
  apply (proj2 (GetTransaction_spec [lagging; down "b"] in_turn in_turn_perm 0 55)). vm_compute. reflexivity.
Defined.
