(* ===== verification/WalletWire.v ===== *)
(** * Payments over HTTP: [pkg/wallethandler] on top of [pkg/wallet]

    The wallet handler with the nodes that [NewWalletHandler] makes of the
    configured urls: what a payment that succeeds says about the requests
    that were sent and the responses that came back. *)

From Stdlib Require Import Ascii String.
From S2P Require Import Prelude GoStrings GoFloat Config Wallet WalletRequests World WalletNodes.
Open Scope string_scope.
Open Scope list_scope.
Open Scope Z_scope.
Import GoInt.

Section Wire.
Context (Cfg : Config) (secretPhrase : string) (urls : list string).
Context (client : stamp -> string -> string -> result string (Z * string)).
Context `{!Decoder MiningInfo.t} `{!Decoder BlockReply.t} `{!Decoder SubmitNonceReply.t} `{!Decoder SendMoneyReply.t}.
Context `{!Decoder BroadcastReply.t} `{!Decoder AccountReply.t} `{!Decoder (list AccountTransaction.t)}.
Context `{!Decoder (list Z)} `{!Decoder TransactionReply.t}.
Context (schedule : stamp -> list Wallet -> list Wallet) (schedule_perm : forall t l, schedule t l ≡ₚ l).

(** [NewWalletHandler]: a map with a wallet for each url, so that a url that
    is listed twice is one node.  The order of the map is that of [schedule]. *)
Definition nodes : list Wallet := NewWallet client <$> remove_dups urls.

Lemma nodes_once : NoDup (url <$> nodes).
Proof. unfold nodes. rewrite <- list_fmap_compose, list_fmap_id. apply NoDup_remove_dups. Qed.

Lemma elem_of_nodes w : w ∈ nodes <-> exists u, w = NewWallet client u /\ u ∈ urls.
Proof. unfold nodes. rewrite list_elem_of_fmap. by setoid_rewrite elem_of_remove_dups. Qed.

(** A reply comes from a response with status 200 to the request's own url,
    and without an error description. *)
Lemma send_Ok {R Reply} `{!Request R} `{!Decoder Reply} u t (req : R) (r : Reply) :
  send client u t req = Ok r <->
  exists body, client t (if bool_decide (http_method R = "GET"%string) then "GET" else "POST")%string
                 (String.append (apiURL u) (of_bytes (query req))) = Ok (StatusOK, body) /\
               unmarshal body = Ok (r, ""%string).
Proof.
  unfold send, processJSONRequest. cbv zeta. set (U := String.append _ _). split.
  - destruct (client t _ U) as [[st body]|e]; [|done]. destruct (Z.eqb_spec st StatusOK) as [->|]; simpl; [|done].
    destruct (unmarshal body) as [[r' d]|e] eqn:E; [|done]. case_bool_decide as Hd; [done|]. intros [= <-].
    exists body. split; [done|]. simpl in *. destruct (decide (d = ""%string)) as [->|?]; [done|by destruct Hd].
  - by intros (body & -> & ->).
Qed.

Lemma reqAll_nodes {A} t (reqF : Wallet -> result string A) r u rs :
  reqAll nodes schedule t reqF = Ok ((r, u) :: rs) -> u ∈ urls /\ reqF (NewWallet client u) = Ok r.
Proof using schedule_perm.
  intros E. pose proof (reqAll_spec nodes schedule schedule_perm t reqF) as Hs. rewrite E in Hs.
  destruct Hs as [_ Hin]. destruct (proj1 (Hin r u)) as (w & Hw & Er & Eu); [left|].
  apply elem_of_nodes in Hw as (u' & -> & Hu). simpl in Eu. by subst u'.
Qed.

(** The first of the signed transactions, as it was requested. *)
Lemma broadcast_first_nodes n reqF txID txBs b :
  broadcast_first nodes schedule n (reqAll nodes schedule (n, 0%nat) reqF) = (Ok txID, Some (txBs, b)) ->
  exists u reply, u ∈ urls /\ reqF (NewWallet client u) = Ok reply /\
    SendMoneyReply.TxID reply = txID /\ SendMoneyReply.TransactionBytes reply = txBs.
Proof using schedule_perm.
  destruct (reqAll _ _ _ reqF) as [[|[reply u] rs]|e] eqn:E; simpl; [done| |done]. intros [= <- <- <-].
  apply reqAll_nodes in E as [Hu E]. by exists u, reply.
Qed.

(** What a node answered to a payment: to a POST whose query it reads as
    [read]. *)
Definition answered {R} (read : list Z -> option R) (n : nat) (payment : R) (txID : Z) (txBs : string) : Prop :=
  exists u q body reply,
    u ∈ urls /\ client (n, 0%nat) "POST"%string (String.append (apiURL u) (of_bytes q)) = Ok (StatusOK, body) /\
    read q = Some payment /\ unmarshal body = Ok (reply, ""%string) /\
    SendMoneyReply.TxID reply = txID /\ SendMoneyReply.TransactionBytes reply = txBs.

Lemma answered_query {R P} `{!Request R} (read : list Z -> option P) (req : R) p n u reply txID txBs :
  http_method R = "POST"%string -> read (query req) = Some p -> u ∈ urls ->
  send client u (n, 0%nat) req = Ok reply ->
  SendMoneyReply.TxID reply = txID -> SendMoneyReply.TransactionBytes reply = txBs ->
  answered read n p txID txBs.
Proof.
  intros Hm Hread Hu Hs H1 H2. apply send_Ok in Hs as (body & Hc & Hb). rewrite Hm in Hc.
  by exists u, (query req), body, reply.
Qed.

(** C32: a payment that succeeds - to one account, or to many - was requested
    from a node by a POST that the node reads as exactly this payment, not to
    be broadcast, with the pool's fee; the node answered with status 200 and
    the transaction whose id is returned and whose bytes are broadcast. *)
Theorem payments_over_HTTP (n : nat) :
  is_i64 (PoolTxFee Cfg) ->
  (forall recipient amount txID txBs b, is_u64 recipient -> is_i64 amount ->
     WalletNodes.SendPayment Cfg secretPhrase nodes schedule n recipient amount = (Ok txID, Some (txBs, b)) ->
     answered read_SendMoney n (SendMoneyRequest.mk recipient amount (PoolTxFee Cfg) 1440 "" false secretPhrase) txID txBs) /\
  (forall entries txID txBs b, Forall (fun p => is_u64 p.1 /\ is_i64 p.2) entries ->
     WalletNodes.SendPayments Cfg secretPhrase nodes schedule n entries = (Return txID, Some (txBs, b)) ->
     exists recipients, answered read_SendMoneyMulti n
       (entries, SendMoneyMultiRequest.mk recipients (PoolTxFee Cfg) 1440 "" false secretPhrase) txID txBs).
Proof using schedule_perm.
  intros Hfee. split.
  - intros recipient amount txID txBs b Hr Ha E. unfold WalletNodes.SendPayment in E.
    apply broadcast_first_nodes in E as (u & reply & Hu & E & H1 & H2).
    eapply answered_query; [| |exact Hu|exact E|exact H1|exact H2]; [done|]. apply read_SendMoney_query. by split_and!.
  - intros entries txID txBs b He E. unfold WalletNodes.SendPayments in E.
    pose proof (EncodeRecipients_read entries He) as Hs.
    destruct (EncodeRecipients entries) as [recipients|e|] eqn:Ee; [|done..]. destruct Hs as [Hs Hb].
    destruct (broadcast_first _ _ _ _) as [[id|e] o] eqn:Eb; [|done]. injection E as -> ->.
    apply broadcast_first_nodes in Eb as (u & reply & Hu & E & H1 & H2). exists recipients.
    eapply answered_query; [| |exact Hu|exact E|exact H1|exact H2]; [done|]. by apply read_SendMoneyMulti_query.
Qed.

End Wire.

(** ** A node that signs everything *)

Module Signing.

#[local] Instance dec_MiningInfo : Decoder MiningInfo.t := fun _ => Err "".
#[local] Instance dec_BlockReply : Decoder BlockReply.t := fun _ => Err "".
#[local] Instance dec_SubmitNonce : Decoder SubmitNonceReply.t := fun _ => Err "".
#[local] Instance dec_SendMoney : Decoder SendMoneyReply.t :=
  fun body => if bool_decide (body = "signed") then Ok (SendMoneyReply.mk 42 "c0ffee", "") else Err "".
#[local] Instance dec_Broadcast : Decoder BroadcastReply.t := fun _ => Err "".
#[local] Instance dec_Account : Decoder AccountReply.t := fun _ => Err "".
#[local] Instance dec_Transactions : Decoder (list AccountTransaction.t) := fun _ => Err "".
#[local] Instance dec_Recipients : Decoder (list Z) := fun _ => Err "".
#[local] Instance dec_Transaction : Decoder TransactionReply.t := fun _ => Err "".

Definition client (t : stamp) (method u : string) : result string (Z * string) := Ok (200, "signed").

Lemma payments_over_HTTP_witness :
  answered ["http://a"; "http://b"] client read_SendMoney 7
    (SendMoneyRequest.mk 18446744073709551615 5 (PoolTxFee test_cfg) 1440 "" false "pass phrase & more") 42 "c0ffee".
Proof.
  refine (proj1 (payments_over_HTTP test_cfg "pass phrase & more" ["http://a"; "http://b"] client in_turn in_turn_perm 7 _)
    18446744073709551615 5 42 "c0ffee" (Err "no wallet sucessfull") _ _ _); by vm_compute.
Defined.

End Signing.
