(* ===== verification/Replies.v ===== *)
(** * The replies of a wallet node ([pkg/wallet/wallet.go])

    The reply structs, field for field with their tags, the type [Uint64Str]
    with its two methods, and the decoders that [processJSONRequest] uses:
    from the body of a response to the fields the program reads, and the
    description of an error.  Theorems ([NodeReplies] says what a node sends
    and that it is read): whatever a node sends, the numbers are in the range of their
    types; and a reply without any of the fields counts as a success. *)

From Stdlib Require Import Ascii String.
From S2P Require Import Prelude GoStrings GoParse GoJson JsonText GoFloat Config Wallet JsonDecode WalletRequests World WalletNodes WalletWire.
Open Scope string_scope.
Open Scope list_scope.
Open Scope Z_scope.
Import GoInt.

(** ** [Uint64Str] *)

Definition MarshalJSON (i : Z) : list Z := marshal_string (FormatUint i).

(** [b] is what the text given to the method is parsed to. *)
Definition UnmarshalJSON (b : json) (i : Z) : result string Z :=
  (* try string first *)
  match decode TString b (GStr []) with
  | Ok (GStr s) =>
      match ParseUint s with
      | Err e => Err "strconv.ParseUint"
      | Ok value => Ok value
      end
  | _ =>
      (* fallback to number *)
      match decode (TUint 64) b (GInt i) with
      | Ok (GInt z) => Ok z
      | Ok _ => Ok i
      | Err e => Err e
      end
  end.

Definition Uint64Str : gotype := TUnmarshaler UnmarshalJSON.

(** ** The structs *)

(** A field without and with the option [string]. *)
Definition plain (name : string) (t : gotype) : string * (bool * gotype) := (name, (false, t)).
Definition quoted (name : string) (t : gotype) : string * (bool * gotype) := (name, (true, t)).

(** On a machine of 64 bits. *)
Definition int : gotype := TInt 64.
Definition int64 : gotype := TInt 64.
Definition int32 : gotype := TInt 32.
Definition uint64 : gotype := TUint 64.
Definition uint32 : gotype := TUint 32.

(** Embedded in every reply; what [getError] gives. *)
Definition errorDescriptionField : list (string * (bool * gotype)) := [plain "errorDescription" TString].

Definition transactionData : list (string * (bool * gotype)) := [
  plain "signatureHash" TString;
  plain "unsignedTransactionBytes" TString;
  plain "transactionJSON" (TStruct [
    plain "senderPublicKey" TString;
    plain "signature" TString;
    plain "feeNQT" TString;
    plain "type" int;
    plain "fullHash" TString;
    plain "version" int;
    quoted "ecBlockId" uint64;
    plain "signatureHash" TString;
    plain "senderRS" TString;
    plain "subtype" int;
    quoted "amountNQT" int64;
    quoted "sender" uint64;
    plain "recipientRS" TString;
    quoted "recipient" uint64;
    plain "ecBlockHeight" uint64;
    plain "deadline" int;
    quoted "transaction" uint64;
    plain "timestamp" int;
    plain "height" uint64]);
  plain "broadcasted" TBool;
  plain "transactionBytes" TString;
  plain "fullHash" TString].

Definition GetMiningInfoReply : gotype := TStruct ([
  plain "generationSignature" TString;
  quoted "baseTarget" uint64;
  quoted "height" uint64] ++ errorDescriptionField).

Definition SubmitNonceReply : gotype := TStruct ([
  plain "deadline" uint64;
  plain "result" TString] ++ errorDescriptionField).

Definition GetBlockReply : gotype := TStruct ([
  plain "previousBlockHash" TString;
  plain "payloadLength" int;
  quoted "totalAmountNQT" int64;
  plain "generationSignature" TString;
  quoted "generator" uint64;
  plain "generatorPublicKey" TString;
  quoted "baseTarget" uint64;
  plain "payloadHash" TString;
  plain "generatorRS" TString;
  quoted "blockReward" int64;
  plain "scoopNum" uint32;
  plain "numberOfTransactions" int;
  plain "blockSignature" TString;
  plain "transactions" (TSlice Uint64Str);
  quoted "nonce" uint64;
  plain "version" int;
  quoted "totalFeeNQT" int64;
  quoted "previousBlock" uint64;
  quoted "block" uint64;
  quoted "nextBlock" uint64;
  plain "height" uint64;
  plain "timestamp" int32] ++ errorDescriptionField).

Definition GetAccountsWithRewardRecipientReply : gotype := TStruct ([
  plain "accounts" (TSlice Uint64Str)] ++ errorDescriptionField).

Definition BroadcastTransactionReply : gotype := TStruct ([
  plain "fullHash" TString;
  quoted "transaction" uint64] ++ errorDescriptionField).

Definition SendMoneyReply : gotype := TStruct ([
  quoted "transaction" uint64] ++ transactionData ++ errorDescriptionField).

Definition SendMoneyMultiReply : gotype := TStruct ([
  quoted "transaction" uint64] ++ transactionData ++ errorDescriptionField).

Definition AccountTransaction : gotype := TStruct [
  plain "senderPublicKey" TString;
  plain "signature" TString;
  quoted "feeNQT" int64;
  plain "type" int;
  plain "confirmations" int;
  plain "fullHash" TString;
  plain "version" int;
  quoted "ecBlockId" uint64;
  plain "signatureHash" TString;
  plain "attachment" (TStruct [
    plain "version.Message" int;
    plain "messageIsText" TBool;
    plain "message" TString]);
  plain "senderRS" TString;
  plain "subtype" int;
  quoted "amountNQT" int64;
  quoted "sender" uint64;
  plain "recipientRS" TString;
  quoted "recipient" uint64;
  plain "ecBlockHeight" uint64;
  plain "block" TString;
  plain "blockTimestamp" int64;
  plain "deadline" uint64;
  quoted "transaction" uint64;
  plain "timestamp" int64;
  plain "height" uint64].

Definition GetAccountTransactionsReply : gotype := TStruct ([
  plain "transactions" (TSlice AccountTransaction)] ++ errorDescriptionField).

Definition GetAccountReply : gotype := TStruct ([
  quoted "unconfirmedBalanceNQT" int64;
  quoted "guaranteedBalanceNQT" int64;
  quoted "effectiveBalanceNXT" int64;
  plain "accountRS" TString;
  plain "name" TString;
  quoted "forgedBalanceNQT" int64;
  quoted "balanceNQT" int64;
  plain "publicKey" TString;
  quoted "account" uint64] ++ errorDescriptionField).

Definition GetTransactionReply : gotype := TStruct ([
  plain "senderPublicKey" TString;
  plain "signature" TString;
  quoted "feeNQT" int64;
  plain "type" int;
  plain "confirmations" int;
  plain "fullHash" TString;
  plain "version" int;
  quoted "ecBlockId" uint64;
  plain "signatureHash" TString;
  plain "attachment" (TStruct [
    plain "recipients" (TSlice (TSlice TString));
    plain "version.MultiOutCreation" int]);
  plain "senderRS" TString;
  plain "subtype" int;
  quoted "amountNQT" int64;
  quoted "sender" uint64;
  plain "ecBlockHeight" uint64;
  quoted "block" uint64;
  plain "blockTimestamp" int64;
  plain "deadline" int;
  quoted "transaction" uint64;
  plain "timestamp" int64;
  plain "height" uint64] ++ errorDescriptionField).

Definition reply_types : list gotype :=
  [GetMiningInfoReply; SubmitNonceReply; GetBlockReply; GetAccountsWithRewardRecipientReply;
   BroadcastTransactionReply; SendMoneyReply; SendMoneyMultiReply; GetAccountTransactionsReply; GetAccountReply;
   GetTransactionReply].

(** ** Reading a field *)

Fixpoint field_of (fs : list (string * (bool * gotype))) (vs : list goval) (name : string) : option goval :=
  match fs, vs with
  | f :: fs', v :: vs' => if bool_decide (f.1 = name) then Some v else field_of fs' vs' name
  | _, _ => None
  end.

Definition get (t : gotype) (v : goval) (name : string) : option goval :=
  match t, v with TStruct fs, GStruct vs => field_of fs vs name | _, _ => None end.

Definition get_string (t : gotype) (v : goval) (name : string) : string :=
  match get t v name with Some (GStr s) => of_bytes s | _ => "" end.

Definition get_int (t : gotype) (v : goval) (name : string) : Z :=
  match get t v name with Some (GInt z) => z | _ => 0 end.

Definition elements (v : option goval) : list goval :=
  match v with Some (GSlice n array) => take n array | _ => [] end.

Definition to_Z (v : goval) : Z := match v with GInt z => z | _ => 0 end.

Definition getError (t : gotype) (v : goval) : string := get_string t v "errorDescription".

(** ** The decoders *)

Section Decoder.
Context {Reply : Type} (t : gotype) (conv : goval -> Reply).

Definition decode_reply (body : string) : result string (Reply * string) :=
  (try v <- Unmarshal t (bytes body) (zero t) ;; Ok (conv v, getError t v))%go.

End Decoder.

#[export] Instance MiningInfo_decoder : Decoder MiningInfo.t :=
  let t := GetMiningInfoReply in
  decode_reply t (fun v => MiningInfo.mk (get_string t v "generationSignature") (get_int t v "baseTarget") (get_int t v "height")).

#[export] Instance SubmitNonce_decoder : Decoder SubmitNonceReply.t :=
  let t := SubmitNonceReply in
  decode_reply t (fun v => SubmitNonceReply.mk (get_int t v "deadline") (get_string t v "result")).

#[export] Instance Block_decoder : Decoder BlockReply.t :=
  let t := GetBlockReply in
  decode_reply t (fun v => BlockReply.mk
    (get_string t v "previousBlockHash") (get_int t v "payloadLength") (get_int t v "totalAmountNQT")
    (get_string t v "generationSignature") (get_int t v "generator") (get_string t v "generatorPublicKey")
    (get_int t v "baseTarget") (get_string t v "payloadHash") (get_string t v "generatorRS")
    (get_int t v "blockReward") (get_int t v "scoopNum") (get_int t v "numberOfTransactions")
    (get_string t v "blockSignature") (to_Z <$> elements (get t v "transactions")) (get_int t v "nonce")
    (get_int t v "version") (get_int t v "totalFeeNQT") (get_int t v "previousBlock") (get_int t v "block")
    (get_int t v "nextBlock") (get_int t v "height") (get_int t v "timestamp")).

#[export] Instance Recipients_decoder : Decoder (list Z) :=
  let t := GetAccountsWithRewardRecipientReply in
  decode_reply t (fun v => to_Z <$> elements (get t v "accounts")).

#[export] Instance Broadcast_decoder : Decoder BroadcastReply.t :=
  let t := BroadcastTransactionReply in
  decode_reply t (fun v => BroadcastReply.mk (get_string t v "fullHash") (get_int t v "transaction")).

(** The two types of replies to payments have the same fields. *)
#[export] Instance SendMoney_decoder : Decoder SendMoneyReply.t :=
  let t := SendMoneyReply in
  decode_reply t (fun v => SendMoneyReply.mk (get_int t v "transaction") (get_string t v "transactionBytes")).

Definition account_transaction (v : goval) : AccountTransaction.t :=
  let t := AccountTransaction in
  AccountTransaction.mk (get_int t v "sender")
    (match get t v "attachment" with Some (GStruct [_; _; GStr message]) => of_bytes message | _ => "" end).

#[export] Instance AccountTransactions_decoder : Decoder (list AccountTransaction.t) :=
  let t := GetAccountTransactionsReply in
  decode_reply t (fun v => account_transaction <$> elements (get t v "transactions")).

#[export] Instance Account_decoder : Decoder AccountReply.t :=
  let t := GetAccountReply in
  decode_reply t (fun v => AccountReply.mk
    (get_int t v "unconfirmedBalanceNQT") (get_int t v "guaranteedBalanceNQT") (get_int t v "effectiveBalanceNXT")
    (get_string t v "accountRS") (get_string t v "name") (get_int t v "forgedBalanceNQT") (get_int t v "balanceNQT")
    (get_string t v "publicKey") (get_int t v "account")).

#[export] Instance Transaction_decoder : Decoder TransactionReply.t :=
  let t := GetTransactionReply in
  decode_reply t (fun v => TransactionReply.mk (get_int t v "transaction") (get_int t v "height")).

(** A body as a node sends it: [q] stands for the quote. *)
Definition body_of (s : string) : string :=
  of_bytes ((fun c => if c =? 39 then 34 else c) <$> bytes s).

Example decoders :
  unmarshal (body_of "{'baseTarget':'70312', 'height':'500000','generationSignature':'ab','x':[]}")
  = Ok (MiningInfo.mk "ab" 70312 500000, "") /\
  unmarshal (Reply := MiningInfo.t) (body_of "{'height':500000}") = Err invalid_string_tag /\
  unmarshal (body_of "{'ACCOUNTS':['1',2]}") = Ok ([1; 2], "") /\
  unmarshal (Reply := list Z) (body_of "{'accounts':[null]}") = Err "strconv.ParseUint" /\
  unmarshal (body_of "{'errorCode':5,'errorDescription':'Unknown account'}") = Ok (AccountReply.mk 0 0 0 "" "" 0 0 "" 0, "Unknown account") /\
  unmarshal (body_of "{'transactions':[{'sender':'7','attachment':{'message':'hello'}},{}]}")
  = Ok ([AccountTransaction.mk 7 "hello"; AccountTransaction.mk 0 ""], "") /\
  unmarshal (body_of "{'transaction':'42','transactionBytes':'c0ffee','broadcasted':false}") = Ok (SendMoneyReply.mk 42 "c0ffee", "") /\
  unmarshal (Reply := SubmitNonceReply.t) "busy" = Err SyntaxError.
Proof. by vm_compute. Qed.

(** ** What [Uint64Str] accepts *)

Lemma marshal_digits s : Forall (fun c => 48 <= c <= 57) s -> marshal_string s = 34 :: s ++ [34].
Proof.
  intros H. unfold marshal_string. do 2 f_equal. induction H as [|c s Hc _ IH]; [done|].
  rewrite runes_cons. destruct (Z.ltb_spec c 128); [|lia]. cbn [fmap list_fmap concat]. rewrite IH.
  unfold marshal_rune. cbn [fst snd].
  assert ((c =? 34) || (c =? 92) = false /\ (c =? 10) = false /\ (c =? 13) = false /\ (c =? 9) = false /\
          (c <? 32) || (c =? 60) || (c =? 62) || (c =? 38) = false) as (-> & -> & -> & -> & ->) by lia.
  done.
Qed.

(** The id of an account is written as its digits in quotes. *)
Lemma MarshalJSON_digits i : MarshalJSON i = 34 :: FormatUint i ++ [34].
Proof. apply marshal_digits, Forall_forall. intros c. apply FormatUint_bytes. Qed.

Lemma UnmarshalJSON_spec b i :
  UnmarshalJSON b i =
  match b with
  | JNull => Err "strconv.ParseUint"
  | JStr s => match ParseUint s with Ok z => Ok z | Err _ => Err "strconv.ParseUint" end
  | JNum lit => match ParseUint lit with Ok z => if fits (TUint 64) z then Ok z else Err UnmarshalTypeError | Err _ => Err UnmarshalTypeError end
  | _ => Err UnmarshalTypeError
  end.
Proof.
  unfold UnmarshalJSON. destruct b as [| |lit|s| |]; try done; cbn [decode store_literal].
  unfold store_number. destruct (ParseUint lit); [|done]. by destruct (fits _ _).
Qed.

Lemma parse_digits_u64 n s z : is_u64 n -> parse_digits n s = Ok z -> is_u64 z.
Proof.
  unfold is_u64. revert n. induction s as [|c s IH]; intros n Hn; simpl; [by intros [= <-]|].
  destruct (_ && _) eqn:Ec; [|done]. destruct (_ <=? n); [done|].
  destruct (Z.ltb_spec maxUint64 (n * 10 + (c - 48))); [done|]. apply IH. unfold maxUint64 in *. lia.
Qed.

Lemma ParseUint_u64 s z : ParseUint s = Ok z -> is_u64 z.
Proof. unfold ParseUint. destruct s as [|c s]; [done|]. by apply parse_digits_u64. Qed.

Lemma UnmarshalJSON_u64 b i z : UnmarshalJSON b i = Ok z -> is_u64 z.
Proof.
  rewrite UnmarshalJSON_spec. destruct b as [| |lit|s| |]; try done.
  - destruct (ParseUint lit) as [z'|] eqn:E; [|done]. destruct (fits _ _); [|done]. intros [= <-]. by eapply ParseUint_u64.
  - destruct (ParseUint s) as [z'|] eqn:E; [|done]. intros [= <-]. by eapply ParseUint_u64.
Qed.

(** ** The types of the replies *)

Lemma Uint64Str_proper : proper Uint64Str.
Proof. intros j i z _. apply UnmarshalJSON_u64. Qed.

Lemma Uint64Str_regular : regular Uint64Str.
Proof. intros i z Hz. rewrite UnmarshalJSON_spec. by rewrite ParseUint_FormatUint. Qed.

(** By the structure of a type, down to its integers. *)
Ltac reply_type :=
  cbv [reply_types GetMiningInfoReply SubmitNonceReply GetBlockReply GetAccountsWithRewardRecipientReply
    BroadcastTransactionReply SendMoneyReply SendMoneyMultiReply GetAccountTransactionsReply AccountTransaction
    GetAccountReply GetTransactionReply transactionData errorDescriptionField plain quoted int int64 int32 uint64 uint32 app];
  repeat lazymatch goal with
  | |- Forall _ [] => apply Forall_nil_2
  | |- Forall _ (_ :: _) => apply Forall_cons; split; cbn [fst snd]
  | |- _ /\ _ => split
  | |- NoDup _ => apply (bool_decide_unpack _); by vm_compute
  | |- proper (TStruct _) => apply proper_struct
  | |- regular (TStruct _) => apply regular_struct
  | |- proper (TSlice ?t) => change (proper t)
  | |- regular (TSlice ?t) => change (regular t)
  | |- proper Uint64Str => apply Uint64Str_proper
  | |- regular Uint64Str => apply Uint64Str_regular
  | |- _ => done
  end.

Lemma replies_proper : Forall proper reply_types.
Proof. reply_type. Qed.

Lemma replies_regular : Forall regular reply_types.
Proof. reply_type. Qed.

(** What is encoded with the tags of a reply struct is decoded. *)
Lemma replies_roundtrip t v : t ∈ reply_types -> sendable t v -> Unmarshal t (print (encode t v)) (zero t) = Ok v.
Proof. intros Ht. apply Unmarshal_print. pose proof replies_regular as Hr. rewrite Forall_forall in Hr. by apply Hr. Qed.

(** The id of an account or a transaction, as [MarshalJSON] writes it - its
    digits in quotes - is read back; a number without quotes is accepted as
    well; nothing else is, null included, and what is accepted is an
    unsigned integer of 64 bits. *)
Theorem Uint64Str_roundtrip :
  (forall i old, is_u64 i -> Unmarshal Uint64Str (MarshalJSON i) (GInt old) = Ok (GInt i)) /\
  (forall i, MarshalJSON i = 34 :: FormatUint i ++ [34]) /\
  (forall b i z, UnmarshalJSON b i = Ok z <->
     is_u64 z /\ exists s, (b = JStr s \/ b = JNum s) /\ ParseUint s = Ok z).
Proof.
  split_and!; [|apply MarshalJSON_digits|].
  - intros i old Hi. unfold Unmarshal, MarshalJSON. change (marshal_string (FormatUint i)) with (print (JStr (FormatUint i))).
    rewrite parse_print.
    + cbn [decode Uint64Str]. by rewrite UnmarshalJSON_spec, ParseUint_FormatUint.
    + constructor. apply digits_text, Forall_forall. intros c Hc%FormatUint_bytes. lia.
  - intros b i z. rewrite UnmarshalJSON_spec. split.
    + intros E. assert (Hs : exists s, (b = JStr s \/ b = JNum s) /\ ParseUint s = Ok z).
      { destruct b as [| |lit|s| |]; try done.
        - exists lit. destruct (ParseUint lit) as [z'|]; [|done]. destruct (fits _ _); [|done]. injection E as ->. by split; [right|].
        - exists s. destruct (ParseUint s) as [z'|]; [|done]. injection E as ->. by split; [left|]. }
      split; [|done]. destruct Hs as (s & _ & Es). by eapply ParseUint_u64.
    + intros (Hz & s & [-> | ->] & ->); [done|]. unfold is_u64 in Hz. assert (fits (TUint 64) z = true) as -> by (simpl; lia). done.
Qed.

Lemma Uint64Str_roundtrip_witness :
  Unmarshal Uint64Str (MarshalJSON 18446744073709551615) (GInt 7) = Ok (GInt 18446744073709551615).
Proof. apply (proj1 Uint64Str_roundtrip). by vm_compute. Defined.

(** ** Ranges *)

Fixpoint type_of (fs : list (string * (bool * gotype))) (name : string) : option gotype :=
  match fs with
  | [] => None
  | f :: fs' => if bool_decide (f.1 = name) then Some f.2.2 else type_of fs' name
  end.

Lemma get_well_typed fs v name t :
  well_typed (TStruct fs) v -> type_of fs name = Some t ->
  exists x, get (TStruct fs) v name = Some x /\ well_typed t x.
Proof.
  destruct v as [| | | |vs]; try done. rewrite well_typed_struct. cbn [get].
  induction 1 as [|f x fs vs Hx _ IH]; [done|]. simpl. case_bool_decide; [|done]. intros [= <-]. by exists x.
Qed.

Lemma get_int_fits fs v name t :
  well_typed (TStruct fs) v -> type_of fs name = Some t -> (match t with TInt _ | TUint _ => True | _ => False end) ->
  fits t (get_int (TStruct fs) v name) = true.
Proof.
  intros Hv Ht Hi. destruct (get_well_typed fs v name t Hv Ht) as (x & E & Hx). unfold get_int. rewrite E.
  by destruct t, x.
Qed.

Lemma get_u64 fs v name : well_typed (TStruct fs) v -> type_of fs name = Some uint64 -> is_u64 (get_int (TStruct fs) v name).
Proof. intros Hv Ht. pose proof (get_int_fits fs v name _ Hv Ht I) as H. simpl in H. unfold is_u64. lia. Qed.

Lemma get_i64 fs v name : well_typed (TStruct fs) v -> type_of fs name = Some int64 -> is_i64 (get_int (TStruct fs) v name).
Proof. intros Hv Ht. pose proof (get_int_fits fs v name _ Hv Ht I) as H. simpl in H. unfold is_i64. lia. Qed.

Lemma get_i32 fs v name :
  well_typed (TStruct fs) v -> type_of fs name = Some int32 -> - 2 ^ 31 <= get_int (TStruct fs) v name < 2 ^ 31.
Proof. intros Hv Ht. pose proof (get_int_fits fs v name _ Hv Ht I) as H. simpl in H. lia. Qed.

Lemma elements_well_typed fs v name t :
  well_typed (TStruct fs) v -> type_of fs name = Some (TSlice t) ->
  Forall (well_typed t) (elements (get (TStruct fs) v name)).
Proof.
  intros Hv Ht. destruct (get_well_typed fs v name _ Hv Ht) as (x & -> & Hx). destruct x as [| | |n array|]; try done.
  destruct Hx as [_ Hx]. by apply Forall_take.
Qed.

Lemma ids_u64 fs v name :
  well_typed (TStruct fs) v -> type_of fs name = Some (TSlice Uint64Str) ->
  Forall is_u64 (to_Z <$> elements (get (TStruct fs) v name)).
Proof.
  intros Hv Ht. apply Forall_fmap. eapply Forall_impl; [by apply (elements_well_typed fs v name Uint64Str)|].
  intros x Hx. by destruct x.
Qed.

Lemma nth_reply i : (i < List.length reply_types)%nat -> nth i reply_types TString ∈ reply_types.
Proof. intros Hi. by apply list_elem_of_In, nth_In. Qed.

Lemma decode_reply_typed {Reply} t (conv : goval -> Reply) body r e :
  t ∈ reply_types -> decode_reply t conv body = Ok (r, e) -> exists v, well_typed t v /\ r = conv v.
Proof.
  intros Ht. unfold decode_reply. destruct (Unmarshal t (bytes body) (zero t)) as [v|] eqn:E; [|done]. intros [= <- _].
  exists v. split; [|done]. eapply Unmarshal_well_typed; [|exact E].
  pose proof replies_proper as Hp. rewrite Forall_forall in Hp. by apply Hp.
Qed.

(** Whatever bytes a node sends as a reply that is decoded without an error,
    the ids, heights, deadlines and amounts in it are in the range of their
    machine type. *)
Theorem replies_in_range (body : string) :
  (forall r e, unmarshal body = Ok (r, e) -> is_u64 (MiningInfo.BaseTarget r) /\ is_u64 (MiningInfo.Height r)) /\
  (forall r e, unmarshal body = Ok (r, e) -> is_u64 (SubmitNonceReply.Deadline r)) /\
  (forall r e, unmarshal body = Ok (r, e) ->
     is_u64 (BlockReply.Generator r) /\ is_u64 (BlockReply.Nonce r) /\ is_u64 (BlockReply.Height r) /\
     is_i64 (BlockReply.BlockReward r) /\ is_i64 (BlockReply.TotalFeeNQT r) /\
     - 2 ^ 31 <= BlockReply.Timestamp r < 2 ^ 31 /\ Forall is_u64 (BlockReply.Transactions r)) /\
  (forall ids e, unmarshal body = Ok (ids, e) -> Forall is_u64 ids) /\
  (forall r e, unmarshal body = Ok (r, e) -> is_u64 (SendMoneyReply.TxID r)) /\
  (forall r e, unmarshal body = Ok (r, e) -> is_u64 (BroadcastReply.TxID r)) /\
  (forall l e, unmarshal body = Ok (l, e) -> Forall (fun t => is_u64 (AccountTransaction.Sender t)) l) /\
  (forall r e, unmarshal body = Ok (r, e) -> is_u64 (AccountReply.Account r) /\ is_i64 (AccountReply.BalanceNQT r)) /\
  (forall r e, unmarshal body = Ok (r, e) -> is_u64 (TransactionReply.Transaction r) /\ is_u64 (TransactionReply.Height r)).
Proof.
  split_and!; intros r e E;
    [apply (decode_reply_typed (nth 0 reply_types TString)) in E|apply (decode_reply_typed (nth 1 reply_types TString)) in E
    |apply (decode_reply_typed (nth 2 reply_types TString)) in E|apply (decode_reply_typed (nth 3 reply_types TString)) in E
    |apply (decode_reply_typed (nth 5 reply_types TString)) in E|apply (decode_reply_typed (nth 4 reply_types TString)) in E
    |apply (decode_reply_typed (nth 7 reply_types TString)) in E|apply (decode_reply_typed (nth 8 reply_types TString)) in E
    |apply (decode_reply_typed (nth 9 reply_types TString)) in E]; try (apply nth_reply; simpl; lia);
    destruct E as (v & Hv & ->).
  - split; by apply get_u64.
  - by apply get_u64.
  - destruct (get_i32 _ v "timestamp" Hv eq_refl) as [H1 H2].
    split_and!; try (by apply get_u64); try (by apply get_i64); [exact H1|exact H2|by apply ids_u64].
  - by apply ids_u64.
  - by apply get_u64.
  - by apply get_u64.
  - apply Forall_fmap. eapply Forall_impl; [by apply (elements_well_typed _ v "transactions" AccountTransaction)|].
    intros x Hx. by apply get_u64.
  - split; [by apply get_u64|by apply get_i64].
  - split; by apply get_u64.
Qed.

Lemma replies_in_range_witness :
  is_u64 (SendMoneyReply.TxID (SendMoneyReply.mk 18446744073709551615 "c0ffee")).
Proof.
  refine (proj1 (proj2 (proj2 (proj2 (proj2 (replies_in_range
    (body_of "{'transaction':'18446744073709551615','transactionBytes':'c0ffee'}"))))))  _ "" _); by vm_compute.
Defined.

(** ** Replies that say nothing *)

Definition names_of (t : gotype) : list (list Z) :=
  match t with TStruct fs => (fun f => bytes f.1) <$> fs | _ => [] end.

(** A text of JSON that is null, or an object without any of the fields. *)
Definition silent (t : gotype) (body : string) : Prop :=
  exists j, parse (bytes body) = Some j /\
    (j = JNull \/ exists l, j = JObj l /\ Forall (fun p => find_field (names_of t) p.1 = None) l).

Lemma silent_zero t fs body : t = TStruct fs -> silent t body -> Unmarshal t (bytes body) (zero t) = Ok (zero t).
Proof.
  intros ->. unfold Unmarshal. intros (j & -> & [-> |(l & -> & Hl)]); [done|]. cbn [decode zero].
  assert (E : forall ds vs, decode_members (names_of (TStruct fs)) ds l vs = Ok vs).
  { intros ds vs. induction Hl as [|p l Hp _ IH]; [done|]. cbn [decode_members]. unfold decode_member. by rewrite Hp. }
  cbn [names_of] in E. by rewrite E.
Qed.

Section Silent.
Context (Cfg : Config) (secretPhrase : string) (urls : list string).
Context (client : stamp -> string -> string -> result string (Z * string)).
Context (schedule : stamp -> list Wallet -> list Wallet) (schedule_perm : forall t l, schedule t l ≡ₚ l).

Lemma reqAll_all {A} t (reqF : Wallet -> result string A) a :
  urls <> [] -> (forall u, u ∈ urls -> reqF (NewWallet client u) = Ok a) ->
  exists u rs, reqAll (nodes urls client) schedule t reqF = Ok ((a, u) :: rs).
Proof using schedule_perm.
  intros Hne Hall. unfold reqAll. pose proof (schedule_perm t (nodes urls client)) as Hp.
  assert (Hin : forall w, w ∈ schedule t (nodes urls client) -> reqF w = Ok a).
  { intros w. rewrite Hp. intros (u & -> & Hu)%elem_of_nodes. by apply Hall. }
  destruct (schedule t (nodes urls client)) as [|w ws].
  { apply Permutation_nil_l in Hp. destruct urls as [|u us]; [done|]. exfalso.
    apply (not_elem_of_nil (NewWallet client u)). rewrite Hp. apply elem_of_nodes. exists u. by split; [|left]. }
  cbn [omap list_omap]. rewrite Hin by left. by eexists _, _.
Qed.

Lemma send_silent {R} `{!Request R} u t (req : R) body :
  client t (if bool_decide (http_method R = "GET"%string) then "GET" else "POST")%string
    (String.append (apiURL u) (of_bytes (query req))) = Ok (StatusOK, body) ->
  silent SendMoneyReply body -> send client u t req = Ok (SendMoneyReply.mk 0 "").
Proof.
  intros Hc Hb. apply send_Ok. exists body. split; [done|]. unfold unmarshal, SendMoney_decoder, decode_reply.
  by rewrite (silent_zero SendMoneyReply _ _ eq_refl Hb).
Qed.

(** A payment whose nodes answer with status 200 and JSON that has no field
    of the reply, such as [{}] or [null], succeeds: its transaction has the id
    0, and no bytes are broadcast for it. *)
Theorem silent_reply_is_success (n : nat) (recipient amount : Z) :
  urls <> [] ->
  (forall u, u ∈ urls -> exists body,
     client (n, 0%nat) "POST" (String.append (apiURL u) (of_bytes (query (money_request Cfg secretPhrase recipient amount))))
     = Ok (StatusOK, body) /\ silent SendMoneyReply body) ->
  exists b, WalletNodes.SendPayment Cfg secretPhrase (nodes urls client) schedule n recipient amount = (Ok 0, Some ("", b)).
Proof using schedule_perm.
  intros Hne Hall. unfold SendPayment.
  destruct (reqAll_all (n, 0%nat) (fun w => w_SendMoney w (n, 0%nat) (money_request Cfg secretPhrase recipient amount))
    (SendMoneyReply.mk 0 "") Hne) as (u & rs & E).
  { intros u Hu. destruct (Hall u Hu) as (body & Hc & Hb). by eapply send_silent. }
  rewrite E. by eexists.
Qed.

End Silent.

(** A node that answers every request with an error that has no description. *)
Definition vague_client (t : stamp) (method u : string) : result string (Z * string) :=
  Ok (200, body_of "{'errorCode': 3, 'error': 'not ready'}").

Lemma silent_reply_is_success_witness :
  exists b, WalletNodes.SendPayment test_cfg "pass" (nodes ["http://a"] vague_client) in_turn 7 5 100 = (Ok 0, Some ("", b)).
Proof.
  apply (silent_reply_is_success test_cfg "pass" ["http://a"] vague_client in_turn in_turn_perm 7 5 100); [done|].
  intros u _. exists (body_of "{'errorCode': 3, 'error': 'not ready'}"). split; [done|].
  exists (JObj [(bytes "errorCode", JNum (bytes "3")); (bytes "error", JStr (bytes "not ready"))]).
  split; [by vm_compute|]. right. eexists. split; [done|]. by repeat constructor.
Defined.
