(* ===== verification/NodeReplies.v ===== *)
(** * What a node sends, and what the wallet reads

    The members of the replies of a node, as its API documents them: names and
    forms of values, written down here without the tags of the program's
    structs.  A node may leave members out, send them in any order, with any
    white space, and add members of its own.  A reader of such objects that
    looks a member up by its name gives the same as the program's decoders. *)

From Stdlib Require Import Ascii String.
From S2P Require Import Prelude GoStrings GoParse GoJson JsonText GoFloat Config Wallet JsonDecode WalletRequests World WalletNodes WalletWire Replies.
Open Scope string_scope.
Open Scope list_scope.
Open Scope Z_scope.
Import GoInt.

(** ** Forms of values *)

(** A string; true or false; a number of so many bits, as such or as its
    digits in quotes; an array; an object. *)
Unset Elimination Schemes.
Inductive form :=
| FText
| FBool
| FNumber (signed : bool) (w : Z)
| FDigits (signed : bool) (w : Z)
| FArray (k : form)
| FObject (fs : list (string * form)).
Set Elimination Schemes.

Lemma form_ind (P : form -> Prop) :
  P FText -> P FBool -> (forall s w, P (FNumber s w)) -> (forall s w, P (FDigits s w)) ->
  (forall k, P k -> P (FArray k)) -> (forall fs, Forall (fun f => P f.2) fs -> P (FObject fs)) -> forall k, P k.
Proof.
  intros Ht Hb Hn Hd Ha Ho. fix IH 1. intros [| |s w|s w|k|fs]; [done|done|apply Hn|apply Hd|apply Ha, IH|apply Ho].
  induction fs as [|[n k] fs IHfs]; constructor; [apply IH|exact IHfs].
Qed.

Definition in_bits (signed : bool) (w z : Z) : Prop := fits (if signed then TInt w else TUint w) z = true.

(** The member with this name. *)
Fixpoint member (l : list (list Z * json)) (name : string) : option json :=
  match l with
  | [] => None
  | p :: l' => if bool_decide (p.1 = bytes name) then Some p.2 else member l' name
  end.

(** A name that the decoder would not take for one of these, whatever its case. *)
Definition foreign (names : list string) (key : list Z) : Prop := find_field (bytes <$> names) key = None.

(** [j] has the form [k]; its members have different names, and the ones that
    are not in [k] have foreign ones. *)
Fixpoint conforms (k : form) (j : json) {struct k} : Prop :=
  match k, j with
  | FText, JStr _ => True
  | FBool, JBool _ => True
  | FNumber s w, JNum lit => exists z, in_bits s w z /\ lit = FormatInt z
  | FDigits s w, JStr lit => exists z, in_bits s w z /\ lit = FormatInt z
  | FArray k', JArr l => Forall (conforms k') l
  | FObject fs, JObj l =>
      NoDup l.*1 /\ (forall p, p ∈ l -> p.1 ∈ bytes <$> fs.*1 \/ foreign fs.*1 p.1) /\
      (fix go (fs : list (string * form)) :=
         match fs with
         | [] => True
         | f :: fs' => match member l f.1 with None => True | Some v => conforms f.2 v end /\ go fs'
         end) fs
  | _, _ => False
  end.

Lemma conforms_object fs l :
  conforms (FObject fs) (JObj l) <->
  NoDup l.*1 /\ (forall p, p ∈ l -> p.1 ∈ bytes <$> fs.*1 \/ foreign fs.*1 p.1) /\
  Forall (fun f => forall v, member l f.1 = Some v -> conforms f.2 v) fs.
Proof.
  cbn [conforms]. apply and_iff_compat_l, and_iff_compat_l. generalize fs at 1 2 as gs. clear fs.
  induction gs as [|f gs IH]; rewrite ?Forall_cons, ?IH; [split; [constructor|done]|].
  apply and_iff_compat_r. destruct (member l f.1) as [v|]; [|done]. split; [by intros ? _ [= <-]|intros H; by apply H].
Qed.

(** ** The reader *)

Definition signed_number (s : list Z) : Z := match ParseInt s with Ok z => z | Err _ => 0 end.
Definition unsigned_number (s : list Z) : Z := match ParseUint s with Ok z => z | Err _ => 0 end.

Definition text_of (j : option json) : string := match j with Some (JStr s) => of_bytes s | _ => "" end.
Definition signed_of (j : option json) : Z := match j with Some (JStr s) | Some (JNum s) => signed_number s | _ => 0 end.
Definition unsigned_of (j : option json) : Z := match j with Some (JStr s) | Some (JNum s) => unsigned_number s | _ => 0 end.
Definition elements_of (j : option json) : list json := match j with Some (JArr l) => l | _ => [] end.
Definition members_of (j : option json) : list (list Z * json) := match j with Some (JObj l) => l | _ => [] end.

(** ** The members of the replies *)

Definition uint : form := FDigits false 64.

Definition mining_info_members : list (string * form) :=
  [("generationSignature", FText); ("baseTarget", uint); ("height", uint)].

Definition submit_nonce_members : list (string * form) := [("deadline", FNumber false 64); ("result", FText)].

Definition block_members : list (string * form) :=
  [("previousBlockHash", FText); ("payloadLength", FNumber true 64); ("totalAmountNQT", FDigits true 64);
   ("generationSignature", FText); ("generator", uint); ("generatorPublicKey", FText); ("baseTarget", uint);
   ("payloadHash", FText); ("generatorRS", FText); ("blockReward", FDigits true 64); ("scoopNum", FNumber false 32);
   ("numberOfTransactions", FNumber true 64); ("blockSignature", FText); ("transactions", FArray uint); ("nonce", uint);
   ("version", FNumber true 64); ("totalFeeNQT", FDigits true 64); ("previousBlock", uint); ("block", uint);
   ("nextBlock", uint); ("height", FNumber false 64); ("timestamp", FNumber true 32)].

Definition recipients_members : list (string * form) := [("accounts", FArray uint)].

Definition broadcast_members : list (string * form) := [("fullHash", FText); ("transaction", uint)].

Definition transaction_json_members : list (string * form) :=
  [("senderPublicKey", FText); ("signature", FText); ("feeNQT", FText); ("type", FNumber true 64); ("fullHash", FText);
   ("version", FNumber true 64); ("ecBlockId", uint); ("signatureHash", FText); ("senderRS", FText);
   ("subtype", FNumber true 64); ("amountNQT", FDigits true 64); ("sender", uint); ("recipientRS", FText);
   ("recipient", uint); ("ecBlockHeight", FNumber false 64); ("deadline", FNumber true 64); ("transaction", uint);
   ("timestamp", FNumber true 64); ("height", FNumber false 64)].

Definition payment_members : list (string * form) :=
  [("transaction", uint); ("signatureHash", FText); ("unsignedTransactionBytes", FText);
   ("transactionJSON", FObject transaction_json_members); ("broadcasted", FBool); ("transactionBytes", FText); ("fullHash", FText)].

Definition attachment_form : form :=
  FObject [("version.Message", FNumber true 64); ("messageIsText", FBool); ("message", FText)].

Definition account_transaction_members : list (string * form) :=
  [("senderPublicKey", FText); ("signature", FText); ("feeNQT", FDigits true 64); ("type", FNumber true 64);
   ("confirmations", FNumber true 64); ("fullHash", FText); ("version", FNumber true 64); ("ecBlockId", uint);
   ("signatureHash", FText);
   ("attachment", attachment_form);
   ("senderRS", FText); ("subtype", FNumber true 64); ("amountNQT", FDigits true 64); ("sender", uint);
   ("recipientRS", FText); ("recipient", uint); ("ecBlockHeight", FNumber false 64); ("block", FText);
   ("blockTimestamp", FNumber true 64); ("deadline", FNumber false 64); ("transaction", uint);
   ("timestamp", FNumber true 64); ("height", FNumber false 64)].

Definition account_transactions_members : list (string * form) :=
  [("transactions", FArray (FObject account_transaction_members))].

Definition account_members : list (string * form) :=
  [("unconfirmedBalanceNQT", FDigits true 64); ("guaranteedBalanceNQT", FDigits true 64);
   ("effectiveBalanceNXT", FDigits true 64); ("accountRS", FText); ("name", FText); ("forgedBalanceNQT", FDigits true 64);
   ("balanceNQT", FDigits true 64); ("publicKey", FText); ("account", uint)].

Definition transaction_members : list (string * form) :=
  [("senderPublicKey", FText); ("signature", FText); ("feeNQT", FDigits true 64); ("type", FNumber true 64);
   ("confirmations", FNumber true 64); ("fullHash", FText); ("version", FNumber true 64); ("ecBlockId", uint);
   ("signatureHash", FText);
   ("attachment", FObject [("recipients", FArray (FArray FText)); ("version.MultiOutCreation", FNumber true 64)]);
   ("senderRS", FText); ("subtype", FNumber true 64); ("amountNQT", FDigits true 64); ("sender", uint);
   ("ecBlockHeight", FNumber false 64); ("block", uint); ("blockTimestamp", FNumber true 64); ("deadline", FNumber true 64);
   ("transaction", uint); ("timestamp", FNumber true 64); ("height", FNumber false 64)].

(** Any reply may describe an error. *)
Definition reply_form (fs : list (string * form)) : form := FObject (fs ++ [("errorDescription", FText)]).

(** A body with these members. *)
Definition sends (fs : list (string * form)) (body : string) (l : list (list Z * json)) : Prop :=
  parse (bytes body) = Some (JObj l) /\ conforms (reply_form fs) (JObj l).

(** ** Forms and types *)

Definition distinct (names : list string) : Prop :=
  forall i n, names !! i = Some n -> find_field (bytes <$> names) (bytes n) = Some i.

(** The field of a struct, with its option [string] and its type, is for
    values of this form. *)
Fixpoint matches (k : form) (q : bool) (t : gotype) {struct k} : Prop :=
  match k with
  | FText => q = false /\ t = TString
  | FBool => q = false /\ t = TBool
  | FNumber s w => q = false /\ t = (if s then TInt w else TUint w) /\ 0 < w <= 64
  | FDigits s w =>
      (q = true /\ t = (if s then TInt w else TUint w) /\ 0 < w <= 64) \/ (q = false /\ s = false /\ w = 64 /\ t = Uint64Str)
  | FArray k' => match t with TSlice t' => q = false /\ matches k' false t' | _ => False end
  | FObject fs =>
      match t with
      | TStruct gs =>
          q = false /\ distinct fs.*1 /\
          (fix go (fs : list (string * form)) (gs : list (string * (bool * gotype))) :=
             match fs, gs with
             | [], [] => True
             | f :: fs', g :: gs' => f.1 = g.1 /\ matches f.2 g.2.1 g.2.2 /\ go fs' gs'
             | _, _ => False
             end) fs gs
      | _ => False
      end
  end.

Lemma matches_object fs q gs :
  matches (FObject fs) q (TStruct gs) <->
  q = false /\ distinct fs.*1 /\ Forall2 (fun f g => f.1 = g.1 /\ matches f.2 g.2.1 g.2.2) fs gs.
Proof.
  cbn [matches]. apply and_iff_compat_l, and_iff_compat_l. revert gs.
  induction fs as [|f fs IH]; intros [|g gs]; rewrite ?Forall2_cons, ?IH; split; try done; try by inversion 1.
  - intros (? & ? & ?). done.
  - intros [[? ?] ?]. done.
Qed.

(** The value of a member, missing ones included. *)
Fixpoint zero_value (k : form) : goval :=
  match k with
  | FText => GStr []
  | FBool => GBool false
  | FNumber _ _ | FDigits _ _ => GInt 0
  | FArray _ => GSlice 0 []
  | FObject fs => GStruct ((fun f => zero_value f.2) <$> fs)
  end.

Definition number (s : bool) (lit : list Z) : Z := if s then signed_number lit else unsigned_number lit.

Fixpoint value_of (k : form) (j : json) {struct k} : goval :=
  match k, j with
  | FText, JStr s => GStr s
  | FBool, JBool b => GBool b
  | FNumber s _, JNum lit | FDigits s _, JStr lit => GInt (number s lit)
  | FArray k', JArr l => GSlice (List.length l) (value_of k' <$> l)
  | FObject fs, JObj l =>
      GStruct ((fun f => match member l f.1 with Some v => value_of f.2 v | None => zero_value f.2 end) <$> fs)
  | _, _ => zero_value k
  end.

Lemma zero_matches k q t : matches k q t -> zero t = zero_value k.
Proof.
  revert q t. induction k as [| |s w|s w|k IH|fs IH] using form_ind; intros q t; simpl.
  - by intros [_ ->].
  - by intros [_ ->].
  - intros (_ & -> & _). by destruct s.
  - intros [(_ & -> & _)|(_ & _ & _ & ->)]; [by destruct s|done].
  - by destruct t.
  - destruct t as [| | | | | |gs]; try done. intros (_ & _ & Hf). simpl. f_equal. revert gs Hf.
    induction IH as [|f fs Hk _ IHf]; intros [|g gs]; try done. intros (_ & Hm & Hf). simpl. f_equal; [by eapply Hk|by apply IHf].
Qed.

(** ** Decoding *)

Lemma number_read s w z : in_bits s w z -> 0 < w <= 64 -> number s (FormatInt z) = z.
Proof.
  unfold in_bits. intros Hz Hw. pose proof (store_number_FormatInt (if s then TInt w else TUint w) z Hz) as E.
  unfold store_number, number, signed_number, unsigned_number in *.
  destruct s; specialize (E Hw).
  - destruct (ParseInt (FormatInt z)) as [x|]; [|done]. destruct (fits _ x); [|done]. congruence.
  - destruct (ParseUint (FormatInt z)) as [x|]; [|done]. destruct (fits _ x); [|done]. congruence.
Qed.

(** The loop over the members of an object, when each is decoded. *)
Lemma decode_members_target names ds l vs target :
  NoDup (omap (fun p => find_field names p.1) l) -> List.length target = List.length vs ->
  (forall p i, p ∈ l -> find_field names p.1 = Some i ->
     exists d old v, ds !! i = Some d /\ vs !! i = Some old /\ d p.2 old = Ok v /\ target !! i = Some v) ->
  (forall i, (forall p, p ∈ l -> find_field names p.1 <> Some i) -> target !! i = vs !! i) ->
  decode_members names ds l vs = Ok target.
Proof.
  revert vs. induction l as [|p l IH]; intros vs Hnd Hlen Hin Hout; cbn [decode_members].
  { f_equal. apply list_eq. intros i. symmetry. apply Hout. by intros p Hp%elem_of_nil. }
  unfold decode_member. simpl in Hnd. destruct (find_field names p.1) as [i|] eqn:Ef.
  - destruct (Hin p i ltac:(left) Ef) as (d & old & v & -> & Eo & Ed & Ev). rewrite Eo, Ed. apply NoDup_cons in Hnd as [Hi Hnd].
    assert (Hne : forall p' i', p' ∈ l -> find_field names p'.1 = Some i' -> i <> i').
    { intros p' i' Hp' E' <-. apply Hi, list_elem_of_omap. by exists p'. }
    apply IH; [done|by rewrite length_insert|..].
    + intros p' i' Hp' E'. destruct (Hin p' i' ltac:(by right) E') as (d' & old' & v' & ? & ? & ? & ?).
      exists d', old', v'. split_and!; [done| |done|done]. rewrite list_lookup_insert_ne; [done|]. by eapply Hne.
    + intros j Hj. destruct (decide (i = j)) as [<-|Hij].
      * rewrite list_lookup_insert_eq; [done|]. by eapply lookup_lt_Some.
      * rewrite list_lookup_insert_ne by done. apply Hout. intros p' [->|Hp']%elem_of_cons; [congruence|by apply Hj].
  - apply IH; [done|done| |].
    + intros p' i' Hp' E'. apply (Hin p' i'); [by right|done].
    + intros j Hj. apply Hout. intros p' [->|Hp']%elem_of_cons; [congruence|by apply Hj].
Qed.

Lemma member_elem l n v : member l n = Some v -> (bytes n, v) ∈ l.
Proof.
  induction l as [|[k j] l IH]; simpl; [done|]. case_bool_decide as E; [|intros H; right; by apply IH].
  simpl in E. subst k. intros [= ->]. left.
Qed.

Lemma elem_member l n p : NoDup l.*1 -> p ∈ l -> p.1 = bytes n -> member l n = Some p.2.
Proof.
  induction l as [|[k j] l IH]; [by intros _ ?%not_elem_of_nil|]. simpl. intros [Hk Hnd]%NoDup_cons Hp E.
  case_bool_decide as Ek.
  - apply elem_of_cons in Hp as [->|Hp]; [done|]. exfalso. apply Hk, list_elem_of_fmap. exists p. split; [congruence|done].
  - apply elem_of_cons in Hp as [->|Hp]; [by destruct Ek|by apply IH].
Qed.

(** A known key has the index of its name. *)
Lemma known_key (fs : list (string * form)) (l : list (list Z * json)) (p : list Z * json) i :
  distinct fs.*1 -> (forall p, p ∈ l -> p.1 ∈ bytes <$> fs.*1 \/ foreign fs.*1 p.1) -> p ∈ l ->
  find_field (bytes <$> fs.*1) p.1 = Some i -> exists f : string * form, fs !! i = Some f /\ p.1 = bytes f.1.
Proof.
  intros Hd Hk Hp Hf. destruct (Hk p Hp) as [Hin|Hno]; [|unfold foreign in Hno; congruence].
  apply list_elem_of_fmap in Hin as (n & En & Hn). apply list_elem_of_lookup in Hn as [i' Hi'].
  specialize (Hd i' n Hi'). rewrite En, Hd in Hf. injection Hf as ->.
  rewrite list_lookup_fmap in Hi'. apply fmap_Some in Hi' as (f & Hf & ->). by exists f.
Qed.

Lemma NoDup_fields {A} (f : list Z * A -> option nat) (l : list (list Z * A)) :
  NoDup l.*1 -> (forall p p' i, p ∈ l -> p' ∈ l -> f p = Some i -> f p' = Some i -> p.1 = p'.1) -> NoDup (omap f l).
Proof.
  induction l as [|p l IH]; intros Hnd Hinj; simpl; [constructor|]. simpl in Hnd. apply NoDup_cons in Hnd as [Hp Hnd].
  assert (Hl : NoDup (omap f l)) by (apply IH; [done|]; intros p1 p2 i H1 H2; apply Hinj; by right).
  destruct (f p) as [i|] eqn:Ef; [|done]. constructor; [|done]. intros (p' & Hp' & Ef')%list_elem_of_omap.
  apply Hp. rewrite (Hinj p p' i ltac:(left) ltac:(by right) Ef Ef'). apply list_elem_of_fmap. by exists p'.
Qed.

Lemma decode_object (gs : list (string * (bool * gotype))) l vs :
  decode (TStruct gs) (JObj l) (GStruct vs)
  = (try vs <- decode_members ((fun g : string * (bool * gotype) => bytes g.1) <$> gs)
                 ((fun g : string * (bool * gotype) => if g.2.1 then store_quoted g.2.2 else decode g.2.2) <$> gs) l vs ;; Ok (GStruct vs))%go.
Proof. done. Qed.

(** What has the form is decoded to its value. *)
Lemma decode_form k q t j :
  matches k q t -> conforms k j -> (if q then store_quoted t else decode t) j (zero t) = Ok (value_of k j).
Proof.
  revert q t j. induction k as [| |s w|s w|k IH|fs IH] using form_ind; intros q t j Hm Hj.
  - destruct Hm as [-> ->]. by destruct j.
  - destruct Hm as [-> ->]. by destruct j.
  - destruct Hm as (-> & -> & Hw), j as [| |lit| | |]; try done. destruct Hj as (z & Hz & ->). cbn [value_of].
    rewrite (number_read s w z Hz Hw). destruct s; by apply store_number_FormatInt.
  - destruct j as [| | |lit| |]; try done. destruct Hj as (z & Hz & ->). cbn [value_of].
    destruct Hm as [(-> & -> & Hw)|(-> & -> & -> & ->)].
    + rewrite (number_read s w z Hz Hw). apply (store_quoted_FormatInt _ z); [exact Hz|by destruct s].
    + rewrite (number_read false 64 z Hz ltac:(lia)). cbn [decode Uint64Str zero]. rewrite UnmarshalJSON_spec.
      unfold in_bits in Hz. simpl in Hz. unfold FormatInt. destruct (Z.ltb_spec z 0); [lia|].
      rewrite ParseUint_FormatUint by (unfold is_u64; lia). done.
  - destruct t as [| | | | |t|]; try done. destruct Hm as [-> Hm], j as [| | | |l|]; try done. cbn [conforms] in Hj.
    assert (E : decode_elements (decode t) (zero t) l [] = Ok (value_of k <$> l)).
    { induction Hj as [|x l Hx _ IHl]; [done|]. cbn [decode_elements tl]. rewrite (IH false t x Hm Hx), IHl. done. }
    cbn [decode zero value_of]. destruct l as [|x l]; [done|]. by rewrite E.
  - destruct t as [| | | | | |gs]; try done. apply matches_object in Hm as (-> & Hd & Hm).
    destruct j as [| | | | |l]; try done. apply conforms_object in Hj as (Hnd & Hk & Hj).
    assert (En : (fun f : string * (bool * gotype) => bytes f.1) <$> gs = bytes <$> fs.*1).
    { clear -Hm. induction Hm as [|f g fs gs [E _] _ IHm]; [done|]. rewrite !fmap_cons, IHm. by rewrite E. }
    change (zero (TStruct gs)) with (GStruct ((fun g : string * (bool * gotype) => zero g.2.2) <$> gs)). rewrite decode_object, En.
    change (value_of (FObject fs) (JObj l)) with
      (GStruct ((fun f : string * form => match member l f.1 with Some v => value_of f.2 v | None => zero_value f.2 end) <$> fs)).
    rewrite (decode_members_target _ _ l _ ((fun f : string * form => match member l f.1 with Some v => value_of f.2 v | None => zero_value f.2 end) <$> fs));
      [done|..].
    + apply NoDup_fields; [done|]. intros p p' i Hp Hp' E E'.
      destruct (known_key fs l p i Hd Hk Hp E) as (f & Ef & ->), (known_key fs l p' i Hd Hk Hp' E') as (f' & Ef' & ->). congruence.
    + rewrite !length_fmap. by eapply Forall2_length.
    + intros p i Hp E. destruct (known_key fs l p i Hd Hk Hp E) as (f & Ef & Ep).
      destruct (Forall2_lookup_l _ _ _ _ _ Hm Ef) as (g & Eg & Egn & Hmg).
      pose proof (elem_member l f.1 p Hnd Hp Ep) as Emem.
      rewrite Forall_forall in IH, Hj. specialize (IH f (list_elem_of_lookup_2 _ _ _ Ef)).
      specialize (Hj f (list_elem_of_lookup_2 _ _ _ Ef) _ Emem).
      eexists _, _, _. rewrite !list_lookup_fmap, Eg, Ef. simpl. split_and!; [done|done|by apply IH|by rewrite Emem].
    + intros i Hi. rewrite !list_lookup_fmap.
      destruct (fs !! i) as [f|] eqn:Ef; simpl.
      * destruct (Forall2_lookup_l _ _ _ _ _ Hm Ef) as (g & Eg & Egn & Hmg). rewrite Eg. simpl.
        rewrite (zero_matches _ _ _ Hmg). destruct (member l f.1) as [v|] eqn:Emem; [|done]. exfalso.
        apply member_elem in Emem. apply (Hi _ Emem). simpl. apply Hd. by rewrite list_lookup_fmap, Ef.
      * assert (gs !! i = None) as ->; [|done]. apply lookup_ge_None. rewrite <- (Forall2_length _ _ _ Hm). by apply lookup_ge_None.
Qed.

(** ** Reading a member *)

Definition value_at (l : list (list Z * json)) (f : string * form) : goval :=
  match member l f.1 with Some v => value_of f.2 v | None => zero_value f.2 end.

Lemma distinct_NoDup names : distinct names -> NoDup names.
Proof. intros H. apply NoDup_alt. intros i j n Hi Hj. apply H in Hi, Hj. congruence. Qed.

Lemma field_sent (fs : list (string * form)) (gs : list (string * (bool * gotype))) l f :
  NoDup fs.*1 -> Forall2 (fun f g => f.1 = g.1 /\ matches f.2 g.2.1 g.2.2) fs gs -> f ∈ fs ->
  field_of gs (value_at l <$> fs) f.1 = Some (value_at l f).
Proof.
  intros Hnd Hm. revert Hnd. induction Hm as [|f' g fs gs [E _] _ IH]; intros Hnd Hf; [by apply not_elem_of_nil in Hf|].
  rewrite fmap_cons in Hnd. apply NoDup_cons in Hnd as [Hn Hnd]. rewrite fmap_cons. cbn [field_of].
  apply elem_of_cons in Hf as [->|Hf]; [by rewrite bool_decide_true by done|].
  rewrite bool_decide_false; [by apply IH|]. rewrite <- E. intros E'. apply Hn. rewrite E'. by apply list_elem_of_fmap_2.
Qed.

Section Sent.
Context (fs : list (string * form)) (t : gotype) (body : string) (l : list (list Z * json)).
Context (Hm : matches (reply_form fs) false t) (Hs : sends fs body l).

Lemma Unmarshal_sent : Unmarshal t (bytes body) (zero t) = Ok (value_of (reply_form fs) (JObj l)).
Proof. destruct Hs as [E Hc]. unfold Unmarshal. rewrite E. apply (decode_form _ false t _ Hm Hc). Qed.

Lemma get_sent n k : (n, k) ∈ fs ++ [("errorDescription", FText)] ->
  get t (value_of (reply_form fs) (JObj l)) n = Some (value_at l (n, k)).
Proof using Hm.
  intros Hf. destruct t as [| | | | | |gs]; try done. apply matches_object in Hm as (_ & Hd & Hg).
  apply (field_sent (fs ++ [("errorDescription", FText)]) gs l (n, k)); [by apply distinct_NoDup|done|done].
Qed.

Lemma sent_conforms f v : f ∈ fs ++ [("errorDescription", FText)] -> member l f.1 = Some v -> conforms f.2 v.
Proof using Hs.
  destruct Hs as [_ Hc]. apply conforms_object in Hc as (_ & _ & Hc). rewrite Forall_forall in Hc. intros Hf. by apply Hc.
Qed.

Notation v := (value_of (reply_form fs) (JObj l)).

Lemma text_sent name : (name, FText) ∈ fs ++ [("errorDescription", FText)] -> get_string t v name = text_of (member l name).
Proof using Hm.
  intros Hf. unfold get_string. rewrite (get_sent _ _ Hf). unfold value_at. cbn [fst snd]. destruct (member l name) as [j|]; [|done].
  by destruct j.
Qed.

Lemma signed_sent name w : (name, FNumber true w) ∈ fs ++ [("errorDescription", FText)] \/ (name, FDigits true w) ∈ fs ++ [("errorDescription", FText)] ->
  get_int t v name = signed_of (member l name).
Proof using Hm Hs.
  intros [Hf|Hf]; unfold get_int; rewrite (get_sent _ _ Hf); unfold value_at; cbn [fst snd];
    pose proof (fun j => sent_conforms _ j Hf) as Hc; cbn [fst snd] in Hc; destruct (member l name) as [j|]; try done;
    specialize (Hc j eq_refl); by destruct j.
Qed.

Lemma unsigned_sent name w : (name, FNumber false w) ∈ fs ++ [("errorDescription", FText)] \/ (name, FDigits false w) ∈ fs ++ [("errorDescription", FText)] ->
  get_int t v name = unsigned_of (member l name).
Proof using Hm Hs.
  intros [Hf|Hf]; unfold get_int; rewrite (get_sent _ _ Hf); unfold value_at; cbn [fst snd];
    pose proof (fun j => sent_conforms _ j Hf) as Hc; cbn [fst snd] in Hc; destruct (member l name) as [j|]; try done;
    specialize (Hc j eq_refl); by destruct j.
Qed.

Lemma elements_sent name k : (name, FArray k) ∈ fs ++ [("errorDescription", FText)] ->
  elements (get t v name) = value_of k <$> elements_of (member l name) /\ Forall (conforms k) (elements_of (member l name)).
Proof using Hm Hs.
  intros Hf. rewrite (get_sent _ _ Hf). unfold value_at. cbn [fst snd]. pose proof (fun j => sent_conforms _ j Hf) as Hc. cbn [fst snd] in Hc.
  destruct (member l name) as [j|]; [|by split]. specialize (Hc j eq_refl). destruct j; try done. cbn [value_of elements elements_of].
  split; [|done]. by rewrite take_ge by by rewrite length_fmap.
Qed.

Lemma error_sent : getError t v = text_of (member l "errorDescription").
Proof using Hm. apply text_sent, elem_of_app. right. by left. Qed.

End Sent.

(** ** The structs of the program *)

Definition distinctb (names : list string) : bool :=
  forallb (fun p => bool_decide (find_field (bytes <$> names) (bytes p.2) = Some p.1)) (imap pair names).

Lemma distinctb_spec names : distinctb names = true -> distinct names.
Proof.
  intros H i n Hi. unfold distinctb in H. rewrite forallb_forall in H.
  apply (bool_decide_eq_true_1 _), (H (i, n)), list_elem_of_In, elem_of_lookup_imap. by exists i, n.
Qed.

(** The form of a struct of the program, down to its names and widths. *)
Ltac same_form :=
  repeat lazymatch goal with
  | |- Forall2 _ [] [] => constructor
  | |- Forall2 _ (_ :: _) (_ :: _) => constructor; cbn [fst snd]
  | |- matches (FObject _) _ _ => apply matches_object
  | |- matches (FArray _) _ (TSlice _) => split; [done|]
  | |- matches _ _ _ => cbn [matches]
  | |- distinct _ => apply distinctb_spec; by vm_compute
  | |- _ /\ _ => split
  | |- _ \/ _ => first [left; (split_and!; (done || lia)) | right; done]
  | |- _ => first [done | lia]
  end.

Ltac struct_form :=
  cbv [reply_form uint app mining_info_members submit_nonce_members block_members recipients_members broadcast_members
    transaction_json_members payment_members attachment_form account_transaction_members account_transactions_members account_members
    transaction_members GetMiningInfoReply SubmitNonceReply GetBlockReply GetAccountsWithRewardRecipientReply
    BroadcastTransactionReply SendMoneyReply SendMoneyMultiReply GetAccountTransactionsReply AccountTransaction
    GetAccountReply GetTransactionReply transactionData errorDescriptionField plain quoted int int64 int32 uint64 uint32];
  same_form.

Lemma mining_info_form : matches (reply_form mining_info_members) false GetMiningInfoReply.
Proof. struct_form. Qed.
Lemma submit_nonce_form : matches (reply_form submit_nonce_members) false SubmitNonceReply.
Proof. struct_form. Qed.
Lemma block_form : matches (reply_form block_members) false GetBlockReply.
Proof. struct_form. Qed.
Lemma recipients_form : matches (reply_form recipients_members) false GetAccountsWithRewardRecipientReply.
Proof. struct_form. Qed.
Lemma broadcast_form : matches (reply_form broadcast_members) false BroadcastTransactionReply.
Proof. struct_form. Qed.
Lemma payment_form : matches (reply_form payment_members) false SendMoneyReply.
Proof. struct_form. Qed.
Lemma account_transactions_form : matches (reply_form account_transactions_members) false GetAccountTransactionsReply.
Proof. struct_form. Qed.
Lemma account_form : matches (reply_form account_members) false GetAccountReply.
Proof. struct_form. Qed.
Lemma transaction_form : matches (reply_form transaction_members) false GetTransactionReply.
Proof. struct_form. Qed.

(** ** The methods of a wallet *)

Ltac is_member := solve [repeat first [apply list_elem_of_here | apply list_elem_of_further]].

(** The ids of an array, and an element of the transactions of an account. *)
Definition ids_of (j : option json) : list Z := (fun x => unsigned_of (Some x)) <$> elements_of j.

Definition transaction_of (x : json) : AccountTransaction.t :=
  let l := members_of (Some x) in
  AccountTransaction.mk (unsigned_of (member l "sender")) (text_of (member (members_of (member l "attachment")) "message")).

Lemma ids_sent fs ty body l name :
  matches (reply_form fs) false ty -> sends fs body l -> (name, FArray uint) ∈ fs ++ [("errorDescription", FText)] ->
  to_Z <$> elements (get ty (value_of (reply_form fs) (JObj l)) name) = ids_of (member l name).
Proof.
  intros Hm Hs Hn. destruct (elements_sent fs ty body l Hm Hs name _ Hn) as [-> Hc]. unfold ids_of.
  rewrite <- list_fmap_compose. induction Hc as [|x xs Hx _ IH]; [done|]. rewrite !fmap_cons, IH. f_equal. by destruct x.
Qed.

Lemma account_transaction_form : matches (FObject account_transaction_members) false AccountTransaction.
Proof. struct_form. Qed.

Lemma get_transaction_sent l n k : (n, k) ∈ account_transaction_members ->
  get AccountTransaction (value_of (FObject account_transaction_members) (JObj l)) n = Some (value_at l (n, k)).
Proof.
  intros Hf. pose proof account_transaction_form as Hm. unfold AccountTransaction in Hm |- *.
  apply matches_object in Hm as (_ & Hd & Hg).
  exact (field_sent account_transaction_members _ l (n, k) (distinct_NoDup _ Hd) Hg Hf).
Qed.

Lemma attachment_sent a :
  conforms attachment_form a ->
  match value_of attachment_form a with GStruct [_; _; GStr message] => of_bytes message | _ => ""%string end
  = text_of (member (members_of (Some a)) "message").
Proof.
  intros Hc. destruct a as [| | | | |l]; try done.
  change (value_of attachment_form (JObj l)) with
    (GStruct [value_at l ("version.Message", FNumber true 64); value_at l ("messageIsText", FBool); value_at l ("message", FText)]).
  unfold value_at. cbn [fst snd members_of]. destruct (member l "message") as [j|]; [|done]. by destruct j.
Qed.

Lemma transaction_sent x :
  conforms (FObject account_transaction_members) x ->
  account_transaction (value_of (FObject account_transaction_members) x) = transaction_of x.
Proof.
  intros Hc. destruct x as [| | | | |l]; try done. apply conforms_object in Hc as (_ & _ & Hc).
  rewrite Forall_forall in Hc. unfold account_transaction, transaction_of, get_int. cbv zeta.
  rewrite (get_transaction_sent l "sender" uint) by is_member.
  rewrite (get_transaction_sent l "attachment" attachment_form) by is_member. cbn [members_of]. f_equal.
  - unfold value_at. cbn [fst snd].
    assert (Hj : forall v, member l "sender" = Some v -> conforms uint v) by (apply (Hc ("sender", uint)%string); is_member).
    destruct (member l "sender") as [v|]; [|done]. specialize (Hj v eq_refl). by destruct v.
  - unfold value_at. cbn [fst snd].
    assert (Hj : forall v, member l "attachment" = Some v -> conforms attachment_form v)
      by (apply (Hc ("attachment", attachment_form)%string); is_member).
    destruct (member l "attachment") as [v|]; [|done]. apply attachment_sent, Hj, eq_refl.
Qed.

Lemma transactions_sent body l :
  sends account_transactions_members body l ->
  account_transaction <$>
    elements (get GetAccountTransactionsReply (value_of (reply_form account_transactions_members) (JObj l)) "transactions")
  = transaction_of <$> elements_of (member l "transactions").
Proof.
  intros Hs. destruct (elements_sent _ _ _ _ account_transactions_form Hs "transactions" (FObject account_transaction_members))
    as [-> Hc]; [is_member|].
  rewrite <- list_fmap_compose. induction Hc as [|x xs Hx _ IH]; [done|]. rewrite !fmap_cons, IH. f_equal. by apply transaction_sent.
Qed.

(** Field by field, what a decoder takes from the value of a reply. *)
Ltac read_members Hm Hs :=
  cbv beta; f_equal;
  first
    [ apply (text_sent _ _ _ Hm); is_member
    | eapply (signed_sent _ _ _ _ Hm Hs); first [left; is_member | right; is_member]
    | eapply (unsigned_sent _ _ _ _ Hm Hs); first [left; is_member | right; is_member]
    | eapply (ids_sent _ _ _ _ _ Hm Hs); is_member
    | eapply (transactions_sent _ _ Hs) ].

Section Methods.
Context (client : stamp -> string -> string -> result string (Z * string)) (u : string) (t : stamp).

Definition url_of {R} `{!Request R} (req : R) : string := String.append (apiURL u) (of_bytes (query req)).

(** The node answers the request with status 200 and these members. *)
Definition answered {R} `{!Request R} (req : R) (fs : list (string * form)) (l : list (list Z * json)) : Prop :=
  exists body,
    client t (if bool_decide (http_method R = "GET"%string) then "GET" else "POST")%string (url_of req) = Ok (StatusOK, body) /\
    sends fs body l.

(** The reply, or the error that the node describes. *)
Definition reply_or_error {R Reply} `{!Request R} (req : R) (l : list (list Z * json)) (r : Reply) : result string Reply :=
  let d := text_of (member l "errorDescription") in
  if bool_decide (d = ""%string) then Ok r
  else Err (String.append "request to " (String.append (url_of req) (String.append ": " d))).

Lemma send_sent {R Reply} `{!Request R} {Dec : Decoder Reply} (req : R) fs l (r : Reply) :
  answered req fs l ->
  (forall body, sends fs body l -> unmarshal body = Ok (r, text_of (member l "errorDescription"))) ->
  send client u t req = reply_or_error req l r.
Proof.
  intros (body & Hc & Hs) Hr. unfold send, processJSONRequest, url_of in *. cbv zeta. cbn match.
  rewrite Hc, (Hr body Hs). unfold reply_or_error, url_of. cbv zeta. cbn [negb snd fst Z.eqb Pos.eqb StatusOK].
  destruct (decide (text_of (member l "errorDescription") = ""%string)) as [->|Hd]; [done|].
  by rewrite bool_decide_true, bool_decide_false by done.
Qed.

Lemma decode_reply_sent {Reply} (ty : gotype) (conv : goval -> Reply) fs body l r :
  matches (reply_form fs) false ty -> sends fs body l -> conv (value_of (reply_form fs) (JObj l)) = r ->
  decode_reply ty conv body = Ok (r, text_of (member l "errorDescription")).
Proof.
  intros Hm Hs <-. unfold decode_reply. rewrite (Unmarshal_sent fs ty body l Hm Hs). cbn match.
  by rewrite (error_sent fs ty l Hm).
Qed.


(** A method of the wallet whose reply has this form. *)
Ltac method_reads Hm :=
  intros; eapply send_sent; [eassumption|];
  let body := fresh "body" in let Hs := fresh "Hs" in intros body Hs;
  apply (decode_reply_sent _ _ _ _ _ _ Hm Hs); read_members Hm Hs.

(** C34: c34. What a node answers, the methods of a wallet read.  For every request
    the program sends, and every answer of status 200 with a JSON object of
    the members that the API of the node documents for it - in any order and
    layout, any of them missing, any others added - the reply has in each field
    the member with the documented name: texts as they are, the numbers in and
    out of quotes by their value, the ids of an array in their order, and zero
    values for what is missing; or, where the node describes an error, the
    method fails with the description.  The members are those of the API, not
    of the tags: a field with another name or without its option [string] is
    refused or reads as zero. *)
Theorem replies_as_sent :
  (forall l, answered GetMiningInfoRequest.mk mining_info_members l ->
     w_GetMiningInfo (NewWallet client u) t
     = reply_or_error GetMiningInfoRequest.mk l
         (MiningInfo.mk (text_of (member l "generationSignature")) (unsigned_of (member l "baseTarget"))
            (unsigned_of (member l "height")))) /\
  (forall req l, answered req submit_nonce_members l ->
     w_SubmitNonce (NewWallet client u) t req
     = reply_or_error req l (SubmitNonceReply.mk (unsigned_of (member l "deadline")) (text_of (member l "result")))) /\
  (forall req l, answered req block_members l ->
     w_GetBlock (NewWallet client u) t req
     = reply_or_error req l
         (BlockReply.mk
            (text_of (member l "previousBlockHash")) (signed_of (member l "payloadLength")) (signed_of (member l "totalAmountNQT"))
            (text_of (member l "generationSignature")) (unsigned_of (member l "generator"))
            (text_of (member l "generatorPublicKey")) (unsigned_of (member l "baseTarget")) (text_of (member l "payloadHash"))
            (text_of (member l "generatorRS")) (signed_of (member l "blockReward")) (unsigned_of (member l "scoopNum"))
            (signed_of (member l "numberOfTransactions")) (text_of (member l "blockSignature")) (ids_of (member l "transactions"))
            (unsigned_of (member l "nonce")) (signed_of (member l "version")) (signed_of (member l "totalFeeNQT"))
            (unsigned_of (member l "previousBlock")) (unsigned_of (member l "block")) (unsigned_of (member l "nextBlock"))
            (unsigned_of (member l "height")) (signed_of (member l "timestamp")))) /\
  (forall req l, answered req recipients_members l ->
     w_GetAccountsWithRewardRecipient (NewWallet client u) t req = reply_or_error req l (ids_of (member l "accounts"))) /\
  (forall req l, answered req broadcast_members l ->
     w_BroadcastTransaction (NewWallet client u) t req
     = reply_or_error req l (BroadcastReply.mk (text_of (member l "fullHash")) (unsigned_of (member l "transaction")))) /\
  (forall req l, answered req payment_members l ->
     w_SendMoney (NewWallet client u) t req
     = reply_or_error req l (SendMoneyReply.mk (unsigned_of (member l "transaction")) (text_of (member l "transactionBytes")))) /\
  (forall req l, answered req payment_members l ->
     w_SendMoneyMulti (NewWallet client u) t req
     = reply_or_error req l (SendMoneyReply.mk (unsigned_of (member l "transaction")) (text_of (member l "transactionBytes")))) /\
  (forall req l, answered req account_transactions_members l ->
     w_GetAccountTransactions (NewWallet client u) t req
     = reply_or_error req l (transaction_of <$> elements_of (member l "transactions"))) /\
  (forall req l, answered req account_members l ->
     w_GetAccount (NewWallet client u) t req
     = reply_or_error req l
         (AccountReply.mk
            (signed_of (member l "unconfirmedBalanceNQT")) (signed_of (member l "guaranteedBalanceNQT"))
            (signed_of (member l "effectiveBalanceNXT")) (text_of (member l "accountRS")) (text_of (member l "name"))
            (signed_of (member l "forgedBalanceNQT")) (signed_of (member l "balanceNQT")) (text_of (member l "publicKey"))
            (unsigned_of (member l "account")))) /\
  (forall req l, answered req transaction_members l ->
     w_GetTransaction (NewWallet client u) t req
     = reply_or_error req l (TransactionReply.mk (unsigned_of (member l "transaction")) (unsigned_of (member l "height")))).
Proof.
  split_and!.
  - method_reads mining_info_form.
  - method_reads submit_nonce_form.
  - method_reads block_form.
  - method_reads recipients_form.
  - method_reads broadcast_form.
  - method_reads payment_form.
  - method_reads payment_form.
  - method_reads account_transactions_form.
  - method_reads account_form.
  - method_reads transaction_form.
Qed.

End Methods.

(** A node that adds a member, and sends the others in another order. *)
Definition mining_info_sent : list (list Z * json) :=
  [(bytes "height", JStr (bytes "500000")); (bytes "requestProcessingTime", JNum (bytes "3"));
   (bytes "generationSignature", JStr (bytes "ab")); (bytes "baseTarget", JStr (bytes "70312"))].

Definition mining_info_client (t : stamp) (method u : string) : result string (Z * string) :=
  Ok (200, body_of "{'height':'500000', 'requestProcessingTime':3, 'generationSignature':'ab','baseTarget':'70312'}").

Lemma replies_as_sent_witness :
  w_GetMiningInfo (NewWallet mining_info_client "http://a") (0%nat, 0%nat) = Ok (MiningInfo.mk "ab" 70312 500000).
Proof.
  rewrite (proj1 (replies_as_sent mining_info_client "http://a" (0%nat, 0%nat)) mining_info_sent); [by vm_compute|].
  exists (body_of "{'height':'500000', 'requestProcessingTime':3, 'generationSignature':'ab','baseTarget':'70312'}").
  split; [done|]. split; [by vm_compute|]. apply conforms_object. split_and!.
  - apply (bool_decide_unpack _). by vm_compute.
  - intros p Hp. unfold mining_info_sent in Hp. repeat (apply elem_of_cons in Hp as [->|Hp]).
    all: first [by apply not_elem_of_nil in Hp | left; apply (bool_decide_unpack _); by vm_compute | right; by vm_compute].
  - unfold reply_form, mining_info_members, uint. cbn [app].
    repeat apply Forall_cons_2; try apply Forall_nil_2; cbn [fst snd]; intros v Hv; vm_compute in Hv; try done;
      injection Hv as <-; [done|exists 70312; by vm_compute|exists 500000; by vm_compute].
Defined.
