(* ===== verification/Pool.v ===== *)
(** * The pool ([pkg/pool/pool.go])

    The handling of miners' and nodes' requests, the goroutine that keeps the
    best submission of the round and submits it in time ([forge]), and the
    jobs.  The deadline of a nonce, which the C library computes, is a
    parameter. *)

From Stdlib Require Import Ascii String.
From S2P Require Import Prelude GoStrings GoFloat GoParse RSEncoding Burstmath Config Blocks Shares Miner DB.
From S2P Require Import Cache Wallet World Payout Rewards Modelx Submissions.
Open Scope string_scope.
Open Scope list_scope.
Open Scope Z_scope.
Import GoInt.

(** ** Responses *)

Record response := mk_response { status : Z; body : string }.

#[export] Instance response_eq_dec : EqDecision response.
Proof. solve_decision. Defined.

Definition StatusBadRequest : Z := 400.
Definition StatusForbidden : Z := 403.

Definition formatJSONError (errorCode : Z) (errorMsg : string) : string :=
  json_object [("errorCode", json_string (of_bytes (FormatInt errorCode))); ("errorDescription", json_string errorMsg)].

(** A request: the parameters of its form and its headers. *)
Record request := mk_request_http {
  requestType : string;
  blockheight : string;
  nonce : string;
  accountId : string;
  userAgent : string;
  xMiner : string
}.

Definition submitBefore : Z := 30 * second.
Definition nonceSubmissionRetries : nat := 3.

(** ** The best submission of the round *)

(** The conversion of a deadline on a chain with sodium deadlines. *)
Definition sodium (deadline : Z) : Z :=
  to_uint64 (fdiv (fmul (log (of_Z deadline)) (of_Z 240)) (log (of_Z 240))).

(** [time.Since] saturates. *)
Definition since (now start : Z) : Z := Z.max (- 2 ^ 63) (Z.min (2 ^ 63 - 1) (now - start)).

Section Pool.
Context `{Env}.
Context (CalcDeadline : Z -> Z -> Z -> Z -> list Z -> Z).

(** The delay after which a nonce is submitted. *)
Definition due (now deadline roundStart : Z) : Z :=
  let deadline := if SodiumDeadlines Cfg && (0 <? deadline) then sodium deadline else deadline in
  i64 (i64 (i64 (i64 deadline * second) - since now roundStart) - submitBefore).

(** The variables of [forge]: the best submission, and when the timer fires;
    [None] once it has fired. *)
Record forger := mk_forger { best : NonceSubmission.t; after : option Z }.

Definition updateSubmitTimer (deadline roundStart : Z) : M Z :=
  t0 ← now; t ← now; mret (t + due t0 deadline roundStart).

Definition maxTime : Z := 2 ^ 63 - 1.

Definition forge_start (currentBlock : Block.t) : M forger :=
  match Block.BestNonceSubmissionID currentBlock with
  | Some _ =>
      r ← GetBestNonceSubmissionOnBlock (Block.Height currentBlock);
      match r with
      | Err _ => panic
      | Ok ns =>
          with_cache (StoreBestNonceSubmission ns) ;;
          t ← updateSubmitTimer (NonceSubmission.Deadline ns) (NonceSubmission.RoundStart ns);
          mret (mk_forger ns (Some t))
      end
  | None =>
      t ← now;
      mret (mk_forger (NonceSubmission.mk 0 (2 ^ 64 - 1) 0 0 "" "" 0 "") (Some (t + maxTime)))
  end.

(** Whether [forge] takes a submission. *)
Definition improves (ns best : NonceSubmission.t) : bool :=
  negb (NonceSubmission.Height ns <? NonceSubmission.Height best) &&
  negb (bool_decide (NonceSubmission.GenerationSignature ns = NonceSubmission.GenerationSignature best) &&
        (NonceSubmission.Deadline best <=? NonceSubmission.Deadline ns)).

Definition forge_submission (f : forger) (ns : NonceSubmission.t) : M forger :=
  if improves ns (best f) then
    UpdateBestSubmission (NonceSubmission.MinerID ns) (NonceSubmission.Height ns) ;;
    with_cache (StoreBestNonceSubmission ns) ;;
    t ← updateSubmitTimer (NonceSubmission.Deadline ns) (NonceSubmission.RoundStart ns);
    mret (mk_forger ns (Some t))
  else mret f.

Fixpoint try_submit (tries : nat) (ns : NonceSubmission.t) : M bool :=
  match tries with
  | O => mret false
  | S k =>
      r ← call (fun n => SubmitNonce n (NonceSubmission.Nonce ns) (NonceSubmission.MinerID ns)
                           (NonceSubmission.Deadline ns));
      match r with Ok _ => mret true | Err _ => try_submit k ns end
  end.

(** Whether a node took the nonce, which the program only logs. *)
Definition submitNonce (ns : NonceSubmission.t) : M bool := try_submit nonceSubmissionRetries ns.

(** The timer fires once. *)
Definition forge_timer (f : forger) : M forger := submitNonce (best f) ;; mret (mk_forger (best f) None).

Inductive forge_event := Submitted (ns : NonceSubmission.t) | TimerFired.

(** The loop over the events, of which the timer's come while it is set. *)
Fixpoint forge_loop (f : forger) (events : list forge_event) : M forger :=
  match events with
  | [] => mret f
  | Submitted ns :: events' => f' ← forge_submission f ns; forge_loop f' events'
  | TimerFired :: events' =>
      match after f with
      | Some _ => f' ← forge_timer f; forge_loop f' events'
      | None => forge_loop f events'
      end
  end.

Definition forge (currentBlock : Block.t) (events : list forge_event) : M forger :=
  f ← forge_start currentBlock; forge_loop f events.

(** ** Jobs *)

Definition checkAndAddNewBlock : M unit :=
  r ← call GetMiningInfo;
  match r with
  | Err _ => mret tt
  | Ok info => MaybeSwitchOrNewBlock (MiningInfo.BaseTarget info) (MiningInfo.GenerationSignature info) (MiningInfo.Height info)
  end.

Inductive job := PayJob | RereadJob | CleanJob.

Definition run_job (j : job) : M unit :=
  match j with
  | PayJob => RewardBlocks ;; Payout
  | RereadJob => RereadMinerNames
  | CleanJob => CleanDB
  end.

(** ** Requests of miners *)

(** A form error of a request, or its nonce and account. *)
Definition read_submission (ri : RoundInfo.t) (req : request) : result response (Z * Z) :=
  let wrong_height :=
    match ParseUint (bytes (blockheight req)) with Ok h => negb (h =? RoundInfo.Height ri) | Err _ => false end in
  if (wrong_height : bool)
  then Err (mk_response StatusBadRequest (formatJSONError 1005 "Submitted on wrong height"))
  else match ParseUint (bytes (nonce req)) with
  | Err _ => Err (mk_response StatusBadRequest
               (formatJSONError 1012 "submitNonce request has bad 'nonce' parameter - should be uint64"))
  | Ok n =>
      match ParseUint (bytes (accountId req)) with
      | Ok id =>
          if id =? 0
          then Err (mk_response StatusBadRequest
                 (formatJSONError 1013 "submitNonce request has bad 'accountId' parameter - should be uint64"))
          else Ok (n, id)
      | Err _ => Err (mk_response StatusBadRequest
                   (formatJSONError 1013 "submitNonce request has bad 'accountId' parameter - should be uint64"))
      end
  end.

Definition wrong_recipient : response :=
  mk_response StatusForbidden (formatJSONError 1004 "Account's reward recipient doesn't match the pool's").

Definition deadline_response (deadline : Z) : response :=
  mk_response StatusOK (String.append "{" (String.append (json_string "deadline") (String.append ":"
    (String.append (of_bytes (FormatUint deadline)) (String.append ","
      (String.append (json_string "result") (String.append ":" (String.append (json_string "success") "}")))))))).

Definition set_userAgent_of (req : request) (m : Miner) : Miner :=
  set_userAgent (if bool_decide (userAgent req = "") then xMiner req else userAgent req) m.

Definition submission_of (m : Miner) (ri : RoundInfo.t) (accountID nonce deadline : Z) : NonceSubmission.t :=
  NonceSubmission.mk nonce deadline accountID (RoundInfo.Height ri) (Name m) (Address m) (RoundInfo.RoundStart ri)
    (RoundInfo.GenerationSignature ri).

(** The response, and what is sent to [forge]. *)
Definition processSubmitNonceRequest (req : request) : M (response * option NonceSubmission.t) :=
  c ← get Cache;
  let ri := GetRoundInfo c in
  match read_submission ri req with
  | Err r => mret (r, None)
  | Ok (nonce, accountID) =>
      if bool_decide (accountID ∈ AccountIDBlacklist Cfg) then mret (mk_response StatusOK "", None) else
      c ← get Cache;
      if negb (IsRewardRecipient accountID c).1 then mret (wrong_recipient, None) else
      miner ← FirstOrCreateMiner accountID;
      match miner with
      | None => mret (wrong_recipient, None)
      | Some a =>
          update_miner a (set_userAgent_of req) ;;
          deadlineReq ← of_option (NewCalcDeadlineRequest accountID nonce (RoundInfo.BaseTarget ri) (RoundInfo.Scoop ri)
            (RoundInfo.GenSig ri));
          let deadline := CalcDeadline (Native.account_id deadlineReq) (Native.nonce deadlineReq)
            (Native.base_target deadlineReq) (Native.scoop_nr deadlineReq) (Native.gen_sig deadlineReq) in
          if negb (DeadlineLimit Cfg =? 0) && (DeadlineLimit Cfg <? deadline)
          then mret (mk_response StatusBadRequest (formatJSONError 1008 "deadline exceeds deadline limit of the pool"), None)
          else
            err ← UpdateOrCreateNonceSubmission a (RoundInfo.Height ri) deadline nonce (RoundInfo.BaseTarget ri) "";
            match err with
            | Err _ => mret (deadline_response deadline, None)
            | Ok _ =>
                m ← miner_at a;
                mret (deadline_response deadline, Some (submission_of m ri accountID nonce deadline))
            end
      end
  end.

(** The handler of [/burst]. *)
Definition serve (req : request) : M (response * option NonceSubmission.t) :=
  if bool_decide (requestType req = "getMiningInfo")
  then c ← get Cache; mret (mk_response StatusOK (GetMiningInfoJSON c), None)
  else if bool_decide (requestType req = "submitNonce") then processSubmitNonceRequest req
  else mret (mk_response StatusOK "", None).

Definition generateLimiterKey (ip : string) (req : request) : string := String.append ip (requestType req).

(** ** Requests of nodes *)

Record node_request := mk_node {
  nr_AccountID : Z; nr_BlockHeight : Z; nr_Deadline : Z; nr_Nonce : Z; nr_BaseTarget : Z; nr_GenSig : string
}.

(** A nil miner is dereferenced. *)
Definition node_SubmitNonce (msg : node_request) : M (result sql_error unit * option NonceSubmission.t) :=
  c ← get Cache;
  let ri := GetRoundInfo c in
  miner ← FirstOrCreateMiner (nr_AccountID msg);
  match miner with
  | None => panic
  | Some a =>
      err ← UpdateOrCreateNonceSubmission a (nr_BlockHeight msg) (nr_Deadline msg) (nr_Nonce msg) (nr_BaseTarget msg)
              (nr_GenSig msg);
      match err with
      | Err e => mret (Err e, None)
      | Ok _ =>
          if RoundInfo.Height ri <=? nr_BlockHeight msg then
            c ← get Cache;
            m ← miner_at a;
            mret (Ok tt, Some (submission_of m (GetRoundInfo c) (nr_AccountID msg) (nr_Nonce msg) (nr_Deadline msg)))
          else mret (Ok tt, None)
      end
  end.

(** The value of the key [token] of a context: none, a string or something else. *)
Inductive token := TokenString (s : string) | TokenOther.

Definition authInterceptor {A} (t : option token) (handler : M (result string A)) : M (result string A) :=
  match t with
  | None => mret (Err "incorrect access token")
  | Some TokenOther => panic
  | Some (TokenString s) =>
      if bool_decide (s = "valid-token") then handler else mret (Err "incorrect access token")
  end.

End Pool.
