(* ===== verification/PoolTheorems.v ===== *)
(** * Theorems on the pool ([pkg/pool/pool.go])

    Which requests reach [forge] and what a refused one leaves behind; the
    best submission of a round; when it is submitted and how often; and two
    crashes of the protocol between pool and nodes and of its memory. *)

From Stdlib Require Import Ascii String.
From stdpp Require Import pretty.
From S2P Require Import Prelude GoStrings GoFloat GoParse RSEncoding Burstmath Config Blocks Shares Miner DB.
From S2P Require Import Cache Wallet World Payout PayoutTheorems Rewards Modelx Submissions Pool.
Open Scope string_scope.
Open Scope list_scope.
Open Scope Z_scope.
Import GoInt.

(** ** Inversion of runs *)

Lemma bind_inv {A B} (c : M A) (k : A -> M B) w b w' :
  (c ≫= k) w = (Some b, w') -> exists a w1, c w = (Some a, w1) /\ k a w1 = (Some b, w').
Proof. unfold mbind, M_bind. destruct (c w) as [[a|] w1]; [|done]. intros E. by exists a, w1. Qed.

Section Pool.
Context `{Env}.
Context (CalcDeadline : Z -> Z -> Z -> Z -> list Z -> Z).

(** ** Requests of miners *)

Lemma read_submission_ok ri req n id :
  read_submission ri req = Ok (n, id) ->
  ParseUint (bytes (nonce req)) = Ok n /\ ParseUint (bytes (accountId req)) = Ok id /\ id <> 0 /\
  (forall h, ParseUint (bytes (blockheight req)) = Ok h -> h = RoundInfo.Height ri).
Proof.
  unfold read_submission. cbv zeta. destruct (ParseUint (bytes (blockheight req))) as [h|e].
  - destruct (Z.eqb_spec h (RoundInfo.Height ri)); simpl; [|done].
    destruct (ParseUint (bytes (nonce req))) as [n'|?]; [|done].
    destruct (ParseUint (bytes (accountId req))) as [id'|?]; [|done].
    destruct (Z.eqb_spec id' 0); [done|]. intros [= <- <-]. split_and!; [done..|]. by intros h' [= <-].
  - destruct (ParseUint (bytes (nonce req))) as [n'|e']; [|done].
    destruct (ParseUint (bytes (accountId req))) as [id'|e']; [|done].
    destruct (Z.eqb_spec id' 0); [done|]. by intros [= <- <-].
Qed.

(** What must hold of a request that reaches [forge]. *)
Record forwarded (req : request) (w : World) (ns : NonceSubmission.t) : Prop := {
  fw_nonce : ParseUint (bytes (nonce req)) = Ok (NonceSubmission.Nonce ns);
  fw_account : ParseUint (bytes (accountId req)) = Ok (NonceSubmission.MinerID ns);
  fw_some_account : NonceSubmission.MinerID ns <> 0;
  fw_height : forall h, ParseUint (bytes (blockheight req)) = Ok h -> h = NonceSubmission.Height ns;
  fw_blacklist : NonceSubmission.MinerID ns ∉ AccountIDBlacklist Cfg;
  fw_recipient : rewardRecipient (Cache w) !! NonceSubmission.MinerID ns = Some true;
  fw_round : let ri := GetRoundInfo (Cache w) in
    NonceSubmission.Height ns = RoundInfo.Height ri /\
    NonceSubmission.GenerationSignature ns = RoundInfo.GenerationSignature ri /\
    NonceSubmission.RoundStart ns = RoundInfo.RoundStart ri /\
    NonceSubmission.Deadline ns = CalcDeadline (NonceSubmission.MinerID ns) (NonceSubmission.Nonce ns)
                                    (RoundInfo.BaseTarget ri) (RoundInfo.Scoop ri) (RoundInfo.GenSig ri);
  fw_limit : DeadlineLimit Cfg = 0 \/ NonceSubmission.Deadline ns <= DeadlineLimit Cfg
}.

Lemma native_fields id n bt sc gs w r w' :
  of_option (NewCalcDeadlineRequest id n bt sc gs) w = (Some r, w') -> r = Native.mk id n bt sc gs /\ w' = w /\ gs <> [].
Proof. unfold NewCalcDeadlineRequest. destruct gs; [done|]. by intros [= <- <-]. Qed.

(** C28: of the requests that miners send over HTTP, a submission reaches
    [forge] only from one with a well-formed nonce and account, for the height of the round if it names one, from an
    account that is not blacklisted and has the pool as its reward recipient,
    with the deadline computed for the round's scoop and signature, within the
    limit; and the miner is told that deadline. *)
Theorem forwarded_submissions_are_valid (req : request) (w w' : World) (r : response) (ns : NonceSubmission.t) :
  processSubmitNonceRequest CalcDeadline req w = (Some (r, Some ns), w') ->
  forwarded req w ns /\ r = deadline_response (NonceSubmission.Deadline ns).
Proof.
  unfold processSubmitNonceRequest. rewrite get_bind. cbv zeta. set (ri := GetRoundInfo (Cache w)).
  destruct (read_submission ri req) as [[n id]|e] eqn:Er; [|done].
  apply read_submission_ok in Er as (En & Ei & H0 & Hh).
  case_bool_decide as Hb; [done|]. rewrite get_bind. unfold IsRewardRecipient.
  destruct (rewardRecipient (Cache w) !! id) as [[]|] eqn:Ew; [|done..]. cbn [negb fst].
  intros (o & w1 & _ & E)%bind_inv. destruct o as [a|]; [|done].
  apply bind_inv in E as (_ & w2 & _ & E). apply bind_inv in E as (nat & w2' & Enat & E).
  apply native_fields in Enat as (-> & -> & _). cbn [Native.account_id Native.nonce Native.base_target Native.scoop_nr Native.gen_sig] in E.
  set (d := CalcDeadline _ _ _ _ _) in *.
  destruct (negb (DeadlineLimit Cfg =? 0) && (DeadlineLimit Cfg <? d)) eqn:El; [done|].
  apply bind_inv in E as ([u|e] & w3 & _ & E); [|done]. apply bind_inv in E as (m & w4 & _ & E).
  injection E as <- <- _. split; [|done]. split; simpl; try done.
  apply andb_false_iff in El as [El|El]; zbool; [by left|by right].
Qed.

(** C35: a request with a malformed or outdated parameter, of a blacklisted
    account or of an account with another reward recipient gets its answer
    and changes nothing: no database row, no miner, no cache entry. *)
Theorem refused_requests_change_nothing (req : request) (w : World) :
  let ri := GetRoundInfo (Cache w) in
  match read_submission ri req with
  | Err r => processSubmitNonceRequest CalcDeadline req w = (Some (r, None), w) /\ status r = 400
  | Ok (n, id) =>
      (id ∈ AccountIDBlacklist Cfg ->
       processSubmitNonceRequest CalcDeadline req w = (Some (mk_response StatusOK "", None), w)) /\
      (id ∉ AccountIDBlacklist Cfg -> rewardRecipient (Cache w) !! id <> Some true ->
       processSubmitNonceRequest CalcDeadline req w = (Some (wrong_recipient, None), w))
  end.
Proof.
  cbv zeta. unfold processSubmitNonceRequest. rewrite get_bind. cbv zeta. set (ri := GetRoundInfo (Cache w)).
  destruct (read_submission ri req) as [[n id]|r] eqn:Er.
  - split; intros Hb; [by rewrite bool_decide_eq_true_2|]. intros Hr. rewrite bool_decide_eq_false_2 by done.
    rewrite get_bind. unfold IsRewardRecipient. by destruct (rewardRecipient (Cache w) !! id) as [[]|].
  - split; [done|]. unfold read_submission in Er. cbv zeta in Er.
    repeat (destruct_match_in Er; try done); by injection Er as <-.
Qed.

(** *** The first submission of a miner in a round *)

Lemma decode_empty : exists e, DecodeGeneratorSignature (bytes "") = Err e.
Proof. eexists. by vm_compute. Qed.

Lemma switch_to_nothing bt h w :
  Block.Height (CurrentBlock (Cache w)) = h -> MaybeSwitchOrNewBlock bt "" h w = (Some tt, w).
Proof.
  intros Eh. unfold MaybeSwitchOrNewBlock, SwitchOrNewBlock. rewrite get_bind. cbv zeta. rewrite Eh, Z.eqb_refl. simpl.
  case_bool_decide; [done|]. simpl. unfold switchBlock. destruct decode_empty as [e E]. rewrite E. done.
Qed.

(** C29: the first valid submission of a known miner in a round succeeds, if
    no statement fails: the miner is told its deadline, the database has the
    submission, the miner keeps it as its current one, and [forge] gets it. *)
Theorem first_submission_of_round (req : request) (w : World) (a : nat) (m : Miner) (n id d : Z) (d' : DB) :
  let ri := GetRoundInfo (Cache w) in
  let h := RoundInfo.Height ri in
  read_submission ri req = Ok (n, id) -> id ∉ AccountIDBlacklist Cfg ->
  rewardRecipient (Cache w) !! id = Some true ->
  GetMiner id (Cache w) = Some a -> objects w !! a = Some m -> ID m = id ->
  CurrentBlockHeight m < h -> DeadlinesParams m !! h = None ->
  Block.Height (CurrentBlock (Cache w)) = h -> WasSlowBlock h (Cache w) = (false, false) ->
  RoundInfo.GenSig ri <> [] ->
  d = CalcDeadline id n (RoundInfo.BaseTarget ri) (RoundInfo.Scoop ri) (RoundInfo.GenSig ri) ->
  (DeadlineLimit Cfg = 0 \/ d <= DeadlineLimit Cfg) ->
  db_fault (tick w) = false -> insert_ns id h d n (db w) = Ok d' ->
  exists w' m', processSubmitNonceRequest CalcDeadline req w
                = (Some (deadline_response d, Some (submission_of m ri id n d)), w') /\
    db w' = d' /\ objects w' !! a = Some m' /\ CurrentBlockHeight m' = h /\ CurrentDeadline m' = d.
Proof.
  cbv zeta. set (ri := GetRoundInfo (Cache w)). set (h := RoundInfo.Height ri).
  intros Hread Hb Hr Hm Ha Hid Hcur Hn Hblock Hslow Hsig -> Hlimit Hf Hins. set (d := CalcDeadline _ _ _ _ _) in *.
  unfold processSubmitNonceRequest. rewrite get_bind. cbv zeta. fold ri. rewrite Hread.
  rewrite bool_decide_eq_false_2 by done. rewrite get_bind. unfold IsRewardRecipient. rewrite Hr. cbn [negb fst].
  assert (Efirst : FirstOrCreateMiner id w = (Some (Some a), w)).
  { unfold FirstOrCreateMiner. rewrite get_bind. by rewrite Hm. }
  rewrite (bind_run _ _ _ _ _ Efirst). rewrite (bind_run _ _ _ _ _ (update_miner_run a _ w m Ha)).
  set (m1 := set_userAgent_of req m). set (w1 := set_objects _ w).
  assert (Ha1 : objects w1 !! a = Some m1) by (apply list_lookup_insert_eq; by eapply lookup_lt_Some).
  assert (El : negb (DeadlineLimit Cfg =? 0) && (DeadlineLimit Cfg <? d) = false).
  { destruct Hlimit as [->|Hd]; [done|]. destruct (Z.ltb_spec (DeadlineLimit Cfg) d); [lia|]. apply andb_false_r. }
  assert (En : of_option (NewCalcDeadlineRequest id n (RoundInfo.BaseTarget ri) (RoundInfo.Scoop ri) (RoundInfo.GenSig ri)) w1 =
               (Some (Native.mk id n (RoundInfo.BaseTarget ri) (RoundInfo.Scoop ri) (RoundInfo.GenSig ri)), w1)).
  { unfold NewCalcDeadlineRequest. by destruct (RoundInfo.GenSig ri). }
  rewrite (bind_run _ _ _ _ _ En).
  cbn [Native.account_id Native.nonce Native.base_target Native.scoop_nr Native.gen_sig]. fold d. rewrite El.
  assert (HE : Exec (insert_ns id h d n) w1 = (Some (Ok tt), set_db d' (set_tick (S (tick w1)) w1))).
  { unfold Exec, step, get, modify, mret, M_ret, mbind, M_bind. change (tick w1) with (tick w). rewrite Hf.
    change (db (set_tick _ w1)) with (db w). by rewrite Hins. }
  assert (Eup : UpdateOrCreateNonceSubmission a h d n (RoundInfo.BaseTarget ri) "" w1 =
    (Some (Ok tt), let w2 := set_db d' (set_tick (S (tick w1)) w1) in
                   set_objects (<[a := insert_deadline h d (RoundInfo.BaseTarget ri) m1]> (objects w2)) w2)).
  { unfold UpdateOrCreateNonceSubmission. rewrite (bind_run _ _ _ _ _ (miner_at_run a w1 m1 Ha1)).
    change (CurrentBlockHeight m1) with (CurrentBlockHeight m).
    destruct (Z.eqb_spec (CurrentBlockHeight m) h); [lia|]. rewrite get_bind.
    change (Cache w1) with (Cache w). rewrite Hslow. cbn [andb].
    change (DeadlinesParams m1) with (DeadlinesParams m). rewrite Hn.
    rewrite (bind_run _ _ _ _ _ (switch_to_nothing _ h w1 Hblock)). change (ID m1) with (ID m). rewrite Hid.
    rewrite (bind_run _ _ _ _ _ HE). set (w2 := set_db d' _). by rewrite (bind_run _ _ _ _ _ (update_miner_run a _ w2 m1 Ha1)). }
  fold h. rewrite (bind_run _ _ _ _ _ Eup). cbv zeta. set (w3 := set_objects _ (set_db _ _)).
  set (m2 := insert_deadline h d (RoundInfo.BaseTarget ri) m1).
  assert (Ha3 : objects w3 !! a = Some m2) by (simpl; apply list_lookup_insert_eq; by eapply lookup_lt_Some).
  rewrite (bind_run _ _ _ _ _ (miner_at_run a w3 m2 Ha3)).
  exists w3, m2. split; [|split_and!; [done|done|..]]; unfold m2, insert_deadline; cbn [alloc];
    change (CurrentBlockHeight m1) with (CurrentBlockHeight m); destruct (Z.ltb_spec (CurrentBlockHeight m) h); try lia.
  - done.
  - unfold CurrentBlockHeight, deref. simpl. by rewrite list_lookup_middle.
  - unfold CurrentDeadline, deref. simpl. by rewrite list_lookup_middle.
Qed.

(** ** The best submission of a round *)

Definition submissions (events : list forge_event) : list NonceSubmission.t :=
  omap (fun e => match e with Submitted ns => Some ns | TimerFired => None end) events.

Lemma forge_submission_best f ns w f' w' :
  forge_submission f ns w = (Some f', w') ->
  (improves ns (best f) = true /\ best f' = ns /\ bestNonceSubmission (Cache w') = ns) \/
  (improves ns (best f) = false /\ f' = f /\ w' = w).
Proof.
  unfold forge_submission. destruct (improves ns (best f)); [|by intros [= <- <-]; right].
  intros E. left. apply bind_inv in E as ([] & w1 & _ & E). apply bind_inv in E as ([] & w2 & E2 & E).
  apply bind_inv in E as (t & w3 & E3 & E). injection E as <- <-. split_and!; [done|done|].
  injection E2 as <-. unfold updateSubmitTimer in E3. by injection E3 as _ <-.
Qed.

Lemma try_submit_cache k ns w b w' : try_submit k ns w = (Some b, w') -> Cache w' = Cache w.
Proof.
  revert w. induction k as [|k IH]; intros w; simpl; [by intros [= _ <-]|].
  intros E. apply bind_inv in E as ([u|e] & w1 & E1 & E); injection E1 as _ <-; [by injection E as _ <-|].
  by apply IH in E.
Qed.

Lemma forge_loop_app events1 events2 f w :
  forge_loop f (events1 ++ events2) w = (f' ← forge_loop f events1; forge_loop f' events2) w.
Proof.
  revert f w. induction events1 as [|[ns|] events IH]; intros f w; [done|..]; simpl.
  - unfold mbind, M_bind in *. destruct (forge_submission f ns w) as [[f1|] w1]; [apply IH|done].
  - destruct (after f); [|apply IH]. unfold mbind, M_bind in *. destruct (forge_timer f w) as [[f1|] w1]; [apply IH|done].
Qed.

Section Round.
Context (h : Z) (sig : string).

(** Submissions of the round: of the block of height [h] with signature [sig];
    and of rounds that it has replaced. *)
Definition of_round (ns : NonceSubmission.t) : Prop :=
  NonceSubmission.Height ns = h /\ NonceSubmission.GenerationSignature ns = sig.
Definition replaced (ns : NonceSubmission.t) : Prop :=
  NonceSubmission.Height ns <= h /\ NonceSubmission.GenerationSignature ns <> sig.
Definition late (ns : NonceSubmission.t) : Prop := replaced ns /\ NonceSubmission.Height ns < h.

(** [forge] keeps the best of the submissions of the round that it has [seen]. *)
Definition holds_best (seen : list NonceSubmission.t) (f : forger) (w : World) : Prop :=
  if decide (seen = []) then replaced (best f)
  else of_round (best f) /\ best f ∈ seen /\
       (forall ns, ns ∈ seen -> NonceSubmission.Deadline (best f) <= NonceSubmission.Deadline ns) /\
       bestNonceSubmission (Cache w) = best f.

Lemma holds_replaced f ns w f' w' :
  holds_best [] f w -> replaced ns -> forge_submission f ns w = (Some f', w') -> holds_best [] f' w'.
Proof.
  unfold holds_best. rewrite !decide_True by done. intros Hf Hns E.
  by destruct (forge_submission_best f ns w f' w' E) as [(_ & -> & _)|(_ & -> & ->)].
Qed.

Lemma holds_late seen f ns w f' w' :
  holds_best seen f w -> late ns -> forge_submission f ns w = (Some f', w') -> holds_best seen f' w'.
Proof.
  intros Hk [Hns Hlt] E. destruct seen as [|x seen]; [by eapply holds_replaced|].
  destruct (forge_submission_best f ns w f' w' E) as [(Hi & _)|(_ & -> & ->)]; [|done].
  unfold holds_best in Hk. rewrite decide_False in Hk by done. destruct Hk as [[Hh _] _]. unfold improves in Hi.
  by destruct (Z.ltb_spec (NonceSubmission.Height ns) (NonceSubmission.Height (best f))); [|lia].
Qed.

Lemma holds_round seen f ns w f' w' :
  holds_best seen f w -> of_round ns -> forge_submission f ns w = (Some f', w') -> holds_best (seen ++ [ns]) f' w'.
Proof.
  intros Hk [Hh Hs] E. unfold holds_best. rewrite decide_False by by destruct seen.
  pose proof (forge_submission_best f ns w f' w' E) as Hb. unfold improves in Hb. unfold holds_best in Hk. case_decide as Hseen.
  - subst seen. destruct Hk as [Hbh Hbs]. destruct (Z.ltb_spec (NonceSubmission.Height ns) (NonceSubmission.Height (best f))); [lia|].
    rewrite (bool_decide_eq_false_2 (_ = _)) in Hb by congruence. simpl in Hb. destruct Hb as [(_ & -> & ->)|(? & _)]; [|done].
    split_and!; [by split|left| |done]. by intros x ->%list_elem_of_singleton.
  - destruct Hk as ((Hbh & Hbs) & Hin & Hmin & Hc).
    destruct (Z.ltb_spec (NonceSubmission.Height ns) (NonceSubmission.Height (best f))); [lia|].
    rewrite bool_decide_eq_true_2 in Hb by congruence. simpl in Hb.
    destruct (Z.leb_spec (NonceSubmission.Deadline (best f)) (NonceSubmission.Deadline ns)) as [Hd|Hd]; simpl in Hb;
      destruct Hb as [(? & Eb & Ec)|(? & -> & ->)]; try done.
    + split_and!; [by split|apply elem_of_app; by left| |done]. intros x [Hx| ->%list_elem_of_singleton]%elem_of_app; [by apply Hmin|done].
    + rewrite Eb. split_and!; [by split|apply elem_of_app; right; left| |done].
      intros x [Hx%Hmin| ->%list_elem_of_singleton]%elem_of_app; lia.
Qed.

Lemma holds_timer seen f w f' w' : holds_best seen f w -> forge_timer f w = (Some f', w') -> holds_best seen f' w'.
Proof.
  intros Hk E. unfold forge_timer in E. apply bind_inv in E as (b & w1 & E1 & E). injection E as <- <-.
  apply try_submit_cache in E1. unfold holds_best in *. simpl. by rewrite E1.
Qed.

Lemma holds_before events f w f' w' :
  holds_best [] f w -> Forall replaced (submissions events) -> forge_loop f events w = (Some f', w') -> holds_best [] f' w'.
Proof.
  revert f w. induction events as [|[ns|] events IH]; intros f w Hk Hs; simpl; [by intros [= <- <-]|..].
  - simpl in Hs. apply Forall_cons in Hs as [Hns Hs]. intros (f1 & w1 & E1 & E)%bind_inv.
    eapply IH; [by eapply holds_replaced|done|done].
  - change (submissions (TimerFired :: events)) with (submissions events) in *.
    destruct (after f); [|by apply IH]. intros (f1 & w1 & E1 & E)%bind_inv. eapply IH; [by eapply holds_timer|done|done].
Qed.

#[export] Instance of_round_dec ns : Decision (of_round ns). Proof. unfold of_round. apply _. Defined.

Lemma holds_during events seen f w f' w' :
  holds_best seen f w -> Forall (fun ns => late ns \/ of_round ns) (submissions events) -> forge_loop f events w = (Some f', w') ->
  holds_best (seen ++ filter of_round (submissions events)) f' w'.
Proof.
  revert seen f w. induction events as [|[ns|] events IH]; intros seen f w Hk Hs; simpl; [rewrite app_nil_r; by intros [= <- <-]|..].
  - simpl in Hs. apply Forall_cons in Hs as [Hns Hs]. intros (f1 & w1 & E1 & E)%bind_inv.
    change (submissions (Submitted ns :: events)) with (ns :: submissions events). rewrite filter_cons. destruct Hns as [Hl|Hr].
    + rewrite decide_False by (intros [_ ?]; destruct Hl as [[_ ?] _]; done). eapply IH; [by eapply holds_late|done|done].
    + rewrite decide_True by done. rewrite cons_middle, app_assoc. eapply IH; [by eapply holds_round|done|done].
  - change (submissions (TimerFired :: events)) with (submissions events) in *.
    destruct (after f); [|by apply IH]. intros (f1 & w1 & E1 & E)%bind_inv. eapply IH; [by eapply holds_timer|done|done].
Qed.

End Round.

(** What [forge] starts with has no generation signature: the submission of
    the block that the database has as its best, or the worst there can be. *)
Lemma forge_start_best b f w w' :
  forge_start b w = (Some f, w') ->
  NonceSubmission.GenerationSignature (best f) = "" /\
  NonceSubmission.Height (best f) = (match Block.BestNonceSubmissionID b with Some _ => Block.Height b | None => 0 end).
Proof.
  unfold forge_start. destruct (Block.BestNonceSubmissionID b); [|intros E; apply bind_inv in E as (t & w1 & _ & E); by injection E as <- _].
  intros (r & w1 & E1 & E)%bind_inv.
  destruct r as [ns|e]; [|done]. apply bind_inv in E as ([] & w2 & E2 & E). apply bind_inv in E as (t & w3 & E3 & E).
  injection E as <- _. simpl.
  unfold GetBestNonceSubmissionOnBlock, Select, step, get, mret, M_ret, mbind, M_bind in E1. simpl in E1.
  destruct (db_fault _); [done|]. unfold best_submission_of in E1. change (db (set_tick _ w)) with (db w) in E1.
  destruct (block (db w) !! Block.Height b) as [br|]; simpl in E1; [|done].
  destruct (b_best br) as [k|]; simpl in E1; [|done]. destruct (nonce_submission (db w) !! k) as [r|]; simpl in E1; [|done].
  destruct (miner (db w) !! ns_miner r); simpl in E1; [|done]. destruct (account (db w) !! ns_miner r); simpl in E1; [|done].
  by injection E1 as <- _.
Qed.

Lemma try_submit_returns k ns w : exists b w', try_submit k ns w = (Some b, w').
Proof.
  revert w. induction k as [|k IH]; intros w; simpl; [by do 2 eexists|]. unfold call, step, mret, M_ret, mbind, M_bind. simpl.
  destruct (SubmitNonce _ _ _ _); [by do 2 eexists|apply IH].
Qed.

Lemma forge_loop_returns events f w :
  (forall n, db_fault n = false) -> exists f' w', forge_loop f events w = (Some f', w').
Proof.
  intros Hd. revert f w. induction events as [|[ns|] events IH]; intros f w; simpl; [by do 2 eexists|..].
  - assert (Hs : exists f1 w1, forge_submission f ns w = (Some f1, w1)).
    { unfold forge_submission. destruct (improves ns (best f)); [|by do 2 eexists]. unfold UpdateBestSubmission, mbind, M_bind.
      rewrite MustExec_run. simpl. rewrite Hd. unfold update_best. by do 2 eexists. }
    destruct Hs as (f1 & w1 & E). rewrite (bind_run _ _ _ _ _ E). apply IH.
  - destruct (after f); [|apply IH]. unfold forge_timer.
    destruct (try_submit_returns nonceSubmissionRetries (best f) w) as (b & w1 & E).
    assert (Et : forge_timer f w = (Some (mk_forger (best f) None), w1)) by (unfold forge_timer; by rewrite (bind_run _ _ _ _ _ E)).
    unfold forge_timer in Et. rewrite (bind_run _ _ _ _ _ Et). apply IH.
Qed.

(** C24: from the start of the pool - with a block that has a best submission
    in the database or none - whatever the order of submissions and timers,
    once the submissions of a new round have begun to arrive, [forge] holds
    the one with the lowest deadline of those of this round that it was given,
    and the cache shows it.  Before the round come submissions of other blocks,
    of the same height too if it was replaced on a fork; during the round
    also late ones of lower blocks, which it ignores.  And while the database
    answers, [forge] goes on. *)
Theorem forge_keeps_the_best (h : Z) (sig : string) (currentBlock : Block.t) (before during : list forge_event)
    (f' : forger) (w w' : World) :
  0 <= h -> sig <> "" -> (Block.BestNonceSubmissionID currentBlock <> None -> Block.Height currentBlock <= h) ->
  Forall (replaced h sig) (submissions before) ->
  Forall (fun ns => late h sig ns \/ of_round h sig ns) (submissions during) ->
  (forge currentBlock (before ++ during) w = (Some f', w') ->
   forall ns, ns ∈ submissions during -> of_round h sig ns ->
     of_round h sig (best f') /\ best f' ∈ submissions during /\
     NonceSubmission.Deadline (best f') <= NonceSubmission.Deadline ns /\
     bestNonceSubmission (Cache w') = best f') /\
  ((forall n, db_fault n = false) -> (forge_start currentBlock w).1 <> None -> (forge currentBlock (before ++ during) w).1 <> None).
Proof.
  intros Hh Hsig Hcur Hbefore Hduring. unfold forge. split.
  - intros (f0 & w0 & E0 & E)%bind_inv ns Hns Hr. rewrite forge_loop_app in E. apply bind_inv in E as (f1 & w1 & E1 & E).
    assert (Hk : holds_best h sig [] f0 w0).
    { unfold holds_best. rewrite decide_True by done. destruct (forge_start_best _ _ _ _ E0) as [Es Eh]. unfold replaced.
      rewrite Es, Eh. split; [|done]. destruct (Block.BestNonceSubmissionID currentBlock); [by apply Hcur|done]. }
    pose proof (holds_before h sig before f0 w0 f1 w1 Hk Hbefore E1) as Hk1.
    pose proof (holds_during h sig during [] f1 w1 f' w' Hk1 Hduring E) as Hk2. simpl in Hk2.
    assert (Hin : ns ∈ filter (of_round h sig) (submissions during)) by (by apply list_elem_of_filter).
    unfold holds_best in Hk2. rewrite decide_False in Hk2 by (intros En; rewrite En in Hin; by apply not_elem_of_nil in Hin).
    destruct Hk2 as (Hof & Hbest & Hmin & Hc). apply list_elem_of_filter in Hbest as [_ Hbest]. split_and!; [done|done|by apply Hmin|done].
  - intros Hd Hs. unfold mbind, M_bind. destruct (forge_start currentBlock w) as [[f0|] w0]; [|done].
    by destruct (forge_loop_returns (before ++ during) f0 w0 Hd) as (f1 & w1 & ->).
Qed.

(** After a restart the best submission is loaded without its generation
    signature, so that any submission of the same block replaces it, however
    worse its deadline is. *)
Theorem restart_forgets_the_best (b : Block.t) (f : forger) (w w' : World) (id : Z) :
  Block.BestNonceSubmissionID b = Some id -> forge_start b w = (Some f, w') ->
  NonceSubmission.GenerationSignature (best f) = "" /\
  forall ns, NonceSubmission.Height (best f) <= NonceSubmission.Height ns ->
    NonceSubmission.GenerationSignature ns <> "" -> improves ns (best f) = true.
Proof.
  intros _ E. destruct (forge_start_best b f w w' E) as [Es _]. split; [done|]. intros x Hx Hsig. unfold improves. rewrite Es.
  destruct (Z.ltb_spec (NonceSubmission.Height x) (NonceSubmission.Height (best f))); [lia|]. by rewrite bool_decide_eq_false_2.
Qed.

(** ** Time *)

(** The timer fires half a minute before the deadline of the submission
    has passed since the round began, as long as the deadline in nanoseconds
    is a 64-bit integer; longer deadlines, which a high capacity limit lets
    through, wrap around: the nonce is then submitted at once. *)
Theorem timer_before_deadline (t deadline roundStart : Z) :
  SodiumDeadlines Cfg = false -> 0 <= roundStart <= t -> t < 2 ^ 62 ->
  (0 <= deadline <= 2 ^ 32 -> t + due t deadline roundStart = roundStart + (deadline - 30) * 10 ^ 9) /\
  (t - roundStart < 2 ^ 58 -> due t (10 ^ 10) roundStart < 0).
Proof.
  intros Hs Hr Ht. unfold due, submitBefore, second. rewrite Hs. cbn [andb].
  assert (Hsince : since t roundStart = t - roundStart) by (unfold since; lia). rewrite Hsince. split.
  - intros Hd. rewrite (i64_small deadline) by (unfold is_i64; lia).
    rewrite (i64_small (deadline * 10 ^ 9)) by (unfold is_i64; nia).
    rewrite (i64_small (deadline * 10 ^ 9 - (t - roundStart))) by (unfold is_i64; nia).
    rewrite i64_small by (unfold is_i64; nia). lia.
  - intros Hd. change (i64 (i64 (10 ^ 10) * 10 ^ 9)) with (10 ^ 19 - 2 ^ 64).
    rewrite (i64_small (10 ^ 19 - 2 ^ 64 - (t - roundStart))) by (unfold is_i64; lia).
    rewrite i64_small by (unfold is_i64; lia). lia.
Qed.

(** The answer of the wallets at a step. *)
Definition taken (ns : NonceSubmission.t) (n : nat) : bool :=
  is_ok (SubmitNonce n (NonceSubmission.Nonce ns) (NonceSubmission.MinerID ns) (NonceSubmission.Deadline ns)).

Lemma try_submit_spec k ns w :
  exists b w' j, try_submit k ns w = (Some b, w') /\ tick w' = (tick w + j)%nat /\ (j <= k)%nat /\
    (forall i, (S i < j)%nat -> taken ns (tick w + i) = false) /\
    (if b then exists i, j = S i /\ taken ns (tick w + i) = true
     else j = k /\ forall i, (i < k)%nat -> taken ns (tick w + i) = false).
Proof.
  revert w. induction k as [|k IH]; intros w; simpl.
  - exists false, w, 0%nat. split_and!; [done|lia|lia|intros; lia|done|intros; lia].
  - unfold call, step, mbind at 1, M_bind at 1. simpl.
    destruct (SubmitNonce (tick w) _ _ _) as [u|e] eqn:E.
    + exists true, (set_tick (S (tick w)) w), 1%nat. split_and!; [done|simpl; lia|lia|intros; lia|].
      exists 0%nat. unfold taken. by rewrite Nat.add_0_r, E.
    + destruct (IH (set_tick (S (tick w)) w)) as (b & w' & j & E1 & E2 & E3 & E4 & E5).
      exists b, w', (S j). simpl in *. split_and!; [done|lia|lia| |].
      * intros [|i] Hi; [unfold taken; by rewrite Nat.add_0_r, E|]. rewrite <- plus_n_Sm. apply E4. lia.
      * destruct b.
        -- destruct E5 as (i & -> & Hi). exists (S i). split; [done|]. by rewrite <- plus_n_Sm.
        -- destruct E5 as [-> Hall]. split; [done|]. intros [|i] Hi; [unfold taken; by rewrite Nat.add_0_r, E|].
           rewrite <- plus_n_Sm. apply Hall. lia.
Qed.

(** C40: a nonce is submitted until a node takes it, three times at most, and
    it counts as not submitted only after three refusals. *)
Theorem submitNonce_retries (ns : NonceSubmission.t) (w : World) :
  exists b w' j, submitNonce ns w = (Some b, w') /\ tick w' = (tick w + j)%nat /\ (j <= 3)%nat /\
    (forall i, (S i < j)%nat -> taken ns (tick w + i) = false) /\
    (if b then exists i, j = S i /\ taken ns (tick w + i) = true
     else j = 3%nat /\ forall i, (i < 3)%nat -> taken ns (tick w + i) = false).
Proof. apply (try_submit_spec nonceSubmissionRetries). Qed.

(** ** Requests of nodes *)

(** When no miner can be made for the account of a node's submission,
    the pool dereferences nil; a lost connection to the database suffices. *)
Theorem node_submission_crashes (msg : node_request) (w : World) :
  GetMiner (nr_AccountID msg) (Cache w) = None ->
  (forall n, db_fault n = true) -> is_Some (RS.Encode (nr_AccountID msg)) ->
  (node_SubmitNonce msg w).1 = None.
Proof.
  intros Hm Hf [addr Ha]. unfold node_SubmitNonce. rewrite get_bind. cbv zeta.
  assert (E : exists w1, FirstOrCreateMiner (nr_AccountID msg) w = (Some None, w1)).
  { unfold FirstOrCreateMiner. rewrite get_bind, Hm. unfold getMinerFromDB, Select, step.
    unfold mbind, M_bind. rewrite Hf. unfold mret, M_ret. unfold createMiner.
    destruct (_ =? _); [by eexists|]. rewrite Ha. unfold of_option, call, step, mret, M_ret, mbind, M_bind. simpl.
    unfold and_then, Begin, Select, step, mret, M_ret, mbind, M_bind. rewrite Hf. by eexists. }
  destruct E as [w1 E]. by rewrite (bind_run _ _ _ _ _ E).
Qed.

End Pool.

(** ** Concrete runs *)

(** The round of block 1000; miner 7 has the pool as its reward recipient. *)
Definition round_block : Block.t := Block.mk 1000 70000 0 "00" [0] false None None (Some 1) (1535759900 * 10 ^ 9) 0.

Definition pool_db : DB :=
  with_block {[1000 := mk_block_row 70000 0 "00" false None None (Some 1) 1535759900 0]}
    (with_miner {[7 := None]} (with_account {[7 := mk_account "g" None 0 None None None]} empty_DB)).

Definition pool_world : World :=
  set_objects [new_miner 7 "g" "" 0 ""]
    (set_cache (StoreCurrentBlock test_cfg round_block
                  (StoreRewardRecipients {[7 := true]} (with_miners {[7 := 0%nat]} (Cache (start_world test_cfg empty_DB)))))
      (start_world test_cfg pool_db)).

Definition good_request : request := mk_request_http "submitNonce" "1000" "9" "7" "miner" "".
Definition foreign_request : request := mk_request_http "submitNonce" "" "9" "8" "miner" "".

Definition fifty (id nonce baseTarget scoop : Z) (genSig : list Z) : Z := 50.

Lemma first_submission_of_round_witness :
  exists w' m', @processSubmitNonceRequest example_env fifty good_request pool_world =
    (Some (deadline_response 50, Some (submission_of m' (GetRoundInfo (Cache pool_world)) 7 9 50)), w').
Proof.
  pose proof (@first_submission_of_round example_env fifty good_request pool_world 0%nat (new_miner 7 "g" "" 0 "") 9 7 50)
    as Hfirst. cbv zeta in Hfirst. edestruct Hfirst as (w' & m' & E & _);
    [vm_compute; reflexivity|apply (bool_decide_eq_false_1 (7 ∈ AccountIDBlacklist test_cfg)); vm_compute; reflexivity|vm_compute; reflexivity|vm_compute; reflexivity
    |vm_compute; reflexivity|reflexivity|vm_compute; reflexivity|vm_compute; reflexivity|vm_compute; reflexivity
    |vm_compute; reflexivity|vm_compute; discriminate|reflexivity|right; vm_compute; discriminate|reflexivity|vm_compute; reflexivity|].
  exists w', (new_miner 7 "g" "" 0 ""). exact E.
Defined.

Lemma forwarded_submissions_are_valid_witness :
  exists r ns w', @processSubmitNonceRequest example_env fifty good_request pool_world = (Some (r, Some ns), w') /\
    @forwarded example_env fifty good_request pool_world ns.
Proof.
  destruct (@processSubmitNonceRequest example_env fifty good_request pool_world) as [[[r [ns|]]|] w'] eqn:E;
    [|exfalso; vm_compute in E; discriminate E..].
  exists r, ns, w'. split; [reflexivity|].
  exact (proj1 (@forwarded_submissions_are_valid example_env fifty good_request pool_world w' r ns E)).
Defined.

Lemma refused_requests_change_nothing_witness :
  @processSubmitNonceRequest example_env fifty foreign_request pool_world = (Some (wrong_recipient, None), pool_world).
Proof.
  refine (proj2 (@refused_requests_change_nothing example_env fifty foreign_request pool_world) _ _).
  - apply (bool_decide_eq_false_1 (8 ∈ AccountIDBlacklist test_cfg)). vm_compute. reflexivity.
  - vm_compute. discriminate.
Defined.

(** Block 1000 with the submission of miner 7, deadline 50, as the best. *)
Definition restart_world : World :=
  set_db (with_ns {[1 := mk_ns 7 1000 50 9]} 2 pool_db) pool_world.

(** The pool starts in this round, with its best submission; then a round of
    block 1001 with a late submission for block 1000. *)
Definition submitted (height deadline : Z) : NonceSubmission.t :=
  NonceSubmission.mk 9 deadline 7 height "" "g" (1535759900 * 10 ^ 9) (pretty height).

Definition last_round : list forge_event := [Submitted (submitted 1000 55); TimerFired].
Definition this_round : list forge_event :=
  [Submitted (submitted 1001 60); Submitted (submitted 1000 10); Submitted (submitted 1001 40); TimerFired;
   Submitted (submitted 1001 50)].

Lemma forge_keeps_the_best_witness :
  exists f' w', @forge example_env round_block (last_round ++ this_round) restart_world = (Some f', w') /\
    NonceSubmission.Deadline (best f') <= 40 /\ bestNonceSubmission (Cache w') = best f'.
Proof.
  destruct (@forge example_env round_block (last_round ++ this_round) restart_world) as [[f'|] w'] eqn:E;
    [|exfalso; vm_compute in E; discriminate E].
  exists f', w'. split; [reflexivity|].
  destruct (@forge_keeps_the_best example_env 1001 (pretty 1001) round_block last_round this_round f' restart_world w') as [Hbest _].
  - lia.
  - vm_compute. discriminate.
  - intros _. vm_compute. discriminate.
  - apply Forall_cons. split; [|constructor]. split; vm_compute; discriminate.
  - repeat (apply Forall_cons; split); [right|left|right|right|constructor]; repeat split; vm_compute; congruence.
  - destruct (Hbest E (submitted 1001 40)) as (_ & _ & H1 & H2); [right; right; left|by split|by split].
Defined.

Lemma timer_before_deadline_witness :
  @due example_env (1535760000 * 10 ^ 9) 200 (1535759900 * 10 ^ 9) = 70 * 10 ^ 9 /\
  @due example_env (1535760000 * 10 ^ 9) (10 ^ 10) (1535759900 * 10 ^ 9) < 0.
Proof.
  destruct (@timer_before_deadline example_env (1535760000 * 10 ^ 9) 200 (1535759900 * 10 ^ 9)) as [H1 H2];
    [reflexivity|lia|lia|]. split; [|apply H2; lia]. specialize (H1 ltac:(lia)). lia.
Defined.

Lemma restart_forgets_the_best_witness :
  exists f w', @forge_start example_env round_block restart_world = (Some f, w') /\
    NonceSubmission.Deadline (best f) = 50 /\ improves (submitted 1000 60) (best f) = true.
Proof.
  destruct (@forge_start example_env round_block restart_world) as [[f|] w'] eqn:E;
    [|exfalso; vm_compute in E; discriminate E].
  exists f, w'. split; [reflexivity|].
  destruct (@restart_forgets_the_best example_env round_block f restart_world w' 1 eq_refl E) as [_ H].
  assert (Hb : NonceSubmission.Deadline (best f) = 50 /\ NonceSubmission.Height (best f) = 1000).
  { vm_compute in E. injection E as <- _. split; reflexivity. }
  split; [exact (proj1 Hb)|]. apply H; [rewrite (proj2 Hb); vm_compute; discriminate|vm_compute; discriminate].
Defined.

(** The database cannot be reached. *)
Definition no_database : Env := {|
  Cfg := test_cfg;
  walletHandler := silent_wallet;
  clock _ := 0;
  db_fault _ := true;
  order _ l := l;
  order_perm _ l := Permutation_refl l;
  CalcScoop h _ := h mod 4096;
  time_String _ := ""; datetime_String _ := "";
  walletDB := None
|}.

Lemma node_submission_crashes_witness :
  (@node_SubmitNonce no_database (mk_node 12 1000 50 9 70000 "00") pool_world).1 = None.
Proof.
  apply (@node_submission_crashes no_database).
  - vm_compute. reflexivity.
  - intros n. reflexivity.
  - vm_compute. eexists. reflexivity.
Defined.
