(* ===== verification/Restart.v ===== *)
(** * The state after a restart ([cacheMiners], modelx.go)

    The miners a start loads are compared with the rows of the database: what
    a miner knows afterwards is its submissions for the slow blocks of the
    window, in step with their rows.  The height taken for the current one is
    that of the last slow block, and a new block is recorded with the
    generation time of the block before it: after a fast block, a restart
    forgets the submissions of the round. *)

From Stdlib Require Import Ascii String.
From stdpp Require Import sorting.
From S2P Require Import Prelude GoStrings GoFloat RSEncoding Burstmath Config Blocks Shares Miner DB Cache.
From S2P Require Import Wallet World Payout PayoutMoney PayoutTheorems Rewards Modelx ModelxInvariant Submissions Schema Rounds PoolTheorems.
Open Scope list_scope.
Open Scope Z_scope.
Import GoInt.

(** ** Filing the rows of one miner *)

Definition params_of (sd : submissionData) : DeadlineParams :=
  mk_dp (sd_deadline sd) (sd_baseTarget sd) (sd_height sd).

(** [m0] with the parameters [l], in the order of their heights. *)
Record filed (current : Z) (m0 : Miner) (l : list DeadlineParams) (m : Miner) : Prop := {
  fi_fields : ID m = ID m0 /\ Address m = Address m0 /\ Name m = Name m0 /\ Pending m = Pending m0 /\
              PayoutDetail m = PayoutDetail m0;
  fi_objs : objs m = l;
  fi_confirmed : forall h p, DeadlinesParams m !! h = Some p <->
    exists dp, l !! p = Some dp /\ Miner.Height dp = h /\ h <> current;
  fi_current : forall p, CurrentDeadlineParams m = Some p -> S p = length l;
  fi_height : CurrentBlockHeight m = default 0 (Miner.Height <$> last l);
  fi_sum : WeightedDeadlineSum m =
    foldl (fun s dp => fadd s (weight_of dp)) fzero (filter (fun dp => Miner.Height dp <> current) l)
}.

Lemma filed_new current id address name pending detail :
  filed current (new_miner id address name pending detail) [] (new_miner id address name pending detail).
Proof.
  split; try done. intros h p. simpl. split; [by intros ?%lookup_empty_Some|]. by intros (dp & ? & _).
Qed.

Lemma filed_lookup {A} (l : list A) x p y :
  (l ++ [x]) !! p = Some y <-> l !! p = Some y \/ (p = length l /\ y = x).
Proof.
  rewrite lookup_app_Some. split.
  - intros [?|[? H]]; [by left|right]. apply list_lookup_singleton_Some in H as [? <-]. split; [lia|done].
  - intros [?|[-> ->]]; [by left|right]. split; [done|]. by rewrite Nat.sub_diag.
Qed.

(** A row of a greater height. *)
Lemma filed_snoc current m0 l m sd :
  filed current m0 l m -> Forall (fun dp => Miner.Height dp < sd_height sd) l -> 0 <= sd_height sd ->
  filed current m0 (l ++ [params_of sd]) (file_submission current sd m).
Proof.
  intros [(F1 & F2 & F3 & F4 & F5) Ho Hc Hp Hh Hs] Hl Hpos. unfold file_submission. cbn [alloc].
  set (p := length (objs m)). set (m1 := Miner.set_objs (objs m ++ [params_of sd]) m : Miner).
  assert (Hold : forall h q, DeadlinesParams m !! h = Some q -> h < sd_height sd).
  { intros h q Hq. apply Hc in Hq as (dp & Hdp & <- & _). rewrite Forall_forall in Hl.
    by eapply Hl, list_elem_of_lookup_2. }
  change (Miner.set_objs (objs m ++ [mk_dp (sd_deadline sd) (sd_baseTarget sd) (sd_height sd)]) m) with m1.
  change (length (objs m)) with p. set (m2 := if sd_height sd =? current then m1 else
    set_confirmed (<[sd_height sd := p]> (DeadlinesParams m1))
      (fadd (WeightedDeadlineSum m1) (weightDeadline (sd_deadline sd) (sd_baseTarget sd))) m1).
  assert (H2 : ID m2 = ID m /\ Address m2 = Address m /\ Name m2 = Name m /\ Pending m2 = Pending m /\
    PayoutDetail m2 = PayoutDetail m /\ objs m2 = objs m ++ [params_of sd] /\
    CurrentDeadlineParams m2 = CurrentDeadlineParams m /\
    DeadlinesParams m2 = (if sd_height sd =? current then DeadlinesParams m else <[sd_height sd := p]> (DeadlinesParams m)) /\
    WeightedDeadlineSum m2 = if sd_height sd =? current then WeightedDeadlineSum m
                             else fadd (WeightedDeadlineSum m) (weight_of (params_of sd))).
  { unfold m2. by destruct (sd_height sd =? current). }
  clearbody m2. destruct H2 as (G1 & G2 & G3 & G4 & G5 & G6 & G7 & G8 & G9).
  assert (Hcur : CurrentBlockHeight m2 = CurrentBlockHeight m).
  { unfold CurrentBlockHeight, deref. rewrite G6, G7. destruct (CurrentDeadlineParams m) as [q|] eqn:Eq; [|done]. simpl.
    rewrite Ho, lookup_app_l; [done|]. specialize (Hp q eq_refl). lia. }
  assert (Hlast : CurrentBlockHeight m <= sd_height sd /\ (CurrentBlockHeight m = sd_height sd -> sd_height sd = 0)).
  { rewrite Hh. destruct (last l) as [dp|] eqn:El; simpl; [|lia]. apply last_Some_elem_of in El.
    rewrite Forall_forall in Hl. specialize (Hl dp El). lia. }
  assert (Hconf : forall h q, DeadlinesParams m2 !! h = Some q <->
    exists dp, (l ++ [params_of sd]) !! q = Some dp /\ Miner.Height dp = h /\ h <> current).
  { intros h q. rewrite G8. setoid_rewrite filed_lookup. destruct (Z.eqb_spec (sd_height sd) current) as [E|E].
    - rewrite Hc. split; [intros (dp & ? & ? & ?); exists dp; auto|].
      intros (dp & [?|[_ ->]] & Hdp & Hne); [by exists dp|]. simpl in Hdp. congruence.
    - rewrite lookup_insert_Some. split.
      + intros [[<- <-]|[Hne Hq]]; [exists (params_of sd); split_and!; [right; by rewrite <- Ho|done|done]|].
        apply Hc in Hq as (dp & ? & ? & ?). exists dp. auto.
      + intros (dp & [Hq|[-> ->]] & <- & Hne); [right|left; split; [done|by unfold p; rewrite Ho]].
        split; [|apply Hc; by exists dp]. rewrite Forall_forall in Hl.
        assert (Miner.Height dp < sd_height sd) by (by eapply Hl, list_elem_of_lookup_2). lia. }
  assert (Hsum : WeightedDeadlineSum m2 = foldl (fun s dp => fadd s (weight_of dp)) fzero
    (filter (fun dp => Miner.Height dp <> current) (l ++ [params_of sd]))).
  { rewrite filter_app, foldl_app, <- Hs, G9. rewrite (filter_cons _ (params_of sd) []).
    change (Miner.Height (params_of sd)) with (sd_height sd).
    destruct (Z.eqb_spec (sd_height sd) current); case_decide; done. }
  destruct (Z.ltb_spec (CurrentBlockHeight m2) (sd_height sd)) as [Hlt|Hge].
  - split; simpl; rewrite ?G1, ?G2, ?G3, ?G4, ?G5, ?G6, ?Ho; try done.
    + intros q [= <-]. rewrite length_app. simpl. unfold p. rewrite Ho. lia.
    + rewrite last_snoc. unfold CurrentBlockHeight, deref. simpl. rewrite G6. unfold p. by rewrite list_lookup_middle.
  - split; rewrite ?G1, ?G2, ?G3, ?G4, ?G5, ?G6, ?Ho; try done.
    + intros q Hq. rewrite G7 in Hq. specialize (Hp q Hq). exfalso.
      destruct (last l) as [dp|] eqn:El; simpl in *.
      * assert (Miner.Height dp < sd_height sd) by (rewrite Forall_forall in Hl; by apply Hl, last_Some_elem_of). lia.
      * apply last_None in El. by rewrite El in Hp.
    + rewrite last_snoc. simpl. rewrite Hcur in *. lia.
Qed.

(** Rows of strictly growing heights, all of the same new miner. *)
Definition file_all (current : Z) (o : option Miner) (l : list submissionData) : option Miner :=
  foldl (fun o sd => Some (file_submission current sd (default (sd_miner sd) o))) o l.

Lemma file_all_filed current id address name pending detail l :
  Forall (fun sd => sd_miner sd = new_miner id address name pending detail /\ 0 <= sd_height sd) l ->
  StronglySorted Z.lt (sd_height <$> l) ->
  match file_all current None l with
  | None => l = []
  | Some m => l <> [] /\ filed current (new_miner id address name pending detail) (params_of <$> l) m
  end.
Proof.
  set (m0 := new_miner id address name pending detail).
  induction l as [|sd l IH] using rev_ind; [done|]. intros [Hl [Hsd _]%Forall_cons]%Forall_app Hs.
  rewrite fmap_app in Hs. apply StronglySorted_app in Hs as (Hlt & Hs & _).
  specialize (IH Hl Hs). unfold file_all in *. rewrite foldl_app. simpl. split; [by destruct l|].
  rewrite fmap_app. simpl. apply filed_snoc; [|apply Forall_forall|apply Hsd].
  - destruct (foldl _ None l) as [m|]; [by apply IH|]. subst l. simpl. destruct Hsd as [-> _]. apply filed_new.
  - intros dp (x & -> & Hx)%list_elem_of_fmap. simpl. apply (Hlt (sd_height x) (sd_height sd));
      [by apply list_elem_of_fmap_2|by apply list_elem_of_singleton].
Qed.

Lemma file_all_None current l : file_all current None l = None -> l = [].
Proof. destruct l as [|sd l _] using rev_ind; [done|]. unfold file_all. by rewrite foldl_app. Qed.

(** All miners at once. *)
Definition load_step (current : Z) (acc : gmap Z Miner) (sd : submissionData) : gmap Z Miner :=
  let id := ID (sd_miner sd) in
  <[id := file_submission current sd (default (sd_miner sd) (acc !! id))]> acc.

Definition load_all (current : Z) (l : list submissionData) (acc : gmap Z Miner) : gmap Z Miner :=
  foldl (load_step current) acc l.

Lemma load_all_lookup current l acc id :
  load_all current l acc !! id = file_all current (acc !! id) (filter (fun sd => ID (sd_miner sd) = id) l).
Proof.
  revert acc. induction l as [|sd l IH]; intros acc; [done|]. unfold load_all in *. simpl. rewrite IH.
  rewrite filter_cons. unfold load_step.
  destruct (decide (ID (sd_miner sd) = id)) as [<-|Hne].
  - by rewrite lookup_insert_eq.
  - by rewrite lookup_insert_ne.
Qed.

(** ** The rows of one miner *)

(** What the database has of a miner's deadlines for the blocks at [hs]. *)
Definition deadline_at (d : DB) (id h : Z) : option DeadlineParams :=
  k ← find_ns h id d;
  r ← nonce_submission d !! k;
  b ← block d !! h;
  Some (mk_dp (ns_deadline r) (b_base_target b) h).

Definition deadlines_of (d : DB) (hs : list Z) (id : Z) : list DeadlineParams := omap (deadline_at d id) hs.

Lemma find_ns_row h id d k :
  find_ns h id d = Some k -> exists r, nonce_submission d !! k = Some r /\ ns_miner r = id /\ ns_height r = h.
Proof.
  unfold find_ns. intros (q & E & Hq)%fmap_Some. destruct q as [i [k' r]]. simpl in *. subst k'.
  apply list_find_Some in E as (El & [E1 E2] & _). apply list_elem_of_lookup_2, elem_of_map_to_list in El. by exists r.
Qed.

Lemma find_ns_unique h id d k r :
  rows_ok d -> nonce_submission d !! k = Some r -> ns_miner r = id -> ns_height r = h -> find_ns h id d = Some k.
Proof.
  intros Hd Hk Hid Hh. destruct (find_ns h id d) as [k'|] eqn:E.
  - apply find_ns_row in E as (r' & Hk' & Hid' & Hh'). f_equal.
    apply (ro_unique d Hd k' k r' r); congruence.
  - by destruct (find_ns_None h id d k r E Hk Hid).
Qed.

Lemma omap_cons {A B} (f : A -> option B) x l :
  omap f (x :: l) = match f x with Some y => y :: omap f l | None => omap f l end.
Proof. done. Qed.

Lemma omap_none {A B} (f : A -> option B) (l : list A) : (forall j, j ∈ l -> f j = None) -> omap f l = [].
Proof.
  intros Hf. induction l as [|i l IH]; [done|]. rewrite omap_cons, Hf by apply list_elem_of_here.
  apply IH. intros j Hj. by apply Hf, list_elem_of_further.
Qed.

Lemma omap_one {A B} (f : A -> option B) (k : A) (l : list A) :
  NoDup l -> k ∈ l -> (forall j, j <> k -> f j = None) -> omap f l = option_list (f k).
Proof.
  intros Hl Hk Hf. induction Hl as [|j l Hj Hl IH]; [by apply not_elem_of_nil in Hk|]. rewrite omap_cons.
  apply elem_of_cons in Hk as [<-|Hk].
  - rewrite (omap_none f l); [by destruct (f k)|]. intros i Hi. apply Hf. by intros ->.
  - rewrite Hf by (intros ->; done). by apply IH.
Qed.

Lemma filter_omap {A B} (P : B -> Prop) `{!forall b, Decision (P b)} (f : A -> option B) (l : list A) :
  filter P (omap f l) = omap (fun a => b ← f a; if decide (P b) then Some b else None) l.
Proof.
  induction l as [|a l IH]; [done|]. rewrite !omap_cons. destruct (f a) as [b|]; simpl; [|done].
  rewrite filter_cons, IH. by case_decide.
Qed.

Section Rows.
Context `{Env}.

(** The miner a row gives before its deadlines are filed. *)
Definition loaded_miner (id : Z) (acc : account_row) : Miner :=
  new_miner id (a_address acc) (default "" (a_name acc)) (a_pending acc) (payout_detail_of acc).

(** The rows of the query that belong to a miner. *)
Lemma submission_data_of hs keys d id acc :
  integral d -> keys ≡ₚ elements (dom (nonce_submission d)) -> account d !! id = Some acc ->
  filter (fun sd => ID (sd_miner sd) = id) (submission_data hs keys d) =
  (fun dp => mk_sd (loaded_miner id acc) (Miner.Deadline dp) (Miner.Height dp) (Miner.BaseTarget dp)) <$> deadlines_of d (asc hs) id.
Proof.
  intros [Hrows Hclosed] Hkeys Hacc. unfold submission_data, deadlines_of. generalize (asc hs) as l.
  assert (Hnd : NoDup keys) by (rewrite Hkeys; apply NoDup_elements).
  induction l as [|h l IH]; [done|]. rewrite bind_cons, filter_app, IH, filter_omap, omap_cons.
  match goal with |- omap ?g keys ++ _ = _ => assert (Hone : omap g keys =
    (fun dp => mk_sd (loaded_miner id acc) (Miner.Deadline dp) (Miner.Height dp) (Miner.BaseTarget dp)) <$>
      option_list (deadline_at d id h)) end.
  { unfold deadline_at. destruct (find_ns h id d) as [k|] eqn:E.
    - destruct (find_ns_row _ _ _ _ E) as (r & Hk & Hid & Hh).
      rewrite (omap_one _ k); [|done|rewrite Hkeys; apply elem_of_elements, elem_of_dom; by eexists|].
      + simpl. rewrite Hk. simpl. rewrite Hh, Z.eqb_refl. simpl. rewrite Hid, Hacc.
        destruct (block d !! h) as [b|]; simpl; [|done]. by rewrite decide_True by done.
      + intros j Hj. destruct (nonce_submission d !! j) as [r'|] eqn:Ej; simpl; [|done].
        destruct (Z.eqb_spec (ns_height r') h) as [Hh'|]; simpl; [|done]. destruct (block d !! h); simpl; [|done].
        destruct (account d !! ns_miner r') as [acc'|]; simpl; [|done]. apply decide_False. intros Hid'.
        rewrite (find_ns_unique h id d j r' Hrows Ej Hid' Hh') in E. congruence.
    - simpl. apply omap_none. intros j _. destruct (nonce_submission d !! j) as [r'|] eqn:Ej; simpl; [|done].
      destruct (Z.eqb_spec (ns_height r') h) as [Hh'|]; simpl; [|done]. destruct (block d !! h); simpl; [|done].
      destruct (account d !! ns_miner r') as [acc'|]; simpl; [|done]. apply decide_False. intros Hid'.
      by rewrite (find_ns_unique h id d j r' Hrows Ej Hid' Hh') in E. }
  rewrite Hone. destruct (deadline_at d id h); simpl; done.
Qed.
End Rows.

Lemma deadline_at_height d id h dp : deadline_at d id h = Some dp -> Miner.Height dp = h.
Proof.
  unfold deadline_at. destruct (find_ns h id d) as [k|]; simpl; [|done]. destruct (nonce_submission d !! k); simpl; [|done].
  destruct (block d !! h); simpl; [|done]. by intros [= <-].
Qed.

Lemma deadlines_of_heights d hs id dp : dp ∈ deadlines_of d hs id -> Miner.Height dp ∈ hs.
Proof. intros (h & Hh & E)%list_elem_of_omap. by rewrite (deadline_at_height d id h dp). Qed.

Lemma asc_sorted hs : NoDup hs -> StronglySorted Z.lt (asc hs).
Proof.
  intros Hn. assert (Total Z.le) by (intros x y; lia). assert (Transitive Z.le) by (intros x y z; lia).
  assert (Hs : StronglySorted Z.le (asc hs)) by (by apply StronglySorted_merge_sort).
  assert (Hnd : NoDup (asc hs)) by (unfold asc; by rewrite merge_sort_Permutation). revert Hnd.
  induction Hs as [|h l Hs IH Hf]; [constructor|]. intros [Hh Hnd]%NoDup_cons. constructor; [by apply IH|].
  rewrite Forall_forall in *. intros x Hx. specialize (Hf x Hx). assert (x <> h) by (by intros ->). lia.
Qed.

Lemma ascending_NoDup (l : list Z) : StronglySorted Z.lt l -> NoDup l.
Proof.
  induction 1 as [|h l Hs IH Hf]; constructor; [|done]. intros Hh. rewrite Forall_forall in Hf. specialize (Hf h Hh). lia.
Qed.

Lemma deadlines_of_sorted d hs id : StronglySorted Z.lt hs -> StronglySorted Z.lt (Miner.Height <$> deadlines_of d hs id).
Proof.
  induction 1 as [|h l Hs IH Hf]; [constructor|]. unfold deadlines_of. rewrite omap_cons. fold (deadlines_of d l id).
  destruct (deadline_at d id h) as [dp|] eqn:E; [|done]. rewrite fmap_cons. constructor; [done|].
  rewrite Forall_forall in *. intros x (y & -> & Hy)%list_elem_of_fmap. apply deadlines_of_heights in Hy.
  rewrite (deadline_at_height _ _ _ _ E). by apply Hf.
Qed.

(** ** The loop of [cacheMiners] *)

(** [acc] has the miners of the cache, by id. *)
Definition loaded (acc : gmap Z Miner) (w : World) : Prop := forall id,
  match acc !! id with
  | None => miners (Cache w) !! id = None
  | Some m => ID m = id /\ exists a, miners (Cache w) !! id = Some a /\ objects w !! a = Some m
  end.

Section Loop.
Context `{Env}.

Definition same_but_miners (w w' : World) : Prop :=
  db w' = db w /\ Cache w' = with_miners (miners (Cache w')) (Cache w).

#[export] Instance same_but_miners_preorder : PreOrder same_but_miners.
Proof.
  split; [intros w; split; [done|by destruct (Cache w)]|].
  intros w1 w2 w3 [A1 A2] [B1 B2]. split; [congruence|]. rewrite B2, A2. done.
Qed.

Lemma loaded_separate acc w id1 id2 a :
  loaded acc w -> miners (Cache w) !! id1 = Some a -> miners (Cache w) !! id2 = Some a -> id1 = id2.
Proof using.
  intros Hl H1 H2. pose proof (Hl id1) as L1. pose proof (Hl id2) as L2.
  destruct (acc !! id1) as [m1|]; [|congruence]. destruct (acc !! id2) as [m2|]; [|congruence].
  destruct L1 as (<- & a1 & E1 & O1), L2 as (<- & a2 & E2 & O2). congruence.
Qed.

Lemma loaded_update acc w id a m m' :
  loaded acc w -> acc !! id = Some m -> miners (Cache w) !! id = Some a -> ID m' = id ->
  loaded (<[id := m']> acc) (set_objects (<[a := m']> (objects w)) w).
Proof using.
  intros Hl Hm Ha Hid j. pose proof (Hl id) as Li. rewrite Hm in Li. destruct Li as (_ & a' & Ha' & Ho).
  assert (a' = a) as -> by congruence. rewrite lookup_insert. case_decide as E.
  - subst j. split; [done|]. exists a. split; [done|]. simpl. apply list_lookup_insert_eq. by eapply lookup_lt_Some.
  - specialize (Hl j) as Lj. destruct (acc !! j) as [x|]; [|done]. destruct Lj as (Hx & b & Hb & Hob). split; [done|].
    exists b. split; [done|]. simpl. rewrite list_lookup_insert_ne; [done|]. intros ->. apply E.
    by eapply (loaded_separate acc w).
Qed.

Lemma loaded_insert acc w id m :
  loaded acc w -> acc !! id = None -> ID m = id ->
  loaded (<[id := m]> acc)
    (set_cache (with_miners (<[id := length (objects w)]> (miners (Cache w))) (Cache w)) (set_objects (objects w ++ [m]) w)).
Proof using.
  intros Hl Hn Hid j. rewrite lookup_insert. case_decide as E.
  - subst j. split; [done|]. exists (length (objects w)). simpl. rewrite lookup_insert_eq. split; [done|].
    by rewrite list_lookup_middle.
  - simpl. rewrite lookup_insert_ne by done. specialize (Hl j). destruct (acc !! j) as [x|]; [|done].
    destruct Hl as (Hx & b & Hb & Hob). split; [done|]. exists b. split; [done|]. by apply lookup_app_l_Some.
Qed.

Lemma cache_submission_run current sd acc w :
  loaded acc w -> exists w', cache_submission current sd w = (Some tt, w') /\
    loaded (load_step current acc sd) w' /\ same_but_miners w w'.
Proof using.
  intros Hl. unfold cache_submission, load_step. rewrite get_bind. cbv zeta. set (id := ID (sd_miner sd)).
  pose proof (Hl id) as Li. unfold GetMiner. destruct (acc !! id) as [m|] eqn:Em; cbn [default].
  - destruct Li as (Hid & a & Ha & Ho). rewrite Ha, ret_bind, (update_miner_run a _ w m Ho).
    eexists. split; [done|]. split; [|split; [done|by simpl; destruct (Cache w)]].
    apply (loaded_update acc w id a m); [done..|]. by rewrite ID_file_submission.
  - rewrite Li.
    assert (Hins : loaded (<[id := sd_miner sd]> acc)
      (set_cache (with_miners (<[id := length (objects w)]> (miners (Cache w))) (Cache w))
        (set_objects (objects w ++ [sd_miner sd]) w))) by (by apply loaded_insert).
    match type of Hins with loaded _ ?w1 => set (w1' := w1) in *;
      assert (Hc : (a ← new_object (sd_miner sd);
        with_cache (fun c => (LoadOrStoreMiner id a c).2) ;; mret a) w = (Some (length (objects w)), w1')) end.
    { unfold new_object, with_cache, modify, get, mbind, M_bind, mret, M_ret. simpl. unfold LoadOrStoreMiner. simpl. by rewrite Li. }
    rewrite (bind_run _ _ _ _ _ Hc).
    assert (Ho : objects w1' !! length (objects w) = Some (sd_miner sd)) by (simpl; by rewrite list_lookup_middle).
    rewrite (update_miner_run _ _ w1' _ Ho). eexists. split; [done|]. split; [|split; done].
    rewrite <- (insert_insert_eq acc id (file_submission current sd (sd_miner sd)) (sd_miner sd)).
    apply (loaded_update (<[id := sd_miner sd]> acc) w1' id _ (sd_miner sd));
      [done|by rewrite lookup_insert_eq|simpl; by rewrite lookup_insert_eq|by rewrite ID_file_submission].
Qed.

Lemma load_run current rows acc w :
  loaded acc w -> exists w', for_each rows (cache_submission current) w = (Some tt, w') /\
    loaded (load_all current rows acc) w' /\ same_but_miners w w'.
Proof using.
  revert acc w. induction rows as [|sd rows IH]; intros acc w Hl; [by exists w|].
  destruct (cache_submission_run current sd acc w Hl) as (w1 & E1 & L1 & S1).
  destruct (IH _ _ L1) as (w2 & E2 & L2 & S2). exists w2. split; [simpl; by rewrite (bind_run _ _ _ _ _ E1)|].
  split; [done|by etrans].
Qed.
End Loop.

(** ** [cacheMiners] *)

Section CacheMiners.
Context `{Env}.

(** What is filed from the rows of a miner is in step with them. *)
Lemma filed_in_step d current hs id acc m :
  integral d -> StronglySorted Z.lt hs -> filed current (loaded_miner id acc) (deadlines_of d hs id) m ->
  in_step (nonce_submission d) m.
Proof using.
  intros Hd Hhs [(Hid & _) Ho Hc Hp _ _]. set (l := deadlines_of d hs id) in *.
  assert (Hl : forall p q dp dq, l !! p = Some dp -> l !! q = Some dq -> Miner.Height dp = Miner.Height dq -> p = q).
  { intros p q dp dq Ep Eq Eh. pose proof (deadlines_of_sorted d hs id Hhs) as Hs. apply ascending_NoDup in Hs. fold l in Hs.
    eapply NoDup_lookup; [exact Hs| |]; rewrite list_lookup_fmap; [by rewrite Ep|by rewrite Eq, Eh]. }
  split.
  - split.
    + intros h p Hq. apply Hc in Hq as (dp & Hdp & Hh & _). exists dp. by rewrite Ho.
    + intros p Hq. specialize (Hp p Hq). rewrite Ho. apply lookup_lt_is_Some. lia.
  - intros p dp q Hq Hdp Hconf. rewrite Ho in Hdp. apply Hc in Hconf as (dq & Hdq & Hh & _). by eapply Hl.
  - intros p dp k r Hpt Hdp Hk Hm Hh. rewrite Ho in Hdp. apply list_elem_of_lookup_2, list_elem_of_omap in Hdp as (h & _ & E).
    pose proof (deadline_at_height _ _ _ _ E) as Hht. unfold deadline_at in E.
    simpl in Hid. rewrite (find_ns_unique h id d k r) in E; [|apply Hd|done|congruence|congruence].
    simpl in E. rewrite Hk in E. simpl in E. destruct (block d !! h); [|done]. by injection E as <-.
Qed.

Lemma Select_only {A} (q : DB -> A) w : exists r w', Select q w = (Some r, w') /\ only_ticks w w' /\
  match r with Ok a => a = q (db w) | Err _ => True end.
Proof using. unfold Select, step, get, mret, M_ret, mbind, M_bind. simpl. destruct (db_fault _); do 2 eexists; (split; [done|]); by split. Qed.

(** What the start adds to the caches of heights leaves the rest alone. *)
Lemma add_blocks_run l t w : exists w',
  for_each l (fun h => with_cache (fun c => (AddBlock Cfg h t c).2)) w = (Some tt, w') /\
  db w' = db w /\ objects w' = objects w /\ miners (Cache w') = miners (Cache w) /\ currentBlock (Cache w') = currentBlock (Cache w).
Proof using.
  revert w. induction l as [|h l IH]; intros w; [by exists w|]. simpl. rewrite with_cache_bind.
  destruct (IH (set_cache (AddBlock Cfg h t (Cache w)).2 w)) as (w' & E & H1 & H2 & H3 & H4). exists w'. split; [exact E|].
  rewrite H1, H2, H3, H4. simpl. destruct (AddBlock_others Cfg h t (Cache w)) as (slow & fast & ->). by destruct (Cache w).
Qed.

Lemma slow_heights_NoDup d : NoDup (slow_heights d).
Proof using.
  unfold slow_heights. eapply sublist_NoDup; [|apply sublist_take]. unfold desc. rewrite merge_sort_Permutation.
  apply NoDup_elements.
Qed.

Lemma submission_data_accounts hs keys d sd : sd ∈ submission_data hs keys d -> is_Some (account d !! ID (sd_miner sd)).
Proof using.
  unfold submission_data. rewrite list_elem_of_bind. intros (h & Hsd & _). apply list_elem_of_omap in Hsd as (k & _ & Hk).
  destruct (nonce_submission d !! k) as [r|]; [|done]. simpl in Hk. destruct (negb _); [done|].
  destruct (block d !! h); [|done]. simpl in Hk. destruct (account d !! ns_miner r) as [acc|] eqn:Ea; [|done]. simpl in Hk.
  injection Hk as <-. simpl. by rewrite Ea.
Qed.

Lemma slow_heights_block d h : h ∈ slow_heights d -> is_Some (block d !! h).
Proof using.
  unfold slow_heights, desc. intros Hh. apply elem_of_take in Hh as (i & Hi & _). apply list_elem_of_lookup_2 in Hi.
  rewrite merge_sort_Permutation in Hi. apply elem_of_elements, elem_of_dom in Hi as [b Hb].
  apply map_lookup_filter_Some in Hb as [Hb _]. by eexists.
Qed.

Lemma filed_deadlines current id acc l m :
  (forall dp, dp ∈ l -> 0 <= Miner.Height dp) -> StronglySorted Z.lt (Miner.Height <$> l) ->
  file_all current None
    ((fun dp => mk_sd (loaded_miner id acc) (Miner.Deadline dp) (Miner.Height dp) (Miner.BaseTarget dp)) <$> l) = Some m ->
  filed current (loaded_miner id acc) l m.
Proof using.
  intros Hpos Hs Eo. set (sds := _ <$> l) in Eo.
  assert (Hp : params_of <$> sds = l).
  { unfold sds. rewrite <- list_fmap_compose. rewrite <- (list_fmap_id l) at 2. apply list_fmap_ext. by intros _ [] _. }
  pose proof (file_all_filed current id (a_address acc) (default EmptyString (a_name acc)) (a_pending acc) (payout_detail_of acc) sds) as Hf.
  rewrite Eo, Hp in Hf. apply Hf.
  - unfold sds. apply Forall_fmap, Forall_forall. intros dp Hdp. split; [done|]. by apply Hpos.
  - unfold sds. by rewrite <- list_fmap_compose.
Qed.

Definition restored (w w' : World) : Prop :=
  forall id, let l := deadlines_of (db w) (asc (slow_heights (db w))) id in
    match miners (Cache w') !! id with
    | None => l = []
    | Some a => exists m acc, objects w' !! a = Some m /\ account (db w) !! id = Some acc /\ l <> [] /\
        filed (hd 0 (slow_heights (db w))) (loaded_miner id acc) l m
    end.

Lemma cacheMiners_restores w w' :
  integral (db w) -> (forall h, is_Some (block (db w) !! h) -> 0 <= h) -> miners (Cache w) = ∅ ->
  cacheMiners w = (Some tt, w') ->
  db w' = db w /\ currentBlock (Cache w') = currentBlock (Cache w) /\ restored w w'.
Proof using.
  intros Hd Hpos Hm E. unfold cacheMiners in E.
  destruct (Select_only slow_heights w) as (r & w1 & E1 & T1 & Q1). rewrite (bind_run _ _ _ _ _ E1) in E.
  destruct r as [hs|e]; [|done]. subst hs. pose proof (slow_heights_NoDup (db w)) as Hnd. unfold restored.
  destruct (slow_heights (db w)) as [|current closed] eqn:Eh.
  { injection E as <-. destruct T1 as (-> & -> & _ & _). split_and!; [done..|]. intros id. by rewrite Hm, lookup_empty. }
  destruct (Select_only fast_heights w1) as (fast & w2 & E2 & T2 & _). rewrite (bind_run _ _ _ _ _ E2) in E.
  destruct (add_blocks_run closed (i32 (TMin Cfg + 1)) w2) as (w3 & E3 & D3 & O3 & M3 & B3). rewrite (bind_run _ _ _ _ _ E3) in E.
  destruct (add_blocks_run (match fast with Ok hs => hs | Err _ => [] end) 0 w3) as (w4 & E4 & D4 & O4 & M4 & B4).
  rewrite (bind_run _ _ _ _ _ E4) in E. rewrite get_bind, range_keys_bind in E.
  set (keys := order (tick w4) (elements (dom (nonce_submission (db w4))))) in *.
  set (w5 := set_tick (S (tick w4)) w4) in *.
  destruct (Select_only (submission_data (current :: closed) keys) w5) as (sds & w6 & E6 & T6 & Q6).
  rewrite (bind_run _ _ _ _ _ E6) in E. destruct sds as [rows|e]; [|done].
  destruct T1 as (A1 & A2 & A3 & _), T2 as (A4 & A5 & A6 & _), T6 as (A7 & A8 & A9 & _).
  assert (Edb : db w6 = db w) by (rewrite A7; unfold w5; simpl; congruence).
  assert (Ekeys : db w4 = db w) by congruence.
  assert (Em : miners (Cache w6) = ∅) by (rewrite A8; unfold w5; simpl; congruence).
  destruct (load_run current rows ∅ w6) as (w7 & E7 & L7 & D7 & C7).
  { intros id. by rewrite lookup_empty, Em, lookup_empty. }
  rewrite E7 in E. injection E as <-. split; [congruence|]. split.
  { rewrite C7, A8. unfold w5. simpl. unfold w5 in *. simpl in *. congruence. }
  intros id. cbv zeta. change (db w5) with (db w4) in Q6. rewrite Ekeys in Q6.
  specialize (L7 id). rewrite load_all_lookup, lookup_empty in L7.
  destruct (account (db w) !! id) as [acc|] eqn:Eacc.
  - rewrite Q6, (submission_data_of _ _ _ id acc) in L7; [|done|unfold keys; rewrite Ekeys; apply order_perm|done].
    set (l := deadlines_of (db w) (asc (current :: closed)) id) in *.
    match type of L7 with match ?o with _ => _ end => destruct o as [m|] eqn:Eo end.
    + destruct L7 as (Hid & a & Ha & Ho). rewrite Ha. exists m, acc. split_and!; [done|done|..].
      * intros El. by rewrite El in Eo.
      * apply filed_deadlines; [|..|exact Eo].
        -- intros dp Hdp. apply deadlines_of_heights in Hdp. unfold asc in Hdp. rewrite merge_sort_Permutation in Hdp.
           apply Hpos. rewrite <- Eh in Hdp. by apply slow_heights_block.
        -- apply deadlines_of_sorted, asc_sorted, Hnd.
    + rewrite L7. by apply file_all_None, fmap_nil_inv in Eo.
  - assert (Hnil : filter (fun sd => ID (sd_miner sd) = id) rows = []).
    { apply elem_of_nil_inv. intros sd [Hsd Hin]%list_elem_of_filter. rewrite Q6 in Hin.
      apply submission_data_accounts in Hin. rewrite Hsd, Eacc in Hin. by destruct Hin. }
    rewrite Hnil in L7. simpl in L7. rewrite L7. unfold deadlines_of. apply omap_none. intros h _.
    unfold deadline_at. destruct (find_ns h id (db w)) as [k|] eqn:Ek; [|done].
    destruct (find_ns_row _ _ _ _ Ek) as (r & Hk & Hr & _). destruct Hd as [_ Hcl].
    apply (c_ns _ Hcl) in Hk. apply andb_true_iff in Hk as [Hk _]. apply fk_Some in Hk. rewrite Hr, Eacc in Hk. by destruct Hk.
Qed.

(** ** Theorems *)

(** C15: after a start every miner the cache has is as if its submissions for
    the slow blocks of the window had been filed in the order of their heights
    - objects, confirmed deadlines, current one, their sum, and the fields of
    its account -, it is in step with the database, and a miner that is not in
    the cache has no such submission. *)
Theorem restart_restores_the_miners (w w' : World) :
  integral (db w) -> (forall h, is_Some (block (db w) !! h) -> 0 <= h) -> miners (Cache w) = ∅ ->
  cacheMiners w = (Some tt, w') ->
  db w' = db w /\
  forall id, let l := deadlines_of (db w) (asc (slow_heights (db w))) id in
    match miners (Cache w') !! id with
    | None => l = []
    | Some a => exists m acc, objects w' !! a = Some m /\ account (db w) !! id = Some acc /\ l <> [] /\
        filed (hd 0 (slow_heights (db w))) (loaded_miner id acc) l m /\ in_step (nonce_submission (db w')) m
    end.
Proof using.
  intros Hd Hpos Hm E. destruct (cacheMiners_restores w w' Hd Hpos Hm E) as (Edb & _ & Hr). split; [done|].
  intros id. cbv zeta. specialize (Hr id). cbv zeta in Hr. destruct (miners (Cache w') !! id) as [a|]; [|done].
  destruct Hr as (m & acc & H1 & H2 & H3 & H4). exists m, acc. split_and!; [done..|]. rewrite Edb.
  eapply filed_in_step; [done|apply asc_sorted, slow_heights_NoDup|exact H4].
Qed.

Lemma last_block_max d h b k : last_block d = Some (h, b) -> is_Some (block d !! k) -> k <= h.
Proof using.
  unfold last_block, desc. intros E [x Hk]. destruct (head _) as [h'|] eqn:Eh; [|done]. simpl in E.
  destruct (block d !! h') as [b'|]; [|done]. injection E as -> ->.
  assert (Hs : StronglySorted Z.ge (merge_sort Z.ge (elements (dom (block d))))).
  { apply StronglySorted_merge_sort; [intros x1 x2 x3; lia|intros x1 x2; lia]. }
  assert (Hin : k ∈ merge_sort Z.ge (elements (dom (block d)))).
  { rewrite merge_sort_Permutation. apply elem_of_elements, elem_of_dom. by eexists. }
  destruct (merge_sort Z.ge _) as [|y l]; [done|]. injection Eh as ->. apply StronglySorted_inv in Hs as [_ Hs].
  apply elem_of_cons in Hin as [->|Hin]; [lia|]. rewrite Forall_forall in Hs. specialize (Hs k Hin). lia.
Qed.

Lemma slow_heights_slow d h b : h ∈ slow_heights d -> block d !! h = Some b -> TMin Cfg <= b_generation_time b.
Proof using.
  unfold slow_heights, desc. intros Hh Hb. apply elem_of_take in Hh as (i & Hi & _). apply list_elem_of_lookup_2 in Hi.
  rewrite merge_sort_Permutation in Hi. apply elem_of_elements, elem_of_dom in Hi as [x Hx].
  apply map_lookup_filter_Some in Hx as [Hx Ht]. simpl in Ht. by simplify_eq.
Qed.

(** A submission whose row exists, of a miner that does not know it. *)
Lemma known_submission_refused a m h d n bt w k r :
  objects w !! a = Some m -> CurrentBlockHeight m <> h -> DeadlinesParams m !! h = None ->
  Block.Height (CurrentBlock (Cache w)) = h -> rows_ok (db w) ->
  nonce_submission (db w) !! k = Some r -> ns_miner r = ID m -> ns_height r = h ->
  exists e w', UpdateOrCreateNonceSubmission a h d n bt "" w = (Some (Err e), w') /\ db w' = db w.
Proof using.
  intros Ha Hne Hn Hcur Hrows Hk Hid Hh. unfold UpdateOrCreateNonceSubmission.
  rewrite (bind_run _ _ _ _ _ (miner_at_run a w m Ha)). destruct (Z.eqb_spec (CurrentBlockHeight m) h); [done|].
  rewrite get_bind. pose proof (guard_never_fires h (Cache w)) as Hg.
  destruct (WasSlowBlock h (Cache w)) as [blockExists slow]. simpl in Hg. rewrite Hg, Hn.
  assert (Hb : (if blockExists then mret tt else MaybeSwitchOrNewBlock bt "" h) w = (Some tt, w)).
  { destruct blockExists; [done|]. by apply switch_to_nothing. }
  rewrite (bind_run _ _ _ _ _ Hb).
  assert (HE : exists e w', Exec (insert_ns (ID m) h d n) w = (Some (Err e), w') /\ db w' = db w).
  { unfold Exec, step, get, modify, mret, M_ret, mbind, M_bind. simpl. destruct (db_fault _); [by do 2 eexists|]. simpl.
    unfold insert_ns. rewrite bool_decide_eq_true_2 by (rewrite (find_ns_unique h (ID m) (db w) k r Hrows Hk Hid Hh); by eexists).
    by do 2 eexists. }
  destruct HE as (e & w' & HE & Ed). rewrite (bind_run _ _ _ _ _ HE). by exists e, w'.
Qed.

(** The row of the current block has the generation time of the block
    before it.  If that one was fast, a restart takes the last slow block for
    the current one: no cached miner knows its submission of the round, and
    when it sends another, better or not, the row that is there already makes
    the insertion fail - until the next block. *)
Theorem restart_forgets_the_round (w w' : World) (h : Z) (b : block_row) :
  integral (db w) -> (forall k, is_Some (block (db w) !! k) -> 0 <= k) -> miners (Cache w) = ∅ ->
  cacheMiners w = (Some tt, w') ->
  last_block (db w) = Some (h, b) -> b_generation_time b < TMin Cfg -> 0 < h ->
  Block.Height (CurrentBlock (Cache w)) = h ->
  forall id a, miners (Cache w') !! id = Some a -> exists m, objects w' !! a = Some m /\
    CurrentBlockHeight m < h /\ DeadlinesParams m !! h = None /\
    forall k r d n bt, nonce_submission (db w) !! k = Some r -> ns_miner r = id -> ns_height r = h ->
      exists e w'', UpdateOrCreateNonceSubmission a h d n bt "" w' = (Some (Err e), w'') /\ db w'' = db w.
Proof using.
  intros Hd Hpos Hm E Hlast Hfast Hh0 Hcur id a Ha.
  destruct (cacheMiners_restores w w' Hd Hpos Hm E) as (Edb & Eblk & Hr). specialize (Hr id). cbv zeta in Hr. rewrite Ha in Hr.
  destruct Hr as (m & acc & Ho & Hacc & Hl & Hf). set (l := deadlines_of _ _ id) in *.
  assert (Hlow : forall dp, dp ∈ l -> Miner.Height dp < h).
  { intros dp Hdp. apply deadlines_of_heights in Hdp. unfold asc in Hdp. rewrite merge_sort_Permutation in Hdp.
    destruct (slow_heights_block _ _ Hdp) as [x Hx]. pose proof (last_block_max _ _ _ _ Hlast (ex_intro _ x Hx)).
    assert (Miner.Height dp <> h); [|lia]. intros Eq. rewrite Eq in Hdp, Hx. apply (slow_heights_slow _ _ x) in Hdp; [|done].
    revert Hlast. unfold last_block. destruct (head _) as [h'|]; [|done]. simpl. destruct (block (db w) !! h') eqn:Eb; [|done].
    simpl. intros [= -> ->]. assert (x = b) as -> by congruence. lia. }
  assert (Hc : CurrentBlockHeight m < h).
  { rewrite (fi_height _ _ _ _ Hf). destruct (last l) as [dp|] eqn:El; simpl; [|lia]. by apply Hlow, last_Some_elem_of. }
  assert (Hn : DeadlinesParams m !! h = None).
  { destruct (DeadlinesParams m !! h) as [p|] eqn:Ep; [|done]. apply (fi_confirmed _ _ _ _ Hf) in Ep as (dp & Hdp & Hx & _).
    apply list_elem_of_lookup_2, Hlow in Hdp. lia. }
  exists m. split_and!; [done..|]. intros k r d n bt Hk Hid Hh.
  rewrite <- Edb in Hk |- *. apply (known_submission_refused a m h d n bt w' k r); try done.
  - lia.
  - unfold CurrentBlock in *. by rewrite Eblk.
  - rewrite Edb. apply Hd.
  - destruct (fi_fields _ _ _ _ Hf) as [-> _]. done.
Qed.
End CacheMiners.

(** ** A restart after a fast block

    Block 499999 took five minutes, block 500000 ten seconds, and the row of
    block 500001 has those ten seconds.  Miner 1 has submissions for the first
    and the last. *)

Definition block_with (t : Z) : block_row := mk_block_row 70000 0 signature_a false None None None 0 t.

Definition restart_statements : list (DB -> result sql_error DB) :=
  [insert_account 1 "a" None; insert_miner 1; insert_block 499999 (block_with 300); insert_block 500000 (block_with 10);
   insert_block 500001 (block_with 10); insert_ns 1 499999 40 7; insert_ns 1 500001 60 8].

Definition restart_world : option World :=
  match run_statements restart_statements empty_DB with
  | Some d => Some (mk_World d (StoreCurrentBlock test_cfg (block_of_row 500001 (block_with 10) [])
                      (Cache (start_world test_cfg empty_DB))) [] 0 [])
  | None => None
  end.

Lemma restart_world_ok w :
  restart_world = Some w ->
  integral (db w) /\ (forall h, is_Some (block (db w) !! h) -> 0 <= h) /\ miners (Cache w) = ∅.
Proof.
  unfold restart_world. intros Hw. split.
  - destruct (run_statements restart_statements empty_DB) as [d|] eqn:E; [|discriminate]. injection Hw as <-. simpl.
    apply (integral_run restart_statements empty_DB d); [|exact integral_empty|exact E].
    unfold restart_statements. repeat (apply Forall_cons_2; [by first [apply schema_insert_account|apply schema_insert_miner
      |apply schema_insert_block|apply schema_insert_ns]|]). apply Forall_nil_2.
  - assert (Hx : match run_statements restart_statements empty_DB with
                 | Some d => bool_decide (map_Forall (fun (h : Z) (_ : block_row) => 0 <= h) (block d)) = true
                 | None => True end) by (vm_compute; reflexivity).
    destruct (run_statements restart_statements empty_DB) as [d|]; [|discriminate]. injection Hw as <-. simpl.
    apply bool_decide_eq_true in Hx. split; [intros h [b Hb]; exact (Hx h b Hb)|reflexivity].
Qed.

(** The run of [cacheMiners], and the miner it loads. *)
Lemma restart_run_checked :
  match restart_world with
  | Some w =>
      match @cacheMiners timed_env w with
      | (Some _, w') =>
          match miners (Cache w') !! 1 with
          | Some a =>
              match objects w' !! a with
              | Some m => CurrentBlockHeight m = 499999 /\ CurrentDeadline m = 40 /\
                          (fun p => p.1) <$> last_block (db w) = Some 500001
              | None => False end
          | None => False end
      | _ => False end
  | None => False end.
Proof. vm_compute. split_and!; reflexivity. Qed.

Lemma restart_restores_the_miners_witness :
  exists w w' a m, @cacheMiners timed_env w = (Some tt, w') /\ miners (Cache w') !! 1 = Some a /\
    objects w' !! a = Some m /\ CurrentDeadline m = 40 /\ in_step (nonce_submission (db w')) m.
Proof.
  pose proof restart_run_checked as Hx. destruct restart_world as [w|] eqn:Ew; [|destruct Hx].
  destruct (restart_world_ok w Ew) as (Hd & Hpos & Hm). destruct (@cacheMiners timed_env w) as [[[]|] w'] eqn:E; [|destruct Hx].
  destruct (@restart_restores_the_miners timed_env w w' Hd Hpos Hm E) as [_ Hr]. specialize (Hr 1).
  destruct (miners (Cache w') !! 1) as [a|] eqn:Ea; [|destruct Hx].
  destruct (objects w' !! a) as [m|] eqn:Eo; [|destruct Hx]. destruct Hx as (_ & H40 & _).
  destruct Hr as (m' & acc & Ho & _ & _ & _ & Hin). exists w, w', a, m.
  split; [exact E|]. split; [exact Ea|]. split; [exact Eo|]. split; [exact H40|].
  injection Ho as <-. exact Hin.
Defined.

Lemma restart_forgets_the_round_witness :
  exists w w' a m, @cacheMiners timed_env w = (Some tt, w') /\ objects w' !! a = Some m /\
    CurrentBlockHeight m < 500001 /\
    exists e w'', @UpdateOrCreateNonceSubmission timed_env a 500001 20 9 70000 "" w' = (Some (Err e), w'').
Proof.
  pose proof restart_run_checked as Hx. destruct restart_world as [w|] eqn:Ew; [|destruct Hx].
  destruct (restart_world_ok w Ew) as (Hd & Hpos & Hm). destruct (@cacheMiners timed_env w) as [[[]|] w'] eqn:E; [|destruct Hx].
  assert (Hl : match restart_world with
               | Some w => last_block (db w) = Some (500001, block_with 10) /\
                   Block.Height (CurrentBlock (Cache w)) = 500001 /\
                   nonce_submission (db w) !! 2 = Some (mk_ns 1 500001 60 8)
               | None => False end) by (vm_compute; split_and!; reflexivity).
  rewrite Ew in Hl. destruct Hl as (Hl & Hc & Hk).
  destruct (miners (Cache w') !! 1) as [a|] eqn:Ea; [|destruct Hx].
  destruct (@restart_forgets_the_round timed_env w w' 500001 (block_with 10) Hd Hpos Hm E Hl eq_refl ltac:(lia) Hc 1 a Ea)
    as (m & Ho & Hh & _ & Hs).
  destruct (Hs 2 _ 20 9 70000 Hk eq_refl eq_refl) as (e & w'' & Hu & _).
  exists w, w', a, m. split; [exact E|]. split; [exact Ho|]. split; [exact Hh|]. exists e, w''. exact Hu.
Defined.
