(* ===== verification/WebServer.v ===== *)
(** * The web server ([pkg/webserver])

    What the server shows: the table of miners, the shares of the best
    deadlines, the current block and its best submission; and how a client's
    message is read as an account.  The messages' encoding, the pages and the
    jobs are in [WebHandlers], the clients' queues in [Clients]; templates are
    not modelled. *)

From Stdlib Require Import Ascii String.
From stdpp Require Import sorting.
From S2P Require Import Prelude GoStrings GoFloat GoParse RSEncoding RSBase RSCode RSAddress Burstmath Config.
From S2P Require Import Blocks Shares Miner DB Cache Wallet World Payout PayoutTheorems Rewards Modelx.
Open Scope string_scope.
Open Scope list_scope.
Open Scope Z_scope.
Import GoInt.

(** ** Data *)

Record Share := mk_share { share_Name : string; Val : float64 }.

Module MinerInfo.
Record t := mk {
  ID : Z; Name : string; Address : string; Pending : float64; HistoricalShare : float64; NConf : Z;
  LastActiveBlockHeight : Z; Capacity : float64; Deadline : Z; UserAgent : string
}.
End MinerInfo.

(** The messages of [pkg/api]. *)
Module ApiMinerInfo.
Record t := mk {
  ID : Z; Address : string; Name : string; Pending : Z; EffectiveCapacity : float64; HistoricalShare : float64;
  Deadline : Z; LastActiveBlockHeight : Z; NConf : Z; PayoutDetail : string
}.
End ApiMinerInfo.

Module BlockInfo.
Record t := mk {
  Height : Z; BaseTarget : Z; Scoop : Z; GenerationSignature : string; MinerID : Z; Miner : string; Deadline : Z;
  Created : Z
}.
End BlockInfo.

Module PoolStatsInfo.
Record t := mk { EffectivePoolCapacity : float64; NetDiff : float64; MinerCount : Z }.
End PoolStatsInfo.

(** The fields of [WebServer] that hold what is shown; [None]: an
    [atomic.Value] nothing was stored in yet. *)
Record web := mk_web {
  blockInfo : BlockInfo.t;
  poolStatsInfo : option PoolStatsInfo.t;
  minerInfos : list MinerInfo.t;
  wonBlocks : list WonBlockInfo;
  netDiff : option float64
}.

Definition bestShares : nat := 10.
Definition netDiffBlockRange : Z := 360.

(** ** Accounts of clients *)

Section Accounts.
(** [strings.ToUpper] outside of ASCII is the library's. *)
Context (ToUpper : list Z -> list Z).

Definition upper_ascii (c : Z) : Z := if (97 <=? c) && (c <=? 122) then c - 32 else c.

Fixpoint drop_spaces (s : list Z) : list Z :=
  match s with c :: s' => if c =? 32 then drop_spaces s' else s | [] => [] end.

(** [strings.Trim(s, space)] *)
Definition Trim (s : list Z) : list Z := rev (drop_spaces (rev (drop_spaces s))).

Definition TrimPrefix (prefix s : list Z) : list Z :=
  if bool_decide (take (List.length prefix) s = prefix) then drop (List.length prefix) s else s.

Definition trimmed (msg : list Z) : list Z := TrimPrefix (bytes "BURST-") (ToUpper (Trim msg)).

Inductive subscription := Subscribe (accountID : Z) | Malformed | Ignored | Panics.

Definition addSubscription (msg : list Z) : subscription :=
  let s := trimmed msg in
  let accept accountID := if accountID =? 0 then Malformed else Subscribe accountID in
  match ParseUint s with
  | Ok accountID => accept accountID
  | Err _ =>
      match RS.Decode (of_bytes s) with
      | Return accountID => accept accountID
      | Fail_with _ => Ignored
      | Panic => Panics
      end
  end.

End Accounts.

Section WebServer.
Context `{Env}.

(** ** Miners *)

Definition alphas_of (c : cache) : list float64 := alphas c.

Definition GenMinerInfo (accountID : Z) (c : cache) (l : list Miner) : option ApiMinerInfo.t :=
  a ← GetMiner accountID c;
  m ← l !! a;
  let poolCap := GetPoolCap c in
  let cap := CalculateEEPS (alphas c) m in
  Some (ApiMinerInfo.mk accountID (Address m) (Name m) (Pending m) cap
          (if feqb poolCap fzero then fzero else fdiv cap poolCap)
          (CurrentDeadline m) (CurrentBlockHeight m) (i32 (NConf m)) (PayoutDetail m)).

Definition miner_info (al : list float64) (id : Z) (m : Miner) : MinerInfo.t :=
  MinerInfo.mk id (Name m) (Address m) (PlanckToBurst (Pending m)) fzero (NConf m) (CurrentBlockHeight m)
    (fmul (CalculateEEPS al m) (of_Z 1000)) (CurrentDeadline m) (UserAgent m).

(** [1.0 / float64(mi.Deadline+1.0)]: the addition is one of [uint64]. *)
Definition inverse_deadline (mi : MinerInfo.t) : float64 :=
  fdiv (of_Z 1) (exactly (u64 (MinerInfo.Deadline mi + 1))).

(** The loop over the miners, with the sums. *)
Record tally := mk_tally { t_mis : list MinerInfo.t; t_poolCap : float64; t_invDeadlineSum : float64; t_minerCount : Z }.

Definition count_miner (height : Z) (acc : tally) (mi : MinerInfo.t) : tally :=
  mk_tally (t_mis acc ++ [mi]) (fadd (t_poolCap acc) (MinerInfo.Capacity mi))
    (if MinerInfo.LastActiveBlockHeight mi =? height then fadd (t_invDeadlineSum acc) (inverse_deadline mi)
     else t_invDeadlineSum acc)
    (i32 (t_minerCount acc + 1)).

Definition with_historical_share (poolCap : float64) (mi : MinerInfo.t) : MinerInfo.t :=
  MinerInfo.mk (MinerInfo.ID mi) (MinerInfo.Name mi) (MinerInfo.Address mi) (MinerInfo.Pending mi)
    (fmul (fdiv (MinerInfo.Capacity mi) poolCap) (of_Z 100)) (MinerInfo.NConf mi) (MinerInfo.LastActiveBlockHeight mi)
    (fdiv (MinerInfo.Capacity mi) (of_Z 1000)) (MinerInfo.Deadline mi) (MinerInfo.UserAgent mi).

Definition shown_name (mi : MinerInfo.t) : string :=
  if bool_decide (MinerInfo.Name mi = "") then MinerInfo.Address mi else MinerInfo.Name mi.

(** The loop over the sorted miners: the best ten of the current block. *)
Fixpoint best_shares (height : Z) (invDeadlineSum : float64) (mis : list MinerInfo.t) (shares : list Share)
    (sum : float64) : list Share * float64 :=
  match mis with
  | [] => (shares, sum)
  | mi :: mis' =>
      if (List.length shares =? bestShares)%nat then (shares, sum)
      else if negb (MinerInfo.LastActiveBlockHeight mi =? height)
      then best_shares height invDeadlineSum mis' shares sum
      else
        let shareVal := fdiv (inverse_deadline mi) invDeadlineSum in
        best_shares height invDeadlineSum mis' (shares ++ [mk_share (shown_name mi) shareVal]) (fadd sum shareVal)
  end.

Definition other_share (sum : float64) : float64 :=
  let otherShare := fsub (of_Z 1) sum in
  if fltb otherShare fzero then fzero else otherShare.

(** [sort.Slice] by deadline: some order of equal deadlines. *)
Context (sort_by_deadline : list MinerInfo.t -> list MinerInfo.t).

Definition shares_of_best (height : Z) (invDeadlineSum : float64) (mis : list MinerInfo.t) : list Share :=
  let '(shares, sum) := best_shares height invDeadlineSum mis [] fzero in
  shares ++ [mk_share "other" (other_share sum)].

(** The new table, and the shares that are sent. *)
Definition updateMinerInfos (wb : web) : M (web * option (list Share)) :=
  c ← get Cache;
  let height := Block.Height (CurrentBlock c) in
  keys ← range_keys (elements (dom (miners c)));
  l ← get objects;
  let mis := omap (fun id => a ← miners c !! id; m ← l !! a; Some (miner_info (alphas c) id m)) keys in
  let t := foldl (count_miner height) (mk_tally [] fzero fzero 0) mis in
  let poolCap := t_poolCap t in
  let scaled := negb (feqb poolCap fzero) in
  let mis := if scaled then with_historical_share poolCap <$> t_mis t else t_mis t in
  let sorted := sort_by_deadline mis in
  with_cache (fun c => StoreMinerCount (t_minerCount t)
                (StorePoolCap (if scaled then fdiv poolCap (of_Z 1000) else poolCap) c)) ;;
  mret (mk_web (blockInfo wb) (poolStatsInfo wb) sorted (wonBlocks wb) (netDiff wb),
        if feqb (t_invDeadlineSum t) fzero then None
        else Some (shares_of_best height (t_invDeadlineSum t) sorted)).

(** ** Blocks *)

Definition block_info_of (b : Block.t) : BlockInfo.t :=
  BlockInfo.mk (Block.Height b) (Block.BaseTarget b) (Block.Scoop b) (Block.GenerationSignature b) 0 "" 0 (Block.Created b).

Definition set_blockInfo (b : BlockInfo.t) (wb : web) : web :=
  mk_web b (poolStatsInfo wb) (minerInfos wb) (wonBlocks wb) (netDiff wb).

(** The new state, and what the clients are sent. *)
Definition checkForBlockUpdate (c : cache) (wb : web) : web * option BlockInfo.t :=
  let newBlock := CurrentBlock c in
  if BlockInfo.Height (blockInfo wb) <? Block.Height newBlock
  then (set_blockInfo (block_info_of newBlock) wb, Some (block_info_of newBlock))
  else (wb, None).

Definition checkForNewBestSubmission (c : cache) (wb : web) : web * option BlockInfo.t :=
  let ns := BestNonceSubmission c in
  let b := blockInfo wb in
  if (BlockInfo.Height b =? NonceSubmission.Height ns) &&
     ((BlockInfo.Deadline b =? 0) || (NonceSubmission.Deadline ns <? BlockInfo.Deadline b))
  then
    let b' := BlockInfo.mk (BlockInfo.Height b) (BlockInfo.BaseTarget b) (BlockInfo.Scoop b)
                (BlockInfo.GenerationSignature b) (NonceSubmission.MinerID ns)
                (if bool_decide (NonceSubmission.Name ns = "") then NonceSubmission.Address ns else NonceSubmission.Name ns)
                (NonceSubmission.Deadline ns) (BlockInfo.Created b) in
    (set_blockInfo b' wb, Some b')
  else (wb, None).

(** ** Statistics *)

Definition updateRecentlyWonBlocks (wb : web) : M web :=
  l ← GetRecentlyWonBlocks; mret (mk_web (blockInfo wb) (poolStatsInfo wb) (minerInfos wb) l (netDiff wb)).

Definition updateNetDiff (wb : web) : M web :=
  d ← GetAVGNetDiff netDiffBlockRange;
  mret (mk_web (blockInfo wb) (poolStatsInfo wb) (minerInfos wb) (wonBlocks wb) (Some d)).

(** A value nothing was stored in is no [float64]: the assertion panics. *)
Definition updatePoolStats (wb : web) : M web :=
  d ← of_option (netDiff wb);
  c ← get Cache;
  mret (mk_web (blockInfo wb) (Some (PoolStatsInfo.mk (GetPoolCap c) d (GetMinerCount c))) (minerInfos wb) (wonBlocks wb)
          (netDiff wb)).

Definition NewWebServer (c : cache) : web := mk_web (block_info_of (CurrentBlock c)) None [] [] None.

Definition getPoolStatsInfo (wb : web) : M PoolStatsInfo.t := of_option (poolStatsInfo wb).

(** The beginning of [cacheUpdateJobs]. *)
Definition first_updates (wb : web) : M (web * option (list Share)) :=
  r ← updateMinerInfos wb;
  wb ← updateRecentlyWonBlocks r.1;
  wb ← updateNetDiff wb;
  wb ← updatePoolStats wb;
  mret (wb, r.2).

End WebServer.

(** ** Theorems: accounts of clients *)

Section AccountTheorems.
Context (ToUpper : list Z -> list Z)
        (ToUpper_ascii : forall s, Forall (fun c => 0 <= c < 128) s -> ToUpper s = upper_ascii <$> s).

Lemma drop_spaces_replicate n s : drop_spaces (replicate n 32 ++ s) = drop_spaces s.
Proof. by induction n. Qed.

Lemma drop_spaces_stop c s : c <> 32 -> drop_spaces (c :: s) = c :: s.
Proof. intros Hc. simpl. by destruct (Z.eqb_spec c 32). Qed.

(** A text that neither begins nor ends with a space. *)
Definition tight (s : list Z) : Prop := (exists c s', s = c :: s' /\ c <> 32) /\ (exists c s', s = s' ++ [c] /\ c <> 32).

Lemma Trim_spaces i j s : tight s -> Trim (replicate i 32 ++ s ++ replicate j 32) = s.
Proof.
  intros [(c & s1 & E1 & Hc) (d & s2 & E2 & Hd)]. unfold Trim. rewrite drop_spaces_replicate.
  rewrite E1. cbn [app]. rewrite drop_spaces_stop by done.
  change (c :: s1 ++ replicate j 32) with ((c :: s1) ++ replicate j 32). rewrite <- E1, E2, rev_app_distr.
  assert (rev (replicate j 32) = replicate j 32) as -> by apply rev_replicate.
  rewrite drop_spaces_replicate, rev_app_distr. cbn [rev app]. rewrite drop_spaces_stop by done.
  cbn [rev]. by rewrite rev_involutive.
Qed.

Lemma upper_space c : upper_ascii c = 32 -> c = 32.
Proof. unfold upper_ascii. destruct (97 <=? c) eqn:E1, (c <=? 122) eqn:E2; simpl; zbool; lia. Qed.

Lemma tight_upper s : tight (upper_ascii <$> s) -> tight s.
Proof.
  intros [(c & s1 & E1 & Hc) (d & s2 & E2 & Hd)]. split.
  - destruct s as [|x s]; [done|]. injection E1 as <- _. exists x, s. split; [done|]. intros ->. by apply Hc.
  - destruct s as [|x s _] using rev_ind; [by destruct s2|]. rewrite fmap_app in E2. apply app_inj_tail in E2 as [_ <-].
    exists x, s. split; [done|]. intros ->. by apply Hd.
Qed.

Lemma parse_digits_dash n s : 45 ∈ s -> forall z, parse_digits n s <> Ok z.
Proof.
  revert n. induction s as [|c s IH]; intros n Hin z; [by apply not_elem_of_nil in Hin|]. simpl.
  destruct ((48 <=? c) && (c <=? 57)) eqn:E; [|done]. zbool. apply elem_of_cons in Hin as [<-|Hin]; [lia|].
  destruct (_ <=? n); [done|]. destruct (_ <? _); [done|]. by apply IH.
Qed.

(** An address neither begins nor ends with a space, is no number, and has no
    prefix that could be taken for the one that is cut off. *)
Lemma dashed_shape l :
  List.length l = 17%nat -> Forall (fun c => c <> 32) l ->
  tight (dashed l) /\ 45 ∈ dashed l /\ take 6 (dashed l) <> bytes "BURST-" /\ tight (bytes "BURST-" ++ dashed l).
Proof.
  intros Hl Hs. list17 l. unfold dashed. cbn. rewrite !Forall_cons in Hs.
  split_and!; [split| | |split].
  - do 2 eexists. split; [reflexivity|tauto].
  - eexists. exists [g; g0; g1; g2; 45; g3; g4; g5; g6; 45; g7; g8; g9; g10; 45; g11; g12; g13; g14]. split; [reflexivity|tauto].
  - set_solver.
  - intros E. vm_compute in E. discriminate E.
  - do 2 eexists. split; [reflexivity|done].
  - eexists. eexists ([_;_;_;_;_;_] ++ [g; g0; g1; g2; 45; g3; g4; g5; g6; 45; g7; g8; g9; g10; 45; g11; g12; g13; g14]). split; [reflexivity|tauto].
Qed.

Lemma sym_byte_visible g : is_sym g -> sym_byte g <> 32.
Proof.
  intros Hg. assert (Hall := zrange_forallb 32 (fun g => negb (sym_byte g =? 32)) ltac:(vm_compute; reflexivity) g).
  unfold is_sym in Hg. specialize (Hall ltac:(lia)). cbv beta in Hall. by zbool.
Qed.

Lemma address_shape n s :
  is_u64 n -> RS.Encode n = Some s ->
  tight (bytes s) /\ 45 ∈ bytes s /\ take 6 (bytes s) <> bytes "BURST-" /\ tight (bytes "BURST-" ++ bytes s).
Proof.
  intros Hn Hs. destruct (Encode_spec n Hn) as (cw & s' & Es & Eb & Hcw & _). rewrite Hs in Es. injection Es as <-.
  rewrite Eb. apply dashed_shape; [done|]. unfold shown_bytes. rewrite Forall_fmap.
  eapply Forall_impl; [by apply shown_sym|]. intros g. apply sym_byte_visible.
Qed.

Lemma trimmed_text i j t u :
  Forall (fun c => 0 <= c < 128) t -> upper_ascii <$> t = u -> tight u ->
  trimmed ToUpper (replicate i 32 ++ t ++ replicate j 32) = TrimPrefix (bytes "BURST-") u.
Proof.
  intros Ht <- Hu. unfold trimmed. rewrite Trim_spaces by (by apply tight_upper). by rewrite ToUpper_ascii.
Qed.

Lemma not_a_number s : 45 ∈ s -> exists e, ParseUint s = Err e.
Proof.
  intros Hin. unfold ParseUint. destruct s as [|c s]; [by eexists|].
  destruct (parse_digits 0 (c :: s)) as [z|e] eqn:E; [|by eexists]. by apply parse_digits_dash in E.
Qed.

(** A client can subscribe to an account by its address, with or without
    the prefix, in any mixture of cases and with spaces around, and by its
    number; it then gets that very account. *)
Theorem addSubscription_finds_account (n : Z) (s : string) (t : list Z) (i j : nat) :
  is_u64 n -> n <> 0 -> RS.Encode n = Some s -> Forall (fun c => 0 <= c < 128) t ->
  upper_ascii <$> t = bytes s \/ upper_ascii <$> t = bytes "BURST-" ++ bytes s \/ t = FormatUint n ->
  addSubscription ToUpper (replicate i 32 ++ t ++ replicate j 32) = Subscribe n.
Proof.
  intros Hn H0 Hs Ht Hcase. apply Z.eqb_neq in H0. destruct (address_shape n s Hn Hs) as (H1 & H2 & H3 & H4).
  assert (Haddr : trimmed ToUpper (replicate i 32 ++ t ++ replicate j 32) = bytes s ->
                  addSubscription ToUpper (replicate i 32 ++ t ++ replicate j 32) = Subscribe n).
  { intros E. unfold addSubscription. rewrite E. destruct (not_a_number _ H2) as [e ->]. rewrite of_bytes_bytes.
    destruct (decode_of_encode n Hn) as (s' & Es & Ed). rewrite Hs in Es. injection Es as <-. by rewrite Ed, H0. }
  destruct Hcase as [E|[E|E]].
  - apply Haddr. rewrite (trimmed_text i j t _ Ht E H1). unfold TrimPrefix. by rewrite bool_decide_eq_false_2.
  - apply Haddr. rewrite (trimmed_text i j t _ Ht E H4). unfold TrimPrefix. by rewrite bool_decide_eq_true_2.
  - assert (Hup : upper_ascii <$> t = FormatUint n).
    { rewrite E. rewrite <- (list_fmap_id (FormatUint n)) at 2. apply list_fmap_ext. intros k c Hc.
      apply list_elem_of_lookup_2, Wallet.FormatUint_bytes in Hc. unfold upper_ascii.
      by destruct (Z.leb_spec 97 c); [lia|]. }
    assert (Hvis : forall c, c ∈ FormatUint n -> c <> 32) by (intros c Hc%Wallet.FormatUint_bytes; lia).
    destruct (Wallet.FormatUint_cons n) as (c & l & El).
    assert (Htight : tight (FormatUint n)).
    { split; [exists c, l; split; [done|apply Hvis; rewrite El; left]|].
      destruct (FormatUint n) as [|x q _] eqn:Eq using rev_ind; [done|]. exists x, q. split; [done|]. apply Hvis. set_solver. }
    unfold addSubscription. rewrite (trimmed_text i j t _ Ht Hup Htight).
    assert (TrimPrefix (bytes "BURST-") (FormatUint n) = FormatUint n) as ->.
    { unfold TrimPrefix. rewrite bool_decide_eq_false_2; [done|]. rewrite El. intros [= Ec _].
      assert (48 <= c <= 57) by (apply (Wallet.FormatUint_bytes n); rewrite El; left). vm_compute in Ec. lia. }
    by rewrite Wallet.ParseUint_FormatUint, H0.
Qed.

End AccountTheorems.

(** The library on ASCII. *)
Definition ToUpper_on_ascii (s : list Z) : list Z := upper_ascii <$> s.

Lemma addSubscription_finds_account_witness :
  addSubscription ToUpper_on_ascii (replicate 1 32 ++ bytes "burst-8KLL-pbyv-6DBC-AM942" ++ replicate 2 32)
  = Subscribe 9225891750247351890.
Proof.
  apply (addSubscription_finds_account ToUpper_on_ascii ltac:(done) 9225891750247351890 "8KLL-PBYV-6DBC-AM942").
  - vm_compute. split; [discriminate|reflexivity].
  - discriminate.
  - vm_compute. reflexivity.
  - vm_compute. repeat constructor; discriminate.
  - right. left. vm_compute. reflexivity.
Defined.

(** ** Theorems: what is shown *)

Section ShownTheorems.
Context `{Env}.
Context (sort_by_deadline : list MinerInfo.t -> list MinerInfo.t)
        (sort_perm : forall l, sort_by_deadline l ≡ₚ l)
        (sort_sorted : forall l, Sorted.Sorted (fun a b => MinerInfo.Deadline a <= MinerInfo.Deadline b) (sort_by_deadline l)).

Lemma tally_mis height mis acc : t_mis (foldl (count_miner height) acc mis) = t_mis acc ++ mis.
Proof.
  revert acc. induction mis as [|mi mis IH]; intros acc; simpl; [by rewrite app_nil_r|]. rewrite IH. simpl.
  by rewrite <- app_assoc.
Qed.

Lemma tally_count height mis acc :
  0 <= t_minerCount acc -> t_minerCount acc + Z.of_nat (List.length mis) < 2 ^ 31 ->
  t_minerCount (foldl (count_miner height) acc mis) = t_minerCount acc + Z.of_nat (List.length mis).
Proof.
  revert acc. induction mis as [|mi mis IH]; intros acc H0 H1; simpl in *; [lia|].
  assert (E : i32 (t_minerCount acc + 1) = t_minerCount acc + 1).
  { unfold i32, sint. change (32 - 1) with 31. rewrite Z.mod_small; lia. }
  rewrite IH; simpl; rewrite E; lia.
Qed.

Definition active (height : Z) (mi : MinerInfo.t) : bool := MinerInfo.LastActiveBlockHeight mi =? height.

Lemma best_shares_names height inv mis shares sum :
  (List.length shares <= bestShares)%nat ->
  share_Name <$> (best_shares height inv mis shares sum).1 =
  (share_Name <$> shares) ++
    (shown_name <$> take (bestShares - List.length shares) (filter (fun mi => active height mi = true) mis)).
Proof.
  revert shares sum. induction mis as [|mi mis IH]; intros shares sum Hl; cbn [best_shares].
  { by rewrite filter_nil, take_nil, app_nil_r. }
  destruct (Nat.eqb_spec (List.length shares) bestShares) as [E|E].
  { rewrite E, Nat.sub_diag, take_0. by rewrite app_nil_r. }
  rewrite filter_cons. case_decide as Ea; [|apply not_true_is_false in Ea]; unfold active in Ea; rewrite Ea; cbn [negb].
  - rewrite IH by (rewrite length_app; simpl; lia). rewrite fmap_app, length_app, <- app_assoc. cbn [List.length].
    by replace (bestShares - List.length shares)%nat with (S (bestShares - (List.length shares + 1))) by lia.
  - by rewrite IH.
Qed.

(** The rows of the table for the cached miners. *)
Definition rows (keys : list Z) (c : cache) (l : list Miner) : list MinerInfo.t :=
  omap (fun id => a ← miners c !! id; m ← l !! a; Some (miner_info (alphas c) id m)) keys.

Lemma rows_ids keys c l :
  (forall id, id ∈ keys -> exists a m, miners c !! id = Some a /\ l !! a = Some m) ->
  MinerInfo.ID <$> rows keys c l = keys.
Proof.
  induction keys as [|id keys IH]; intros Hk; [done|]. unfold rows. cbn [omap list_omap].
  destruct (Hk id) as (a & m & Ea & Em); [left|]. rewrite Ea. simpl. rewrite Em. simpl. f_equal. apply IH.
  intros k Hin. apply Hk. by right.
Qed.

(** With valid pointers, [updateMinerInfos] never panics; the new table
    lists every cached miner exactly once, ordered by deadline, and their
    number is stored; if shares are sent, they name the ten best miners of the
    current block, the best first, and then the others. *)
Theorem updateMinerInfos_table (wb : web) (w : World) :
  wf_pointers w -> Z.of_nat (size (miners (Cache w))) < 2 ^ 31 ->
  let height := Block.Height (CurrentBlock (Cache w)) in
  exists wb' shares w', updateMinerInfos sort_by_deadline wb w = (Some (wb', shares), w') /\
    (MinerInfo.ID <$> minerInfos wb') ≡ₚ elements (dom (miners (Cache w))) /\
    Sorted.Sorted (fun a b => MinerInfo.Deadline a <= MinerInfo.Deadline b) (minerInfos wb') /\
    GetMinerCount (Cache w') = Z.of_nat (size (miners (Cache w))) /\
    (forall s, shares = Some s ->
       share_Name <$> s = (shown_name <$> take 10 (filter (fun mi => active height mi = true) (minerInfos wb'))) ++ ["other"]).
Proof using sort_perm sort_sorted.
  intros Hp Hn. cbv zeta. unfold updateMinerInfos.
  set (keys := order (tick w) (elements (dom (miners (Cache w))))).
  set (c := Cache w). set (l := objects w).
  change (exists wb' shares w',
    (let height := Block.Height (CurrentBlock c) in
     let t := foldl (count_miner height) (mk_tally [] fzero fzero 0) (rows keys c l) in
     let poolCap := t_poolCap t in
     let scaled := negb (feqb poolCap fzero) in
     let mis := if scaled then with_historical_share poolCap <$> t_mis t else t_mis t in
     let sorted := sort_by_deadline mis in
     (Some (mk_web (blockInfo wb) (poolStatsInfo wb) sorted (wonBlocks wb) (netDiff wb),
        if feqb (t_invDeadlineSum t) fzero then None else Some (shares_of_best height (t_invDeadlineSum t) sorted)),
      set_cache (StoreMinerCount (t_minerCount t) (StorePoolCap (if scaled then fdiv poolCap (of_Z 1000) else poolCap) c))
        (set_tick (S (tick w)) w))) = (Some (wb', shares), w') /\
    (MinerInfo.ID <$> minerInfos wb') ≡ₚ elements (dom (miners c)) /\
    Sorted.Sorted (fun a b => MinerInfo.Deadline a <= MinerInfo.Deadline b) (minerInfos wb') /\
    GetMinerCount (Cache w') = Z.of_nat (size (miners c)) /\
    (forall s, shares = Some s ->
       share_Name <$> s = (shown_name <$> take 10 (filter (fun mi => active (Block.Height (CurrentBlock c)) mi = true) (minerInfos wb'))) ++ ["other"])).
  cbv zeta. set (height := Block.Height (CurrentBlock c)). set (t := foldl _ _ _).
  assert (Hkeys : keys ≡ₚ elements (dom (miners c))) by apply order_perm.
  assert (Hids : MinerInfo.ID <$> rows keys c l = keys).
  { apply rows_ids. intros id Hid. rewrite Hkeys, elem_of_elements, elem_of_dom in Hid. destruct Hid as [a Ha].
    destruct (Hp id a Ha) as [m Hm]. by exists a, m. }
  assert (Hlen : List.length (rows keys c l) = size (miners c)).
  { rewrite <- (length_fmap MinerInfo.ID), Hids, Hkeys. rewrite <- size_dom. done. }
  assert (Hmis : t_mis t = rows keys c l) by (unfold t; by rewrite tally_mis).
  do 3 eexists. split; [reflexivity|]. cbn [minerInfos]. split_and!.
  - rewrite <- Hkeys, <- Hids. etrans; [apply fmap_Permutation, sort_perm|]. rewrite Hmis.
    destruct (negb _); [by rewrite <- list_fmap_compose|done].
  - apply sort_sorted.
  - change (t_minerCount t = Z.of_nat (size (miners c))). unfold t. rewrite tally_count; cbn [t_minerCount]; rewrite ?Hlen; try lia. fold c in Hn. lia.
  - intros s. destruct (feqb _ _); [done|]. intros [= <-]. unfold shares_of_best.
    set (sorted := sort_by_deadline _).
    pose proof (best_shares_names height (t_invDeadlineSum t) sorted [] fzero ltac:(simpl; lia)) as Hnames.
    destruct (best_shares _ _ _ _ _) as [shares sum]. rewrite fmap_app. simpl in *. by rewrite Hnames.
Qed.

(** The block that is shown keeps, of all submissions the cache holds as
    the best ones for it, the lowest deadline; a check that finds nothing
    better sends nothing. *)
Theorem checkForNewBestSubmission_lowest (c : cache) (wb : web) :
  let ns := BestNonceSubmission c in
  let '(wb', sent) := checkForNewBestSubmission c wb in
  BlockInfo.Height (blockInfo wb') = BlockInfo.Height (blockInfo wb) /\
  (sent = None -> wb' = wb) /\
  (BlockInfo.Height (blockInfo wb) <> NonceSubmission.Height ns -> sent = None) /\
  (BlockInfo.Height (blockInfo wb) = NonceSubmission.Height ns ->
     BlockInfo.Deadline (blockInfo wb') =
       (if BlockInfo.Deadline (blockInfo wb) =? 0 then NonceSubmission.Deadline ns
        else Z.min (BlockInfo.Deadline (blockInfo wb)) (NonceSubmission.Deadline ns)) /\
     (NonceSubmission.Deadline ns <> 0 -> (checkForNewBestSubmission c wb').2 = None)).
Proof.
  cbv zeta. unfold checkForNewBestSubmission. set (ns := BestNonceSubmission c). set (b := blockInfo wb).
  destruct (Z.eqb_spec (BlockInfo.Height b) (NonceSubmission.Height ns)) as [Eh|Eh]; simpl; [|split_and!; done || (intros E; by destruct Eh)].
  destruct (Z.eqb_spec (BlockInfo.Deadline b) 0) as [E0|E0]; simpl.
  - split_and!; [done..|]. intros _. split; [done|]. intros Hd. rewrite Eh, Z.eqb_refl. simpl.
    destruct (Z.eqb_spec (NonceSubmission.Deadline ns) 0); [done|]. by rewrite Z.ltb_irrefl.
  - destruct (Z.ltb_spec (NonceSubmission.Deadline ns) (BlockInfo.Deadline b)); simpl.
    + split_and!; [done..|]. intros _. split; [lia|]. intros Hd. rewrite Eh, Z.eqb_refl. simpl.
      destruct (Z.eqb_spec (NonceSubmission.Deadline ns) 0); [done|]. by rewrite Z.ltb_irrefl.
    + split_and!; [done..|]. intros _. split; [fold b; lia|]. intros _. fold b. rewrite Eh, Z.eqb_refl. simpl.
      destruct (Z.eqb_spec (BlockInfo.Deadline b) 0); [done|].
      by destruct (Z.ltb_spec (NonceSubmission.Deadline ns) (BlockInfo.Deadline b)); [lia|].
Qed.

(** A request for the statistics that arrives before the first updates
    are done panics, since nothing was stored yet; after them it never does. *)
Theorem stats_before_first_updates (c : cache) (w w' : World) (r : web * option (list Share)) :
  (getPoolStatsInfo (NewWebServer c) w).1 = None /\
  (first_updates sort_by_deadline (NewWebServer c) w = (Some r, w') ->
   is_Some (getPoolStatsInfo r.1 w').1).
Proof.
  split; [done|]. unfold first_updates. unfold mbind, M_bind.
  destruct (updateMinerInfos _ _ w) as [[r1|] w1]; [|done]. destruct (updateRecentlyWonBlocks _ w1) as [[wb2|] w2]; [|done].
  destruct (updateNetDiff wb2 w2) as [[wb3|] w3]; [|done]. unfold updatePoolStats.
  destruct (netDiff wb3) as [d|]; [|done]. simpl. intros [= <- <-]. by eexists.
Qed.

End ShownTheorems.

(** ** A concrete run *)

Definition deadline_le (a b : MinerInfo.t) : Prop := MinerInfo.Deadline a <= MinerInfo.Deadline b.
#[export] Instance deadline_le_dec : RelDecision deadline_le.
Proof. intros a b. unfold deadline_le. apply _. Defined.
#[export] Instance deadline_le_total : Total deadline_le.
Proof. intros a b. unfold deadline_le. lia. Qed.

(** Miners 7 and 8, the second with the better deadline of block 0. *)
Definition table_world : World :=
  set_objects [set_objs [mk_dp 50 70000 0] (set_current (Some 0%nat) (new_miner 7 "g" "" 0 ""));
               set_objs [mk_dp 40 70000 0] (set_current (Some 0%nat) (new_miner 8 "h" "eight" 0 ""))]
    (set_cache (with_miners {[7 := 0%nat; 8 := 1%nat]} (Cache example_world)) example_world).

Lemma updateMinerInfos_table_witness :
  exists wb' shares w', @updateMinerInfos example_env (merge_sort deadline_le) (NewWebServer (Cache table_world)) table_world
    = (Some (wb', shares), w') /\ GetMinerCount (Cache w') = 2.
Proof.
  destruct (@updateMinerInfos_table example_env (merge_sort deadline_le) (merge_sort_Permutation deadline_le)
              (Sorted_merge_sort deadline_le) (NewWebServer (Cache table_world)) table_world)
    as (wb' & shares & w' & E & _ & _ & Hn & _).
  - intros id a Ha. unfold table_world in Ha. cbn in Ha.
    apply lookup_insert_Some in Ha as [[_ <-]|[_ Ha]]; [eexists; reflexivity|].
    apply lookup_singleton_Some in Ha as [_ <-]. eexists. reflexivity.
  - vm_compute. reflexivity.
  - exists wb', shares, w'. split; [exact E|rewrite Hn; vm_compute; reflexivity].
Defined.

Lemma stats_before_first_updates_witness :
  exists r w', @first_updates example_env (merge_sort deadline_le) (NewWebServer (Cache table_world)) table_world = (Some r, w') /\
    is_Some (getPoolStatsInfo r.1 w').1.
Proof.
  destruct (@first_updates example_env (merge_sort deadline_le) (NewWebServer (Cache table_world)) table_world)
    as [[r|] w'] eqn:E; [|exfalso; vm_compute in E; discriminate E].
  exists r, w'. split; [reflexivity|].
  exact (proj2 (@stats_before_first_updates example_env (merge_sort deadline_le) (Cache table_world) table_world w' r) E).
Defined.

Lemma checkForNewBestSubmission_lowest_witness :
  (checkForNewBestSubmission (StoreBestNonceSubmission (NonceSubmission.mk 9 50 7 0 "" "g" 0 "") (Cache table_world))
     (NewWebServer (Cache table_world))).2 <> None.
Proof.
  pose proof (checkForNewBestSubmission_lowest
    (StoreBestNonceSubmission (NonceSubmission.mk 9 50 7 0 "" "g" 0 "") (Cache table_world)) (NewWebServer (Cache table_world))) as Hc.
  destruct (checkForNewBestSubmission _ _) as [wb' sent]. destruct Hc as (_ & Hs & _ & Hd).
  intros Hnone. specialize (Hs Hnone). subst wb'. destruct (Hd eq_refl) as [E _]. vm_compute in E. discriminate E.
Defined.
