(* ===== verification/WebHandlers.v ===== *)
(** * The handlers and jobs of the web server ([pkg/webserver])

    What is sent to a web socket client, to the pages and to the callers of
    the API; the two loops of jobs as a run of ticks between the changes that
    the rest of the pool makes; and the encoding of the messages, whose
    fields carry the tags of the generated file [pkg/api/api.pb.go]. *)

From Stdlib Require Import Ascii String.
From stdpp Require Import sorting.
From S2P Require Import Prelude GoStrings GoFloat Burstmath Config Blocks Shares Miner DB Cache Wallet World PayoutTheorems Modelx WebServer.
Open Scope string_scope.
Open Scope list_scope.
Open Scope Z_scope.
Import GoInt.

(** ** Messages *)

Inductive hub_message :=
| BlockMsg (b : BlockInfo.t) | SharesMsg (shares : list Share) | StatsMsg (s : PoolStatsInfo.t) | PingMsg.

Inductive WebSocketMsg := TextMessage (data : string) | PingMessage.

Section Json.
(** A number that JSON cannot express, such as a division of zero by zero, has
    no encoding; [MarshalText] writes a time. *)
Context (json_float : float64 -> option string) (MarshalText : Z -> string).

Definition json_int (z : Z) : string := of_bytes (FormatInt z).

(** The fields of an object; [omitempty] leaves out zero values. *)
Inductive field_value := VInt (z : Z) | VIDString (z : Z) | VText (s : string) | VFloat (f : float64).

Definition is_empty (v : field_value) : bool :=
  match v with
  | VInt z | VIDString z => z =? 0
  | VText s => bool_decide (s = "")
  | VFloat f => feqb f fzero
  end.

Definition encode_value (v : field_value) : option string :=
  match v with
  | VInt z => Some (json_int z)
  | VIDString z => Some (String.append quote (String.append (json_uint z) quote))
  | VText s => Some (json_string s)
  | VFloat f => json_float f
  end.

Definition encode_fields (omitempty : bool) (fields : list (string * field_value)) : option string :=
  json_object <$> mapM (fun p => v ← encode_value p.2; Some (p.1, v))
    (filter (fun p => negb (omitempty && is_empty p.2) = true) fields).

Definition marshal_BlockInfo (b : BlockInfo.t) : option string :=
  encode_fields true
    [("height", VInt (BlockInfo.Height b)); ("baseTarget", VInt (BlockInfo.BaseTarget b));
     ("scoop", VInt (BlockInfo.Scoop b)); ("generationSignature", VText (BlockInfo.GenerationSignature b));
     ("minerID", VIDString (BlockInfo.MinerID b)); ("miner", VText (BlockInfo.Miner b));
     ("deadline", VInt (BlockInfo.Deadline b)); ("created", VText (MarshalText (BlockInfo.Created b)))].

Definition marshal_Share (s : Share) : option string :=
  encode_fields false [("name", VText (share_Name s)); ("val", VFloat (Val s))].

Definition marshal_Shares (l : list Share) : option string :=
  l ← mapM marshal_Share l; Some (String.append "[" (String.append (String.concat "," l) "]")).

Definition marshal_PoolStatsInfo (s : PoolStatsInfo.t) : option string :=
  encode_fields true
    [("minerCount", VInt (PoolStatsInfo.MinerCount s)); ("effectivePoolCapacity", VFloat (PoolStatsInfo.EffectivePoolCapacity s));
     ("netDiff", VFloat (PoolStatsInfo.NetDiff s))].

Definition marshal_MinerInfo (m : ApiMinerInfo.t) : option string :=
  encode_fields true
    [("address", VText (ApiMinerInfo.Address m)); ("name", VText (ApiMinerInfo.Name m));
     ("pending", VInt (ApiMinerInfo.Pending m)); ("historicalShare", VFloat (ApiMinerInfo.HistoricalShare m));
     ("effectiveCapacity", VFloat (ApiMinerInfo.EffectiveCapacity m)); ("deadline", VInt (ApiMinerInfo.Deadline m));
     ("lastActiveBlockHeight", VInt (ApiMinerInfo.LastActiveBlockHeight m)); ("nConf", VInt (ApiMinerInfo.NConf m));
     ("payoutDetail", VText (ApiMinerInfo.PayoutDetail m)); ("ID", VIDString (ApiMinerInfo.ID m))].

(** What [webSocketJobs] gives to [sendToClients]: nothing where the message
    cannot be encoded. *)
Definition encode (m : hub_message) : option WebSocketMsg :=
  match m with
  | BlockMsg b => TextMessage <$> marshal_BlockInfo b
  | SharesMsg l => TextMessage <$> marshal_Shares l
  | StatsMsg s => TextMessage <$> marshal_PoolStatsInfo s
  | PingMsg => Some PingMessage
  end.

(** ** Subscriptions *)

Definition genSubscriptionMsg (id : Z) (c : cache) (l : list Miner) : option string :=
  info ← GenMinerInfo id c l; marshal_MinerInfo info.

Definition failure (reason : string) : string := json_object [("subscriptionFailed", json_string reason)].
Definition success : string := json_object [("subscriptionSuccess", json_string "")].

(** The message that is queued, and whether the subscription goes on. *)
Definition updateSubscription (id : Z) (c : cache) (l : list Miner) : string * bool :=
  match genSubscriptionMsg id c l with
  | None => (failure "unknown account", false)
  | Some msg => (msg, true)
  end.

(** The messages on a new id. *)
Definition subscribe (id : Z) (c : cache) (l : list Miner) : list string :=
  let '(msg, ok) := updateSubscription id c l in
  if ok then [msg; success] else [msg].

(** The messages a client that connects is sent first; an encoding that fails
    ends the connection. *)
Definition webSocketHandler (wb : web) : M (list string) :=
  match marshal_BlockInfo (blockInfo wb) with
  | None => mret []
  | Some b =>
      stats ← getPoolStatsInfo wb;
      mret (match marshal_PoolStatsInfo stats with None => [b] | Some s => [b; s] end)
  end.
End Json.

(** ** Pages *)

Inductive page :=
| IndexPage (cfg : Config) (netDiff : float64)
| InfoPage (cfg : Config) (netDiff : float64)
| MinerTable (l : list MinerInfo.t)
| WonBlocksTable (l : list WonBlockInfo).

Module PoolConfigInfo.
Record t := mk {
  PoolFeeShare : float64; DeadlineLimit : Z; MinimumPayout : Z; TxFee : Z; WinnerShare : float64; TMin : Z;
  NAVG : Z; NMin : Z; SetNowFee : Z; SetDailyFee : Z; SetWeeklyFee : Z; SetMinPayoutFee : Z; Version : string;
  PoolPublicID : Z
}.
End PoolConfigInfo.

Section Handlers.
Context `{Env}.

(** The assertion of a type fails where nothing was stored. *)
Definition indexHandler (wb : web) : M page := d ← of_option (netDiff wb); mret (IndexPage Cfg d).
Definition infoHandler (wb : web) : M page := d ← of_option (netDiff wb); mret (InfoPage Cfg d).
Definition minersHandler (wb : web) : M page := mret (MinerTable (minerInfos wb)).
Definition wonBlocksHandler (wb : web) : M page := mret (WonBlocksTable (wonBlocks wb)).

(** ** The API *)

Definition GetMinerInfo (id : Z) : M (result string ApiMinerInfo.t) :=
  c ← get Cache; l ← get objects;
  mret (match GenMinerInfo id c l with None => Err "unknown miner" | Some info => Ok info end).

Definition GetPoolStatsInfo (wb : web) : M PoolStatsInfo.t := getPoolStatsInfo wb.

Definition GetPoolConfigInfo : PoolConfigInfo.t :=
  PoolConfigInfo.mk (PoolFeeShare Cfg) (DeadlineLimit Cfg) (MinimumPayout Cfg) (PoolTxFee Cfg) (WinnerShare Cfg) (TMin Cfg)
    (i32 (NAVG Cfg)) (i32 (NMin Cfg)) (SetNowFee Cfg) (SetDailyFee Cfg) (SetWeeklyFee Cfg) (SetMinPayoutFee Cfg)
    (Version Cfg) (PoolPublicID Cfg).

Definition GetBlockInfo (wb : web) : BlockInfo.t := blockInfo wb.

(** ** Jobs *)

Inductive site_job :=
| MinerInfoTick | NewBlockTick | BestNonceSubmissionTick | WonBlocksTick | NetDiffTick   (* cacheUpdateJobs *)
| PingTick | PoolStatsTick.                                                            (* webSocketJobs *)

Context (sort_by_deadline : list MinerInfo.t -> list MinerInfo.t).

Definition run_site_job (j : site_job) (wb : web) : M (web * option hub_message) :=
  match j with
  | MinerInfoTick => r ← updateMinerInfos sort_by_deadline wb; mret (r.1, SharesMsg <$> r.2)
  | NewBlockTick => c ← get Cache; let '(wb, sent) := checkForBlockUpdate c wb in mret (wb, BlockMsg <$> sent)
  | BestNonceSubmissionTick =>
      c ← get Cache; let '(wb, sent) := checkForNewBestSubmission c wb in mret (wb, BlockMsg <$> sent)
  | WonBlocksTick => wb ← updateRecentlyWonBlocks wb; mret (wb, None)
  | NetDiffTick => wb ← updateNetDiff wb; mret (wb, None)
  | PingTick => mret (wb, Some PingMsg)
  | PoolStatsTick => wb ← updatePoolStats wb; s ← getPoolStatsInfo wb; mret (wb, Some (StatsMsg s))
  end.

(** The rest of the pool changes the shared state between the ticks. *)
Inductive site_event := Tick (j : site_job) | Elsewhere (w : World).

(** A run, with the messages for the clients; [None] is a panic. *)
Fixpoint serve_ticks (l : list site_event) (wb : web) (w : World) : option (list hub_message * web * World) :=
  match l with
  | [] => Some ([], wb, w)
  | Elsewhere w' :: l' => serve_ticks l' wb w'
  | Tick j :: l' =>
      match run_site_job j wb w with
      | (Some (wb1, sent), w1) =>
          match serve_ticks l' wb1 w1 with
          | Some (msgs, wb2, w2) => Some (option_list sent ++ msgs, wb2, w2)
          | None => None
          end
      | (None, _) => None
      end
  end.

Definition block_of (m : hub_message) : option BlockInfo.t := match m with BlockMsg b => Some b | _ => None end.

(** A later block, or a better deadline for the same one. *)
Definition newer (b1 b2 : BlockInfo.t) : Prop :=
  BlockInfo.Height b1 < BlockInfo.Height b2 \/
  (BlockInfo.Height b1 = BlockInfo.Height b2 /\
   (BlockInfo.Deadline b1 = 0 \/ BlockInfo.Deadline b2 < BlockInfo.Deadline b1)).

(** Each element is [newer] than the one before it. *)
Fixpoint newer_chain (b : BlockInfo.t) (l : list BlockInfo.t) : Prop :=
  match l with [] => True | b' :: l' => newer b b' /\ newer_chain b' l' end.

(** The block a client sees after the given messages. *)
Definition seen (b : BlockInfo.t) (l : list BlockInfo.t) : BlockInfo.t := default b (last l).

Lemma seen_app b l1 l2 : seen b (l1 ++ l2) = seen (seen b l1) l2.
Proof. unfold seen. rewrite last_app. by destruct (last l2). Qed.

Lemma newer_chain_app b l1 l2 : newer_chain b l1 -> newer_chain (seen b l1) l2 -> newer_chain b (l1 ++ l2).
Proof.
  revert b. induction l1 as [|b1 l1 IH]; intros b; [done|]. intros [H1 H2] H3. split; [done|].
  apply IH; [done|]. unfold seen in *. rewrite last_cons in H3. by destruct (last l1).
Qed.

(** What a job does to the block that is shown, and to the statistics. *)
Definition sent_blocks (sent : option hub_message) : list BlockInfo.t := omap block_of (option_list sent).

Definition stored (wb wb' : web) : Prop :=
  (is_Some (netDiff wb) -> is_Some (netDiff wb')) /\ (is_Some (poolStatsInfo wb) -> is_Some (poolStatsInfo wb')).

Definition shows (wb wb' : web) (sent : list BlockInfo.t) : Prop :=
  newer_chain (blockInfo wb) sent /\ blockInfo wb' = seen (blockInfo wb) sent /\ stored wb wb'.

Lemma checkForBlockUpdate_shows c wb :
  let '(wb', sent) := checkForBlockUpdate c wb in shows wb wb' (option_list sent).
Proof.
  unfold checkForBlockUpdate. destruct (Z.ltb_spec (BlockInfo.Height (blockInfo wb)) (Block.Height (CurrentBlock c))); [|done].
  split; [|done]. split; [by left|done].
Qed.

Lemma checkForNewBestSubmission_shows c wb :
  let '(wb', sent) := checkForNewBestSubmission c wb in shows wb wb' (option_list sent).
Proof.
  unfold checkForNewBestSubmission.
  destruct (Z.eqb_spec (BlockInfo.Height (blockInfo wb)) (NonceSubmission.Height (BestNonceSubmission c))) as [Eh|]; [|done].
  destruct (Z.eqb_spec (BlockInfo.Deadline (blockInfo wb)) 0) as [E0|];
    [|destruct (Z.ltb_spec (NonceSubmission.Deadline (BestNonceSubmission c)) (BlockInfo.Deadline (blockInfo wb))); [|done]].
  - split; [split; [right; by auto|done]|done].
  - split; [split; [right; by auto|done]|done].
Qed.

Lemma run_job_shows j wb w wb1 sent w1 :
  run_site_job j wb w = (Some (wb1, sent), w1) -> shows wb wb1 (sent_blocks sent).
Proof.
  assert (Hb : forall b : option BlockInfo.t, sent_blocks (BlockMsg <$> b) = option_list b) by (by intros [b|]).
  destruct j; unfold run_site_job.
  - unfold updateMinerInfos, mbind, M_bind. simpl. intros [= <- <- <-].
    unfold shows, stored, sent_blocks. simpl. by repeat destruct (feqb _ _).
  - rewrite get_bind. pose proof (checkForBlockUpdate_shows (Cache w) wb) as Hs.
    destruct (checkForBlockUpdate _ _) as [wb' b]. intros [= <- <- <-]. by rewrite Hb.
  - rewrite get_bind. pose proof (checkForNewBestSubmission_shows (Cache w) wb) as Hs.
    destruct (checkForNewBestSubmission _ _) as [wb' b]. intros [= <- <- <-]. by rewrite Hb.
  - unfold updateRecentlyWonBlocks, mbind, M_bind. destruct (GetRecentlyWonBlocks w) as [[l|] w2]; [|done].
    by intros [= <- <- <-].
  - unfold updateNetDiff, mbind, M_bind. destruct (GetAVGNetDiff _ w) as [[d|] w2]; [|done].
    intros [= <- <- <-]. split; [done|]. split; [done|]. by split.
  - by intros [= <- <- <-].
  - unfold updatePoolStats, getPoolStatsInfo, mbind, M_bind. destruct (netDiff wb) as [d|] eqn:Ed; [|done]. simpl.
    intros [= <- <- <-]. split; [done|]. split; [done|]. split; simpl; [by rewrite Ed|by eexists].
Qed.

Lemma serve_ticks_shows l wb w msgs wb' w' :
  serve_ticks l wb w = Some (msgs, wb', w') -> shows wb wb' (omap block_of msgs).
Proof.
  revert wb w msgs. induction l as [|[j|we] l IH]; intros wb w msgs; simpl.
  - by intros [= <- <- <-].
  - destruct (run_site_job j wb w) as [[[wb1 sent]|] w1] eqn:E1; [|done].
    destruct (serve_ticks l wb1 w1) as [[[msgs2 wb2] w2]|] eqn:E2; [|done]. intros [= <- <- <-].
    destruct (run_job_shows _ _ _ _ _ _ E1) as (C1 & S1 & N1 & P1). destruct (IH _ _ _ E2) as (C2 & S2 & N2 & P2).
    rewrite omap_app. fold (sent_blocks sent). rewrite S1 in C2, S2. split; [by apply newer_chain_app|].
    split; [by rewrite seen_app|split; auto].
  - apply IH.
Qed.

(** Whatever the rest of the pool does to the shared state between the
    ticks, the block that a client is shown never goes back: each message
    about blocks is for a later block or brings a better deadline for the
    same one, and a client that connects is sent what the last message said,
    so that it sees the same block as those that were there before. *)
Theorem shown_blocks_advance (l : list site_event) (wb wb' : web) (w w' : World) (msgs : list hub_message) :
  serve_ticks l wb w = Some (msgs, wb', w') ->
  newer_chain (blockInfo wb) (omap block_of msgs) /\
  GetBlockInfo wb' = seen (blockInfo wb) (omap block_of msgs) /\
  (forall b, b ∈ omap block_of msgs -> BlockInfo.Height (blockInfo wb) <= BlockInfo.Height b <= BlockInfo.Height (blockInfo wb')).
Proof.
  intros (Hc & Hs & _)%serve_ticks_shows. split_and!; [done|done|].
  unfold seen in Hs. revert Hc Hs. generalize (omap block_of msgs), (blockInfo wb), (blockInfo wb'). clear.
  intros l. induction l as [|b0 l IH]; intros b b' Hc Hs x Hx; [by apply not_elem_of_nil in Hx|].
  destruct Hc as [Hn Hc]. rewrite last_cons in Hs.
  assert (Hle : BlockInfo.Height b <= BlockInfo.Height b0) by (destruct Hn as [?|[? _]]; lia).
  assert (Hb' : b' = default b0 (last l)) by (rewrite Hs; by destruct (last l)).
  assert (Hlast : BlockInfo.Height b0 <= BlockInfo.Height b').
  { destruct (last l) as [y|] eqn:El; [|by rewrite Hb'].
    destruct (IH b0 b' Hc Hb' b'); [|done]. simpl in Hb'. subst y. by apply last_Some_elem_of. }
  apply elem_of_cons in Hx as [->|Hx]; [lia|]. specialize (IH b0 b' Hc Hb' x Hx). lia.
Qed.

(** Until the first updates are done, the pages that show the network
    difficulty, the statistics of the API and the greeting of a web socket
    client panic, since nothing was stored in the values they load; from
    then on, whatever ticks follow, none of them does. *)
Theorem handlers_after_first_updates (json_float : float64 -> option string)
    (MarshalText : Z -> string) (c : cache) (w w1 : World) (r : web * option (list Share)) (l : list site_event) msgs wb' w' :
  (forall w, (indexHandler (NewWebServer c) w).1 = None /\ (infoHandler (NewWebServer c) w).1 = None /\
             (GetPoolStatsInfo (NewWebServer c) w).1 = None) /\
  (first_updates sort_by_deadline (NewWebServer c) w = (Some r, w1) -> serve_ticks l r.1 w1 = Some (msgs, wb', w') ->
   forall w2, is_Some (indexHandler wb' w2).1 /\ is_Some (infoHandler wb' w2).1 /\ is_Some (GetPoolStatsInfo wb' w2).1 /\
     is_Some (webSocketHandler json_float MarshalText wb' w2).1).
Proof.
  split; [done|]. unfold first_updates, mbind, M_bind.
  destruct (updateMinerInfos _ _ w) as [[r1|] wa]; [|done]. destruct (updateRecentlyWonBlocks _ wa) as [[wb2|] wc]; [|done].
  destruct (updateNetDiff wb2 wc) as [[wb3|] wd]; [|done]. unfold updatePoolStats.
  destruct (netDiff wb3) as [d|] eqn:Ed; [|done]. simpl. intros [= <- <-] Hserve w2.
  apply serve_ticks_shows in Hserve as (_ & _ & Hn & Hp). simpl in Hn, Hp.
  destruct Hn as [d' Hn]; [by eexists|]. destruct Hp as [s Hp]; [by eexists|].
  unfold indexHandler, infoHandler, GetPoolStatsInfo, webSocketHandler, getPoolStatsInfo, mbind, M_bind.
  rewrite Hn, Hp. split_and!; [by eexists..|]. destruct (marshal_BlockInfo _ _ _); by eexists.
Qed.

End Handlers.

(** ** A run *)

(** Miner 8 is the best of block 0; then block 5 comes in. *)
Definition best_world : World :=
  set_cache (StoreBestNonceSubmission (NonceSubmission.mk 9 40 8 0 "eight" "h" 0 "") (Cache table_world)) table_world.
Definition later_world : World :=
  set_cache (StoreCurrentBlock test_cfg (Block.mk 5 70000 0 "" [] false None None None 0 0) (Cache table_world)) table_world.

Definition example_events : list site_event :=
  [Tick NewBlockTick; Elsewhere best_world; Tick BestNonceSubmissionTick; Tick BestNonceSubmissionTick; Tick PingTick;
   Elsewhere later_world; Tick NewBlockTick; Tick NetDiffTick; Tick PoolStatsTick].

Definition example_run : option (list hub_message * web * World) :=
  @serve_ticks example_env (merge_sort deadline_le) example_events (NewWebServer (Cache table_world)) table_world.

Lemma shown_blocks_advance_witness :
  exists msgs wb' w',
    example_run = Some (msgs, wb', w') /\
    (BlockInfo.Deadline <$> omap block_of msgs) = [40; 0] /\
    newer_chain (blockInfo (NewWebServer (Cache table_world))) (omap block_of msgs).
Proof.
  assert (Hd : match example_run with Some r => BlockInfo.Deadline <$> omap block_of r.1.1 | None => [] end = [40; 0]) by (vm_compute; reflexivity).
  destruct example_run as [[[msgs wb'] w']|] eqn:E; [|discriminate Hd].
  exists msgs, wb', w'. split; [reflexivity|]. split; [exact Hd|].
  exact (proj1 (@shown_blocks_advance example_env (merge_sort deadline_le) example_events _ wb' table_world w' msgs E)).
Defined.

Definition example_start : option (web * option (list Share)) * World :=
  @first_updates example_env (merge_sort deadline_le) (NewWebServer (Cache table_world)) table_world.

Lemma handlers_after_first_updates_witness :
  exists r w1 msgs wb' w',
    example_start = (Some r, w1) /\
    @serve_ticks example_env (merge_sort deadline_le) example_events r.1 w1 = Some (msgs, wb', w') /\
    is_Some (@indexHandler example_env wb' w').1.
Proof.
  assert (Hs : match example_start with
               | (Some r, w1) => match @serve_ticks example_env (merge_sort deadline_le) example_events r.1 w1 with Some _ => true | None => false end
               | _ => false end = true) by (vm_compute; reflexivity).
  destruct example_start as [[r|] w1] eqn:E; [|discriminate Hs].
  destruct (@serve_ticks example_env (merge_sort deadline_le) example_events r.1 w1) as [[[msgs wb'] w']|] eqn:Es; [|discriminate Hs].
  exists r, w1, msgs, wb', w'. split; [reflexivity|split; [exact Es|]].
  exact (proj1 (proj2 (@handlers_after_first_updates example_env (merge_sort deadline_le) (fun _ => None)
    (fun _ => "") (Cache table_world) table_world w1 r example_events msgs wb' w') E Es w')).
Defined.
