(* ===== verification/CacheRound.v ===== *)
(** * The round in the cache

    What the miners are told comes from the cache: the encoded mining
    information and the round that their deadlines are calculated with.  Both
    belong to the current block in every state, the current block never goes
    back, and only [forge] changes the best submission. *)

From Stdlib Require Import Ascii String.
From S2P Require Import Prelude GoStrings GoFloat RSEncoding Burstmath Config Blocks Shares Miner DB Cache.
From S2P Require Import Wallet World Payout Rewards Modelx Pool WebServer.
Open Scope list_scope.
Open Scope Z_scope.

(** ** Operations that leave the cache alone *)

Section Quiet.
Context `{Env} (R : World -> World -> Prop) `{!PreOrder R} (quiet : forall w w', Cache w' = Cache w -> R w w').

Lemma quiet_step : preserves R step. Proof using quiet. intros w. by apply quiet. Qed.
Lemma quiet_now : preserves R now. Proof using quiet. intros w. by apply quiet. Qed.
Lemma quiet_call {A} (f : nat -> A) : preserves R (call f). Proof using quiet. intros w. by apply quiet. Qed.
Lemma quiet_range_keys l : preserves R (range_keys l). Proof using quiet. intros w. by apply quiet. Qed.
Lemma quiet_get {A} (f : World -> A) : preserves R (get f). Proof using quiet. intros w. by apply quiet. Qed.
Lemma quiet_ret {A} (a : A) : preserves R (mret a). Proof using quiet. intros w. by apply quiet. Qed.
Lemma quiet_panic {A} : preserves R (@panic A). Proof using quiet. intros w. by apply quiet. Qed.
Lemma quiet_of_option {A} (o : option A) : preserves R (of_option o).
Proof using quiet. intros w. destruct o; by apply quiet. Qed.

Lemma quiet_Select {A} (q : DB -> A) : preserves R (Select q).
Proof using quiet. intros w. apply quiet. unfold Select, step, get, mret, M_ret, mbind, M_bind. simpl. by destruct (db_fault _). Qed.
Lemma quiet_Begin : preserves R Begin.
Proof using quiet. apply quiet_Select. Qed.
Lemma quiet_TrySelect {A} (q : DB -> result sql_error A) : preserves R (TrySelect q).
Proof using quiet. intros w. apply quiet. unfold TrySelect, step, get, mret, M_ret, mbind, M_bind. simpl. by destruct (db_fault _). Qed.
Lemma quiet_TxExec {A} (f : DB -> result sql_error A) tx : preserves R (TxExec f tx).
Proof using quiet. intros w. apply quiet. unfold TxExec, step, mret, M_ret, mbind, M_bind. simpl. by destruct (db_fault _). Qed.
Lemma quiet_Prepare tx : preserves R (Prepare tx).
Proof using quiet. intros w. apply quiet. unfold Prepare, step, mret, M_ret, mbind, M_bind. simpl. by destruct (db_fault _). Qed.
Lemma quiet_Commit tx : preserves R (Commit tx).
Proof using quiet. intros w. apply quiet. unfold Commit, step, modify, mret, M_ret, mbind, M_bind. simpl. by destruct (db_fault _). Qed.
Lemma quiet_Exec f : preserves R (Exec f).
Proof using quiet.
  intros w. apply quiet. unfold Exec, step, get, modify, mret, M_ret, mbind, M_bind. simpl.
  destruct (db_fault _); [done|]. simpl. by destruct (f (db w)).
Qed.
Lemma quiet_MustExec f : preserves R (MustExec f).
Proof using quiet. intros w. apply quiet. rewrite MustExec_run. simpl. destruct (db_fault _); [done|]. by destruct (f (db w)). Qed.
Lemma quiet_log p : preserves R (log_payment p). Proof using quiet. intros w. by apply quiet. Qed.

Lemma quiet_miner_at a : preserves R (miner_at a).
Proof using quiet. intros w. apply quiet. unfold miner_at, get, mbind, M_bind. simpl. by destruct (_ !! a). Qed.
Lemma quiet_try_update_miner a f : preserves R (try_update_miner a f).
Proof using quiet.
  intros w. apply quiet. unfold try_update_miner, miner_at, set_miner, get, modify, mbind, M_bind. simpl.
  destruct (_ !! a) as [m|]; [|done]. simpl. by destruct (f m).
Qed.
Lemma quiet_update_miner a f : preserves R (update_miner a f).
Proof using quiet. apply (quiet_try_update_miner a (fun m => Some (f m))). Qed.
Lemma quiet_new_object m : preserves R (new_object m). Proof using quiet. intros w. by apply quiet. Qed.

Lemma quiet_tx_each {A} (l : list A) body tx : (forall a tx, preserves R (body a tx)) -> preserves R (tx_each l body tx).
Proof using quiet PreOrder0.
  intros Hb. revert tx. induction l as [|a l IH]; intros tx; simpl; [apply quiet_ret|].
  by apply preserves_and_then; [|apply Hb|].
Qed.

Lemma quiet_MinerRange f : (forall id a, preserves R (f id a)) -> preserves R (MinerRange f).
Proof using quiet PreOrder0.
  intros Hf. apply preserves_bind; [done|apply quiet_get|]. intros c.
  apply preserves_bind; [done|apply quiet_range_keys|]. intros keys.
  apply preserves_for_each; [done|]. intros id. apply preserves_bind; [done|apply quiet_get|].
  intros c'. destruct (miners c' !! id); [apply Hf|apply quiet_ret].
Qed.
End Quiet.

Create HintDb quiet.
#[export] Hint Resolve quiet_step quiet_now quiet_call quiet_range_keys quiet_get quiet_ret quiet_panic quiet_of_option
  quiet_Begin quiet_Select quiet_TrySelect quiet_TxExec quiet_Prepare quiet_Commit quiet_Exec quiet_MustExec quiet_log quiet_miner_at
  quiet_try_update_miner quiet_update_miner quiet_new_object : quiet.

(** ** What happens to the round *)

Section Round.
Context `{Env}.

Definition round_ok (c : cache) : Prop :=
  roundInfo c = round_info_of (currentBlock c) /\ miningInfoJSON c = mining_info_json Cfg (currentBlock c).

(** The current block, what is derived from it, and the best submission stay. *)
Definition same_round (w w' : World) : Prop :=
  currentBlock (Cache w') = currentBlock (Cache w) /\ roundInfo (Cache w') = roundInfo (Cache w) /\
  miningInfoJSON (Cache w') = miningInfoJSON (Cache w) /\ bestNonceSubmission (Cache w') = bestNonceSubmission (Cache w).

#[export] Instance same_round_preorder : PreOrder same_round.
Proof. unfold same_round. split; [done|]. intros ???(?&?&?&?)(?&?&?&?). split_and!; congruence. Qed.

Lemma same_round_quiet w w' : Cache w' = Cache w -> same_round w w'.
Proof. unfold same_round. by intros ->. Qed.

(** A block of the given height may have become the current one. *)
Definition moves_to (h : Z) (w w' : World) : Prop :=
  (round_ok (Cache w) -> round_ok (Cache w')) /\ bestNonceSubmission (Cache w') = bestNonceSubmission (Cache w) /\
  (currentBlock (Cache w') = currentBlock (Cache w) \/ Block.Height (currentBlock (Cache w')) = h).

#[export] Instance moves_to_preorder h : PreOrder (moves_to h).
Proof.
  unfold moves_to. split; [intros w; by auto|].
  intros w1 w2 w3 (A1 & A2 & A3) (B1 & B2 & B3). split_and!; [auto|congruence|].
  destruct B3 as [E|E]; [rewrite E|by right]. done.
Qed.

Lemma same_round_moves h w w' : same_round w w' -> moves_to h w w'.
Proof. intros (E1 & E2 & E3 & E4). unfold moves_to, round_ok. rewrite E1, E2, E3. auto. Qed.

Lemma moves_quiet h w w' : Cache w' = Cache w -> moves_to h w w'.
Proof. intros E. by apply same_round_moves, same_round_quiet. Qed.

(** The current block does not go back. *)
Definition advances (w w' : World) : Prop :=
  (round_ok (Cache w) -> round_ok (Cache w')) /\ bestNonceSubmission (Cache w') = bestNonceSubmission (Cache w) /\
  Block.Height (currentBlock (Cache w)) <= Block.Height (currentBlock (Cache w')).

#[export] Instance advances_preorder : PreOrder advances.
Proof.
  unfold advances. split; [intros w; split_and!; auto; lia|].
  intros w1 w2 w3 (A1 & A2 & A3) (B1 & B2 & B3). split_and!; [auto|congruence|lia].
Qed.

Lemma same_round_advances w w' : same_round w w' -> advances w w'.
Proof. intros (E1 & E2 & E3 & E4). unfold advances, round_ok. rewrite E1, E2, E3. split_and!; auto; lia. Qed.

Lemma advances_quiet w w' : Cache w' = Cache w -> advances w w'.
Proof. intros E. by apply same_round_advances, same_round_quiet. Qed.

End Round.
#[export] Hint Resolve same_round_quiet moves_quiet advances_quiet : quiet.

(** Decomposes an operation along its control structure. *)
Ltac hush :=
  repeat match goal with
  | |- forall _, _ => intro
  | |- preserves _ (_ ≫= _) => apply preserves_bind; [apply _| |]
  | |- preserves _ (and_then _ _) => apply preserves_and_then; [apply _| |]
  | |- preserves _ (for_each _ _) => apply preserves_for_each; [apply _|]
  | |- preserves _ (tx_each _ _ _) => apply quiet_tx_each; [apply _|auto with quiet|]
  | |- preserves _ (MinerRange _) => apply quiet_MinerRange; [apply _|auto with quiet|]
  | |- preserves _ (match ?x with _ => _ end) => destruct x
  | |- preserves _ _ => solve [auto with quiet]
  end.

Section Operations.
Context `{Env}.

(** An update of the cache that leaves the round alone. *)
Lemma same_round_with_cache f :
  (forall c, currentBlock (f c) = currentBlock c /\ roundInfo (f c) = roundInfo c /\
             miningInfoJSON (f c) = miningInfoJSON c /\ bestNonceSubmission (f c) = bestNonceSubmission c) ->
  preserves same_round (with_cache f).
Proof. intros Hf w. apply Hf. Qed.

Lemma same_round_create_txs n ids tx : preserves same_round (create_txs n ids tx).
Proof. revert ids tx. induction n as [|n IH]; intros ids tx; simpl; hush; apply IH. Qed.

Lemma same_round_Payout : preserves same_round Payout.
Proof.
  unfold Payout, createTransactions, payout_tx, deduct_cached, pay_account, advance_payout_date,
    validateTransactions, validate_tx, sendMoney, send_tx, send_recipients. hush. apply same_round_create_txs.
Qed.

Lemma same_round_SetMinPayout msgOf : preserves same_round (SetMinPayout msgOf).
Proof.
  unfold SetMinPayout, process_message, parse_request, old_message, set_payout_tx, charge_cached. cbv zeta. hush.
Qed.

Lemma same_round_eeps_loop al b rows acc : preserves same_round (eeps_loop al b rows acc).
Proof. revert acc. induction rows as [|[id args] rows IH]; intros acc; simpl; hush; apply IH. Qed.

Lemma same_round_RewardBlocks : preserves same_round RewardBlocks.
Proof.
  unfold RewardBlocks, settle_block, rewardBlock, GetSharesOnBlock, GetEEPSsOnBlock, reward_tx, add_share, add_cached.
  cbv zeta. hush; [apply same_round_SetMinPayout|apply same_round_eeps_loop].
Qed.

Lemma same_round_cacheRewardRecipients : preserves same_round cacheRewardRecipients.
Proof. unfold cacheRewardRecipients. hush; by apply same_round_with_cache. Qed.

Lemma same_round_AddBlock h t : preserves same_round (with_cache (fun c => (AddBlock Cfg h t c).2)).
Proof. apply same_round_with_cache. intros c. by destruct (AddBlock_others Cfg h t c) as (? & ? & ->). Qed.

Lemma same_round_read_AddBlock {B} h t (r : Z -> B) :
  preserves same_round (c ← get Cache; let '(removed, c') := AddBlock Cfg h t c in with_cache (fun _ => c') ;; mret (r removed)).
Proof.
  intros w. pose proof (same_round_AddBlock h t w) as Hs. unfold with_cache, modify, get, mbind, M_bind in *. simpl in *.
  by destruct (AddBlock Cfg h t (Cache w)).
Qed.

Lemma same_round_close_block h b : preserves same_round (close_block h b).
Proof.
  unfold close_block, getGenerationTime. cbv zeta. destruct (_ <? _).
  - apply preserves_bind; [apply _|auto with quiet|]. intros [t|e]; [|auto with quiet].
    apply preserves_bind; [apply _|auto with quiet|]. intros _. apply (same_round_read_AddBlock _ _ (fun removed => (t, removed))).
  - apply preserves_bind; [apply _|auto with quiet|]. intros r. apply (same_round_read_AddBlock _ _ (fun removed => (_, removed))).
Qed.

Lemma same_round_close_round r h id a : preserves same_round (close_round r h id a).
Proof. unfold close_round. hush. by apply same_round_with_cache. Qed.

Lemma moves_weaken {A} h (c : M A) : preserves same_round c -> preserves (moves_to h) c.
Proof. apply preserves_weaken, same_round_moves. Qed.
Lemma advances_weaken {A} (c : M A) : preserves same_round c -> preserves advances c.
Proof. apply preserves_weaken, same_round_advances. Qed.

Lemma moves_store_block b : preserves (moves_to (Block.Height b)) (with_cache (StoreCurrentBlock Cfg b)).
Proof. intros w. split_and!; [done|done|by right]. Qed.

(** Only a block above the current one replaces it. *)
Lemma advances_newBlock bt sig h : preserves advances (newBlock bt sig h).
Proof.
  intros w. unfold newBlock. rewrite get_bind. cbv zeta.
  destruct (WasSlowBlock h (Cache w)).2; [done|]. destruct (_ && _); [done|].
  destruct (DecodeGeneratorSignature _) as [gs|e]; [|done].
  destruct (Z.ltb_spec (Block.Height (CurrentBlock (Cache w))) h) as [Hlt|_].
  - match goal with |- advances w (?c w).2 => assert (Hm : preserves (moves_to h) c) end.
    { hush; try solve [apply moves_weaken, same_round_close_block|apply moves_weaken, same_round_close_round
        |apply moves_weaken, same_round_cacheRewardRecipients].
      apply (moves_store_block (new_block_record h bt _ sig gs _)). }
    destruct (Hm w) as (H1 & H2 & [H3|H3]); (split_and!; [done|done|]); [rewrite H3; lia|].
    unfold CurrentBlock in Hlt. lia.
  - apply advances_weaken. hush; [apply same_round_close_block|apply same_round_close_round].
Qed.

Lemma same_round_switchBlock bt sig h : preserves same_round (switchBlock bt sig h).
Proof.
  intros w. unfold switchBlock. destruct (DecodeGeneratorSignature _) as [gs|e]; [|done].
  unfold Exec, step, get, mret, M_ret, mbind, M_bind. simpl. by destruct (db_fault _).
Qed.

Lemma advances_SwitchOrNewBlock b bt sig h : preserves advances (SwitchOrNewBlock b bt sig h).
Proof.
  unfold SwitchOrNewBlock. hush; [apply advances_weaken, same_round_switchBlock|apply advances_newBlock].
Qed.

Lemma advances_MaybeSwitchOrNewBlock bt sig h : preserves advances (MaybeSwitchOrNewBlock bt sig h).
Proof. unfold MaybeSwitchOrNewBlock. hush. apply advances_SwitchOrNewBlock. Qed.

Lemma same_round_insert_miner (m : Miner) (k : nat -> option nat) :
  preserves same_round (a ← new_object m; c ← get Cache;
    let '(a', c') := LoadOrStoreMiner (ID m) a c in with_cache (fun _ => c') ;; mret (k a')).
Proof.
  intros w. unfold new_object, with_cache, modify, get, mbind, M_bind. simpl.
  unfold LoadOrStoreMiner. by destruct (miners (Cache w) !! ID m).
Qed.

Lemma same_round_FirstOrCreateMiner id : preserves same_round (FirstOrCreateMiner id).
Proof.
  unfold FirstOrCreateMiner, getMinerFromDB, createMiner. apply preserves_bind; [apply _|auto with quiet|]. intros c.
  destruct (GetMiner id c); [auto with quiet|]. do 2 (apply preserves_bind; [apply _|hush|]; intros ?).
  destruct a0 as [m|]; [|auto with quiet]. apply (same_round_insert_miner m Some).
Qed.

Lemma advances_UpdateOrCreateNonceSubmission a h d n bt sig : preserves advances (UpdateOrCreateNonceSubmission a h d n bt sig).
Proof. unfold UpdateOrCreateNonceSubmission. hush. apply advances_MaybeSwitchOrNewBlock. Qed.

Lemma same_round_CleanDB : preserves same_round CleanDB.
Proof. unfold CleanDB. hush. Qed.

Lemma same_round_RereadMinerNames : preserves same_round RereadMinerNames.
Proof. unfold RereadMinerNames, reread_name. hush. Qed.

Lemma same_round_cacheMiners : preserves same_round cacheMiners.
Proof.
  unfold cacheMiners, cache_submission. hush; try apply same_round_AddBlock.
  apply same_round_with_cache. intros c. unfold LoadOrStoreMiner. by destruct (miners c !! _).
Qed.

(** The start: the round is that of the last block of the database, or of the
    one the wallet gives. *)
Definition starts (w w' : World) : Prop :=
  (round_ok (Cache w) -> round_ok (Cache w')) /\ bestNonceSubmission (Cache w') = bestNonceSubmission (Cache w).

#[export] Instance starts_preorder : PreOrder starts.
Proof. unfold starts. split; [by intros w|]. intros w1 w2 w3 [A1 A2] [B1 B2]. split; [auto|congruence]. Qed.

Lemma starts_quiet w w' : Cache w' = Cache w -> starts w w'.
Proof. unfold starts. by intros ->. Qed.
#[local] Hint Resolve starts_quiet : quiet.

Lemma starts_NewModelX : preserves starts NewModelX.
Proof.
  assert (Hs : forall w w', same_round w w' -> starts w w') by (intros w w' (E1 & E2 & E3 & E4); unfold starts, round_ok; by rewrite E1, E2, E3, E4).
  unfold NewModelX, createFeeAccount, loadCurrentBlock. hush.
  - intros w. done.
  - by eapply preserves_weaken, same_round_cacheMiners.
  - by eapply preserves_weaken, same_round_cacheRewardRecipients.
  - eapply preserves_weaken, advances_newBlock. by intros w w' (? & ? & _).
Qed.

(** The web server's updates of the cache. *)
Lemma same_round_updateMinerInfos sort wb : preserves same_round (updateMinerInfos sort wb).
Proof. unfold updateMinerInfos. cbv zeta. hush. by apply same_round_with_cache. Qed.
End Operations.
#[export] Hint Resolve starts_quiet : quiet.
