(* ===== verification/System.v ===== *)
(** * The program ([main.go])

    The parts put together: the shared state, the goroutine [forge] with the
    submissions that wait to be taken by it, and the web server.  A step is
    one request, one job or one event of a goroutine; steps come in any
    order.  A panic in a handler of [net/http] is recovered there, one in a job
    or in a handler of [grpc] ends the program. *)

From Stdlib Require Import Ascii String.
From stdpp Require Import sorting.
From S2P Require Import Prelude GoStrings GoFloat RSEncoding Burstmath Config Blocks Shares Miner DB Cache.
From S2P Require Import Wallet World Payout PayoutTheorems Rewards Modelx ModelxInvariant Pool PoolTheorems WebServer.
From S2P Require Import WebHandlers CacheRound Rounds.
Open Scope string_scope.
Open Scope list_scope.
Open Scope Z_scope.

(** ** The state *)

(** [forge] is given the block that was current when the pool was made. *)
Inductive forge_state := NotStarted (currentBlock : Block.t) | Forging (f : forger).

(** [offered]: the handlers that wait to send on [nonceSubmissions]. *)
Record program := mk_program {
  shared : World;
  forging : forge_state;
  offered : list NonceSubmission.t;
  site : web;
  site_ready : bool;
  exited : bool
}.

Definition with_shared (w : World) (p : program) : program :=
  mk_program w (forging p) (offered p) (site p) (site_ready p) (exited p).
Definition with_forging (f : forger) (p : program) : program :=
  mk_program (shared p) (Forging f) (offered p) (site p) (site_ready p) (exited p).
Definition with_offered (l : list NonceSubmission.t) (p : program) : program :=
  mk_program (shared p) (forging p) l (site p) (site_ready p) (exited p).
Definition with_site (wb : web) (p : program) : program :=
  mk_program (shared p) (forging p) (offered p) wb true (exited p).
Definition exit (p : program) : program :=
  mk_program (shared p) (forging p) (offered p) (site p) (site_ready p) true.

Inductive action :=
| HttpRequest (allowed : bool) (req : request)      (* what the rate limiter says *)
| NodeRequest (t : option token) (msg : node_request)
| ForgeStarts
| ForgeReceives (k : nat)
| ForgeTimer
| BlockTick                                         (* checkAndAddNewBlockJob *)
| PoolTick (j : Pool.job)                           (* jobs *)
| SiteStarts                                        (* the beginning of cacheUpdateJobs *)
| SiteTick (j : site_job).

Section Program.
Context `{Env}.
Context (CalcDeadline : Z -> Z -> Z -> Z -> list Z -> Z)
        (sort_by_deadline : list MinerInfo.t -> list MinerInfo.t).

(** [main], up to the start of the goroutines. *)
Definition main : M (Block.t * web) :=
  NewModelX ;;
  c ← get Cache;
  mret (CurrentBlock c, NewWebServer c).

Definition start_program (w : World) : option program :=
  match main w with
  | (Some (currentBlock, wb), w') => Some (mk_program w' (NotStarted currentBlock) [] wb false false)
  | (None, _) => None
  end.

(** A step of a goroutine whose panic ends the program. *)
Definition run {A} (c : M A) (k : A -> program -> program) (p : program) : program :=
  match c (shared p) with
  | (Some a, w) => k a (with_shared w p)
  | (None, w) => exit (with_shared w p)
  end.

Definition offer (ns : option NonceSubmission.t) (p : program) : program :=
  with_offered (offered p ++ option_list ns) p.

(** Requests beyond the limit are refused; [0] is no limit. *)
Definition limited (allowed : bool) : bool := negb (AllowRequestsPerSecond Cfg =? 0) && negb allowed.

(** The interceptor is there if a certificate is configured. *)
Definition node_handler (t : option token) (msg : node_request) : M (result string (option NonceSubmission.t)) :=
  let handler := r ← node_SubmitNonce msg;
    mret (match r.1 with Ok _ => Ok r.2 | Err _ => Err "database error" end) in
  if bool_decide (NodeComCert Cfg = "") then handler else authInterceptor t handler.

(** The ticks that need no first updates come from another goroutine. *)
Definition of_websocket_jobs (j : site_job) : bool :=
  match j with PingTick | PoolStatsTick => true | _ => false end.

Definition exec (a : action) (p : program) : option program :=
  if exited p then None else
  match a with
  | HttpRequest allowed req =>
      if limited allowed then Some p else
      match Pool.serve CalcDeadline req (shared p) with
      | (Some (_, ns), w) => Some (offer ns (with_shared w p))
      | (None, w) => Some (with_shared w p)
      end
  | NodeRequest t msg =>
      if NodePort Cfg =? 0 then None else
      Some (run (node_handler t msg) (fun r => match r with Ok ns => offer ns | Err _ => id end) p)
  | ForgeStarts =>
      match forging p with
      | NotStarted b => Some (run (forge_start b) with_forging p)
      | Forging _ => None
      end
  | ForgeReceives k =>
      match forging p, offered p !! k with
      | Forging f, Some ns => Some (run (forge_submission f ns) with_forging (with_offered (delete k (offered p)) p))
      | _, _ => None
      end
  | ForgeTimer =>
      match forging p with
      | Forging f => match after f with Some _ => Some (run (forge_timer f) with_forging p) | None => None end
      | NotStarted _ => None
      end
  | BlockTick => Some (run checkAndAddNewBlock (fun _ => id) p)
  | PoolTick j => Some (run (Pool.run_job j) (fun _ => id) p)
  | SiteStarts =>
      if site_ready p then None else Some (run (first_updates sort_by_deadline (site p)) (fun r => with_site r.1) p)
  | SiteTick j =>
      if site_ready p || of_websocket_jobs j
      then Some (run (run_site_job sort_by_deadline j (site p))
                   (fun r p => mk_program (shared p) (forging p) (offered p) r.1 (site_ready p) (exited p)) p)
      else None
  end.

(** The states of the program on any database. *)
Inductive reachable : program -> Prop :=
| reach_start d c n s p : InitCache Cfg = Some c -> start_program (mk_World d c [] n s) = Some p -> reachable p
| reach_step p a p' : reachable p -> exec a p = Some p' -> reachable p'.

(** ** The parts of the program keep the invariants of the shared state *)

Lemma keeps_set_userAgent a req : keeps (update_miner a (set_userAgent_of req)).
Proof. by apply keeps_charge. Qed.

Lemma keeps_serve req : keeps (Pool.serve CalcDeadline req).
Proof.
  unfold Pool.serve, processSubmitNonceRequest. cbv zeta. keep;
    [apply keeps_FirstOrCreateMiner|apply keeps_set_userAgent|apply keeps_UpdateOrCreateNonceSubmission].
Qed.

Lemma keeps_node_handler t msg : keeps (node_handler t msg).
Proof.
  unfold node_handler, authInterceptor, node_SubmitNonce. cbv zeta.
  keep; (apply keeps_FirstOrCreateMiner || apply keeps_UpdateOrCreateNonceSubmission).
Qed.

Lemma keeps_store_best ns : keeps (with_cache (StoreBestNonceSubmission ns)).
Proof. by apply keeps_with_cache_same. Qed.

Lemma keeps_forge_start b : keeps (forge_start b).
Proof. unfold forge_start, GetBestNonceSubmissionOnBlock, updateSubmitTimer. keep; apply keeps_store_best. Qed.

Lemma keeps_forge_submission f ns : keeps (forge_submission f ns).
Proof. unfold forge_submission, UpdateBestSubmission, updateSubmitTimer. keep; apply keeps_store_best. Qed.

Lemma keeps_forge_timer f : keeps (forge_timer f).
Proof. unfold forge_timer, submitNonce. simpl. keep. Qed.

Lemma keeps_checkAndAddNewBlock : keeps checkAndAddNewBlock.
Proof. unfold checkAndAddNewBlock. keep. apply keeps_MaybeSwitchOrNewBlock. Qed.

Lemma keeps_pool_job j : keeps (Pool.run_job j).
Proof.
  destruct j; simpl; [|apply keeps_RereadMinerNames|apply keeps_CleanDB]. unfold Payout.
  keep; [apply keeps_RewardBlocks|apply keeps_createTransactions|apply keeps_validateTransactions|apply keeps_sendMoney].
Qed.

Lemma keeps_updateMinerInfos wb : keeps (updateMinerInfos sort_by_deadline wb).
Proof. unfold updateMinerInfos. cbv zeta. keep. by apply keeps_with_cache_same. Qed.

Lemma keeps_first_updates wb : keeps (first_updates sort_by_deadline wb).
Proof.
  unfold first_updates, updateRecentlyWonBlocks, GetRecentlyWonBlocks, updateNetDiff, GetAVGNetDiff, updatePoolStats.
  keep. apply keeps_updateMinerInfos.
Qed.

Lemma keeps_site_job j wb : keeps (run_site_job sort_by_deadline j wb).
Proof.
  destruct j; simpl; unfold updateRecentlyWonBlocks, GetRecentlyWonBlocks, updateNetDiff, GetAVGNetDiff, updatePoolStats,
    getPoolStatsInfo; keep. apply keeps_updateMinerInfos.
Qed.

(** ** ... and the round *)

Lemma advances_serve req : preserves advances (Pool.serve CalcDeadline req).
Proof.
  unfold Pool.serve, processSubmitNonceRequest. cbv zeta. hush;
    [apply advances_weaken, same_round_FirstOrCreateMiner|apply advances_UpdateOrCreateNonceSubmission].
Qed.

Lemma advances_node_handler t msg : preserves advances (node_handler t msg).
Proof.
  unfold node_handler, authInterceptor, node_SubmitNonce. cbv zeta. hush;
    (apply advances_UpdateOrCreateNonceSubmission || apply advances_weaken, same_round_FirstOrCreateMiner).
Qed.

Lemma same_round_forge_timer f : preserves same_round (forge_timer f).
Proof. unfold forge_timer, submitNonce. simpl. hush. Qed.

Lemma advances_checkAndAddNewBlock : preserves advances checkAndAddNewBlock.
Proof. unfold checkAndAddNewBlock. hush. apply advances_MaybeSwitchOrNewBlock. Qed.

Lemma same_round_pool_job j : preserves same_round (Pool.run_job j).
Proof.
  destruct j; simpl; hush; [apply same_round_RewardBlocks|apply same_round_Payout|apply same_round_RereadMinerNames
    |apply same_round_CleanDB].
Qed.

Lemma same_round_first_updates wb : preserves same_round (first_updates sort_by_deadline wb).
Proof.
  unfold first_updates, updateRecentlyWonBlocks, GetRecentlyWonBlocks, updateNetDiff, GetAVGNetDiff, updatePoolStats.
  hush. apply same_round_updateMinerInfos.
Qed.

Lemma same_round_site_job j wb : preserves same_round (run_site_job sort_by_deadline j wb).
Proof.
  destruct j; simpl; unfold updateRecentlyWonBlocks, GetRecentlyWonBlocks, updateNetDiff, GetAVGNetDiff, updatePoolStats,
    getPoolStatsInfo; hush. apply same_round_updateMinerInfos.
Qed.

Lemma starts_main : preserves starts main.
Proof. unfold main. apply preserves_bind; [apply _|apply starts_NewModelX|]. intros _. hush. Qed.
(** ** The invariant *)

Definition height (p : program) : Z := Block.Height (CurrentBlock (Cache (shared p))).

(** The variable of [forge] before any submission. *)
Definition none_yet : NonceSubmission.t := NonceSubmission.mk 0 (2 ^ 64 - 1) 0 0 "" "" 0 "".

Record sound (p : program) : Prop := {
  s_world : wf_world (shared p);
  s_round : round_ok (Cache (shared p));
  s_shown : BlockInfo.Height (blockInfo (site p)) <= height p;
  s_offered : Forall (fun ns => NonceSubmission.Height ns <= height p) (offered p);
  s_best : match forging p with
           | NotStarted b => BestNonceSubmission (Cache (shared p)) = NonceSubmission.zero /\ Block.Height b <= height p
           | Forging f => (best f = none_yet /\ BestNonceSubmission (Cache (shared p)) = NonceSubmission.zero) \/
                          (best f = BestNonceSubmission (Cache (shared p)) /\ NonceSubmission.Height (best f) <= height p)
           end
}.

(** Steps that change the shared state by [advances] only. *)
Lemma sound_advances p w : sound p -> wf_world w -> advances (shared p) w -> sound (with_shared w p).
Proof using.
  intros [Hw Hr Hs Ho Hb] Hw' (A1 & A2 & A3). unfold height, CurrentBlock in *. split; simpl; unfold height, CurrentBlock; simpl.
  - done.
  - auto.
  - lia.
  - eapply Forall_impl; [exact Ho|]. simpl. intros ns. lia.
  - unfold BestNonceSubmission in *. rewrite A2. destruct (forging p) as [b|f].
    + destruct Hb. split; [done|lia].
    + destruct Hb as [?|[? ?]]; [by left|right]. split; [done|lia].
Qed.

Lemma sound_offer p ns :
  sound p -> (forall s, ns = Some s -> NonceSubmission.Height s <= height p) -> sound (offer ns p).
Proof using.
  intros [Hw Hr Hs Ho Hb] Hn. split; try done. simpl. apply Forall_app. split; [done|].
  destruct ns as [s|]; simpl; [|done]. constructor; [by apply Hn|done].
Qed.

(** What a run gives when it succeeds. *)
Lemma run_advances {A} (c : M A) (k : A -> program -> program) p :
  sound p -> keeps c -> preserves advances c ->
  (forall a w, c (shared p) = (Some a, w) -> sound (with_shared w p) -> exited (k a (with_shared w p)) = false ->
     sound (k a (with_shared w p))) ->
  exited (run c k p) = false -> sound (run c k p).
Proof using.
  intros Hp Hk Ha Hc. unfold run. specialize (Hk (shared p) (s_world p Hp)). specialize (Ha (shared p)).
  destruct (c (shared p)) as [[a|] w] eqn:E; [|done]. apply Hc; [done|]. by apply sound_advances.
Qed.

(** Submissions are offered for the round that is current when they come. *)
Lemma serve_offers req w r ns w' :
  Pool.serve CalcDeadline req w = (Some (r, Some ns), w') ->
  NonceSubmission.Height ns = RoundInfo.Height (GetRoundInfo (Cache w)).
Proof using.
  unfold Pool.serve. destruct (bool_decide _); [by intros [= <- <-]|]. destruct (bool_decide _); [|by intros [= <- <-]].
  unfold processSubmitNonceRequest. rewrite get_bind. cbv zeta. set (ri := GetRoundInfo (Cache w)).
  match goal with |- ?c w = _ -> _ => assert (Hy : yields (fun o => forall s, o.2 = Some s -> NonceSubmission.Height s = RoundInfo.Height ri) c) end.
  { destruct (read_submission ri req) as [[n id]|e]; [|by apply yields_ret].
    destruct (bool_decide _); [by apply yields_ret|]. apply yields_bind. intros c. destruct (negb _); [by apply yields_ret|].
    apply yields_bind. intros [a|]; [|by apply yields_ret]. apply yields_bind. intros _. apply yields_bind. intros nat.
    destruct (_ && _); [by apply yields_ret|]. apply yields_bind. intros [u|e]; [|by apply yields_ret].
    apply yields_bind. intros m. apply yields_ret. by intros s [= <-]. }
  intros E. by apply (Hy _ _ _ E).
Qed.

Lemma node_offers t msg w ns w' :
  round_ok (Cache w) -> node_handler t msg w = (Some (Ok (Some ns)), w') ->
  NonceSubmission.Height ns <= Block.Height (currentBlock (Cache w')).
Proof using.
  intros Hr Hrun.
  assert (E : exists r w1, node_SubmitNonce msg w = (Some (r, Some ns), w1) /\ w' = w1).
  { assert (Hh : (r ← node_SubmitNonce msg; mret (match r.1 with Ok _ => Ok r.2 | Err _ => Err "database error" end)) w =
              (Some (Ok (Some ns)), w')).
    { revert Hrun. unfold node_handler, authInterceptor. cbv zeta. destruct (bool_decide _); [done|].
      destruct t as [[s|]|]; [destruct (bool_decide _); done|done|done]. }
    apply bind_inv in Hh as ([r o] & w1 & E & E2). simpl in E2. destruct r as [u|e]; [|done].
    injection E2 as -> <-. by exists (Ok u), w1. }
  clear Hrun. destruct E as (r & w1 & E & ->). unfold node_SubmitNonce in E. rewrite get_bind in E.
  apply bind_inv in E as (mi & w2 & E1 & E). pose proof (same_round_FirstOrCreateMiner (nr_AccountID msg) w) as H1.
  rewrite E1 in H1. simpl in H1. destruct mi as [a|]; [|done].
  apply bind_inv in E as (u & w3 & E2 & E).
  pose proof (advances_UpdateOrCreateNonceSubmission a (nr_BlockHeight msg) (nr_Deadline msg) (nr_Nonce msg)
    (nr_BaseTarget msg) (nr_GenSig msg) w2) as H2. rewrite E2 in H2. simpl in H2.
  destruct u as [u|e]; [|done]. destruct (_ <=? _); [|done]. rewrite get_bind in E.
  apply bind_inv in E as (m & w4 & E3 & E4). injection E4 as <- <- <-.
  assert (w4 = w3) as ->.
  { revert E3. unfold miner_at, get, mbind, M_bind. simpl. destruct (_ !! a); simpl; by intros [= _ <-]. }
  simpl. apply same_round_advances in H1 as [H1 _]. destruct H2 as [H2 _].
  unfold GetRoundInfo. destruct (H2 (H1 Hr)) as [-> _]. simpl. lia.
Qed.
(** *** The best submission *)

Definition same_block (w w' : World) : Prop :=
  currentBlock (Cache w') = currentBlock (Cache w) /\ (round_ok (Cache w) -> round_ok (Cache w')).

Lemma update_timer_run d t w : exists x n, updateSubmitTimer d t w = (Some x, set_tick n w).
Proof using. do 2 eexists. unfold updateSubmitTimer. rewrite now_bind, now_bind. reflexivity. Qed.

(** Keeping a submission: in the cache, and as the variable of [forge]. *)
Lemma store_and_plan ns w :
  (with_cache (StoreBestNonceSubmission ns) ;;
   t ← updateSubmitTimer (NonceSubmission.Deadline ns) (NonceSubmission.RoundStart ns);
   mret (mk_forger ns (Some t))) w =
  (Some (mk_forger ns (Some (clock (S (tick w)) + due (clock (tick w)) (NonceSubmission.Deadline ns) (NonceSubmission.RoundStart ns)))),
   set_tick (S (S (tick w))) (set_cache (StoreBestNonceSubmission ns (Cache w)) w)).
Proof using. rewrite with_cache_bind. unfold updateSubmitTimer. erewrite bind_run; [|rewrite now_bind, now_bind; reflexivity]. done. Qed.

Lemma forge_start_spec b w f w' :
  forge_start b w = (Some f, w') ->
  same_block w w' /\
  ((best f = none_yet /\ BestNonceSubmission (Cache w') = BestNonceSubmission (Cache w)) \/
   (best f = BestNonceSubmission (Cache w') /\ NonceSubmission.Height (best f) = Block.Height b)).
Proof using.
  unfold forge_start. destruct (Block.BestNonceSubmissionID b) as [k|].
  - unfold GetBestNonceSubmissionOnBlock. intros E. apply bind_inv in E as (r & w1 & E1 & E).
    apply bind_inv in E1 as (r0 & w0 & E0 & E1).
    assert (Hq : Cache w0 = Cache w /\ forall ns, r0 = Ok (Some ns) -> NonceSubmission.Height ns = Block.Height b).
    { revert E0. unfold Select, step, get, mret, M_ret, mbind, M_bind. simpl. destruct (db_fault _); intros [= <- <-]; (split; [done|]).
      - done.
      - intros ns [= Hns]. unfold best_submission_of in Hns. simplify_option_eq. done. }
    injection E1 as <- <-. destruct Hq as [Hc Hh]. destruct r0 as [[ns|]|e]; [|done|done].
    rewrite store_and_plan in E. injection E as <- <-. simpl. split.
    + split; simpl; rewrite Hc; done.
    + right. split; [done|]. by apply Hh.
  - rewrite now_bind. intros [= <- <-]. split; [done|]. left. done.
Qed.

Lemma forge_submission_spec f ns w f' w' :
  forge_submission f ns w = (Some f', w') ->
  (f' = f /\ w' = w) \/ (same_block w w' /\ best f' = ns /\ BestNonceSubmission (Cache w') = ns).
Proof using.
  unfold forge_submission. destruct (improves ns (best f)); [|by intros [= <- <-]; left]. intros E. right.
  apply bind_inv in E as ([] & w1 & E1 & E). rewrite store_and_plan in E. injection E as <- <-. simpl.
  pose proof (quiet_MustExec same_round same_round_quiet (update_best (NonceSubmission.MinerID ns) (NonceSubmission.Height ns)) w) as Hq.
  unfold UpdateBestSubmission in E1. rewrite E1 in Hq. destruct Hq as (H1 & H2 & H3 & _). simpl in *.
  split; [|done]. split; simpl; [done|]. unfold round_ok. simpl. by rewrite H1, H2, H3.
Qed.

Lemma sound_same_block p w : sound p -> wf_world w -> same_block (shared p) w ->
  match forging p with
  | NotStarted b => BestNonceSubmission (Cache w) = NonceSubmission.zero
  | Forging f => (best f = none_yet /\ BestNonceSubmission (Cache w) = NonceSubmission.zero) \/
                 (best f = BestNonceSubmission (Cache w) /\ NonceSubmission.Height (best f) <= height p)
  end -> sound (with_shared w p).
Proof using.
  intros [Hw Hr Hs Ho Hb] Hw' [E1 E2] Hbest. assert (Eh : height (with_shared w p) = height p).
  { unfold height, CurrentBlock. simpl. by rewrite E1. }
  split; simpl; rewrite ?Eh; auto. destruct (forging p); [|done]. split; [done|]. apply Hb.
Qed.

Lemma sound_forged p f w :
  sound p -> wf_world w -> same_block (shared p) w ->
  (best f = none_yet /\ BestNonceSubmission (Cache w) = NonceSubmission.zero) \/
  (best f = BestNonceSubmission (Cache w) /\ NonceSubmission.Height (best f) <= height p) ->
  sound (with_forging f (with_shared w p)).
Proof using.
  intros [Hw Hr Hs Ho Hb] Hw' [E1 E2] Hbest.
  assert (Eh : height (with_forging f (with_shared w p)) = height p) by (unfold height, CurrentBlock; simpl; by rewrite E1).
  split; simpl; rewrite ?Eh; auto.
Qed.

Lemma sound_offered p l : sound p -> (forall ns, ns ∈ l -> ns ∈ offered p) -> sound (with_offered l p).
Proof using.
  intros [Hw Hr Hs Ho Hb] Hl. split; try done. simpl. rewrite Forall_forall in *. auto.
Qed.

Lemma sound_site p wb b r :
  sound p -> BlockInfo.Height (blockInfo wb) <= height p -> sound (mk_program (shared p) (forging p) (offered p) wb b r).
Proof using. intros [Hw Hr Hs Ho Hb] Hh. by split. Qed.

(** *** The block that is shown *)

Lemma site_job_shown j wb w wb1 sent w1 :
  run_site_job sort_by_deadline j wb w = (Some (wb1, sent), w1) ->
  BlockInfo.Height (blockInfo wb) <= Block.Height (CurrentBlock (Cache w)) ->
  BlockInfo.Height (blockInfo wb1) <= Block.Height (CurrentBlock (Cache w)).
Proof using.
  intros E Hh. destruct j; unfold run_site_job in E.
  - unfold updateMinerInfos, mbind, M_bind in E. simpl in E. injection E as <- _ _. done.
  - rewrite get_bind in E. unfold checkForBlockUpdate in E.
    destruct (Z.ltb_spec (BlockInfo.Height (blockInfo wb)) (Block.Height (CurrentBlock (Cache w))));
      injection E as <- _ _; simpl; lia.
  - rewrite get_bind in E. pose proof (checkForNewBestSubmission_shows (Cache w) wb) as Hs.
    unfold checkForNewBestSubmission in *. destruct (_ && _); by injection E as <- _ _.
  - unfold updateRecentlyWonBlocks, mbind, M_bind in E. destruct (GetRecentlyWonBlocks w) as [[l|] w2]; [|done].
    by injection E as <- _ _.
  - unfold updateNetDiff, mbind, M_bind in E. destruct (GetAVGNetDiff _ w) as [[d|] w2]; [|done]. by injection E as <- _ _.
  - by injection E as <- _ _.
  - unfold updatePoolStats, getPoolStatsInfo, mbind, M_bind in E. destruct (netDiff wb) as [d|]; [|done]. by injection E as <- _ _.
Qed.

Lemma first_updates_shown wb w r w1 :
  first_updates sort_by_deadline wb w = (Some r, w1) -> blockInfo r.1 = blockInfo wb.
Proof using.
  unfold first_updates, mbind, M_bind. destruct (updateMinerInfos _ _ w) as [[r1|] wa] eqn:E1; [|done].
  assert (H1 : blockInfo r1.1 = blockInfo wb).
  { unfold updateMinerInfos, mbind, M_bind in E1. simpl in E1. by injection E1 as <- _. }
  unfold updateRecentlyWonBlocks, mbind, M_bind. destruct (GetRecentlyWonBlocks wa) as [[l|] wc]; [|done]. simpl.
  unfold updateNetDiff, mbind, M_bind. destruct (GetAVGNetDiff _ wc) as [[d|] wd]; [|done]. simpl.
  by intros [= <- _].
Qed.
(** *** All steps *)

Lemma InitCache_round c : InitCache Cfg = Some c -> round_ok c /\ bestNonceSubmission c = NonceSubmission.zero.
Proof using.
  unfold InitCache. destruct (computeAlphas _ _) as [al|]; [|done]. destruct (newBlocks _) as [b|]; [|done].
  by intros [= <-].
Qed.

Lemma start_sound d c n s p : InitCache Cfg = Some c -> start_program (mk_World d c [] n s) = Some p -> sound p /\ exited p = false.
Proof using.
  intros Hc. destruct (InitCache_round c Hc) as [Hr Hz]. pose proof (wf_start d c n s Hc) as Hw. unfold start_program.
  pose proof (starts_main (mk_World d c [] n s)) as [Hs1 Hs2].
  assert (Hk : keeps main) by (unfold main; keep; apply keeps_NewModelX). specialize (Hk _ Hw).
  destruct (main (mk_World d c [] n s)) as [[[b wb]|] w'] eqn:E; [|done]. intros [= <-]. simpl in *.
  unfold main in E. apply bind_inv in E as ([] & w1 & E1 & E). rewrite get_bind in E. injection E as <- <- <-.
  split; [|done]. split; simpl; unfold height; simpl; [done|by apply Hs1|lia|done|].
  split; [|lia]. unfold BestNonceSubmission. congruence.
Qed.

Lemma forge_start_sound p b :
  sound p -> forging p = NotStarted b -> exited (run (forge_start b) with_forging p) = false ->
  sound (run (forge_start b) with_forging p).
Proof using.
  intros Hp Hb. unfold run. pose proof (keeps_forge_start b (shared p) (s_world p Hp)) as Hk.
  destruct (forge_start b (shared p)) as [[f|] w] eqn:E; [|done]. intros _.
  destruct (forge_start_spec b _ _ _ E) as [Hsame Hbest]. apply sound_forged; [done|done|done|].
  pose proof (s_best p Hp) as Hz. rewrite Hb in Hz. destruct Hz as [Hz Hh].
  destruct Hbest as [[? ?]|[? ?]]; [left|right]; (split; [done|]); [congruence|lia].
Qed.

Lemma forge_receives_sound p k f ns :
  sound p -> forging p = Forging f -> offered p !! k = Some ns ->
  let p1 := with_offered (delete k (offered p)) p in
  exited (run (forge_submission f ns) with_forging p1) = false ->
  sound (run (forge_submission f ns) with_forging p1).
Proof using.
  intros Hp Hf Hns p1. assert (Hp1 : sound p1).
  { apply sound_offered; [done|]. intros x Hx. by eapply elem_of_submseteq, sublist_submseteq, sublist_delete. }
  unfold run. pose proof (keeps_forge_submission f ns (shared p1) (s_world p1 Hp1)) as Hk.
  destruct (forge_submission f ns (shared p1)) as [[f'|] w] eqn:E; [|done]. intros _.
  destruct (forge_submission_spec f ns _ _ _ E) as [[-> ->]|(Hsame & Hb1 & Hb2)].
  - apply sound_forged; [done|apply Hp1|by split|]. pose proof (s_best p1 Hp1) as Hb. simpl in Hb. by rewrite Hf in Hb.
  - apply sound_forged; [done|done|done|]. right. split; [congruence|]. rewrite Hb1.
    pose proof (s_offered p Hp) as Ho. rewrite Forall_forall in Ho. apply Ho. by eapply list_elem_of_lookup_2.
Qed.

Lemma exec_sound a p p' : sound p -> exec a p = Some p' -> exited p' = false -> sound p'.
Proof using.
  intros Hp. unfold exec. destruct (exited p) eqn:Ex; [done|]. destruct a as [al req|t msg| |k| | |j| |j].
  - destruct (limited al); [by intros [= <-]|]. intros E _.
    pose proof (keeps_serve req (shared p) (s_world p Hp)) as Hk. pose proof (advances_serve req (shared p)) as Ha.
    destruct (Pool.serve CalcDeadline req (shared p)) as [[[r ns]|] w] eqn:Es; injection E as <-; simpl in Hk, Ha;
      [|by apply sound_advances].
    apply sound_offer; [by apply sound_advances|]. intros s ->. apply serve_offers in Es. rewrite Es.
    unfold GetRoundInfo. destruct (s_round p Hp) as [-> _]. simpl. apply Ha.
  - destruct (NodePort Cfg =? 0); [done|]. intros [= <-]. apply run_advances; [done|apply keeps_node_handler|apply advances_node_handler|].
    intros [ns|e] w E Hs _; [|done]. apply sound_offer; [done|]. intros s ->. by apply (node_offers t msg _ _ _ (s_round p Hp) E).
  - destruct (forging p) as [b|f] eqn:Ef; [|done]. intros [= <-]. by apply forge_start_sound.
  - destruct (forging p) as [b|f] eqn:Ef; [done|]. destruct (offered p !! k) as [ns|] eqn:Ek; [|done].
    intros [= <-]. by apply forge_receives_sound.
  - destruct (forging p) as [b|f] eqn:Ef; [done|]. destruct (after f); [|done]. intros [= <-].
    apply run_advances; [done|apply keeps_forge_timer|apply advances_weaken, same_round_forge_timer|].
    intros f' w E Hs _. pose proof (s_best _ Hs) as Hb. simpl in Hb. rewrite Ef in Hb.
    assert (best f' = best f) as Hbest.
    { unfold forge_timer in E. apply bind_inv in E as (b & w1 & _ & E). by injection E as <- _. }
    destruct Hs as [S1 S2 S3 S4 _]. split; simpl; try done. rewrite Hbest. exact Hb.
  - intros [= <-]. by apply run_advances; [done|apply keeps_checkAndAddNewBlock|apply advances_checkAndAddNewBlock|].
  - intros [= <-]. by apply run_advances; [done|apply keeps_pool_job|apply advances_weaken, same_round_pool_job|].
  - destruct (site_ready p); [done|]. intros [= <-].
    apply run_advances; [done|apply keeps_first_updates|apply advances_weaken, same_round_first_updates|].
    intros r w E Hs _. apply sound_site; [done|]. rewrite (first_updates_shown _ _ _ _ E). apply (s_shown _ Hs).
  - destruct (_ || _); [|done]. intros [= <-].
    apply run_advances; [done|apply keeps_site_job|apply advances_weaken, same_round_site_job|].
    intros [wb sent] w E Hs _. apply sound_site; [done|]. simpl.
    pose proof (same_round_site_job j (site p) (shared p)) as Hsr. rewrite E in Hsr. destruct Hsr as [Hcur _]. simpl in Hcur.
    apply site_job_shown in E; [|apply (s_shown p Hp)]. unfold height, CurrentBlock in *. simpl. by rewrite Hcur.
Qed.

Lemma reachable_sound p : reachable p -> exited p = false -> sound p.
Proof using.
  induction 1 as [d c n s p Hc Hs|p a p' _ IH E]; intros Hx; [by eapply start_sound|].
  eapply exec_sound; [|exact E|done]. apply IH. unfold exec in E. by destruct (exited p).
Qed.

(** *** The theorems *)

(** C7: in every state the program can get into, whatever the database, the
    wallets, the miners and the nodes do and in whatever order its goroutines
    act, the shared state is well formed; miners that ask
    are told about the current block, and it is the block their deadlines are
    calculated with; the web server shows no block above it, no
    submission that waits for [forge] is for a later one; and what [forge]
    has as the best submission is what the cache publishes, unless it has
    none yet. *)
Theorem program_is_sound (p : program) :
  reachable p -> exited p = false ->
  let c := Cache (shared p) in
  wf_world (shared p) /\
  (forall req, requestType req = "getMiningInfo" ->
     Pool.serve CalcDeadline req (shared p) =
       (Some (mk_response StatusOK (mining_info_json Cfg (CurrentBlock c)), None), shared p)) /\
  GetRoundInfo c = round_info_of (CurrentBlock c) /\
  BlockInfo.Height (blockInfo (site p)) <= Block.Height (CurrentBlock c) /\
  (forall ns, ns ∈ offered p -> NonceSubmission.Height ns <= Block.Height (CurrentBlock c)) /\
  (forall f, forging p = Forging f ->
     (best f = none_yet /\ BestNonceSubmission c = NonceSubmission.zero) \/
     (best f = BestNonceSubmission c /\ NonceSubmission.Height (best f) <= Block.Height (CurrentBlock c))).
Proof using.
  intros Hr Hx c. destruct (reachable_sound p Hr Hx) as [Hw [H1 H2] Hs Ho Hb]. split_and!; [done| |done|done| |].
  - intros req Hq. unfold Pool.serve. rewrite bool_decide_eq_true_2 by done. rewrite get_bind.
    unfold GetMiningInfoJSON. rewrite H2. done.
  - by apply Forall_forall.
  - intros f Hf. by rewrite Hf in Hb.
Qed.

(** The current block, whatever [forge] does. *)
Definition same_current (w w' : World) : Prop := currentBlock (Cache w') = currentBlock (Cache w).

#[local] Instance same_current_preorder : PreOrder same_current.
Proof. unfold same_current. split; [done|]. intros ???. congruence. Qed.

Lemma same_current_quiet w w' : Cache w' = Cache w -> same_current w w'.
Proof using. unfold same_current. by intros ->. Qed.
#[local] Hint Resolve same_current_quiet : quiet.

Lemma same_current_forge_start b : preserves same_current (forge_start b).
Proof using. unfold forge_start, GetBestNonceSubmissionOnBlock, updateSubmitTimer. hush. by intros w. Qed.

Lemma same_current_forge_submission f ns : preserves same_current (forge_submission f ns).
Proof using. unfold forge_submission, UpdateBestSubmission, updateSubmitTimer. hush. by intros w. Qed.

Lemma height_run {A} (c : M A) k p :
  (forall a p, height (k a p) = height p) -> preserves advances c \/ preserves same_current c ->
  height p <= height (run c k p).
Proof using.
  intros Hk Hc. unfold run.
  assert (Hw : height p <= Block.Height (currentBlock (Cache (c (shared p)).2))).
  { destruct Hc as [Hc|Hc]; specialize (Hc (shared p)); [apply Hc|]. unfold same_current in Hc. rewrite Hc. unfold height, CurrentBlock. lia. }
  destruct (c (shared p)) as [[a|] w]; [rewrite Hk|]; exact Hw.
Qed.

(** C11: no step of the program, from any state, makes the current block go
    back, not even one that ends in a panic; and only [forge] changes the best
    submission that is published. *)
Theorem rounds_advance (a : action) (p p' : program) :
  exec a p = Some p' ->
  Block.Height (CurrentBlock (Cache (shared p))) <= Block.Height (CurrentBlock (Cache (shared p'))) /\
  (match a with ForgeStarts | ForgeReceives _ => True
   | _ => BestNonceSubmission (Cache (shared p')) = BestNonceSubmission (Cache (shared p)) end).
Proof using.
  assert (Hbest : forall A (c : M A) k, preserves advances c -> (forall a p, shared (k a p) = shared p) ->
    BestNonceSubmission (Cache (shared (run c k p))) = BestNonceSubmission (Cache (shared p))).
  { intros A c k Hc Hk. unfold run. specialize (Hc (shared p)) as (_ & Hc & _).
    destruct (c (shared p)) as [[x|] w]; [rewrite Hk|]; exact Hc. }
  change (exec a p = Some p' -> height p <= height p' /\ (match a with ForgeStarts | ForgeReceives _ => True
   | _ => BestNonceSubmission (Cache (shared p')) = BestNonceSubmission (Cache (shared p)) end)).
  unfold exec. destruct (exited p); [done|]. destruct a as [al req|t msg| |k| | |j| |j].
  - destruct (limited al); [intros [= <-]; split; [lia|done]|]. pose proof (advances_serve req (shared p)) as (_ & Ha & Hb).
    destruct (Pool.serve CalcDeadline req (shared p)) as [[[r ns]|] w]; intros [= <-]; split; done.
  - destruct (_ =? _); [done|]. intros [= <-]. pose proof (advances_node_handler t msg).
    split; [apply height_run; [by intros [?|?]|by left]|apply Hbest; [done|by intros [?|?]]].
  - destruct (forging p); [|done]. intros [= <-]. split; [|done]. apply height_run; [done|right; apply same_current_forge_start].
  - destruct (forging p) as [|f]; [done|]. destruct (offered p !! k) as [ns|]; [|done]. intros [= <-]. split; [|done].
    change (height p) with (height (with_offered (delete k (offered p)) p)).
    apply height_run; [done|right; apply same_current_forge_submission].
  - destruct (forging p) as [|f]; [done|]. destruct (after f); [|done]. intros [= <-].
    pose proof (advances_weaken _ (same_round_forge_timer f)).
    split; [apply height_run; [done|by left]|by apply Hbest].
  - intros [= <-]. pose proof advances_checkAndAddNewBlock. split; [apply height_run; [done|by left]|by apply Hbest].
  - intros [= <-]. pose proof (advances_weaken _ (same_round_pool_job j)). split; [apply height_run; [done|by left]|by apply Hbest].
  - destruct (site_ready p); [done|]. intros [= <-]. pose proof (advances_weaken _ (same_round_first_updates (site p))).
    split; [apply height_run; [done|by left]|by apply Hbest].
  - destruct (_ || _); [|done]. intros [= <-]. pose proof (advances_weaken _ (same_round_site_job j (site p))).
    split; [apply height_run; [done|by left]|by apply Hbest].
Qed.
Fixpoint execs (l : list action) (p : program) : option program :=
  match l with
  | [] => Some p
  | a :: l' => match exec a p with Some p' => execs l' p' | None => None end
  end.

Lemma execs_reachable l p p' : reachable p -> execs l p = Some p' -> reachable p'.
Proof using.
  revert p. induction l as [|a l IH]; intros p Hr; simpl; [by intros [= <-]|].
  destruct (exec a p) as [p1|] eqn:E; [|done]. apply IH. by eapply reach_step.
Qed.
End Program.

(** ** A run

    The program starts at block 500000; miner 1 submits a nonce, which [forge]
    takes. *)

Definition start_db : DB :=
  with_block {[500000 := mk_block_row 70000 0 signature_a false None None None 0 0]}
    (with_account {[1 := mk_account "a" None 0 None None None]} empty_DB).

Definition example_actions : list action :=
  [SiteStarts; HttpRequest true (mk_request_http "submitNonce" "500000" "9" "1" "miner" ""); ForgeStarts; ForgeReceives 0;
   SiteTick NewBlockTick; SiteTick BestNonceSubmissionTick; BlockTick].

Definition example_program : option program :=
  match InitCache test_cfg with
  | Some c =>
      match @start_program timed_env (mk_World start_db c [] 0 []) with
      | Some p => @execs timed_env fifty (merge_sort deadline_le) example_actions p
      | None => None
      end
  | None => None
  end.

Lemma program_is_sound_witness :
  exists p f, example_program = Some p /\ @reachable timed_env fifty (merge_sort deadline_le) p /\
    forging p = Forging f /\ NonceSubmission.Deadline (best f) = 50 /\
    best f = BestNonceSubmission (Cache (shared p)).
Proof.
  assert (Hx : match example_program with
               | Some p => match forging p with
                           | Forging f => (exited p, NonceSubmission.Deadline (best f)) = (false, 50)
                           | NotStarted _ => False end
               | None => False end) by (vm_compute; reflexivity).
  assert (Hr : forall p, example_program = Some p -> @reachable timed_env fifty (merge_sort deadline_le) p).
  { unfold example_program. intros p. destruct (InitCache test_cfg) as [c|] eqn:Ec; [|discriminate].
    destruct (@start_program timed_env (mk_World start_db c [] 0 [])) as [p0|] eqn:Es; [|discriminate].
    apply execs_reachable. exact (@reach_start timed_env fifty (merge_sort deadline_le) start_db c 0%nat [] p0 Ec Es). }
  destruct example_program as [p|] eqn:E; [|destruct Hx]. specialize (Hr p eq_refl).
  destruct (forging p) as [b|f] eqn:Ef; [destruct Hx|]. injection Hx as Hx1 Hx2.
  exists p, f. split; [reflexivity|]. split; [exact Hr|]. split; [exact Ef|]. split; [exact Hx2|].
  destruct (@program_is_sound timed_env fifty (merge_sort deadline_le) p Hr Hx1) as (_ & _ & _ & _ & _ & Hbest).
  destruct (Hbest f Ef) as [[Hn _]|[Hb _]]; [|exact Hb]. rewrite Hn in Hx2. discriminate Hx2.
Defined.

Lemma rounds_advance_witness :
  exists p p', @exec timed_env fifty (merge_sort deadline_le) BlockTick p = Some p' /\ example_program = Some p /\
    BestNonceSubmission (Cache (shared p')) = BestNonceSubmission (Cache (shared p)).
Proof.
  assert (Hx : match example_program with
               | Some p => match @exec timed_env fifty (merge_sort deadline_le) BlockTick p with Some _ => True | None => False end
               | None => False end) by (vm_compute; exact I).
  destruct example_program as [p|] eqn:E; [|destruct Hx].
  destruct (@exec timed_env fifty (merge_sort deadline_le) BlockTick p) as [p'|] eqn:E'; [|destruct Hx].
  exists p, p'. split; [exact E'|]. split; [reflexivity|].
  exact (proj2 (@rounds_advance timed_env fifty (merge_sort deadline_le) BlockTick p p' E')).
Defined.
