(* ===== verification/SystemSchema.v ===== *)
(** * The database under the whole program

    Every step of the program, of whichever part and wherever it stops, leaves
    a database with the integrity of [Schema]. *)

From Stdlib Require Import Ascii String.
From stdpp Require Import sorting.
From S2P Require Import Prelude GoStrings GoFloat RSEncoding Burstmath Config Blocks Shares Miner DB Cache.
From S2P Require Import Wallet World Payout Rewards Modelx Pool WebServer WebHandlers Schema SchemaRuns Rounds PoolTheorems System.
Open Scope string_scope.
Open Scope list_scope.
Open Scope Z_scope.

Section Parts.
Context `{Env}.
Context (CalcDeadline : Z -> Z -> Z -> Z -> list Z -> Z)
        (sort_by_deadline : list MinerInfo.t -> list MinerInfo.t).

Lemma schema_serve req : preserves schema (Pool.serve CalcDeadline req).
Proof.
  unfold Pool.serve, processSubmitNonceRequest. cbv zeta. hold;
    first [apply schema_FirstOrCreateMiner|apply schema_UpdateOrCreateNonceSubmission].
Qed.

Lemma schema_node_handler t msg : preserves schema (node_handler t msg).
Proof.
  unfold node_handler, authInterceptor, node_SubmitNonce. cbv zeta.
  hold; first [apply schema_FirstOrCreateMiner|apply schema_UpdateOrCreateNonceSubmission].
Qed.

Lemma schema_forge_start b : preserves schema (forge_start b).
Proof. unfold forge_start, GetBestNonceSubmissionOnBlock, updateSubmitTimer. hold. Qed.

Lemma schema_forge_submission f ns : preserves schema (forge_submission f ns).
Proof. unfold forge_submission, updateSubmitTimer. hold. apply schema_UpdateBestSubmission. Qed.

Lemma schema_forge_timer f : preserves schema (forge_timer f).
Proof. unfold forge_timer, submitNonce. simpl. hold. Qed.

Lemma schema_checkAndAddNewBlock : preserves schema checkAndAddNewBlock.
Proof. unfold checkAndAddNewBlock. hold. apply schema_MaybeSwitchOrNewBlock. Qed.

Lemma schema_pool_job j : preserves schema (Pool.run_job j).
Proof.
  destruct j; simpl; hold;
    first [apply schema_RewardBlocks|apply schema_Payout|apply schema_RereadMinerNames|apply schema_CleanDB].
Qed.

Lemma schema_first_updates wb : preserves schema (first_updates sort_by_deadline wb).
Proof.
  unfold first_updates, updateMinerInfos, updateRecentlyWonBlocks, GetRecentlyWonBlocks, updateNetDiff, GetAVGNetDiff,
    updatePoolStats. hold.
Qed.

Lemma schema_site_job j wb : preserves schema (run_site_job sort_by_deadline j wb).
Proof.
  destruct j; simpl; unfold updateMinerInfos, updateRecentlyWonBlocks, GetRecentlyWonBlocks, updateNetDiff, GetAVGNetDiff,
    updatePoolStats, getPoolStatsInfo; hold.
Qed.

Lemma schema_main : preserves schema main.
Proof. unfold main. hold. apply schema_NewModelX. Qed.

(** ** The program *)

Lemma schema_run {A} (c : M A) (k : A -> program -> program) p :
  preserves schema c -> (forall a p, shared (k a p) = shared p) -> integral (db (shared p)) ->
  integral (db (shared (run c k p))).
Proof using.
  intros Hc Hk Hp. specialize (Hc _ Hp). unfold run. destruct (c (shared p)) as [[a|] w]; simpl in *; [by rewrite Hk|done].
Qed.

(** C8: the constraints of the schema always hold of the rows: every foreign
    key has its row, no two accounts have the same address, a miner has one
    submission per block, auto-increment ids are fresh, signed amounts are in
    the range of their columns, and strings not longer than theirs.  A program
    started on such a database, and any step of it, success, error or panic,
    leaves one.  (The ranges of the unsigned columns are not part of it.) *)
Theorem rows_keep_the_schema (p : program) :
  (forall w, integral (db w) -> start_program w = Some p -> integral (db (shared p))) /\
  (forall a p', integral (db (shared p)) -> exec CalcDeadline sort_by_deadline a p = Some p' -> integral (db (shared p'))).
Proof using.
  split.
  { intros w Hw. unfold start_program. pose proof (schema_main w Hw) as Hm.
    destruct (main w) as [[[b wb]|] w']; [|done]. by intros [= <-]. }
  intros a p' Hp. unfold exec. destruct (exited p); [done|]. destruct a as [al req|t msg| |k| | |j| |j].
  - destruct (limited al); [by intros [= <-]|]. pose proof (schema_serve req _ Hp) as Hs.
    destruct (Pool.serve CalcDeadline req (shared p)) as [[[r ns]|] w]; by intros [= <-].
  - destruct (_ =? _); [done|]. intros [= <-]. apply schema_run; [apply schema_node_handler|by intros [?|?]|done].
  - destruct (forging p); [|done]. intros [= <-]. by apply schema_run; [apply schema_forge_start| |].
  - destruct (forging p) as [|f]; [done|]. destruct (offered p !! k) as [ns|]; [|done]. intros [= <-].
    by apply schema_run; [apply schema_forge_submission| |].
  - destruct (forging p) as [|f]; [done|]. destruct (after f); [|done]. intros [= <-].
    by apply schema_run; [apply schema_forge_timer| |].
  - intros [= <-]. by apply schema_run; [apply schema_checkAndAddNewBlock| |].
  - intros [= <-]. by apply schema_run; [apply schema_pool_job| |].
  - destruct (site_ready p); [done|]. intros [= <-]. by apply schema_run; [apply schema_first_updates| |].
  - destruct (_ || _); [|done]. intros [= <-]. by apply schema_run; [apply schema_site_job| |].
Qed.
End Parts.

Lemma integral_start_db : integral start_db.
Proof.
  apply integral_block; [intros k Hk; by destruct (no_rows k Hk)| | |].
  - intros h b [<- <-]%lookup_singleton_Some. reflexivity.
  - intros h b [<- <-]%lookup_singleton_Some. split; [by apply Nat.leb_le; vm_compute|done].
  - apply integral_account; [intros k Hk; by destruct (no_rows k Hk)| | |exact integral_empty].
    + intros id r [<- <-]%lookup_singleton_Some. split; [split; [done|discriminate]|].
      split; simpl; [by apply Nat.leb_le; vm_compute|intros s [= <-]; by apply Nat.leb_le; vm_compute|discriminate].
    + by intros i j x y [<- _]%lookup_singleton_Some [<- _]%lookup_singleton_Some.
Qed.

Lemma rows_keep_the_schema_witness :
  exists p p', @exec timed_env fifty (merge_sort deadline_le) (PoolTick CleanJob) p = Some p' /\
    integral (db (shared p)) /\ integral (db (shared p')).
Proof.
  pose (w := fun c => mk_World start_db c [] 0 []).
  assert (Hx : match InitCache test_cfg with
               | Some c => match @start_program timed_env (w c) with
                           | Some p => match @exec timed_env fifty (merge_sort deadline_le) (PoolTick CleanJob) p with
                                       | Some _ => True | None => False end
                           | None => False end
               | None => False end) by (vm_compute; exact I).
  destruct (InitCache test_cfg) as [c|]; [|destruct Hx].
  destruct (@start_program timed_env (w c)) as [p|] eqn:E; [|destruct Hx].
  destruct (@exec timed_env fifty (merge_sort deadline_le) (PoolTick CleanJob) p) as [p'|] eqn:E'; [|destruct Hx].
  destruct (@rows_keep_the_schema timed_env fifty (merge_sort deadline_le) p) as [Hs He].
  assert (Hp : integral (db (shared p))) by exact (Hs (w c) integral_start_db E).
  exists p, p'. split; [exact E'|]. split; [exact Hp|]. exact (He (PoolTick CleanJob) p' Hp E').
Defined.
