(* ===== verification/Protocol.v ===== *)
(** * What miners read ([pkg/pool/pool.go], [pkg/modelx/cache.go])

    The responses of the pool to its miners are written with the library of
    [GoJson]; here they are read back, as JSON and with the client that the
    program itself has for the same requests to a wallet node ([pkg/wallet]),
    which looks at the status before the body: mining software talks to a pool
    the way the pool talks to a node. *)

From Stdlib Require Import Ascii String.
From stdpp Require Import sorting.
From S2P Require Import Prelude GoStrings GoParse GoFloat RSEncoding Burstmath Config Blocks Shares Miner DB Cache Wallet.
From S2P Require Import World PayoutTheorems ModelxInvariant Submissions Rounds WalletNodes Pool PoolTheorems WebServer System GoJson JsonText JsonDecode WalletRequests Replies.
Open Scope string_scope.
Open Scope list_scope.
Open Scope Z_scope.
Import GoInt.

(** ** Objects *)

(** Members with values that were printed make a printed object. *)
Lemma json_object_print (l : list (string * json)) :
  Forall (fun p => wf p.2) l ->
  json_object ((fun p => (p.1, of_bytes (print p.2))) <$> l) = of_bytes (print (JObj ((fun p => (bytes p.1, p.2)) <$> l))).
Proof.
  intros Hl. unfold json_object. cbn [print]. do 3 f_equal. rewrite <- !list_fmap_compose. f_equal.
  induction Hl as [|[k v] l Hv _ IH]; [done|]. cbn [fmap list_fmap]. f_equal; [|exact IH].
  unfold compose. cbn [fst snd] in *. by rewrite bytes_of_bytes by by apply print_bytes.
Qed.

Lemma parse_object (l : list (string * json)) :
  Forall (fun p => text (bytes p.1) /\ wf p.2) l ->
  parse (bytes (json_object ((fun p => (p.1, of_bytes (print p.2))) <$> l))) = Some (JObj ((fun p => (bytes p.1, p.2)) <$> l)).
Proof.
  intros Hl. rewrite json_object_print by (eapply Forall_impl; [exact Hl|]; by intros p [_ ?]).
  assert (Hw : wf (JObj ((fun p => (bytes p.1, p.2)) <$> l))) by (constructor; by apply Forall_fmap).
  rewrite bytes_of_bytes by by apply print_bytes. by apply parse_print.
Qed.

(** ** The mining info *)

(** The current block as miners are told. *)
Definition mining_info_value (limit : Z) (b : Block.t) : list (string * json) :=
  [("baseTarget", JNum (FormatUint (Block.BaseTarget b)));
   ("generationSignature", JStr (bytes (Block.GenerationSignature b)));
   ("height", JNum (FormatUint (Block.Height b)));
   ("targetDeadline", JNum (FormatUint limit))].

Definition block_in_range (b : Block.t) : Prop :=
  is_u64 (Block.BaseTarget b) /\ is_u64 (Block.Height b) /\ valid_utf8 (bytes (Block.GenerationSignature b)).

Lemma mining_info_wf limit b :
  is_u64 limit -> block_in_range b -> Forall (fun p => text (bytes p.1) /\ wf p.2) (mining_info_value limit b).
Proof.
  intros Hl (Hb & Hh & Hg). unfold is_u64 in *.
  assert (Hn : forall z, 0 <= z < 2 ^ 64 -> wf (JNum (FormatUint z))) by (intros z Hz; constructor; by apply FormatUint_number).
  assert (Ht : forall k, valid_utf8 (bytes k) -> text (bytes k)) by (intros k Hk; split; [apply bytes_range|done]).
  unfold mining_info_value. repeat (apply Forall_cons; split; [cbn [fst snd]; split; [by apply Ht|]|]); [| | | |apply Forall_nil_2].
  - by apply Hn.
  - constructor. by apply Ht.
  - by apply Hn.
  - by apply Hn.
Qed.

Section Protocol.
Context `{Env}.
Context (CalcDeadline : Z -> Z -> Z -> Z -> list Z -> Z)
        (sort_by_deadline : list MinerInfo.t -> list MinerInfo.t).

Lemma mining_info_print b :
  mining_info_json Cfg b = json_object ((fun p => (p.1, of_bytes (print p.2))) <$> mining_info_value (DeadlineLimit Cfg) b).
Proof. done. Qed.

Lemma mining_info_parse b :
  is_u64 (DeadlineLimit Cfg) -> block_in_range b ->
  parse (bytes (mining_info_json Cfg b)) = Some (JObj ((fun p => (bytes p.1, p.2)) <$> mining_info_value (DeadlineLimit Cfg) b)).
Proof. intros Hl Hb. rewrite mining_info_print. by apply parse_object, mining_info_wf. Qed.

(** The decoder for a node's mining info wants the numbers in quotes. *)
Lemma own_mining_info_refused b :
  is_u64 (DeadlineLimit Cfg) -> block_in_range b ->
  unmarshal (Reply := MiningInfo.t) (mining_info_json Cfg b) = Err invalid_string_tag.
Proof.
  intros Hl Hb. unfold unmarshal, MiningInfo_decoder, decode_reply, Unmarshal. by rewrite mining_info_parse.
Qed.

(** ** Responses to submissions *)













(** C31: in every state the program gets into, a miner that asks for the mining
    info gets a JSON object with the base target, the generation signature
    and the height of the current block and with the limit of deadlines; the
    decoder that the program has for the mining info of a node refuses it,
    since there the numbers are in quotes. *)
Theorem miners_read_the_current_block (p : program) (req : request) :
  reachable CalcDeadline sort_by_deadline p -> exited p = false -> requestType req = "getMiningInfo" ->
  is_u64 (DeadlineLimit Cfg) -> block_in_range (CurrentBlock (Cache (shared p))) ->
  exists r, Pool.serve CalcDeadline req (shared p) = (Some (r, None), shared p) /\ status r = StatusOK /\
    parse (bytes (body r))
    = Some (JObj ((fun p => (bytes p.1, p.2)) <$> mining_info_value (DeadlineLimit Cfg) (CurrentBlock (Cache (shared p))))) /\
    unmarshal (Reply := MiningInfo.t) (body r) = Err invalid_string_tag.
Proof using.
  intros Hr Hx Hq Hl Hb. destruct (reachable_sound _ _ p Hr Hx) as [_ [_ H2] _ _ _].
  exists (mk_response StatusOK (mining_info_json Cfg (CurrentBlock (Cache (shared p))))).
  split_and!; [|done|by apply mining_info_parse|by apply own_mining_info_refused].
  unfold Pool.serve. rewrite bool_decide_eq_true_2 by done. rewrite get_bind. unfold GetMiningInfoJSON. by rewrite H2.
Qed.

End Protocol.

(** ** A run *)



Definition info_request : request := mk_request_http "getMiningInfo" "" "" "" "miner" "".

Lemma miners_read_the_current_block_witness :
  exists p r, example_program = Some p /\ @Pool.serve timed_env fifty info_request (shared p) = (Some (r, None), shared p) /\
    parse (bytes (body r)) = Some (JObj [(bytes "baseTarget", JNum (bytes "70000")); (bytes "generationSignature", JStr (bytes signature_a));
      (bytes "height", JNum (bytes "500000")); (bytes "targetDeadline", JNum (bytes "10000000000"))]).
Proof.
  assert (Hr : forall p, example_program = Some p -> @reachable timed_env fifty (merge_sort deadline_le) p).
  { unfold example_program. intros p. destruct (InitCache test_cfg) as [c|] eqn:Ec; [|discriminate].
    destruct (@start_program timed_env (mk_World start_db c [] 0 [])) as [p0|] eqn:Es; [|discriminate].
    apply execs_reachable. exact (@reach_start timed_env fifty (merge_sort deadline_le) start_db c 0%nat [] p0 Ec Es). }
  assert (Hx : match example_program with
               | Some p => let b := CurrentBlock (Cache (shared p)) in
                   (exited p, (Block.BaseTarget b, Block.Height b), Block.GenerationSignature b) = (false, (70000, 500000), signature_a)
               | None => False end) by (vm_compute; reflexivity).
  destruct example_program as [p|]; [|destruct Hx]. injection Hx as Hx Hb Hh Hg.
  destruct (@miners_read_the_current_block timed_env fifty (merge_sort deadline_le) p info_request (Hr p eq_refl) Hx eq_refl)
    as (r & E & _ & Ep & _).
  - apply (bool_decide_unpack _). vm_compute. reflexivity.
  - unfold block_in_range. rewrite Hb, Hh, Hg. split_and!; [vm_compute; split; congruence..|]. vm_compute. reflexivity.
  - exists p, r. split; [reflexivity|]. split; [exact E|]. rewrite Ep. unfold mining_info_value. rewrite Hb, Hh, Hg.
    vm_compute. reflexivity.
Defined.
