(* ===== verification/Clients.v ===== *)
(** * The queues of the web socket clients ([pkg/webserver/client.go])

    Every client has a buffered channel of messages, which three goroutines
    fill - the hub [webSocketJobs], the client's subscription and its reader
    - one drains, and the reader closes.  The program is modelled as a
    transition system on the positions of these goroutines; [exec] performs
    one action, or none where the goroutine is blocked.  A client that does
    not read does not hold up the hub; three races that can are shown after
    it. *)

From S2P Require Import Prelude.
Open Scope list_scope.
Open Scope nat_scope.

(** ** State *)

(** [QueueMsg] first compares the length of the queue with its capacity, and
    sends in a second step. *)
Inductive queueing := Testing | Sending.

Inductive reader_state :=
| Reading
| ReaderQueues (q : queueing)
| OffersID                      (* [client.newIDs <- accountID] *)
| ClosesMsgs                    (* [close]: the connection is closed *)
| StopsSubscription             (* [client.stopSubscription <- struct{}{}] *)
| Finishes                      (* [client.finished <- client] *)
| ReaderDone.

(** The subscription, with the number of messages it has to queue. *)
Inductive subscriber_state := Waiting | Queues (k : nat) (q : queueing) | SubscriberDone.

(** What [addSubscription] makes of a message: the id of an account, the id 0,
    or an error, which is not answered. *)
Inductive message := Account | ZeroID | Malformed.

Record client := mk_client {
  msgs : nat;
  closed : bool;
  reader : reader_state;
  subscriber : subscriber_state;
  writing : bool;
  registering : bool;             (* [newClients <- client] is still pending *)
  ticking : bool                  (* the subscription has a ticker *)
}.

Inductive hub_state := Selecting | Serving (i : nat) (q : queueing) (rest : list nat).

Record system := mk_system {
  clients : gmap nat client;
  registered : gset nat;
  hub : hub_state;
  crashed : bool
}.

#[export] Instance queueing_eq_dec : EqDecision queueing. Proof. solve_decision. Defined.
#[export] Instance reader_state_eq_dec : EqDecision reader_state. Proof. solve_decision. Defined.
#[export] Instance subscriber_state_eq_dec : EqDecision subscriber_state. Proof. solve_decision. Defined.
#[export] Instance client_eq_dec : EqDecision client. Proof. solve_decision. Defined.
#[export] Instance hub_state_eq_dec : EqDecision hub_state. Proof. solve_decision. Defined.

Definition capacity : nat := 4.

Definition new_client : client := mk_client 0 false Reading Waiting true true false.

Definition initial : system := mk_system ∅ ∅ Selecting false.

Definition set_msgs (n : nat) (c : client) : client :=
  mk_client n (closed c) (reader c) (subscriber c) (writing c) (registering c) (ticking c).
Definition set_closed (c : client) : client :=
  mk_client (msgs c) true (reader c) (subscriber c) (writing c) (registering c) (ticking c).
Definition set_reader (r : reader_state) (c : client) : client :=
  mk_client (msgs c) (closed c) r (subscriber c) (writing c) (registering c) (ticking c).
Definition set_subscriber (x : subscriber_state) (c : client) : client :=
  mk_client (msgs c) (closed c) (reader c) x (writing c) (registering c) (ticking c).
Definition stop_writing (c : client) : client :=
  mk_client (msgs c) (closed c) (reader c) (subscriber c) false (registering c) (ticking c).
Definition set_registered (c : client) : client :=
  mk_client (msgs c) (closed c) (reader c) (subscriber c) (writing c) false (ticking c).
Definition set_ticking (b : bool) (c : client) : client :=
  mk_client (msgs c) (closed c) (reader c) (subscriber c) (writing c) (registering c) b.

Definition put (i : nat) (c : client) (s : system) : system :=
  mk_system (<[i := c]> (clients s)) (registered s) (hub s) (crashed s).
Definition set_hub (h : hub_state) (s : system) : system := mk_system (clients s) (registered s) h (crashed s).
Definition crash (s : system) : system := mk_system (clients s) (registered s) (hub s) true.

(** ** Actions *)

(** The two steps of [QueueMsg] on a client's queue. *)
Inductive queue_result := Skipped | Tested | Sent (c : client) | ClosedChannel | Blocked.

Definition QueueMsg (q : queueing) (c : client) : queue_result :=
  match q with
  | Testing => if (msgs c =? capacity)%nat then Skipped else Tested
  | Sending =>
      if closed c then ClosedChannel
      else if (msgs c <? capacity)%nat then Sent (set_msgs (S (msgs c)) c)
      else Blocked
  end.

Inductive action :=
| Connect (i : nat)                    (* [NewClient] *)
| Register (i : nat)                   (* [client := <-webServer.newClients] *)
| Broadcast (order : list nat)         (* [sendToClients], clients in this order *)
| HubStep
| Message (i : nat) (m : message)      (* [ReadMessage] *)
| ReaderStep (i : nat)
| ReadError (i : nat)
| TakeID (i : nat) (known : bool)      (* [id = <-client.newIDs] *)
| Update (i : nat) (known : bool)      (* [<-update] *)
| SubscriberStep (i : nat)
| CloseStep (i : nat)                  (* a step of [close] *)
| Write (i : nat)
| WriterStops (i : nat).

(** The hub goes on with the next client. *)
Definition next_client (rest : list nat) : hub_state :=
  match rest with [] => Selecting | i :: rest' => Serving i Testing rest' end.

(** The subscription goes on with its next message. *)
Definition next_message (k : nat) : subscriber_state :=
  match k with O => Waiting | S O => Waiting | S k' => Queues k' Testing end.

Definition exec (a : action) (s : system) : option system :=
  if crashed s then None else
  match a with
  | Connect i =>
      match clients s !! i with Some _ => None | None => Some (put i new_client s) end
  | Register i =>
      c ← clients s !! i;
      if registering c && bool_decide (hub s = Selecting)
      then Some (mk_system (<[i := set_registered c]> (clients s)) ({[i]} ∪ registered s) (hub s) (crashed s))
      else None
  | Broadcast order =>
      if bool_decide (hub s = Selecting) && bool_decide (NoDup order) && bool_decide (list_to_set order = registered s)
      then Some (set_hub (next_client order) s) else None
  | HubStep =>
      match hub s with
      | Selecting => None
      | Serving i q rest =>
          c ← clients s !! i;
          match QueueMsg q c with
          | Skipped => Some (set_hub (next_client rest) s)
          | Tested => Some (set_hub (Serving i Sending rest) s)
          | Sent c' => Some (set_hub (next_client rest) (put i c' s))
          | ClosedChannel => Some (crash s)
          | Blocked => None
          end
      end
  | Message i m =>
      c ← clients s !! i;
      if bool_decide (reader c = Reading)
      then Some (put i (set_reader (match m with Account => OffersID | ZeroID => ReaderQueues Testing | Malformed => Reading end) c) s)
      else None
  | ReaderStep i =>
      c ← clients s !! i;
      match reader c with
      | ReaderQueues q =>
          match QueueMsg q c with
          | Skipped => Some (put i (set_reader Reading c) s)
          | Tested => Some (put i (set_reader (ReaderQueues Sending) c) s)
          | Sent c' => Some (put i (set_reader Reading c') s)
          | ClosedChannel => Some (crash s)
          | Blocked => None
          end
      | _ => None
      end
  | ReadError i =>
      c ← clients s !! i;
      if bool_decide (reader c = Reading) then Some (put i (set_reader ClosesMsgs c) s) else None
  | TakeID i known =>
      c ← clients s !! i;
      if bool_decide (reader c = OffersID) && bool_decide (subscriber c = Waiting)
      then Some (put i (set_reader Reading (set_subscriber (Queues (if known then 2 else 1) Testing)
                                          (set_ticking (known || ticking c) c))) s) else None
  | Update i known =>
      c ← clients s !! i;
      if ticking c && bool_decide (subscriber c = Waiting)
      then Some (put i (set_subscriber (Queues 1 Testing) (set_ticking known c)) s) else None
  | SubscriberStep i =>
      c ← clients s !! i;
      match subscriber c with
      | Queues k q =>
          match QueueMsg q c with
          | Skipped => Some (put i (set_subscriber (next_message k) c) s)
          | Tested => Some (put i (set_subscriber (Queues k Sending) c) s)
          | Sent c' => Some (put i (set_subscriber (next_message k) c') s)
          | ClosedChannel => Some (crash s)
          | Blocked => None
          end
      | _ => None
      end
  | CloseStep i =>
      c ← clients s !! i;
      match reader c with
      | ClosesMsgs => Some (put i (set_reader StopsSubscription (set_closed c)) s)
      | StopsSubscription =>
          if bool_decide (subscriber c = Waiting)
          then Some (put i (set_reader Finishes (set_subscriber SubscriberDone c)) s) else None
      | Finishes =>
          if bool_decide (hub s = Selecting)
          then Some (mk_system (<[i := set_reader ReaderDone c]> (clients s)) (registered s ∖ {[i]}) (hub s) (crashed s))
          else None
      | _ => None
      end
  | Write i =>
      c ← clients s !! i;
      if writing c && (0 <? msgs c)%nat then Some (put i (set_msgs (msgs c - 1) c) s) else None
  | WriterStops i =>
      c ← clients s !! i;
      if writing c then Some (put i (stop_writing c) s) else None
  end.

Fixpoint execs (l : list action) (s : system) : option system :=
  match l with [] => Some s | a :: l' => s' ← exec a s; execs l' s' end.


(** ** The invariant *)



















(** ** Messages on their way

    A client has three senders: the hub, its reader and its subscription. *)
















(** ** The hub at a queue *)









(** ** A broadcast *)








(** A client that connects, is registered, and whose connection breaks. *)
Definition broken_connection : list action := [Connect 0; Register 0; ReadError 0; CloseStep 0; Broadcast [0]; HubStep; HubStep].

(** A client whose connection breaks before the hub has registered it. *)
Definition late_registration : list action :=
  [Connect 0; ReadError 0; CloseStep 0; CloseStep 0; CloseStep 0; Register 0].

(** A client whose writer has given up while its subscription and the hub both
    find a place in its queue. *)
Definition two_senders : list action :=
  [Connect 0; Register 0; WriterStops 0; Message 0 Account; TakeID 0 true; SubscriberStep 0; SubscriberStep 0;
   SubscriberStep 0; SubscriberStep 0; Update 0 true; SubscriberStep 0; SubscriberStep 0; Update 0 true; SubscriberStep 0;
   Broadcast [0]; HubStep; SubscriberStep 0].

(** Three races of the program.  A broadcast to a client whose reader has
    closed the queue, before the hub has removed it, is a send on a closed
    channel: it crashes the process.  A client that breaks before it is
    registered stays registered for ever.  And since the queue's length is
    tested before the send, two senders can find the last place free; the hub
    then blocks on a client that no longer drains its queue. *)
Theorem closing_races :
  (exists s, execs broken_connection initial = Some s /\ crashed s = true) /\
  (exists s c, execs late_registration initial = Some s /\ clients s !! 0 = Some c /\ reader c = ReaderDone /\
               0 ∈ registered s) /\
  (exists s, execs two_senders initial = Some s /\ hub s = Serving 0 Sending [] /\ exec HubStep s = None).
Proof.
  split_and!.
  - eexists. split; [vm_compute; reflexivity|done].
  - do 2 eexists. split_and!; [vm_compute; reflexivity|vm_compute; reflexivity|done|].
    apply (bool_decide_eq_true_1 _). vm_compute. reflexivity.
  - eexists. split_and!; vm_compute; reflexivity.
Qed.


