(* ===== verification/Locks.v ===== *)
(** * The locks of the program ([pkg/modelx], [pkg/webserver])

    What every operation locks and unlocks, in its order, on each of its
    branches: the mutexes of the miners ([dbMu] and the miner's own),
    [newBlockMu], and the read-write locks of the caches and of the site.
    Goroutines run operations one after the other; a mutex blocks also the
    goroutine that holds it, and a reader waits for a writer that waits.  The
    data under the locks are those of the other files; the tests between the
    locks are not evaluated here, so that an operation has every combination
    of its branches. *)

From S2P Require Import Prelude.
Open Scope list_scope.
Open Scope nat_scope.

(** ** Locks *)

Inductive lock :=
| dbMu (miner : Z)
| newBlockMu
| minerInfosMu
| wonBlocksMu
| minerMu (miner : Z)
| slowBlocksMu
| fastBlocksMu
| rewardRecipientMu.

#[export] Instance lock_eq_dec : EqDecision lock.
Proof. solve_decision. Defined.

Inductive mode := Reading | Writing.

#[export] Instance mode_eq_dec : EqDecision mode.
Proof. solve_decision. Defined.

Inductive lock_event :=
| Acquire (m : mode) (l : lock)
| Release (m : mode) (l : lock).

Notation Lock := (Acquire Writing).
Notation Unlock := (Release Writing).
Notation RLock := (Acquire Reading).
Notation RUnlock := (Release Reading).

(** ** What operations lock *)

Definition locked (l : lock) (body : list lock_event) : list lock_event := Lock l :: body ++ [Unlock l].
Definition rlocked (l : lock) : list lock_event := [RLock l; RUnlock l].

(** What the caches of heights know of a height. *)
Inductive known := Slow | Fast | Unknown.

Definition WasSlowBlock_locks (k : known) : list lock_event :=
  rlocked slowBlocksMu ++ match k with Slow => [] | _ => rlocked fastBlocksMu end.

Definition AddBlock_locks (fast : bool) : list lock_event := locked (if fast then fastBlocksMu else slowBlocksMu) [].

Definition each_miner (miners : list Z) : list lock_event := concat ((fun m => locked (minerMu m) []) <$> miners).

(** A run of [newBlock]: it ends early for a block that is cached, too old or
    has no signature; it caches the height of a block whose generation time
    it got; it may panic at a statement. *)
Record newBlock_run := mk_newBlock {
  nb_known : known;
  nb_refused : bool;
  nb_added : option bool;
  nb_panics : bool;
  nb_miners : list (Z * known);
  nb_recipients : bool
}.

Definition newBlock_locks (r : newBlock_run) : list lock_event :=
  WasSlowBlock_locks (nb_known r) ++
  match nb_known r with
  | Unknown =>
      if nb_refused r then []
      else
        match nb_added r with Some fast => AddBlock_locks fast | None => [] end ++
        if nb_panics r then []
        else
          concat ((fun mk => locked (minerMu mk.1) (WasSlowBlock_locks mk.2)) <$> nb_miners r) ++
          if nb_recipients r then locked rewardRecipientMu [] else []
  | _ => []
  end.

(** A switch is refused for a bad signature or after an error, or goes over
    the miners. *)
Definition switchBlock_locks (miners : option (list Z)) : list lock_event :=
  match miners with Some miners => each_miner miners | None => [] end.

Inductive new_or_switched :=
| Switched (miners : option (list Z))
| New (r : newBlock_run)
| Same.

Definition MaybeSwitchOrNewBlock_locks (r : new_or_switched) : list lock_event :=
  locked newBlockMu
    match r with
    | Switched miners => switchBlock_locks miners
    | New r => newBlock_locks r
    | Same => []
    end.

(** A submission: for the current block, for a block that is not counted,
    for a block with a deadline of the miner, or the first for its block;
    [stored]: a statement was executed and the miner is changed. *)
Inductive submission :=
| Current (stored : bool)
| Ignored (k : known)
| Known_deadline (k : known) (stored : bool)
| First (k : known) (block : option new_or_switched) (stored : bool).

Definition change (miner : Z) (stored : bool) : list lock_event := if stored then locked (minerMu miner) [] else [].

Definition UpdateOrCreateNonceSubmission_locks (miner : Z) (r : submission) : list lock_event :=
  locked (dbMu miner)
    match r with
    | Current stored => change miner stored
    | Ignored k => WasSlowBlock_locks k
    | Known_deadline k stored => WasSlowBlock_locks k ++ change miner stored
    | First k block stored =>
        WasSlowBlock_locks k ++ match block with Some b => MaybeSwitchOrNewBlock_locks b | None => [] end ++ change miner stored
    end.

(** The operations, with the miners they go over: those of the cache, or
    those of the accounts of a transaction. *)
Inductive task :=
| Submit (miner : Z) (r : submission)
| Mining_info (r : new_or_switched)
| Reread_names (miners : list Z)
| Reward_block (miners : list Z)
| Create_transactions (miners : list Z)
| Set_min_payout (miners : list Z)
| Is_reward_recipient
| Store_reward_recipients
| Update_miner_infos (miners : list Z)
| Update_won_blocks
| Miners_page
| Won_blocks_page
| Miner_info (miner : Z).

Definition trace (o : task) : list lock_event :=
  match o with
  | Submit miner r => UpdateOrCreateNonceSubmission_locks miner r
  | Mining_info r => MaybeSwitchOrNewBlock_locks r
  | Reread_names miners | Reward_block miners | Create_transactions miners | Set_min_payout miners => each_miner miners
  | Is_reward_recipient => rlocked rewardRecipientMu
  | Store_reward_recipients => locked rewardRecipientMu []
  | Update_miner_infos miners => locked minerInfosMu (each_miner miners)
  | Update_won_blocks => locked wonBlocksMu []
  | Miners_page => rlocked minerInfosMu
  | Won_blocks_page => rlocked wonBlocksMu
  | Miner_info miner => locked (minerMu miner) []
  end.

(** ** Goroutines *)

(** [waiting]: the goroutine called [Lock] and is not through yet. *)
Record goroutine := mk_goroutine { held : list (mode * lock); waiting : bool; todo : list lock_event }.

Definition holds (p : mode * lock -> bool) (gs : list goroutine) : bool := existsb (fun g => existsb p (held g)) gs.

Definition any_of (l : lock) (h : mode * lock) : bool := bool_decide (h.2 = l).
Definition writer_of (l : lock) (h : mode * lock) : bool := bool_decide (h = (Writing, l)).

Definition writer_waits (l : lock) (gs : list goroutine) : bool :=
  existsb (fun g => waiting g && match todo g with Acquire Writing l' :: _ => bool_decide (l' = l) | _ => false end) gs.

(** One step of the goroutine [i]; [None]: it is blocked, ended, or releases
    what it does not hold. *)
Definition go_step (i : nat) (gs : list goroutine) : option (list goroutine) :=
  g ← gs !! i;
  match todo g with
  | Acquire Writing l :: t =>
      if negb (waiting g) then Some (<[i := mk_goroutine (held g) true (todo g)]> gs)
      else if holds (any_of l) gs then None
      else Some (<[i := mk_goroutine ((Writing, l) :: held g) false t]> gs)
  | Acquire Reading l :: t =>
      if holds (writer_of l) gs || writer_waits l gs then None
      else Some (<[i := mk_goroutine ((Reading, l) :: held g) false t]> gs)
  | Release m l :: t =>
      match list_find (fun h => h = (m, l)) (held g) with
      | Some (k, _) => Some (<[i := mk_goroutine (delete k (held g)) false t]> gs)
      | None => None
      end
  | [] => None
  end.

Fixpoint go_steps (l : list nat) (gs : list goroutine) : option (list goroutine) :=
  match l with
  | [] => Some gs
  | i :: l => gs ← go_step i gs; go_steps l gs
  end.

(** Each goroutine runs its operations. *)
Definition spawn (programs : list (list task)) : list goroutine :=
  (fun ops => mk_goroutine [] false (concat (trace <$> ops))) <$> programs.

Definition finished (g : goroutine) : Prop := held g = [] /\ todo g = [].

(** ** The order of the locks *)

Definition rank (l : lock) : nat :=
  match l with
  | dbMu _ => 0
  | newBlockMu | minerInfosMu => 1
  | minerMu _ => 2
  | wonBlocksMu | slowBlocksMu | fastBlocksMu | rewardRecipientMu => 3
  end.

(** Locks are taken in the order of their ranks and released in the opposite
    order. *)
Fixpoint ordered (held : list (mode * lock)) (l : list lock_event) : Prop :=
  match l with
  | [] => held = []
  | Acquire m l :: t => Forall (fun h => rank h.2 < rank l) held /\ ordered ((m, l) :: held) t
  | Release m l :: t => match held with h :: held => h = (m, l) /\ ordered held t | [] => False end
  end.

(** Events that can come where all locks held have a rank below [r]. *)
Definition above (r : nat) (body : list lock_event) : Prop :=
  forall held rest, Forall (fun h => rank h.2 < r) held -> ordered held rest -> ordered held (body ++ rest).

Lemma above_nil r : above r [].
Proof. by intros held rest _ H. Qed.

Lemma above_app r a b : above r a -> above r b -> above r (a ++ b).
Proof. intros Ha Hb held rest Hh Hr. rewrite <- app_assoc. apply Ha; [done|]. by apply Hb. Qed.

Lemma above_concat {X} r (f : X -> list lock_event) l : (forall x, above r (f x)) -> above r (concat (f <$> l)).
Proof. intros Hf. induction l as [|x l IH]; [apply above_nil|]. by apply above_app. Qed.

Lemma above_bracket r m l body : r <= rank l -> above (S (rank l)) body -> above r (Acquire m l :: body ++ [Release m l]).
Proof.
  intros Hl Hb held rest Hh Hr. cbn [app ordered]. split.
  - eapply Forall_impl; [exact Hh|]. intros h Hlt. cbn in *. lia.
  - rewrite <- app_assoc. apply Hb; [|by split]. apply Forall_cons_2; [cbn; lia|].
    eapply Forall_impl; [exact Hh|]. intros h Hlt. cbn in *. lia.
Qed.

Lemma above_locked r l body : r <= rank l -> above (S (rank l)) body -> above r (locked l body).
Proof. apply above_bracket. Qed.

Lemma above_rlocked r l : r <= rank l -> above r (rlocked l).
Proof. intros Hr. apply (above_bracket r Reading l []); [done|apply above_nil]. Qed.

Create HintDb locks.
#[local] Hint Resolve above_nil above_app above_concat above_locked above_rlocked : locks.
#[local] Hint Extern 1 (_ <= _) => cbn; lia : locks.

Lemma above_WasSlowBlock r k : r <= 3 -> above r (WasSlowBlock_locks k).
Proof. intros Hr. unfold WasSlowBlock_locks. destruct k; auto with locks. Qed.
#[local] Hint Resolve above_WasSlowBlock : locks.

Lemma above_AddBlock r fast : r <= 3 -> above r (AddBlock_locks fast).
Proof. intros Hr. unfold AddBlock_locks. destruct fast; auto with locks. Qed.
#[local] Hint Resolve above_AddBlock : locks.

Lemma above_each_miner r miners : r <= 2 -> above r (each_miner miners).
Proof. intros Hr. apply above_concat. auto with locks. Qed.
#[local] Hint Resolve above_each_miner : locks.

Lemma above_newBlock r : above 2 (newBlock_locks r).
Proof.
  unfold newBlock_locks. apply above_app; [auto with locks|]. destruct (nb_known r); auto with locks.
  destruct (nb_refused r); auto with locks. apply above_app; [destruct (nb_added r); auto with locks|].
  destruct (nb_panics r); auto with locks. apply above_app; [auto with locks|]. destruct (nb_recipients r); auto with locks.
Qed.
#[local] Hint Resolve above_newBlock : locks.

Lemma above_MaybeSwitchOrNewBlock r b : r <= 1 -> above r (MaybeSwitchOrNewBlock_locks b).
Proof.
  intros Hr. apply above_locked; [done|]. cbn [rank]. destruct b as [[miners|]| |]; cbn [switchBlock_locks]; auto with locks.
Qed.
#[local] Hint Resolve above_MaybeSwitchOrNewBlock : locks.

Lemma above_change r m stored : r <= 2 -> above r (change m stored).
Proof. intros Hr. destruct stored; cbn [change]; auto with locks. Qed.
#[local] Hint Resolve above_change : locks.

Lemma trace_ordered o : above 0 (trace o).
Proof.
  destruct o; cbn [trace]; auto with locks. apply above_locked; [cbn; lia|]. cbn [rank].
  destruct r as [| | |k [b|] stored]; auto with locks.
Qed.

Lemma program_ordered ops : ordered [] (concat (trace <$> ops)).
Proof.
  rewrite <- (app_nil_r (concat _)). apply (above_concat 0 trace ops trace_ordered); [by apply Forall_nil|done].
Qed.

(** ** The invariant *)

Definition exclusive (gs : list goroutine) : Prop :=
  forall i j gi gj m l, gs !! i = Some gi -> gs !! j = Some gj -> (Writing, l) ∈ held gi -> (m, l) ∈ held gj -> i = j.

Record sound (gs : list goroutine) : Prop := {
  s_ordered : forall i g, gs !! i = Some g -> ordered (held g) (todo g);
  s_exclusive : exclusive gs
}.

Lemma holds_spec p gs : holds p gs = true <-> exists i g h, gs !! i = Some g /\ h ∈ held g /\ p h = true.
Proof.
  unfold holds. rewrite existsb_exists. split.
  - intros (g & Hg & Hp). apply existsb_exists in Hp as (h & Hh & Hp). apply list_elem_of_In, list_elem_of_lookup_1 in Hg as [i Hi].
    exists i, g, h. split; [done|]. split; [by apply list_elem_of_In|done].
  - intros (i & g & h & Hi & Hh & Hp). exists g. split; [by apply list_elem_of_In; eapply list_elem_of_lookup_2|].
    apply existsb_exists. exists h. split; [by apply list_elem_of_In|done].
Qed.

Lemma holds_false p gs i g h : holds p gs = false -> gs !! i = Some g -> h ∈ held g -> p h = false.
Proof.
  intros Hf Hi Hh. destruct (p h) eqn:E; [|done]. rewrite <- Hf. symmetry. apply holds_spec. by exists i, g, h.
Qed.

Lemma spawn_sound programs : sound (spawn programs).
Proof.
  split.
  - intros i g Hi. unfold spawn in Hi. rewrite list_lookup_fmap in Hi; apply fmap_Some in Hi as (ops & _ & ->). apply program_ordered.
  - intros i j gi gj m l Hi _ Hin _. unfold spawn in Hi. rewrite list_lookup_fmap in Hi; apply fmap_Some in Hi as (ops & _ & ->).
    by apply not_elem_of_nil in Hin.
Qed.

(** A goroutine that takes a lock, keeps or gives back what it has. *)
Lemma sound_insert gs i g g' :
  sound gs -> gs !! i = Some g -> ordered (held g') (todo g') ->
  (forall m l, (m, l) ∈ held g' -> (m, l) ∈ held g \/
     forall j gj h, gs !! j = Some gj -> h ∈ held gj -> h.2 = l -> m = Reading /\ h.1 = Reading) ->
  sound (<[i := g']> gs).
Proof.
  intros [Ho He] Hi Hord Hnew. assert (Hlt : i < length gs) by (by eapply lookup_lt_Some). split.
  - intros j gj Hj. apply list_lookup_insert_Some in Hj as [(<- & <- & _)|[_ Hj]]; [done|by eapply Ho].
  - intros a b ga gb m l Ha Hb Hw Hm.
    apply list_lookup_insert_Some in Ha as [(<- & <- & _)|[Hia Ha]]; apply list_lookup_insert_Some in Hb as [(<- & <- & _)|[Hib Hb]]; [done| | |].
    + destruct (Hnew _ _ Hw) as [Hold|Hfree]; [by eapply He|]. by destruct (Hfree b gb _ Hb Hm eq_refl).
    + destruct (Hnew _ _ Hm) as [Hold|Hfree]; [by eapply He|]. by destruct (Hfree a ga _ Ha Hw eq_refl).
    + by eapply He.
Qed.

Lemma step_sound i gs gs' : sound gs -> go_step i gs = Some gs' -> sound gs'.
Proof.
  intros Hs. unfold go_step. destruct (gs !! i) as [g|] eqn:Hi; [|done]. cbn [mbind option_bind].
  pose proof (s_ordered _ Hs i g Hi) as Ho. destruct (todo g) as [|[[] l|m l] t] eqn:Et; [done|..].
  - destruct (holds (writer_of l) gs) eqn:Eh; [done|]. destruct (writer_waits l gs); [done|]. intros [= <-].
    destruct Ho as [_ Ho]. apply (sound_insert _ _ g); [done|done|done|]. cbn [held]. intros m l' Hin.
    apply elem_of_cons in Hin as [[= -> ->]|Hin]; [|by left]. right. intros j gj [m' l'] Hj Hh [= ->].
    split; [done|]. pose proof (holds_false _ _ _ _ _ Eh Hj Hh) as Hw. apply bool_decide_eq_false in Hw. by destruct m'.
  - destruct (waiting g); cbn [negb].
    + destruct (holds (any_of l) gs) eqn:Eh; [done|]. intros [= <-]. destruct Ho as [_ Ho].
      apply (sound_insert _ _ g); [done|done|done|]. cbn [held]. intros m l' Hin.
      apply elem_of_cons in Hin as [[= -> ->]|Hin]; [|by left]. right. intros j gj h Hj Hh El.
      pose proof (holds_false _ _ _ _ _ Eh Hj Hh) as Hw. by apply bool_decide_eq_false in Hw.
    + intros [= <-]. apply (sound_insert _ _ g); [done|done|by cbn [held todo]|]. intros m l' Hin. by left.
  - destruct (list_find _ _) as [[k h]|] eqn:Ef; [|done]. intros [= <-]. cbn [ordered] in Ho.
    destruct (held g) as [|h0 hs] eqn:Eh; [done|]. destruct Ho as [-> Ho]. cbn in Ef. rewrite decide_True in Ef by done.
    injection Ef as <- <-. apply (sound_insert _ _ g); [done|done|done|]. cbn [held delete list_delete]. intros m' l' Hin.
    left. rewrite Eh. by right.
Qed.

Lemma steps_sound l gs gs' : sound gs -> go_steps l gs = Some gs' -> sound gs'.
Proof.
  revert gs. induction l as [|i l IH]; intros gs Hs; cbn [go_steps]; [by intros [= <-]|].
  destruct (go_step i gs) as [gs1|] eqn:E; [|done]. cbn [mbind option_bind]. apply IH. by eapply step_sound.
Qed.

(** ** Progress *)

Definition level (e : lock_event) : nat := match e with Acquire _ l => rank l | Release _ _ => 4 end.

Definition can_step (gs : list goroutine) : Prop := exists j gs', go_step j gs = Some gs'.

Lemma release_steps gs i g m l t : sound gs -> gs !! i = Some g -> todo g = Release m l :: t -> can_step gs.
Proof.
  intros Hs Hi Et. pose proof (s_ordered _ Hs i g Hi) as Ho. rewrite Et in Ho. cbn [ordered] in Ho.
  destruct (held g) as [|h hs] eqn:Eh; [done|]. destruct Ho as [-> _]. exists i. eexists. unfold go_step. rewrite Hi.
  cbn [mbind option_bind]. rewrite Et, Eh. cbn. rewrite decide_True by done. reflexivity.
Qed.

(** Whoever holds a lock can go on, or wants one of a higher rank. *)
Lemma holder_next gs j g m l :
  sound gs -> gs !! j = Some g -> (m, l) ∈ held g -> exists e t, todo g = e :: t /\ rank l < level e.
Proof.
  intros Hs Hj Hin. pose proof (s_ordered _ Hs j g Hj) as Ho. destruct (todo g) as [|e t]; cbn [ordered] in Ho.
  - rewrite Ho in Hin. by apply not_elem_of_nil in Hin.
  - exists e, t. split; [done|]. destruct e as [m' l'|m' l']; cbn [level].
    + destruct Ho as [Hf _]. rewrite Forall_forall in Hf. exact (Hf _ Hin).
    + destruct l; cbn; lia.
Qed.

Lemma progress_at gs k : sound gs -> forall i g e t, gs !! i = Some g -> todo g = e :: t -> 4 <= level e + k -> can_step gs.
Proof.
  intros Hs. induction k as [|k IH]; intros i g e t Hi Et Hk.
  - destruct e as [m l|m l]; [destruct l; cbn in Hk; lia|]. by eapply release_steps.
  - assert (Hheld : forall l p, (forall h, p h = true -> h.2 = l) -> 4 <= rank l + S k -> holds p gs = true -> can_step gs).
    { intros l p Hp Hl Hh. apply holds_spec in Hh as (j & gj & [m l'] & Hj & Hin & E). apply Hp in E. cbn in E. subst l'.
      destruct (holder_next gs j gj m l Hs Hj Hin) as (e' & t' & Et' & Hlt). eapply (IH j gj e' t'); [done|done|lia]. }
    assert (Hwait : forall j gj l t', gs !! j = Some gj -> todo gj = Lock l :: t' -> 4 <= rank l + S k -> can_step gs).
    { intros j gj l t' Hj Et' Hl. destruct (waiting gj) eqn:Ew.
      - destruct (holds (any_of l) gs) eqn:Eh.
        + apply (Hheld l (any_of l)); [|done|done]. intros h Hh. by apply bool_decide_eq_true in Hh.
        + exists j. eexists. unfold go_step. rewrite Hj. cbn [mbind option_bind]. by rewrite Et', Ew, Eh.
      - exists j. eexists. unfold go_step. rewrite Hj. cbn [mbind option_bind]. by rewrite Et', Ew. }
    destruct e as [[] l|m l]; [|by eapply Hwait|by eapply release_steps].
    destruct (holds (writer_of l) gs) eqn:Eh.
    { apply (Hheld l (writer_of l)); [|done|done]. intros h Hh. apply bool_decide_eq_true in Hh. by subst h. }
    destruct (writer_waits l gs) eqn:Eww.
    + unfold writer_waits in Eww. apply existsb_exists in Eww as (gj & Hin & E). apply list_elem_of_In, list_elem_of_lookup_1 in Hin as [j Hj].
      apply andb_true_iff in E as [_ E]. destruct (todo gj) as [|[[] l'|] t'] eqn:Et'; try done.
      apply bool_decide_eq_true in E. subst l'. by eapply Hwait.
    + exists i. eexists. unfold go_step. rewrite Hi. cbn [mbind option_bind]. by rewrite Et, Eh, Eww.
Qed.

Lemma progress gs : sound gs -> can_step gs \/ Forall finished gs.
Proof.
  intros Hs. destruct (decide (Forall (fun g => todo g = []) gs)) as [Hall|Hsome].
  - right. apply Forall_lookup. intros i g Hi. rewrite Forall_lookup in Hall. specialize (Hall i g Hi).
    pose proof (s_ordered _ Hs i g Hi) as Ho. rewrite Hall in Ho. by split.
  - left. apply not_Forall_Exists in Hsome; [|intros g; apply _]. apply Exists_exists in Hsome as (g & Hin & Hne).
    apply list_elem_of_lookup_1 in Hin as [i Hi]. destruct (todo g) as [|e t] eqn:Et; [done|].
    eapply (progress_at gs 4); [done|exact Hi|exact Et|lia].
Qed.

(** ** The end *)

Definition cost (g : goroutine) : nat := 2 * length (todo g) - (if waiting g then 1 else 0).

Lemma cost_insert gs i g g' : gs !! i = Some g -> cost g' < cost g -> sum_list_with cost (<[i := g']> gs) < sum_list_with cost gs.
Proof.
  revert i. induction gs as [|x gs IH]; intros i Hi Hc; [done|]. destruct i as [|i].
  - injection Hi as ->. change (<[0 := g']> (g :: gs)) with (g' :: gs). cbn [sum_list_with]. lia.
  - change (<[S i := g']> (x :: gs)) with (x :: <[i := g']> gs). cbn [sum_list_with]. specialize (IH i Hi Hc). lia.
Qed.

Lemma step_cost i gs gs' : go_step i gs = Some gs' -> sum_list_with cost gs' < sum_list_with cost gs.
Proof.
  unfold go_step. destruct (gs !! i) as [g|] eqn:Hi; [|done]. cbn [mbind option_bind].
  destruct (todo g) as [|[[] l|m l] t] eqn:Et; [done|..].
  - destruct (_ || _); [done|]. intros [= <-]. apply (cost_insert _ _ g _ Hi). unfold cost. rewrite Et. cbn. destruct (waiting g); lia.
  - destruct (waiting g) eqn:Ew; cbn [negb].
    + destruct (holds _ _); [done|]. intros [= <-]. apply (cost_insert _ _ g _ Hi). unfold cost. rewrite Et, Ew. cbn. lia.
    + intros [= <-]. apply (cost_insert _ _ g _ Hi). unfold cost. rewrite Et, Ew. cbn. lia.
  - destruct (list_find _ _) as [[k h]|]; [|done]. intros [= <-]. apply (cost_insert _ _ g _ Hi). unfold cost. rewrite Et. cbn. destruct (waiting g); lia.
Qed.

Lemma steps_cost l gs gs' : go_steps l gs = Some gs' -> length l + sum_list_with cost gs' <= sum_list_with cost gs.
Proof.
  revert gs. induction l as [|i l IH]; intros gs; cbn [go_steps]; [intros [= <-]; cbn; lia|].
  destruct (go_step i gs) as [gs1|] eqn:E; [|done]. cbn [mbind option_bind]. intros H. apply IH in H. apply step_cost in E. cbn. lia.
Qed.

(** C12: the program cannot block itself on its locks.  Whatever operations
    the goroutines run, with whatever miners, and in whatever order they
    proceed, a lock that is held for writing is held by one goroutine only;
    as long as not every goroutine is through, one of them can go on; and
    after at most two steps for every event all of them are through. *)
Theorem no_deadlock (programs : list (list task)) (l : list nat) (gs : list goroutine) :
  go_steps l (spawn programs) = Some gs ->
  exclusive gs /\ (can_step gs \/ Forall finished gs) /\
  length l <= 2 * sum_list_with (fun ops => length (concat (trace <$> ops))) programs.
Proof.
  intros Hl. pose proof (steps_sound l _ _ (spawn_sound programs) Hl) as Hs. split; [exact (s_exclusive _ Hs)|].
  split; [by apply progress|]. pose proof (steps_cost l _ _ Hl) as Hc.
  assert (E : sum_list_with cost (spawn programs) = 2 * sum_list_with (fun ops => length (concat (trace <$> ops))) programs).
  { unfold spawn. clear. induction programs as [|ops ps IH]; [done|]. cbn [fmap list_fmap sum_list_with]. rewrite IH.
    unfold cost. cbn [todo waiting]. lia. }
  lia.
Qed.

(** Two submissions of one miner, of which the first brings a new block, and
    the site. *)
Definition example_programs : list (list task) :=
  [[Submit 1 (First Unknown (Some (New (mk_newBlock Unknown false (Some false) false [(1, Slow); (2, Unknown)]%Z true))) true)];
   [Submit 1 (Current true)];
   [Update_miner_infos [1; 2]%Z; Miner_info 2]].

(** The first is about to change a miner that the site looks at, the second
    waits for the first. *)
Definition example_schedule : list nat := replicate 12 0 ++ [1] ++ replicate 4 2 ++ replicate 2 0.

Lemma no_deadlock_witness :
  match go_steps example_schedule (spawn example_programs) with
  | Some gs => exclusive gs /\ can_step gs
  | None => False
  end.
Proof.
  destruct (go_steps example_schedule (spawn example_programs)) as [gs|] eqn:E; [|vm_compute in E; discriminate E].
  destruct (no_deadlock example_programs example_schedule gs E) as (He & [Hc|Hf] & _).
  - split; [exact He|exact Hc].
  - exfalso. vm_compute in E. injection E as <-. apply Forall_cons in Hf as [[_ Hf] _]. discriminate Hf.
Defined.
